(** * Gambit chess engine: board state, move execution, hashing, draw rules

    A shallow embedding of the position core of the engine (the [ver2]
    sources): the 120-square mailbox board with its derived structures,
    [Move_Make] / [Move_Take] and the null-move pair, the Zobrist key, the
    attack oracle, the pseudo-legal move generator, the coordinate-notation
    parser, the position-setup parser, the transposition table and the draw
    tests of the protocol layer and of the search.

    C [int] values are modelled as [Z] (no operation of the modelled code
    comes near the 32-bit limits on the inputs considered; where a product
    could, the range is a hypothesis).  [U64] values are [Z] in
    [0, 2^64) combined with [Z.lxor], [Z.land], [Z.lor].  C arrays are
    lists read and written by index; an access outside the array is
    undefined in C and is modelled as reading a filler value (0, the
    empty row, the all-zero record) and writing nothing. *)

From Stdlib Require Import ZArith Lia List String Ascii Bool Permutation Btauto.
From stdpp Require Import base list numbers.

Open Scope Z_scope.

(* ================================================================== *)
(** * Arrays *)
(* ================================================================== *)

(** C arrays are held in lists.  C checks no index, and an access outside
    an array has no defined behaviour: it has no counterpart here.  In the
    model a read outside yields the filler below and a write outside is
    dropped, so the model says what the code does only while every index
    lies inside its array.  What is proved of code that computes an index
    from its input therefore carries the conditions that keep the index
    inside as hypotheses, or goes through a definition that reports the
    access as [None]. *)

(** The value a read outside an array yields in the model. *)
Class Filler (A : Type) : Type := filler : A.

#[global] Instance Z_filler : Filler Z := 0.
#[global] Instance list_filler {A : Type} : Filler (list A) := [].

(** [a[i]] for a C array held in a list. *)
Definition aget {A} `{Filler A} (a : list A) (i : Z) : A :=
  if i <? 0 then filler else default filler (a !! Z.to_nat i).

(** [a[i] = v]. *)
Definition aset {A} (a : list A) (i : Z) (v : A) : list A :=
  if i <? 0 then a else <[Z.to_nat i := v]> a.

(** [a[i][j]] and [a[i][j] = v] for a two-dimensional array. *)
Definition aget2 (a : list (list Z)) (i j : Z) : Z := aget (aget a i) j.

Definition aset2 (a : list (list Z)) (i j : Z) (v : Z) : list (list Z) :=
  aset a i (aset (aget a i) j v).

(** The first [n] cells of an array. *)
Definition aprefix {A} (a : list A) (n : Z) : list A := take (Z.to_nat n) a.

(** C truth values. *)
Definition BOOL_TYPE_FALSE : Z := 0.
Definition BOOL_TYPE_TRUE : Z := 1.

Definition c_bool (b : bool) : Z := if b then BOOL_TYPE_TRUE else BOOL_TYPE_FALSE.

(** A C condition: non-zero is true. *)
Definition nz (x : Z) : bool := negb (x =? 0).

(* ================================================================== *)
(** * Constants of [types_definitions.h] *)
(* ================================================================== *)

Definition CHESS_MAX_HASH : Z := 1024.
Definition CHESS_BOARD_SQUARE_NUM : Z := 120.
Definition CHESS_MAX_GAME_MOVES : Z := 2048.
Definition CHESS_MAX_POSITION_MOVES : Z := 256.
Definition CHESS_MAX_SEARCH_DEPTH : Z := 64.
Definition CHESS_INFINITE : Z := 30000.
Definition CHESS_IS_MATE : Z := CHESS_INFINITE - CHESS_MAX_SEARCH_DEPTH.

Definition EMPTY : Z := 0.
Definition PIECE_TYPE_WHITE_PAWN : Z := 1.
Definition PIECE_TYPE_WHITE_KNIGHT : Z := 2.
Definition PIECE_TYPE_WHITE_BISHOP : Z := 3.
Definition PIECE_TYPE_WHITE_ROOK : Z := 4.
Definition PIECE_TYPE_WHITE_QUEEN : Z := 5.
Definition PIECE_TYPE_WHITE_KING : Z := 6.
Definition PIECE_TYPE_BLACK_PAWN : Z := 7.
Definition PIECE_TYPE_BLACK_KNIGHT : Z := 8.
Definition PIECE_TYPE_BLACK_BISHOP : Z := 9.
Definition PIECE_TYPE_BLACK_ROOK : Z := 10.
Definition PIECE_TYPE_BLACK_QUEEN : Z := 11.
Definition PIECE_TYPE_BLACK_KING : Z := 12.

Definition FILE_TYPE_A : Z := 0.
Definition FILE_TYPE_H : Z := 7.
Definition RANK_TYPE_1 : Z := 0.
Definition RANK_TYPE_2 : Z := 1.
Definition RANK_TYPE_3 : Z := 2.
Definition RANK_TYPE_6 : Z := 5.
Definition RANK_TYPE_7 : Z := 6.
Definition RANK_TYPE_8 : Z := 7.

Definition COLOR_TYPE_WHITE : Z := 0.
Definition COLOR_TYPE_BLACK : Z := 1.
Definition COLOR_TYPE_BOTH : Z := 2.

Definition A1 : Z := 21.
Definition B1 : Z := 22.
Definition C1 : Z := 23.
Definition D1 : Z := 24.
Definition E1 : Z := 25.
Definition F1 : Z := 26.
Definition G1 : Z := 27.
Definition H1 : Z := 28.
Definition A8 : Z := 91.
Definition B8 : Z := 92.
Definition C8 : Z := 93.
Definition D8 : Z := 94.
Definition E8 : Z := 95.
Definition F8 : Z := 96.
Definition G8 : Z := 97.
Definition H8 : Z := 98.
Definition NO_SQ : Z := 99.
Definition OFFBOARD : Z := 100.

Definition CASTLE_TYPE_WKCA : Z := 1.
Definition CASTLE_TYPE_WQCA : Z := 2.
Definition CASTLE_TYPE_BKCA : Z := 4.
Definition CASTLE_TYPE_BQCA : Z := 8.

Definition HFNONE : Z := 0.
Definition HFALPHA : Z := 1.
Definition HFBETA : Z := 2.
Definition HFEXACT : Z := 3.

Definition NOMOVE : Z := 0.

(** ** Move encoding *)

Definition MOVE_GET_FROM_SQUARE (m : Z) : Z := Z.land m 127.
Definition MOVE_GET_TO_SQUARE (m : Z) : Z := Z.land (Z.shiftr m 7) 127.
Definition MOVE_GET_CAPTURED (m : Z) : Z := Z.land (Z.shiftr m 14) 15.
Definition MOVE_GET_PROMOTED (m : Z) : Z := Z.land (Z.shiftr m 20) 15.

Definition MFLAGEP : Z := 262144.      (* 0x40000 *)
Definition MFLAGPS : Z := 524288.      (* 0x80000 *)
Definition MFLAGCA : Z := 16777216.    (* 0x1000000 *)

(** [MOVE(f,t,ca,pro,fl)] of [moves_generation.c]. *)
Definition MOVE (f t ca pro fl : Z) : Z :=
  Z.lor (Z.lor (Z.lor (Z.lor f (Z.shiftl t 7)) (Z.shiftl ca 14)) (Z.shiftl pro 20)) fl.

Definition FILE_RANK_TO_SQUARE (f r : Z) : Z := (21 + f) + r * 10.

(* ================================================================== *)
(** * Lookup tables *)
(* ================================================================== *)

(** ** Piece properties ([data.c]) *)

Definition PieceBig : list Z := [0;0;1;1;1;1;1;0;1;1;1;1;1].
Definition PieceMaj : list Z := [0;0;0;0;1;1;1;0;0;0;1;1;1].
Definition PieceMin : list Z := [0;0;1;1;0;0;0;0;1;1;0;0;0].
Definition g_pieceVal : list Z :=
  [0;100;325;325;550;1000;50000;100;325;325;550;1000;50000].
Definition g_pieceCol : list Z := [2;0;0;0;0;0;0;1;1;1;1;1;1].
Definition g_piecePawn : list Z := [0;1;0;0;0;0;0;1;0;0;0;0;0].
Definition g_pieceKnight : list Z := [0;0;1;0;0;0;0;0;1;0;0;0;0].
Definition g_pieceKing : list Z := [0;0;0;0;0;0;1;0;0;0;0;0;1].
Definition g_pieceRookQueen : list Z := [0;0;0;0;1;1;0;0;0;0;1;1;0].
Definition g_pieceBishopQueen : list Z := [0;0;0;1;0;1;0;0;0;1;0;1;0].
Definition g_pieceSlides : list Z := [0;0;0;1;1;1;0;0;0;1;1;1;0].

Definition PIECE_IS_BISHOP_QUEEN (p : Z) : bool := nz (aget g_pieceBishopQueen p).
Definition PIECE_IS_ROOK_QUEEN (p : Z) : bool := nz (aget g_pieceRookQueen p).
Definition PIECE_IS_KNIGHT (p : Z) : bool := nz (aget g_pieceKnight p).
Definition PIECE_IS_KING (p : Z) : bool := nz (aget g_pieceKing p).

(** ** Board geometry ([utils_init.c])

    The tables are filled once by [Init_FilesRanksBoard],
    [Init_Square120To64] and [Init_BitMasks]; each definition below gives
    the entry the initialisation loop stores at the index. *)

(** Squares [FILE_RANK_TO_SQUARE(f,r)] for files and ranks 0..7. *)
Definition on_board (sq : Z) : bool :=
  (21 <=? sq) && (sq <=? 98) && (1 <=? sq mod 10) && (sq mod 10 <=? 8).

Definition g_filesBoard (sq : Z) : Z := if on_board sq then sq mod 10 - 1 else OFFBOARD.
Definition g_ranksBoard (sq : Z) : Z := if on_board sq then sq / 10 - 2 else OFFBOARD.

Definition g_square120To64 (sq : Z) : Z :=
  if on_board sq then (sq / 10 - 2) * 8 + (sq mod 10 - 1) else 65.

Definition g_square64To120 (sq64 : Z) : Z :=
  if (0 <=? sq64) && (sq64 <? 64) then FILE_RANK_TO_SQUARE (sq64 mod 8) (sq64 / 8) else 120.

Definition SQUARE_120_TO_64 (sq : Z) : Z := g_square120To64 sq.
Definition SQUARE_64_TO_120 (sq : Z) : Z := g_square64To120 sq.

Definition U64_MAX : Z := 18446744073709551615.

Definition g_bitSetMask (i : Z) : Z := if (0 <=? i) && (i <? 64) then Z.shiftl 1 i else 0.
Definition g_bitClearMask (i : Z) : Z :=
  if (0 <=? i) && (i <? 64) then Z.lxor U64_MAX (Z.shiftl 1 i) else 0.

Definition BITBOARD_CLEAR_BIT (bb sq64 : Z) : Z := Z.land bb (g_bitClearMask sq64).
Definition BITBOARD_SET_BIT (bb sq64 : Z) : Z := Z.lor bb (g_bitSetMask sq64).

(** ** Validators ([board_validate.c]) *)

Definition SqOnBoard (sq : Z) : bool := negb (g_filesBoard sq =? OFFBOARD).
Definition SideValid (s : Z) : bool := (s =? COLOR_TYPE_WHITE) || (s =? COLOR_TYPE_BLACK).
Definition PieceValidEmpty (p : Z) : bool := (EMPTY <=? p) && (p <=? PIECE_TYPE_BLACK_KING).
Definition PieceValid (p : Z) : bool :=
  (PIECE_TYPE_WHITE_PAWN <=? p) && (p <=? PIECE_TYPE_BLACK_KING).

(* ================================================================== *)
(** * Data model *)
(* ================================================================== *)

(** One undo record of [board->history]. *)
Record UndoMove : Type := mkUndo {
  u_move : Z;
  u_castlePerm : Z;
  u_enPas : Z;
  u_fiftyMove : Z;
  u_posKey : Z
}.

#[global] Instance UndoMove_filler : Filler UndoMove := mkUndo 0 0 0 0 0.

(** One transposition-table slot. *)
Record HashEntry : Type := mkEntry {
  e_posKey : Z;
  e_move : Z;
  e_score : Z;
  e_depth : Z;
  e_flags : Z
}.

#[global] Instance HashEntry_filler : Filler HashEntry := mkEntry 0 0 0 0 0.

(** The transposition table; [pTable] is the heap array behind the
    pointer, [[]] standing for [NULL]. *)
Record HashTable : Type := mkTable {
  pTable : list HashEntry;
  numEntries : Z;
  newWrite : Z;
  overWrite : Z;
  hit : Z;
  cut : Z
}.

(** The board aggregate.  The search bookkeeping arrays [PvArray],
    [searchHistory] and [searchKillers] only feed the move-ordering
    scores, which are not modelled; every other field of the C struct is
    here ([hashTable] is the C field [HashTable]). *)
Record ChessBoard : Type := mkBoard {
  pieces : list Z;
  pawns : list Z;
  KingSq : list Z;
  side : Z;
  enPas : Z;
  fiftyMove : Z;
  ply : Z;
  hisPly : Z;
  castlePerm : Z;
  posKey : Z;
  pieceCount : list Z;
  bigPce : list Z;
  majPce : list Z;
  minPce : list Z;
  material : list Z;
  history : list UndoMove;
  pList : list (list Z);
  hashTable : HashTable;
  capturedWhite : list Z;
  capturedBlack : list Z;
  capturedWhiteCount : Z;
  capturedBlackCount : Z
}.

(** Field assignments [board->f = v]. *)

Definition set_pieces (v : list Z) (b : ChessBoard) : ChessBoard :=
  {| pieces := v; pawns := pawns b; KingSq := KingSq b; side := side b; enPas := enPas
     b; fiftyMove := fiftyMove b; ply := ply b; hisPly := hisPly b; castlePerm :=
     castlePerm b; posKey := posKey b; pieceCount := pieceCount b; bigPce := bigPce b;
     majPce := majPce b; minPce := minPce b; material := material b; history := history
     b; pList := pList b; hashTable := hashTable b; capturedWhite := capturedWhite b;
     capturedBlack := capturedBlack b; capturedWhiteCount := capturedWhiteCount b;
     capturedBlackCount := capturedBlackCount b |}.

Definition set_pawns (v : list Z) (b : ChessBoard) : ChessBoard :=
  {| pieces := pieces b; pawns := v; KingSq := KingSq b; side := side b; enPas :=
     enPas b; fiftyMove := fiftyMove b; ply := ply b; hisPly := hisPly b; castlePerm :=
     castlePerm b; posKey := posKey b; pieceCount := pieceCount b; bigPce := bigPce b;
     majPce := majPce b; minPce := minPce b; material := material b; history := history
     b; pList := pList b; hashTable := hashTable b; capturedWhite := capturedWhite b;
     capturedBlack := capturedBlack b; capturedWhiteCount := capturedWhiteCount b;
     capturedBlackCount := capturedBlackCount b |}.

Definition set_KingSq (v : list Z) (b : ChessBoard) : ChessBoard :=
  {| pieces := pieces b; pawns := pawns b; KingSq := v; side := side b; enPas := enPas
     b; fiftyMove := fiftyMove b; ply := ply b; hisPly := hisPly b; castlePerm :=
     castlePerm b; posKey := posKey b; pieceCount := pieceCount b; bigPce := bigPce b;
     majPce := majPce b; minPce := minPce b; material := material b; history := history
     b; pList := pList b; hashTable := hashTable b; capturedWhite := capturedWhite b;
     capturedBlack := capturedBlack b; capturedWhiteCount := capturedWhiteCount b;
     capturedBlackCount := capturedBlackCount b |}.

Definition set_side (v : Z) (b : ChessBoard) : ChessBoard :=
  {| pieces := pieces b; pawns := pawns b; KingSq := KingSq b; side := v; enPas :=
     enPas b; fiftyMove := fiftyMove b; ply := ply b; hisPly := hisPly b; castlePerm :=
     castlePerm b; posKey := posKey b; pieceCount := pieceCount b; bigPce := bigPce b;
     majPce := majPce b; minPce := minPce b; material := material b; history := history
     b; pList := pList b; hashTable := hashTable b; capturedWhite := capturedWhite b;
     capturedBlack := capturedBlack b; capturedWhiteCount := capturedWhiteCount b;
     capturedBlackCount := capturedBlackCount b |}.

Definition set_enPas (v : Z) (b : ChessBoard) : ChessBoard :=
  {| pieces := pieces b; pawns := pawns b; KingSq := KingSq b; side := side b; enPas
     := v; fiftyMove := fiftyMove b; ply := ply b; hisPly := hisPly b; castlePerm :=
     castlePerm b; posKey := posKey b; pieceCount := pieceCount b; bigPce := bigPce b;
     majPce := majPce b; minPce := minPce b; material := material b; history := history
     b; pList := pList b; hashTable := hashTable b; capturedWhite := capturedWhite b;
     capturedBlack := capturedBlack b; capturedWhiteCount := capturedWhiteCount b;
     capturedBlackCount := capturedBlackCount b |}.

Definition set_fiftyMove (v : Z) (b : ChessBoard) : ChessBoard :=
  {| pieces := pieces b; pawns := pawns b; KingSq := KingSq b; side := side b; enPas
     := enPas b; fiftyMove := v; ply := ply b; hisPly := hisPly b; castlePerm :=
     castlePerm b; posKey := posKey b; pieceCount := pieceCount b; bigPce := bigPce b;
     majPce := majPce b; minPce := minPce b; material := material b; history := history
     b; pList := pList b; hashTable := hashTable b; capturedWhite := capturedWhite b;
     capturedBlack := capturedBlack b; capturedWhiteCount := capturedWhiteCount b;
     capturedBlackCount := capturedBlackCount b |}.

Definition set_ply (v : Z) (b : ChessBoard) : ChessBoard :=
  {| pieces := pieces b; pawns := pawns b; KingSq := KingSq b; side := side b; enPas
     := enPas b; fiftyMove := fiftyMove b; ply := v; hisPly := hisPly b; castlePerm :=
     castlePerm b; posKey := posKey b; pieceCount := pieceCount b; bigPce := bigPce b;
     majPce := majPce b; minPce := minPce b; material := material b; history := history
     b; pList := pList b; hashTable := hashTable b; capturedWhite := capturedWhite b;
     capturedBlack := capturedBlack b; capturedWhiteCount := capturedWhiteCount b;
     capturedBlackCount := capturedBlackCount b |}.

Definition set_hisPly (v : Z) (b : ChessBoard) : ChessBoard :=
  {| pieces := pieces b; pawns := pawns b; KingSq := KingSq b; side := side b; enPas
     := enPas b; fiftyMove := fiftyMove b; ply := ply b; hisPly := v; castlePerm :=
     castlePerm b; posKey := posKey b; pieceCount := pieceCount b; bigPce := bigPce b;
     majPce := majPce b; minPce := minPce b; material := material b; history := history
     b; pList := pList b; hashTable := hashTable b; capturedWhite := capturedWhite b;
     capturedBlack := capturedBlack b; capturedWhiteCount := capturedWhiteCount b;
     capturedBlackCount := capturedBlackCount b |}.

Definition set_castlePerm (v : Z) (b : ChessBoard) : ChessBoard :=
  {| pieces := pieces b; pawns := pawns b; KingSq := KingSq b; side := side b; enPas
     := enPas b; fiftyMove := fiftyMove b; ply := ply b; hisPly := hisPly b; castlePerm
     := v; posKey := posKey b; pieceCount := pieceCount b; bigPce := bigPce b; majPce :=
     majPce b; minPce := minPce b; material := material b; history := history b; pList :=
     pList b; hashTable := hashTable b; capturedWhite := capturedWhite b; capturedBlack
     := capturedBlack b; capturedWhiteCount := capturedWhiteCount b; capturedBlackCount
     := capturedBlackCount b |}.

Definition set_posKey (v : Z) (b : ChessBoard) : ChessBoard :=
  {| pieces := pieces b; pawns := pawns b; KingSq := KingSq b; side := side b; enPas
     := enPas b; fiftyMove := fiftyMove b; ply := ply b; hisPly := hisPly b; castlePerm
     := castlePerm b; posKey := v; pieceCount := pieceCount b; bigPce := bigPce b; majPce
     := majPce b; minPce := minPce b; material := material b; history := history b; pList
     := pList b; hashTable := hashTable b; capturedWhite := capturedWhite b;
     capturedBlack := capturedBlack b; capturedWhiteCount := capturedWhiteCount b;
     capturedBlackCount := capturedBlackCount b |}.

Definition set_pieceCount (v : list Z) (b : ChessBoard) : ChessBoard :=
  {| pieces := pieces b; pawns := pawns b; KingSq := KingSq b; side := side b; enPas
     := enPas b; fiftyMove := fiftyMove b; ply := ply b; hisPly := hisPly b; castlePerm
     := castlePerm b; posKey := posKey b; pieceCount := v; bigPce := bigPce b; majPce :=
     majPce b; minPce := minPce b; material := material b; history := history b; pList :=
     pList b; hashTable := hashTable b; capturedWhite := capturedWhite b; capturedBlack
     := capturedBlack b; capturedWhiteCount := capturedWhiteCount b; capturedBlackCount
     := capturedBlackCount b |}.

Definition set_bigPce (v : list Z) (b : ChessBoard) : ChessBoard :=
  {| pieces := pieces b; pawns := pawns b; KingSq := KingSq b; side := side b; enPas
     := enPas b; fiftyMove := fiftyMove b; ply := ply b; hisPly := hisPly b; castlePerm
     := castlePerm b; posKey := posKey b; pieceCount := pieceCount b; bigPce := v; majPce
     := majPce b; minPce := minPce b; material := material b; history := history b; pList
     := pList b; hashTable := hashTable b; capturedWhite := capturedWhite b;
     capturedBlack := capturedBlack b; capturedWhiteCount := capturedWhiteCount b;
     capturedBlackCount := capturedBlackCount b |}.

Definition set_majPce (v : list Z) (b : ChessBoard) : ChessBoard :=
  {| pieces := pieces b; pawns := pawns b; KingSq := KingSq b; side := side b; enPas
     := enPas b; fiftyMove := fiftyMove b; ply := ply b; hisPly := hisPly b; castlePerm
     := castlePerm b; posKey := posKey b; pieceCount := pieceCount b; bigPce := bigPce b;
     majPce := v; minPce := minPce b; material := material b; history := history b; pList
     := pList b; hashTable := hashTable b; capturedWhite := capturedWhite b;
     capturedBlack := capturedBlack b; capturedWhiteCount := capturedWhiteCount b;
     capturedBlackCount := capturedBlackCount b |}.

Definition set_minPce (v : list Z) (b : ChessBoard) : ChessBoard :=
  {| pieces := pieces b; pawns := pawns b; KingSq := KingSq b; side := side b; enPas
     := enPas b; fiftyMove := fiftyMove b; ply := ply b; hisPly := hisPly b; castlePerm
     := castlePerm b; posKey := posKey b; pieceCount := pieceCount b; bigPce := bigPce b;
     majPce := majPce b; minPce := v; material := material b; history := history b; pList
     := pList b; hashTable := hashTable b; capturedWhite := capturedWhite b;
     capturedBlack := capturedBlack b; capturedWhiteCount := capturedWhiteCount b;
     capturedBlackCount := capturedBlackCount b |}.

Definition set_material (v : list Z) (b : ChessBoard) : ChessBoard :=
  {| pieces := pieces b; pawns := pawns b; KingSq := KingSq b; side := side b; enPas
     := enPas b; fiftyMove := fiftyMove b; ply := ply b; hisPly := hisPly b; castlePerm
     := castlePerm b; posKey := posKey b; pieceCount := pieceCount b; bigPce := bigPce b;
     majPce := majPce b; minPce := minPce b; material := v; history := history b; pList
     := pList b; hashTable := hashTable b; capturedWhite := capturedWhite b;
     capturedBlack := capturedBlack b; capturedWhiteCount := capturedWhiteCount b;
     capturedBlackCount := capturedBlackCount b |}.

Definition set_history (v : list UndoMove) (b : ChessBoard) : ChessBoard :=
  {| pieces := pieces b; pawns := pawns b; KingSq := KingSq b; side := side b; enPas
     := enPas b; fiftyMove := fiftyMove b; ply := ply b; hisPly := hisPly b; castlePerm
     := castlePerm b; posKey := posKey b; pieceCount := pieceCount b; bigPce := bigPce b;
     majPce := majPce b; minPce := minPce b; material := material b; history := v; pList
     := pList b; hashTable := hashTable b; capturedWhite := capturedWhite b;
     capturedBlack := capturedBlack b; capturedWhiteCount := capturedWhiteCount b;
     capturedBlackCount := capturedBlackCount b |}.

Definition set_pList (v : list (list Z)) (b : ChessBoard) : ChessBoard :=
  {| pieces := pieces b; pawns := pawns b; KingSq := KingSq b; side := side b; enPas
     := enPas b; fiftyMove := fiftyMove b; ply := ply b; hisPly := hisPly b; castlePerm
     := castlePerm b; posKey := posKey b; pieceCount := pieceCount b; bigPce := bigPce b;
     majPce := majPce b; minPce := minPce b; material := material b; history := history
     b; pList := v; hashTable := hashTable b; capturedWhite := capturedWhite b;
     capturedBlack := capturedBlack b; capturedWhiteCount := capturedWhiteCount b;
     capturedBlackCount := capturedBlackCount b |}.

Definition set_hashTable (v : HashTable) (b : ChessBoard) : ChessBoard :=
  {| pieces := pieces b; pawns := pawns b; KingSq := KingSq b; side := side b; enPas
     := enPas b; fiftyMove := fiftyMove b; ply := ply b; hisPly := hisPly b; castlePerm
     := castlePerm b; posKey := posKey b; pieceCount := pieceCount b; bigPce := bigPce b;
     majPce := majPce b; minPce := minPce b; material := material b; history := history
     b; pList := pList b; hashTable := v; capturedWhite := capturedWhite b; capturedBlack
     := capturedBlack b; capturedWhiteCount := capturedWhiteCount b; capturedBlackCount
     := capturedBlackCount b |}.

Definition set_capturedWhite (v : list Z) (b : ChessBoard) : ChessBoard :=
  {| pieces := pieces b; pawns := pawns b; KingSq := KingSq b; side := side b; enPas
     := enPas b; fiftyMove := fiftyMove b; ply := ply b; hisPly := hisPly b; castlePerm
     := castlePerm b; posKey := posKey b; pieceCount := pieceCount b; bigPce := bigPce b;
     majPce := majPce b; minPce := minPce b; material := material b; history := history
     b; pList := pList b; hashTable := hashTable b; capturedWhite := v; capturedBlack :=
     capturedBlack b; capturedWhiteCount := capturedWhiteCount b; capturedBlackCount :=
     capturedBlackCount b |}.

Definition set_capturedBlack (v : list Z) (b : ChessBoard) : ChessBoard :=
  {| pieces := pieces b; pawns := pawns b; KingSq := KingSq b; side := side b; enPas
     := enPas b; fiftyMove := fiftyMove b; ply := ply b; hisPly := hisPly b; castlePerm
     := castlePerm b; posKey := posKey b; pieceCount := pieceCount b; bigPce := bigPce b;
     majPce := majPce b; minPce := minPce b; material := material b; history := history
     b; pList := pList b; hashTable := hashTable b; capturedWhite := capturedWhite b;
     capturedBlack := v; capturedWhiteCount := capturedWhiteCount b; capturedBlackCount
     := capturedBlackCount b |}.

Definition set_capturedWhiteCount (v : Z) (b : ChessBoard) : ChessBoard :=
  {| pieces := pieces b; pawns := pawns b; KingSq := KingSq b; side := side b; enPas
     := enPas b; fiftyMove := fiftyMove b; ply := ply b; hisPly := hisPly b; castlePerm
     := castlePerm b; posKey := posKey b; pieceCount := pieceCount b; bigPce := bigPce b;
     majPce := majPce b; minPce := minPce b; material := material b; history := history
     b; pList := pList b; hashTable := hashTable b; capturedWhite := capturedWhite b;
     capturedBlack := capturedBlack b; capturedWhiteCount := v; capturedBlackCount :=
     capturedBlackCount b |}.

Definition set_capturedBlackCount (v : Z) (b : ChessBoard) : ChessBoard :=
  {| pieces := pieces b; pawns := pawns b; KingSq := KingSq b; side := side b; enPas
     := enPas b; fiftyMove := fiftyMove b; ply := ply b; hisPly := hisPly b; castlePerm
     := castlePerm b; posKey := posKey b; pieceCount := pieceCount b; bigPce := bigPce b;
     majPce := majPce b; minPce := minPce b; material := material b; history := history
     b; pList := pList b; hashTable := hashTable b; capturedWhite := capturedWhite b;
     capturedBlack := capturedBlack b; capturedWhiteCount := capturedWhiteCount b;
     capturedBlackCount := v |}.

(** The Zobrist keys: [Init_HashKeys] draws them from [rand()] at start-up,
    so the development is parametric in them. *)
Record HashKeys : Type := mkKeys {
  g_pieceKeys : Z -> Z -> Z;
  g_sideKey : Z;
  g_castleKeys : Z -> Z
}.

(** Live part of a piece list: the first [pieceCount[piece]] cells of
    [pList[piece]]. *)
Definition live (b : ChessBoard) (piece : Z) : list Z :=
  aprefix (aget (pList b) piece) (aget (pieceCount b) piece).

(* ================================================================== *)
(** * Position hasher ([board_hashkeys.c]) *)
(* ================================================================== *)

Section Hashing.

Variable K : HashKeys.

(** One iteration of the square loop of [Board_GeneratePositionKey]. *)
Definition key_step (b : ChessBoard) (finalKey : Z) (squareIndex : Z) : Z :=
  let piece := aget (pieces b) squareIndex in
  if negb (piece =? NO_SQ) && negb (piece =? EMPTY) && negb (piece =? OFFBOARD)
  then Z.lxor finalKey (g_pieceKeys K piece squareIndex)
  else finalKey.

Definition Board_GeneratePositionKey (b : ChessBoard) : Z :=
  let finalKey := fold_left (key_step b) (seqZ 0 CHESS_BOARD_SQUARE_NUM) 0 in
  let finalKey :=
    if side b =? COLOR_TYPE_WHITE then Z.lxor finalKey (g_sideKey K) else finalKey in
  let finalKey :=
    if negb (enPas b =? NO_SQ) then Z.lxor finalKey (g_pieceKeys K EMPTY (enPas b))
    else finalKey in
  Z.lxor finalKey (g_castleKeys K (castlePerm b)).

(* ================================================================== *)
(** * Move executor ([moves_execution.c]) *)
(* ================================================================== *)

Definition HASH_PCE (piece squareIndex : Z) (b : ChessBoard) : ChessBoard :=
  set_posKey (Z.lxor (posKey b) (g_pieceKeys K piece squareIndex)) b.

Definition HASH_CA (b : ChessBoard) : ChessBoard :=
  set_posKey (Z.lxor (posKey b) (g_castleKeys K (castlePerm b))) b.

Definition HASH_SIDE (b : ChessBoard) : ChessBoard :=
  set_posKey (Z.lxor (posKey b) (g_sideKey K)) b.

Definition HASH_EP (b : ChessBoard) : ChessBoard :=
  set_posKey (Z.lxor (posKey b) (g_pieceKeys K EMPTY (enPas b))) b.

Definition CastlePerm : list Z := [
    15; 15; 15; 15; 15; 15; 15; 15; 15; 15;
    15; 15; 15; 15; 15; 15; 15; 15; 15; 15;
    15; 13; 15; 15; 15; 12; 15; 15; 14; 15;
    15; 15; 15; 15; 15; 15; 15; 15; 15; 15;
    15; 15; 15; 15; 15; 15; 15; 15; 15; 15;
    15; 15; 15; 15; 15; 15; 15; 15; 15; 15;
    15; 15; 15; 15; 15; 15; 15; 15; 15; 15;
    15; 15; 15; 15; 15; 15; 15; 15; 15; 15;
    15; 15; 15; 15; 15; 15; 15; 15; 15; 15;
    15;  7; 15; 15; 15;  3; 15; 15; 11; 15;
    15; 15; 15; 15; 15; 15; 15; 15; 15; 15;
    15; 15; 15; 15; 15; 15; 15; 15; 15; 15 ].

(** The search loop shared by [ClearPiece] and [MovePiece]:
    [for(index = 0; index < pieceCount; ++index) if(row[index] == sq) ...
    break;].  The result is the first index holding [sq], or -1. *)
Fixpoint find_from (row : list Z) (sq : Z) (index : Z) (steps : nat) : Z :=
  match steps with
  | O => -1
  | S k => if aget row index =? sq then index else find_from row sq (index + 1) k
  end.

Definition find_piece (row : list Z) (count sq : Z) : Z :=
  find_from row sq 0 (Z.to_nat count).

(** The two branches on [PieceBig[piece]] of [ClearPiece]. *)
Definition clear_counters (piece color squareIndex : Z) (b : ChessBoard) : ChessBoard :=
  if nz (aget PieceBig piece) then
    let b := set_bigPce (aset (bigPce b) color (aget (bigPce b) color - 1)) b in
    if nz (aget PieceMaj piece)
    then set_majPce (aset (majPce b) color (aget (majPce b) color - 1)) b
    else set_minPce (aset (minPce b) color (aget (minPce b) color - 1)) b
  else
    let b := set_pawns (aset (pawns b) color
               (BITBOARD_CLEAR_BIT (aget (pawns b) color) (SQUARE_120_TO_64 squareIndex))) b in
    set_pawns (aset (pawns b) COLOR_TYPE_BOTH
               (BITBOARD_CLEAR_BIT (aget (pawns b) COLOR_TYPE_BOTH)
                  (SQUARE_120_TO_64 squareIndex))) b.

Definition ClearPiece (squareIndex : Z) (b : ChessBoard) : ChessBoard :=
  let piece := aget (pieces b) squareIndex in
  let color := aget g_pieceCol piece in
  let b := HASH_PCE piece squareIndex b in
  let b := set_pieces (aset (pieces b) squareIndex EMPTY) b in
  let b := set_material
             (aset (material b) color (aget (material b) color - aget g_pieceVal piece)) b in
  let b := clear_counters piece color squareIndex b in
  let t_pceNum := find_piece (aget (pList b) piece) (aget (pieceCount b) piece) squareIndex in
  let b := set_pieceCount (aset (pieceCount b) piece (aget (pieceCount b) piece - 1)) b in
  set_pList (aset2 (pList b) piece t_pceNum
               (aget2 (pList b) piece (aget (pieceCount b) piece))) b.

(** The two branches on [PieceBig[piece]] of [AddPiece]. *)
Definition add_counters (piece color squareIndex : Z) (b : ChessBoard) : ChessBoard :=
  if nz (aget PieceBig piece) then
    let b := set_bigPce (aset (bigPce b) color (aget (bigPce b) color + 1)) b in
    if nz (aget PieceMaj piece)
    then set_majPce (aset (majPce b) color (aget (majPce b) color + 1)) b
    else set_minPce (aset (minPce b) color (aget (minPce b) color + 1)) b
  else
    let b := set_pawns (aset (pawns b) color
               (BITBOARD_SET_BIT (aget (pawns b) color) (SQUARE_120_TO_64 squareIndex))) b in
    set_pawns (aset (pawns b) COLOR_TYPE_BOTH
               (BITBOARD_SET_BIT (aget (pawns b) COLOR_TYPE_BOTH)
                  (SQUARE_120_TO_64 squareIndex))) b.

Definition AddPiece (squareIndex : Z) (b : ChessBoard) (piece : Z) : ChessBoard :=
  let color := aget g_pieceCol piece in
  let b := HASH_PCE piece squareIndex b in
  let b := set_pieces (aset (pieces b) squareIndex piece) b in
  let b := add_counters piece color squareIndex b in
  let b := set_material
             (aset (material b) color (aget (material b) color + aget g_pieceVal piece)) b in
  let b := set_pList (aset2 (pList b) piece (aget (pieceCount b) piece) squareIndex) b in
  set_pieceCount (aset (pieceCount b) piece (aget (pieceCount b) piece + 1)) b.

(** The pawn-bitboard branch of [MovePiece]. *)
Definition move_pawn_bits (piece color from to : Z) (b : ChessBoard) : ChessBoard :=
  if negb (nz (aget PieceBig piece)) then
    let b := set_pawns (aset (pawns b) color
               (BITBOARD_CLEAR_BIT (aget (pawns b) color) (SQUARE_120_TO_64 from))) b in
    let b := set_pawns (aset (pawns b) COLOR_TYPE_BOTH
               (BITBOARD_CLEAR_BIT (aget (pawns b) COLOR_TYPE_BOTH) (SQUARE_120_TO_64 from))) b in
    let b := set_pawns (aset (pawns b) color
               (BITBOARD_SET_BIT (aget (pawns b) color) (SQUARE_120_TO_64 to))) b in
    set_pawns (aset (pawns b) COLOR_TYPE_BOTH
               (BITBOARD_SET_BIT (aget (pawns b) COLOR_TYPE_BOTH) (SQUARE_120_TO_64 to))) b
  else b.

Definition MovePiece (from to : Z) (b : ChessBoard) : ChessBoard :=
  let piece := aget (pieces b) from in
  let color := aget g_pieceCol piece in
  let b := HASH_PCE piece from b in
  let b := set_pieces (aset (pieces b) from EMPTY) b in
  let b := HASH_PCE piece to b in
  let b := set_pieces (aset (pieces b) to piece) b in
  let b := move_pawn_bits piece color from to b in
  let index := find_piece (aget (pList b) piece) (aget (pieceCount b) piece) from in
  if 0 <=? index then set_pList (aset2 (pList b) piece index to) b else b.

(** ** Attack oracle ([attack_detection.c]) *)

Definition KnDir : list Z := [-8; -19; -21; -12; 8; 19; 21; 12].
Definition RkDir : list Z := [-1; -10; 1; 10].
Definition BiDir : list Z := [-9; -11; 11; 9].
Definition KiDir : list Z := [-1; -10; 1; 10; -9; -11; 11; 9].

(** The walk [while(piece != OFFBOARD)] along one direction, entered with
    [t_sq] the first square of the ray.  A ray that starts on the board
    meets the OFFBOARD border after at most seven squares, so eight
    iterations are enough on a mailbox that has its border; without one
    the C loop would leave the array. *)
Fixpoint slide_attack (b : ChessBoard) (side_ : Z) (slider : Z -> bool)
    (direction t_sq : Z) (fuel : nat) : bool :=
  match fuel with
  | O => false
  | S k =>
      let piece := aget (pieces b) t_sq in
      if piece =? OFFBOARD then false
      else if negb (piece =? EMPTY)
      then slider piece && (aget g_pieceCol piece =? side_)
      else slide_attack b side_ slider direction (t_sq + direction) k
  end.

Definition Attack_IsSquareAttacked (squareIndex side_ : Z) (b : ChessBoard) : Z :=
  let pawn_hit :=
    if side_ =? COLOR_TYPE_WHITE
    then (aget (pieces b) (squareIndex - 11) =? PIECE_TYPE_WHITE_PAWN)
         || (aget (pieces b) (squareIndex - 9) =? PIECE_TYPE_WHITE_PAWN)
    else (aget (pieces b) (squareIndex + 11) =? PIECE_TYPE_BLACK_PAWN)
         || (aget (pieces b) (squareIndex + 9) =? PIECE_TYPE_BLACK_PAWN) in
  let step_hit (isp : Z -> bool) (direction : Z) :=
    let piece := aget (pieces b) (squareIndex + direction) in
    negb (piece =? OFFBOARD) && isp piece && (aget g_pieceCol piece =? side_) in
  if pawn_hit then BOOL_TYPE_TRUE
  else if existsb (step_hit PIECE_IS_KNIGHT) KnDir then BOOL_TYPE_TRUE
  else if existsb (fun d => slide_attack b side_ PIECE_IS_ROOK_QUEEN d (squareIndex + d) 8) RkDir
  then BOOL_TYPE_TRUE
  else if existsb (fun d => slide_attack b side_ PIECE_IS_BISHOP_QUEEN d (squareIndex + d) 8) BiDir
  then BOOL_TYPE_TRUE
  else if existsb (step_hit PIECE_IS_KING) KiDir then BOOL_TYPE_TRUE
  else BOOL_TYPE_FALSE.

(** ** [Move_Make] and [Move_Take]

    Both functions are long runs of assignments.  Each run is cut into
    consecutive blocks, one definition per block, in source order; the
    function itself is the blocks applied one after the other. *)

(** The rook step of a castle in [Move_Make]: [switch(to)]. *)
Definition castle_rook_make (to : Z) (b : ChessBoard) : ChessBoard :=
  if to =? C1 then MovePiece A1 D1 b
  else if to =? C8 then MovePiece A8 D8 b
  else if to =? G1 then MovePiece H1 F1 b
  else if to =? G8 then MovePiece H8 F8 b
  else b.

(** The rook step of a castle in [Move_Take]. *)
Definition castle_rook_take (to : Z) (b : ChessBoard) : ChessBoard :=
  if to =? C1 then MovePiece D1 A1 b
  else if to =? C8 then MovePiece D8 A8 b
  else if to =? G1 then MovePiece F1 H1 b
  else if to =? G8 then MovePiece F8 H8 b
  else b.

Definition is_white_piece (p : Z) : bool :=
  (PIECE_TYPE_WHITE_PAWN <=? p) && (p <=? PIECE_TYPE_WHITE_KING).
Definition is_black_piece (p : Z) : bool :=
  (PIECE_TYPE_BLACK_PAWN <=? p) && (p <=? PIECE_TYPE_BLACK_KING).

(** "Track captured piece" of [Move_Make]. *)
Definition track_capture (captured : Z) (b : ChessBoard) : ChessBoard :=
  if is_white_piece captured then
    if capturedWhiteCount b <? 16 then
      let b := set_capturedWhite (aset (capturedWhite b) (capturedWhiteCount b) captured) b in
      set_capturedWhiteCount (capturedWhiteCount b + 1) b
    else b
  else if is_black_piece captured then
    if capturedBlackCount b <? 16 then
      let b := set_capturedBlack (aset (capturedBlack b) (capturedBlackCount b) captured) b in
      set_capturedBlackCount (capturedBlackCount b + 1) b
    else b
  else b.

(** "Remove from captured pieces list" of [Move_Take]. *)
Definition untrack_capture (captured : Z) (b : ChessBoard) : ChessBoard :=
  if is_white_piece captured then
    if 0 <? capturedWhiteCount b
    then set_capturedWhiteCount (capturedWhiteCount b - 1) b else b
  else if is_black_piece captured then
    if 0 <? capturedBlackCount b
    then set_capturedBlackCount (capturedBlackCount b - 1) b else b
  else b.

(** [board->history[board->hisPly].posKey = board->posKey;] *)
Definition save_key (b : ChessBoard) : ChessBoard :=
  set_history (aset (history b) (hisPly b)
    (let u := aget (history b) (hisPly b) in
     mkUndo (u_move u) (u_castlePerm u) (u_enPas u) (u_fiftyMove u) (posKey b))) b.

(** [history[hisPly].move = move; .fiftyMove = ...; .enPas = ...;
    .castlePerm = ...;] *)
Definition save_state (move : Z) (b : ChessBoard) : ChessBoard :=
  set_history (aset (history b) (hisPly b)
    (mkUndo move (castlePerm b) (enPas b) (fiftyMove b)
       (u_posKey (aget (history b) (hisPly b))))) b.

(** [if(board->enPas != NO_SQ) HASH_EP;] *)
Definition hash_ep_if_set (b : ChessBoard) : ChessBoard :=
  if negb (enPas b =? NO_SQ) then HASH_EP b else b.

(** [castlePerm = history[hisPly].castlePerm; fiftyMove = ...; enPas =
    ...;] common to [Move_Take] and [TakeNullMove]. *)
Definition restore_state (b : ChessBoard) : ChessBoard :=
  let b := set_castlePerm (u_castlePerm (aget (history b) (hisPly b))) b in
  let b := set_fiftyMove (u_fiftyMove (aget (history b) (hisPly b))) b in
  set_enPas (u_enPas (aget (history b) (hisPly b))) b.

(** [board->side ^= 1; HASH_SIDE;] *)
Definition flip_side (b : ChessBoard) : ChessBoard :=
  let b := set_side (Z.lxor (side b) 1) b in
  HASH_SIDE b.

(** *** Blocks of [Move_Take] *)

(** [hisPly--; ply--;] *)
Definition take_ply (b : ChessBoard) : ChessBoard :=
  let b := set_hisPly (hisPly b - 1) b in
  set_ply (ply b - 1) b.

(** From [if(board->enPas != NO_SQ) HASH_EP;] to [HASH_SIDE;]. *)
Definition take_state (b : ChessBoard) : ChessBoard :=
  let b := hash_ep_if_set b in
  let b := HASH_CA b in
  let b := restore_state b in
  let b := hash_ep_if_set b in
  let b := HASH_CA b in
  flip_side b.

(** [if(MFLAGEP & move) ... else if(MFLAGCA & move) ...] *)
Definition take_special (move to : Z) (b : ChessBoard) : ChessBoard :=
  if nz (Z.land MFLAGEP move) then
    if side b =? COLOR_TYPE_WHITE
    then AddPiece (to - 10) b PIECE_TYPE_BLACK_PAWN
    else AddPiece (to + 10) b PIECE_TYPE_WHITE_PAWN
  else if nz (Z.land MFLAGCA move) then castle_rook_take to b
  else b.

(** [if(g_pieceKing[board->pieces[from]]) board->KingSq[board->side] =
    from;] (and the same with [to] in [Move_Make]). *)
Definition king_moved (sq : Z) (b : ChessBoard) : ChessBoard :=
  if nz (aget g_pieceKing (aget (pieces b) sq))
  then set_KingSq (aset (KingSq b) (side b) sq) b else b.

(** [if(captured != EMPTY) ...] of [Move_Take]. *)
Definition take_capture (captured to : Z) (b : ChessBoard) : ChessBoard :=
  if negb (captured =? EMPTY)
  then untrack_capture captured (AddPiece to b captured) else b.

(** [if(MOVE_GET_PROMOTED(move) != EMPTY) ...] of [Move_Take]. *)
Definition take_promote (move from : Z) (b : ChessBoard) : ChessBoard :=
  if negb (MOVE_GET_PROMOTED move =? EMPTY) then
    let b := ClearPiece from b in
    AddPiece from b
      (if aget g_pieceCol (MOVE_GET_PROMOTED move) =? COLOR_TYPE_WHITE
       then PIECE_TYPE_WHITE_PAWN else PIECE_TYPE_BLACK_PAWN)
  else b.

Definition Move_Take (b : ChessBoard) : ChessBoard :=
  let b := take_ply b in
  let move := u_move (aget (history b) (hisPly b)) in
  let from := MOVE_GET_FROM_SQUARE move in
  let to := MOVE_GET_TO_SQUARE move in
  let b := take_state b in
  let b := take_special move to b in
  let b := MovePiece to from b in
  let b := king_moved from b in
  let captured := MOVE_GET_CAPTURED move in
  let b := take_capture captured to b in
  take_promote move from b.

(** *** Blocks of [Move_Make] *)

(** [if(move & MFLAGEP) ... else if (move & MFLAGCA) ...] *)
Definition make_special (move to side_ : Z) (b : ChessBoard) : ChessBoard :=
  if nz (Z.land move MFLAGEP) then
    if side_ =? COLOR_TYPE_WHITE then ClearPiece (to - 10) b else ClearPiece (to + 10) b
  else if nz (Z.land move MFLAGCA) then castle_rook_make to b
  else b.

(** From [if(board->enPas != NO_SQ) HASH_EP;] to the second [HASH_CA;]. *)
Definition make_state (move from to : Z) (b : ChessBoard) : ChessBoard :=
  let b := hash_ep_if_set b in
  let b := HASH_CA b in
  let b := save_state move b in
  let b := set_castlePerm (Z.land (castlePerm b) (aget CastlePerm from)) b in
  let b := set_castlePerm (Z.land (castlePerm b) (aget CastlePerm to)) b in
  let b := set_enPas NO_SQ b in
  HASH_CA b.

(** [board->fiftyMove++; if(captured != EMPTY) ...] *)
Definition make_capture (captured to : Z) (b : ChessBoard) : ChessBoard :=
  let b := set_fiftyMove (fiftyMove b + 1) b in
  if negb (captured =? EMPTY) then
    let b := ClearPiece to b in
    let b := set_fiftyMove 0 b in
    track_capture captured b
  else b.

(** [hisPly++; ply++;] *)
Definition make_ply (b : ChessBoard) : ChessBoard :=
  let b := set_hisPly (hisPly b + 1) b in
  set_ply (ply b + 1) b.

(** [if(g_piecePawn[board->pieces[from]]) ...] *)
Definition make_pawn (move from side_ : Z) (b : ChessBoard) : ChessBoard :=
  if nz (aget g_piecePawn (aget (pieces b) from)) then
    let b := set_fiftyMove 0 b in
    if nz (Z.land move MFLAGPS) then
      let b := if side_ =? COLOR_TYPE_WHITE
               then set_enPas (from + 10) b else set_enPas (from - 10) b in
      HASH_EP b
    else b
  else b.

(** [if(promotedPiece != EMPTY) ...] of [Move_Make]. *)
Definition make_promote (promotedPiece to : Z) (b : ChessBoard) : ChessBoard :=
  if negb (promotedPiece =? EMPTY)
  then AddPiece to (ClearPiece to b) promotedPiece else b.

(** The body of [Move_Make] up to, and without, the final test of the
    mover's king. *)
Definition Move_Make_apply (b : ChessBoard) (move : Z) : ChessBoard :=
  let from := MOVE_GET_FROM_SQUARE move in
  let to := MOVE_GET_TO_SQUARE move in
  let side_ := side b in
  let b := save_key b in
  let b := make_special move to side_ b in
  let b := make_state move from to b in
  let captured := MOVE_GET_CAPTURED move in
  let b := make_capture captured to b in
  let b := make_ply b in
  let b := make_pawn move from side_ b in
  let b := MovePiece from to b in
  let promotedPiece := MOVE_GET_PROMOTED move in
  let b := make_promote promotedPiece to b in
  let b := king_moved to b in
  flip_side b.

(** [Move_Make]: the result is the returned truth value and the board the
    call leaves behind. *)
Definition Move_Make (b : ChessBoard) (move : Z) : Z * ChessBoard :=
  let side_ := side b in
  let b := Move_Make_apply b move in
  if nz (Attack_IsSquareAttacked (aget (KingSq b) side_) (side b) b)
  then (BOOL_TYPE_FALSE, Move_Take b)
  else (BOOL_TYPE_TRUE, b).

(** ** Null moves *)

(** [board->ply++;] *)
Definition null_ply (b : ChessBoard) : ChessBoard := set_ply (ply b + 1) b.

(** [board->history[board->hisPly].move = NOMOVE; ...; board->enPas =
    NO_SQ;] *)
Definition null_state (b : ChessBoard) : ChessBoard :=
  let b := save_state NOMOVE b in
  set_enPas NO_SQ b.

(** [board->side ^= 1; board->hisPly++; HASH_SIDE;] *)
Definition null_side (b : ChessBoard) : ChessBoard :=
  let b := set_side (Z.lxor (side b) 1) b in
  let b := set_hisPly (hisPly b + 1) b in
  HASH_SIDE b.

Definition MakeNullMove (b : ChessBoard) : ChessBoard :=
  let b := null_ply b in
  let b := save_key b in
  let b := hash_ep_if_set b in
  let b := null_state b in
  null_side b.

Definition TakeNullMove (b : ChessBoard) : ChessBoard :=
  let b := take_ply b in
  let b := hash_ep_if_set b in
  let b := restore_state b in
  let b := hash_ep_if_set b in
  flip_side b.

End Hashing.

(* ================================================================== *)
(** * Move generator ([moves_generation.c])

    A move list is the sequence of the [move] fields of [list->moves] in
    the order the generator appends them; the ordering [score] of an entry
    is not modelled. *)
(* ================================================================== *)

Definition SQOFFBOARD (sq : Z) : bool := g_filesBoard sq =? OFFBOARD.

Definition LoopSlidePce : list Z :=
  [PIECE_TYPE_WHITE_BISHOP; PIECE_TYPE_WHITE_ROOK; PIECE_TYPE_WHITE_QUEEN; 0;
   PIECE_TYPE_BLACK_BISHOP; PIECE_TYPE_BLACK_ROOK; PIECE_TYPE_BLACK_QUEEN; 0].
Definition LoopNonSlidePce : list Z :=
  [PIECE_TYPE_WHITE_KNIGHT; PIECE_TYPE_WHITE_KING; 0;
   PIECE_TYPE_BLACK_KNIGHT; PIECE_TYPE_BLACK_KING; 0].
Definition LoopSlideIndex : list Z := [0; 4].
Definition LoopNonSlideIndex : list Z := [0; 3].

Definition PceDir : list (list Z) := [
  [0; 0; 0; 0; 0; 0; 0; 0];
  [0; 0; 0; 0; 0; 0; 0; 0];
  [-8; -19; -21; -12; 8; 19; 21; 12];
  [-9; -11; 11; 9; 0; 0; 0; 0];
  [-1; -10; 1; 10; 0; 0; 0; 0];
  [-1; -10; 1; 10; -9; -11; 11; 9];
  [-1; -10; 1; 10; -9; -11; 11; 9];
  [0; 0; 0; 0; 0; 0; 0; 0];
  [-8; -19; -21; -12; 8; 19; 21; 12];
  [-9; -11; 11; 9; 0; 0; 0; 0];
  [-1; -10; 1; 10; 0; 0; 0; 0];
  [-1; -10; 1; 10; -9; -11; 11; 9];
  [-1; -10; 1; 10; -9; -11; 11; 9] ].

Definition NumDir : list Z := [0; 0; 8; 4; 4; 8; 8; 0; 8; 4; 4; 8; 8].

(** The squares [pList[piece][0 .. pieceCount[piece]-1]] in loop order. *)
Definition piece_squares (b : ChessBoard) (piece : Z) : list Z :=
  map (aget2 (pList b) piece) (seqZ 0 (aget (pieceCount b) piece)).

Definition AddWhitePawnCapMove (from to capturedPiece : Z) : list Z :=
  if g_ranksBoard from =? RANK_TYPE_7 then
    [ MOVE from to capturedPiece PIECE_TYPE_WHITE_QUEEN 0;
      MOVE from to capturedPiece PIECE_TYPE_WHITE_ROOK 0;
      MOVE from to capturedPiece PIECE_TYPE_WHITE_BISHOP 0;
      MOVE from to capturedPiece PIECE_TYPE_WHITE_KNIGHT 0 ]
  else [ MOVE from to capturedPiece EMPTY 0 ].

Definition AddWhitePawnMove (from to : Z) : list Z :=
  if g_ranksBoard from =? RANK_TYPE_7 then
    [ MOVE from to EMPTY PIECE_TYPE_WHITE_QUEEN 0;
      MOVE from to EMPTY PIECE_TYPE_WHITE_ROOK 0;
      MOVE from to EMPTY PIECE_TYPE_WHITE_BISHOP 0;
      MOVE from to EMPTY PIECE_TYPE_WHITE_KNIGHT 0 ]
  else [ MOVE from to EMPTY EMPTY 0 ].

Definition AddBlackPawnCapMove (from to capturedPiece : Z) : list Z :=
  if g_ranksBoard from =? RANK_TYPE_2 then
    [ MOVE from to capturedPiece PIECE_TYPE_BLACK_QUEEN 0;
      MOVE from to capturedPiece PIECE_TYPE_BLACK_ROOK 0;
      MOVE from to capturedPiece PIECE_TYPE_BLACK_BISHOP 0;
      MOVE from to capturedPiece PIECE_TYPE_BLACK_KNIGHT 0 ]
  else [ MOVE from to capturedPiece EMPTY 0 ].

Definition AddBlackPawnMove (from to : Z) : list Z :=
  if g_ranksBoard from =? RANK_TYPE_2 then
    [ MOVE from to EMPTY PIECE_TYPE_BLACK_QUEEN 0;
      MOVE from to EMPTY PIECE_TYPE_BLACK_ROOK 0;
      MOVE from to EMPTY PIECE_TYPE_BLACK_BISHOP 0;
      MOVE from to EMPTY PIECE_TYPE_BLACK_KNIGHT 0 ]
  else [ MOVE from to EMPTY EMPTY 0 ].

(** Body of the white-pawn loop for the pawn on [squareIndex]. *)
Definition white_pawn_moves (b : ChessBoard) (squareIndex : Z) : list Z :=
  (if aget (pieces b) (squareIndex + 10) =? EMPTY then
     AddWhitePawnMove squareIndex (squareIndex + 10)
     ++ (if (g_ranksBoard squareIndex =? RANK_TYPE_2)
            && (aget (pieces b) (squareIndex + 20) =? EMPTY)
         then [ MOVE squareIndex (squareIndex + 20) EMPTY EMPTY MFLAGPS ] else [])
   else [])
  ++ (if negb (SQOFFBOARD (squareIndex + 9))
         && (aget g_pieceCol (aget (pieces b) (squareIndex + 9)) =? COLOR_TYPE_BLACK)
      then AddWhitePawnCapMove squareIndex (squareIndex + 9) (aget (pieces b) (squareIndex + 9))
      else [])
  ++ (if negb (SQOFFBOARD (squareIndex + 11))
         && (aget g_pieceCol (aget (pieces b) (squareIndex + 11)) =? COLOR_TYPE_BLACK)
      then AddWhitePawnCapMove squareIndex (squareIndex + 11) (aget (pieces b) (squareIndex + 11))
      else [])
  ++ (if negb (enPas b =? NO_SQ) then
        (if squareIndex + 9 =? enPas b
         then [ MOVE squareIndex (squareIndex + 9) EMPTY EMPTY MFLAGEP ] else [])
        ++ (if squareIndex + 11 =? enPas b
            then [ MOVE squareIndex (squareIndex + 11) EMPTY EMPTY MFLAGEP ] else [])
      else []).

(** Body of the black-pawn loop for the pawn on [squareIndex]. *)
Definition black_pawn_moves (b : ChessBoard) (squareIndex : Z) : list Z :=
  (if aget (pieces b) (squareIndex - 10) =? EMPTY then
     AddBlackPawnMove squareIndex (squareIndex - 10)
     ++ (if (g_ranksBoard squareIndex =? RANK_TYPE_7)
            && (aget (pieces b) (squareIndex - 20) =? EMPTY)
         then [ MOVE squareIndex (squareIndex - 20) EMPTY EMPTY MFLAGPS ] else [])
   else [])
  ++ (if negb (SQOFFBOARD (squareIndex - 9))
         && (aget g_pieceCol (aget (pieces b) (squareIndex - 9)) =? COLOR_TYPE_WHITE)
      then AddBlackPawnCapMove squareIndex (squareIndex - 9) (aget (pieces b) (squareIndex - 9))
      else [])
  ++ (if negb (SQOFFBOARD (squareIndex - 11))
         && (aget g_pieceCol (aget (pieces b) (squareIndex - 11)) =? COLOR_TYPE_WHITE)
      then AddBlackPawnCapMove squareIndex (squareIndex - 11) (aget (pieces b) (squareIndex - 11))
      else [])
  ++ (if negb (enPas b =? NO_SQ) then
        (if squareIndex - 9 =? enPas b
         then [ MOVE squareIndex (squareIndex - 9) EMPTY EMPTY MFLAGEP ] else [])
        ++ (if squareIndex - 11 =? enPas b
            then [ MOVE squareIndex (squareIndex - 11) EMPTY EMPTY MFLAGEP ] else [])
      else []).

Definition white_castle_moves (b : ChessBoard) : list Z :=
  (if nz (Z.land (castlePerm b) CASTLE_TYPE_WKCA)
      && ((aget (pieces b) F1 =? EMPTY) && (aget (pieces b) G1 =? EMPTY))
      && (negb (nz (Attack_IsSquareAttacked E1 COLOR_TYPE_BLACK b))
          && negb (nz (Attack_IsSquareAttacked F1 COLOR_TYPE_BLACK b)))
   then [ MOVE E1 G1 EMPTY EMPTY MFLAGCA ] else [])
  ++ (if nz (Z.land (castlePerm b) CASTLE_TYPE_WQCA)
         && ((aget (pieces b) D1 =? EMPTY) && (aget (pieces b) C1 =? EMPTY)
             && (aget (pieces b) B1 =? EMPTY))
         && (negb (nz (Attack_IsSquareAttacked E1 COLOR_TYPE_BLACK b))
             && negb (nz (Attack_IsSquareAttacked D1 COLOR_TYPE_BLACK b)))
      then [ MOVE E1 C1 EMPTY EMPTY MFLAGCA ] else []).

Definition black_castle_moves (b : ChessBoard) : list Z :=
  (if nz (Z.land (castlePerm b) CASTLE_TYPE_BKCA)
      && ((aget (pieces b) F8 =? EMPTY) && (aget (pieces b) G8 =? EMPTY))
      && (negb (nz (Attack_IsSquareAttacked E8 COLOR_TYPE_WHITE b))
          && negb (nz (Attack_IsSquareAttacked F8 COLOR_TYPE_WHITE b)))
   then [ MOVE E8 G8 EMPTY EMPTY MFLAGCA ] else [])
  ++ (if nz (Z.land (castlePerm b) CASTLE_TYPE_BQCA)
         && ((aget (pieces b) D8 =? EMPTY) && (aget (pieces b) C8 =? EMPTY)
             && (aget (pieces b) B8 =? EMPTY))
         && (negb (nz (Attack_IsSquareAttacked E8 COLOR_TYPE_WHITE b))
             && negb (nz (Attack_IsSquareAttacked D8 COLOR_TYPE_WHITE b)))
      then [ MOVE E8 C8 EMPTY EMPTY MFLAGCA ] else []).

(** The walk [while(!SQOFFBOARD(t_sq))] of a sliding piece along one
    direction; a ray leaves the board within eight squares. *)
Fixpoint slide_moves (b : ChessBoard) (side_ squareIndex direction t_sq : Z)
    (fuel : nat) : list Z :=
  match fuel with
  | O => []
  | S k =>
      if SQOFFBOARD t_sq then []
      else if negb (aget (pieces b) t_sq =? EMPTY) then
        if aget g_pieceCol (aget (pieces b) t_sq) =? Z.lxor side_ 1
        then [ MOVE squareIndex t_sq (aget (pieces b) t_sq) EMPTY 0 ] else []
      else MOVE squareIndex t_sq EMPTY EMPTY 0
           :: slide_moves b side_ squareIndex direction (t_sq + direction) k
  end.

(** The directions [PceDir[piece][0 .. NumDir[piece]-1]]. *)
Definition piece_dirs (piece : Z) : list Z :=
  map (aget2 PceDir piece) (seqZ 0 (aget NumDir piece)).

Definition slider_moves (b : ChessBoard) (side_ piece : Z) : list Z :=
  flat_map (fun squareIndex =>
    flat_map (fun direction =>
      slide_moves b side_ squareIndex direction (squareIndex + direction) 8)
      (piece_dirs piece))
    (piece_squares b piece).

(** One target square of a knight or king. *)
Definition step_moves (b : ChessBoard) (side_ squareIndex direction : Z) : list Z :=
  let t_sq := squareIndex + direction in
  if SQOFFBOARD t_sq then []
  else if negb (aget (pieces b) t_sq =? EMPTY) then
    if aget g_pieceCol (aget (pieces b) t_sq) =? Z.lxor side_ 1
    then [ MOVE squareIndex t_sq (aget (pieces b) t_sq) EMPTY 0 ] else []
  else [ MOVE squareIndex t_sq EMPTY EMPTY 0 ].

Definition nonslider_moves (b : ChessBoard) (side_ piece : Z) : list Z :=
  flat_map (fun squareIndex =>
    flat_map (step_moves b side_ squareIndex) (piece_dirs piece))
    (piece_squares b piece).

(** [piece = Loop[pceIndex++]; while(piece != 0) { ...; piece =
    Loop[pceIndex++]; }] over one of the two zero-terminated tables. *)
Fixpoint loop_pieces (table : list Z) (gen : Z -> list Z) (pceIndex : Z)
    (fuel : nat) : list Z :=
  match fuel with
  | O => []
  | S k =>
      let piece := aget table pceIndex in
      if piece =? 0 then [] else gen piece ++ loop_pieces table gen (pceIndex + 1) k
  end.

Definition Move_GenerateAll (b : ChessBoard) : list Z :=
  let side_ := side b in
  (if side_ =? COLOR_TYPE_WHITE then
     flat_map (white_pawn_moves b) (piece_squares b PIECE_TYPE_WHITE_PAWN)
     ++ white_castle_moves b
   else
     flat_map (black_pawn_moves b) (piece_squares b PIECE_TYPE_BLACK_PAWN)
     ++ black_castle_moves b)
  ++ loop_pieces LoopSlidePce (slider_moves b side_) (aget LoopSlideIndex side_) 4
  ++ loop_pieces LoopNonSlidePce (nonslider_moves b side_) (aget LoopNonSlideIndex side_) 3.

(* ================================================================== *)
(** * Coordinate notation ([moves_io.c]) *)
(* ================================================================== *)

Definition code (c : ascii) : Z := Z.of_N (N_of_ascii c).

(** [ptrChar[i]]: the character code at index [i], 0 at and past the
    terminator. *)
Fixpoint char_at (s : string) (i : nat) : Z :=
  match s, i with
  | EmptyString, _ => 0
  | String c _, O => code c
  | String _ r, S k => char_at r k
  end.

(** The promotion-letter test of [Move_Parse] for a generated move with a
    promoted piece. *)
Definition promo_letter_matches (promotedPiece c4 : Z) : bool :=
  if PIECE_IS_ROOK_QUEEN promotedPiece && negb (PIECE_IS_BISHOP_QUEEN promotedPiece)
     && (c4 =? code "r")
  then true
  else if negb (PIECE_IS_ROOK_QUEEN promotedPiece) && PIECE_IS_BISHOP_QUEEN promotedPiece
          && (c4 =? code "b")
  then true
  else if PIECE_IS_ROOK_QUEEN promotedPiece && PIECE_IS_BISHOP_QUEEN promotedPiece
          && (c4 =? code "q")
  then true
  else if PIECE_IS_KNIGHT promotedPiece && (c4 =? code "n")
  then true
  else false.

(** The scan of the generated list in [Move_Parse]. *)
Fixpoint parse_scan (moves : list Z) (from to c4 : Z) : Z :=
  match moves with
  | [] => NOMOVE
  | Move :: rest =>
      if (MOVE_GET_FROM_SQUARE Move =? from) && (MOVE_GET_TO_SQUARE Move =? to) then
        let promotedPiece := MOVE_GET_PROMOTED Move in
        if negb (promotedPiece =? EMPTY) then
          if promo_letter_matches promotedPiece c4 then Move
          else parse_scan rest from to c4
        else Move
      else parse_scan rest from to c4
  end.

Definition Move_Parse (ptrChar : string) (b : ChessBoard) : Z :=
  if (code "8" <? char_at ptrChar 1) || (char_at ptrChar 1 <? code "1") then NOMOVE
  else if (code "8" <? char_at ptrChar 3) || (char_at ptrChar 3 <? code "1") then NOMOVE
  else if (code "h" <? char_at ptrChar 0) || (char_at ptrChar 0 <? code "a") then NOMOVE
  else if (code "h" <? char_at ptrChar 2) || (char_at ptrChar 2 <? code "a") then NOMOVE
  else
    let from := FILE_RANK_TO_SQUARE (char_at ptrChar 0 - code "a") (char_at ptrChar 1 - code "1") in
    let to := FILE_RANK_TO_SQUARE (char_at ptrChar 2 - code "a") (char_at ptrChar 3 - code "1") in
    parse_scan (Move_GenerateAll b) from to (char_at ptrChar 4).

(* ================================================================== *)
(** * Position setup ([board_representation.c]) *)
(* ================================================================== *)

(** The loops of [Board_Reset] over the mailbox. *)
Definition reset_mailbox (b : ChessBoard) : ChessBoard :=
  let b := fold_left (fun b index => set_pieces (aset (pieces b) index OFFBOARD) b)
             (seqZ 0 CHESS_BOARD_SQUARE_NUM) b in
  fold_left (fun b index =>
      set_pieces (aset (pieces b) (SQUARE_64_TO_120 index) EMPTY) b)
    (seqZ 0 64) b.

(** The loops over the per-colour counters, the pawn boards and the piece
    counts. *)
Definition reset_counters (b : ChessBoard) : ChessBoard :=
  let b := fold_left (fun b index =>
               let b := set_bigPce (aset (bigPce b) index 0) b in
               let b := set_majPce (aset (majPce b) index 0) b in
               let b := set_minPce (aset (minPce b) index 0) b in
               set_material (aset (material b) index 0) b)
             (seqZ 0 2) b in
  let b := fold_left (fun b index => set_pawns (aset (pawns b) index 0) b) (seqZ 0 3) b in
  fold_left (fun b index => set_pieceCount (aset (pieceCount b) index 0) b) (seqZ 0 13) b.

(** From [KingSq[...] = NO_SQ] to [capturedBlackCount = 0]. *)
Definition reset_state (b : ChessBoard) : ChessBoard :=
  let b := set_KingSq (aset (KingSq b) COLOR_TYPE_BLACK NO_SQ) b in
  let b := set_KingSq (aset (KingSq b) COLOR_TYPE_WHITE NO_SQ) b in
  let b := set_side COLOR_TYPE_BOTH b in
  let b := set_enPas NO_SQ b in
  let b := set_fiftyMove 0 b in
  let b := set_ply 0 b in
  let b := set_hisPly 0 b in
  let b := set_castlePerm 0 b in
  let b := set_posKey 0 b in
  let b := set_capturedWhiteCount 0 b in
  set_capturedBlackCount 0 b.

(** The final loop over the two captured-piece arrays. *)
Definition reset_captured (b : ChessBoard) : ChessBoard :=
  fold_left (fun b index =>
      let b := set_capturedWhite (aset (capturedWhite b) index EMPTY) b in
      set_capturedBlack (aset (capturedBlack b) index EMPTY) b)
    (seqZ 0 16) b.

Definition Board_Reset (b : ChessBoard) : ChessBoard :=
  let b := reset_mailbox b in
  let b := reset_counters b in
  let b := reset_state b in
  reset_captured b.

(** One iteration of the loop of [Board_UpdateListsMaterial]. *)
Definition update_lists_step (b : ChessBoard) (index : Z) : ChessBoard :=
  let squareIndex := index in
  let piece := aget (pieces b) index in
  if negb (piece =? OFFBOARD) && negb (piece =? EMPTY) then
    let colour := aget g_pieceCol piece in
    let b := if aget PieceBig piece =? BOOL_TYPE_TRUE
             then set_bigPce (aset (bigPce b) colour (aget (bigPce b) colour + 1)) b else b in
    let b := if aget PieceMin piece =? BOOL_TYPE_TRUE
             then set_minPce (aset (minPce b) colour (aget (minPce b) colour + 1)) b else b in
    let b := if aget PieceMaj piece =? BOOL_TYPE_TRUE
             then set_majPce (aset (majPce b) colour (aget (majPce b) colour + 1)) b else b in
    let b := set_material
               (aset (material b) colour (aget (material b) colour + aget g_pieceVal piece)) b in
    let b := set_pList (aset2 (pList b) piece (aget (pieceCount b) piece) squareIndex) b in
    let b := set_pieceCount (aset (pieceCount b) piece (aget (pieceCount b) piece + 1)) b in
    let b := if piece =? PIECE_TYPE_WHITE_KING
             then set_KingSq (aset (KingSq b) COLOR_TYPE_WHITE squareIndex) b else b in
    let b := if piece =? PIECE_TYPE_BLACK_KING
             then set_KingSq (aset (KingSq b) COLOR_TYPE_BLACK squareIndex) b else b in
    if piece =? PIECE_TYPE_WHITE_PAWN then
      let b := set_pawns (aset (pawns b) COLOR_TYPE_WHITE
                 (BITBOARD_SET_BIT (aget (pawns b) COLOR_TYPE_WHITE)
                    (SQUARE_120_TO_64 squareIndex))) b in
      set_pawns (aset (pawns b) COLOR_TYPE_BOTH
                 (BITBOARD_SET_BIT (aget (pawns b) COLOR_TYPE_BOTH)
                    (SQUARE_120_TO_64 squareIndex))) b
    else if piece =? PIECE_TYPE_BLACK_PAWN then
      let b := set_pawns (aset (pawns b) COLOR_TYPE_BLACK
                 (BITBOARD_SET_BIT (aget (pawns b) COLOR_TYPE_BLACK)
                    (SQUARE_120_TO_64 squareIndex))) b in
      set_pawns (aset (pawns b) COLOR_TYPE_BOTH
                 (BITBOARD_SET_BIT (aget (pawns b) COLOR_TYPE_BOTH)
                    (SQUARE_120_TO_64 squareIndex))) b
    else b
  else b.

(** The iteration at [index] stays inside the arrays it indexes: a cell
    that is neither OFFBOARD nor EMPTY holds a piece (the index of
    [g_pieceCol], [PieceBig], ... and of the rows of [pList]), the list of
    that piece has a free cell for [pList[piece][pieceCount[piece]]] (the
    source asserts [pieceCount[piece] < 10 && pieceCount[piece] >= 0]) and
    a pawn stands on a square of the board, the index of the bit masks. *)
Definition update_lists_in_range (b : ChessBoard) (index : Z) : bool :=
  let piece := aget (pieces b) index in
  if negb (piece =? OFFBOARD) && negb (piece =? EMPTY) then
    PieceValid piece
    && (0 <=? aget (pieceCount b) piece) && (aget (pieceCount b) piece <? 10)
    && (negb (nz (aget g_piecePawn piece)) || on_board index)
  else true.

(** [Board_UpdateListsMaterial]; [None] when an iteration leaves an
    array, where C defines no behaviour. *)
Definition Board_UpdateListsMaterial (b : ChessBoard) : option ChessBoard :=
  fold_left
    (fun ob index =>
       match ob with
       | Some b =>
           if update_lists_in_range b index then Some (update_lists_step b index) else None
       | None => None
       end)
    (seqZ 0 CHESS_BOARD_SQUARE_NUM) (Some b).

(** The pointer [fen] into the caller's string: [Some s] points at the
    first character of [s], and at the terminator, which reads 0, when [s]
    is empty; [None] is a pointer past the terminator, where nothing can
    be read. *)
Definition cur (fen : option string) : option Z :=
  match fen with
  | Some EmptyString => Some 0
  | Some (String c _) => Some (code c)
  | None => None
  end.

(** [fen++]. *)
Definition adv (fen : option string) : option string :=
  match fen with
  | Some (String _ r) => Some r
  | _ => None
  end.

(** The [switch] on the current character in the placement loop: a piece letter, a digit run,
    a separator, or anything else. *)
Inductive FenChar : Type :=
| FenPiece (piece : Z)
| FenSkip (count : Z)
| FenNext
| FenBad.

Definition fen_switch (c : Z) : FenChar :=
  if c =? code "p" then FenPiece PIECE_TYPE_BLACK_PAWN
  else if c =? code "r" then FenPiece PIECE_TYPE_BLACK_ROOK
  else if c =? code "n" then FenPiece PIECE_TYPE_BLACK_KNIGHT
  else if c =? code "b" then FenPiece PIECE_TYPE_BLACK_BISHOP
  else if c =? code "k" then FenPiece PIECE_TYPE_BLACK_KING
  else if c =? code "q" then FenPiece PIECE_TYPE_BLACK_QUEEN
  else if c =? code "P" then FenPiece PIECE_TYPE_WHITE_PAWN
  else if c =? code "R" then FenPiece PIECE_TYPE_WHITE_ROOK
  else if c =? code "N" then FenPiece PIECE_TYPE_WHITE_KNIGHT
  else if c =? code "B" then FenPiece PIECE_TYPE_WHITE_BISHOP
  else if c =? code "K" then FenPiece PIECE_TYPE_WHITE_KING
  else if c =? code "Q" then FenPiece PIECE_TYPE_WHITE_QUEEN
  else if (code "1" <=? c) && (c <=? code "8") then FenSkip (c - code "0")
  else if (c =? code "/") || (c =? code " ") then FenNext
  else FenBad.

(** [for (i = 0; i < count; i++)] of the placement loop; the result is the
    board and the advanced [file].  The loop has no bound on [file]:
    [None] when [sq64 = rank * 8 + file] is no index of the 64-entry table
    [g_square64To120], which happens when the ranks of the string hold
    more squares than the board has left. *)
Fixpoint fen_fill (piece rank file : Z) (b : ChessBoard) (count : nat)
    : option (ChessBoard * Z) :=
  match count with
  | O => Some (b, file)
  | S k =>
      let sq64 := rank * 8 + file in
      if (0 <=? sq64) && (sq64 <? 64) then
        let sq120 := SQUARE_64_TO_120 sq64 in
        let b := if negb (piece =? EMPTY) then set_pieces (aset (pieces b) sq120 piece) b else b in
        fen_fill piece rank (file + 1) b k
      else None
  end.

(** How the placement loop ends: with an index outside its table, with the
    early [return -1] and the board as it stands, or at the loop test with
    the rest of the string, [rank], [file] and the board. *)
Inductive FenScan : Type :=
| FenOutOfBounds
| FenError (b : ChessBoard)
| FenRest (fen : string) (rank file : Z) (b : ChessBoard).

(** The placement loop [while ((rank >= RANK_TYPE_1) && *fen)]. *)
Fixpoint fen_placement (fen : string) (rank file : Z) (b : ChessBoard) : FenScan :=
  match fen with
  | EmptyString => FenRest fen rank file b
  | String c rest =>
      if (rank <? RANK_TYPE_1) || (code c =? 0) then FenRest fen rank file b
      else match fen_switch (code c) with
           | FenPiece piece =>
               match fen_fill piece rank file b 1 with
               | Some (b, file) => fen_placement rest rank file b
               | None => FenOutOfBounds
               end
           | FenSkip count =>
               match fen_fill EMPTY rank file b (Z.to_nat count) with
               | Some (b, file) => fen_placement rest rank file b
               | None => FenOutOfBounds
               end
           | FenNext => fen_placement rest (rank - 1) FILE_TYPE_A b
           | FenBad => FenError b
           end
  end.

(** The castling-rights loop [for (i = 0; i < 4; i++)]; [None] when it
    reads past the terminator. *)
Fixpoint fen_castle (fen : option string) (b : ChessBoard) (n : nat)
    : option (option string * ChessBoard) :=
  match n with
  | O => Some (fen, b)
  | S k =>
      match cur fen with
      | None => None
      | Some c =>
          if c =? code " " then Some (fen, b)
          else
            let b :=
              if c =? code "K" then set_castlePerm (Z.lor (castlePerm b) CASTLE_TYPE_WKCA) b
              else if c =? code "Q" then set_castlePerm (Z.lor (castlePerm b) CASTLE_TYPE_WQCA) b
              else if c =? code "k" then set_castlePerm (Z.lor (castlePerm b) CASTLE_TYPE_BKCA) b
              else if c =? code "q" then set_castlePerm (Z.lor (castlePerm b) CASTLE_TYPE_BQCA) b
              else b in
            fen_castle (adv fen) b k
      end
  end.

(** The en-passant part: when the character under [fen] is not ['-'],
    [file = fen[0] - 'a'; rank = fen[1] - '1'; board->enPas =
    FILE_RANK_TO_SQUARE(file,rank);]. *)
Definition fen_enpas (fen : option string) (b : ChessBoard) : option ChessBoard :=
  match cur fen with
  | None => None
  | Some c =>
      if negb (c =? code "-") then
        match cur (adv fen) with
        | None => None
        | Some c1 =>
            let file := c - code "a" in
            let rank := c1 - code "1" in
            Some (set_enPas (FILE_RANK_TO_SQUARE file rank) b)
        end
      else Some b
  end.

(** [Board_ParseFromFEN]: the returned [int] and the board left behind.
    The function checks none of the indexes it computes from the string;
    [None] stands for the runs in which one of them leaves its array or
    the string is read past its terminator, where C defines no behaviour:
    in the placement loop, in the reads that follow it, in
    [Board_GeneratePositionKey], which indexes [g_pieceKeys[EMPTY]] with
    the en-passant square (the source asserts [0 <= enPas < 120]), and in
    [Board_UpdateListsMaterial]. *)
Definition Board_ParseFromFEN (K : HashKeys) (fen : string) (b : ChessBoard)
    : option (Z * ChessBoard) :=
  let b := Board_Reset b in
  match fen_placement fen RANK_TYPE_8 FILE_TYPE_A b with
  | FenOutOfBounds => None
  | FenError b => Some (-1, b)
  | FenRest fen _ _ b =>
      let fen := Some fen in
      match cur fen with
      | None => None
      | Some c =>
          let b := set_side (if c =? code "w" then COLOR_TYPE_WHITE else COLOR_TYPE_BLACK) b in
          let fen := adv (adv fen) in
          match fen_castle fen b 4 with
          | None => None
          | Some (fen, b) =>
              let fen := adv fen in
              match fen_enpas fen b with
              | None => None
              | Some b =>
                  if (0 <=? enPas b) && (enPas b <? CHESS_BOARD_SQUARE_NUM) then
                    let b := set_posKey (Board_GeneratePositionKey K b) b in
                    match Board_UpdateListsMaterial b with
                    | None => None
                    | Some b => Some (0, b)
                    end
                  else None
              end
          end
      end
  end.

(** A board in zeroed storage, every array at its declared size. *)
Definition zero_board : ChessBoard :=
  {| pieces := replicate 120 0; pawns := replicate 3 0; KingSq := replicate 2 0;
     side := 0; enPas := 0; fiftyMove := 0; ply := 0; hisPly := 0; castlePerm := 0;
     posKey := 0; pieceCount := replicate 13 0; bigPce := replicate 2 0;
     majPce := replicate 2 0; minPce := replicate 2 0; material := replicate 2 0;
     history := replicate 2048 (mkUndo 0 0 0 0 0);
     pList := replicate 13 (replicate 10 0);
     hashTable := mkTable [] 0 0 0 0 0;
     capturedWhite := replicate 16 0; capturedBlack := replicate 16 0;
     capturedWhiteCount := 0; capturedBlackCount := 0 |}.

(* ================================================================== *)
(** * Transposition table ([hashtable_pv.c]) *)
(* ================================================================== *)

Definition set_pTable (v : list HashEntry) (t : HashTable) : HashTable :=
  mkTable v (numEntries t) (newWrite t) (overWrite t) (hit t) (cut t).
Definition set_numEntries (v : Z) (t : HashTable) : HashTable :=
  mkTable (pTable t) v (newWrite t) (overWrite t) (hit t) (cut t).
Definition set_newWrite (v : Z) (t : HashTable) : HashTable :=
  mkTable (pTable t) (numEntries t) v (overWrite t) (hit t) (cut t).
Definition set_overWrite (v : Z) (t : HashTable) : HashTable :=
  mkTable (pTable t) (numEntries t) (newWrite t) v (hit t) (cut t).
Definition set_hit (v : Z) (t : HashTable) : HashTable :=
  mkTable (pTable t) (numEntries t) (newWrite t) (overWrite t) v (cut t).

Definition HashTable_Clear (t : HashTable) : HashTable :=
  let t := fold_left (fun t i => set_pTable (aset (pTable t) i (mkEntry 0 NOMOVE 0 0 0)) t)
             (seqZ 0 (numEntries t)) t in
  set_newWrite 0 t.

Section Allocation.

(** [sizeof(HashEntry)] is fixed by the compiler, and whether [malloc]
    returns memory for a request of [n] bytes by the run-time system. *)
Variable sizeof_HashEntry : Z.
Variable malloc_succeeds : Z -> bool.

(** Conversion of an [int] to [size_t]. *)
Definition to_size_t (x : Z) : Z := x mod 2 ^ 64.

(** [HashTable_Init].  The function calls itself when [malloc] fails; the
    recursion is unfolded [fuel] times and [None] means it has not
    returned within them. *)
Fixpoint HashTable_Init (fuel : nat) (table : HashTable) (MB : Z) : option HashTable :=
  match fuel with
  | O => None
  | S k =>
      let HashSize := 1048576 * MB in
      let table := set_numEntries (to_size_t HashSize / sizeof_HashEntry) table in
      let table := set_numEntries (numEntries table - 2) table in
      if malloc_succeeds (to_size_t (numEntries table) * sizeof_HashEntry mod 2 ^ 64) then
        let table := set_pTable (replicate (Z.to_nat (numEntries table)) filler) table in
        Some (HashTable_Clear table)
      else
        HashTable_Init k (set_pTable [] table) (Z.quot MB 2)
  end.

End Allocation.

Definition set_entry (index : Z) (f : HashEntry -> HashEntry) (t : HashTable) : HashTable :=
  set_pTable (aset (pTable t) index (f (aget (pTable t) index))) t.

(** [HashTable_ProbeEntry]: [move] and [score] are the values behind the
    two out-pointers on entry; the result is the returned truth value, the
    two values on exit and the board (the [hit] counter changes). *)
Definition HashTable_ProbeEntry (b : ChessBoard) (move score alpha beta depth : Z)
    : Z * Z * Z * ChessBoard :=
  let index := posKey b mod numEntries (hashTable b) in
  let entry := aget (pTable (hashTable b)) index in
  if e_posKey entry =? posKey b then
    let move := e_move entry in
    if depth <=? e_depth entry then
      let b := set_hashTable (set_hit (hit (hashTable b) + 1) (hashTable b)) b in
      let score := e_score entry in
      let score :=
        if CHESS_IS_MATE <? score then score - ply b
        else if score <? - CHESS_IS_MATE then score + ply b
        else score in
      if e_flags entry =? HFALPHA then
        if score <=? alpha then (BOOL_TYPE_TRUE, move, alpha, b)
        else (BOOL_TYPE_FALSE, move, score, b)
      else if e_flags entry =? HFBETA then
        if beta <=? score then (BOOL_TYPE_TRUE, move, beta, b)
        else (BOOL_TYPE_FALSE, move, score, b)
      else if e_flags entry =? HFEXACT then (BOOL_TYPE_TRUE, move, score, b)
      else (BOOL_TYPE_FALSE, move, score, b)
    else (BOOL_TYPE_FALSE, move, score, b)
  else (BOOL_TYPE_FALSE, move, score, b).

Definition HashTable_StoreEntry (b : ChessBoard) (move score flags depth : Z) : ChessBoard :=
  let index := posKey b mod numEntries (hashTable b) in
  let t := hashTable b in
  let t := if e_posKey (aget (pTable t) index) =? 0
           then set_newWrite (newWrite t + 1) t
           else set_overWrite (overWrite t + 1) t in
  let score :=
    if CHESS_IS_MATE <? score then score + ply b
    else if score <? - CHESS_IS_MATE then score - ply b
    else score in
  let t := set_entry index (fun e => mkEntry (e_posKey e) move (e_score e) (e_depth e) (e_flags e)) t in
  let t := set_entry index (fun e => mkEntry (posKey b) (e_move e) (e_score e) (e_depth e) (e_flags e)) t in
  let t := set_entry index (fun e => mkEntry (e_posKey e) (e_move e) (e_score e) (e_depth e) flags) t in
  let t := set_entry index (fun e => mkEntry (e_posKey e) (e_move e) score (e_depth e) (e_flags e)) t in
  let t := set_entry index (fun e => mkEntry (e_posKey e) (e_move e) (e_score e) depth (e_flags e)) t in
  set_hashTable t b.

(* ================================================================== *)
(** * Draw rules of the protocol layer ([protocols_xboard.c]) *)
(* ================================================================== *)

Definition ThreeFoldRep (b : ChessBoard) : Z :=
  fold_left (fun r i => if u_posKey (aget (history b) i) =? posKey b then r + 1 else r)
    (seqZ 0 (hisPly b)) 0.

Definition DrawMaterial (b : ChessBoard) : Z :=
  let n := aget (pieceCount b) in
  if nz (n PIECE_TYPE_WHITE_PAWN) || nz (n PIECE_TYPE_BLACK_PAWN) then BOOL_TYPE_FALSE
  else if nz (n PIECE_TYPE_WHITE_QUEEN) || nz (n PIECE_TYPE_BLACK_QUEEN)
          || nz (n PIECE_TYPE_WHITE_ROOK) || nz (n PIECE_TYPE_BLACK_ROOK) then BOOL_TYPE_FALSE
  else if (1 <? n PIECE_TYPE_WHITE_BISHOP) || (1 <? n PIECE_TYPE_BLACK_BISHOP) then BOOL_TYPE_FALSE
  else if (1 <? n PIECE_TYPE_WHITE_KNIGHT) || (1 <? n PIECE_TYPE_BLACK_KNIGHT) then BOOL_TYPE_FALSE
  else if nz (n PIECE_TYPE_WHITE_KNIGHT) && nz (n PIECE_TYPE_WHITE_BISHOP) then BOOL_TYPE_FALSE
  else if nz (n PIECE_TYPE_BLACK_KNIGHT) && nz (n PIECE_TYPE_BLACK_BISHOP) then BOOL_TYPE_FALSE
  else BOOL_TYPE_TRUE.

(** The line [checkresult] prints before it returns true. *)
Inductive Verdict : Type :=
| FiftyMoveRule
| ThreeFoldRepetition
| InsufficientMaterial
| BlackMates
| WhiteMates
| Stalemate.

Section Results.

Variable K : HashKeys.

(** The loop of [checkresult] over the generated moves: it stops at the
    first move [Move_Make] accepts, takes it back and reports [found]. *)
Fixpoint first_legal (moves : list Z) (b : ChessBoard) : Z * ChessBoard :=
  match moves with
  | [] => (0, b)
  | m :: rest =>
      let '(ok, b) := Move_Make K b m in
      if nz ok then (1, Move_Take K b) else first_legal rest b
  end.

(** [checkresult]: the returned truth value, the line printed (if any) and
    the board left behind. *)
Definition checkresult (b : ChessBoard) : Z * option Verdict * ChessBoard :=
  if 100 <? fiftyMove b then (BOOL_TYPE_TRUE, Some FiftyMoveRule, b)
  else if 2 <=? ThreeFoldRep b then (BOOL_TYPE_TRUE, Some ThreeFoldRepetition, b)
  else if DrawMaterial b =? BOOL_TYPE_TRUE then (BOOL_TYPE_TRUE, Some InsufficientMaterial, b)
  else
    let '(found, b) := first_legal (Move_GenerateAll b) b in
    if negb (found =? 0) then (BOOL_TYPE_FALSE, None, b)
    else
      let InCheck := Attack_IsSquareAttacked (aget (KingSq b) (side b)) (Z.lxor (side b) 1) b in
      if InCheck =? BOOL_TYPE_TRUE then
        if side b =? COLOR_TYPE_WHITE
        then (BOOL_TYPE_TRUE, Some BlackMates, b)
        else (BOOL_TYPE_TRUE, Some WhiteMates, b)
      else (BOOL_TYPE_TRUE, Some Stalemate, b).

End Results.

(* ================================================================== *)
(** * Draw short-circuit of the search ([search_algorithm.c]) *)
(* ================================================================== *)

(** The integer fields of [SearchInfo]; the two [float] statistics [fh]
    and [fhf] are left out. *)
Record SearchInfo : Type := mkInfo {
  starttime : Z;
  stoptime : Z;
  depth : Z;
  timeset : Z;
  movestogo : Z;
  nodes : Z;
  quit : Z;
  stopped : Z;
  nullCut : Z;
  GAME_MODE : Z;
  POST_THINKING : Z
}.

Definition set_nodes (v : Z) (i : SearchInfo) : SearchInfo :=
  mkInfo (starttime i) (stoptime i) (depth i) (timeset i) (movestogo i) v (quit i)
    (stopped i) (nullCut i) (GAME_MODE i) (POST_THINKING i).

(** [for(index = hisPly - fiftyMove; index < hisPly-1; ++index)]. *)
Definition IsRepetition (b : ChessBoard) : Z :=
  c_bool (existsb (fun index => posKey b =? u_posKey (aget (history b) index))
            (seqZ (hisPly b - fiftyMove b) (hisPly b - 1 - (hisPly b - fiftyMove b)))).

Section Search.

(** [CheckUp] reads the clock and pending input; the part of [Quiescence]
    below its draw test and the part of [AlphaBeta] below its draw test
    (evaluation, table probe, move loop) are the two continuations.  The
    results are the returned score, the board and the search record. *)
Variable CheckUp : SearchInfo -> SearchInfo.
Variable Quiescence_rest : Z -> Z -> ChessBoard -> SearchInfo -> Z * ChessBoard * SearchInfo.
Variable AlphaBeta_rest :
  Z -> Z -> Z -> ChessBoard -> SearchInfo -> Z -> Z * ChessBoard * SearchInfo.

Definition Quiescence (alpha beta : Z) (b : ChessBoard) (info : SearchInfo)
    : Z * ChessBoard * SearchInfo :=
  let info := if Z.land (nodes info) 2047 =? 0 then CheckUp info else info in
  let info := set_nodes (nodes info + 1) info in
  if nz (IsRepetition b) || (100 <=? fiftyMove b) then (0, b, info)
  else Quiescence_rest alpha beta b info.

Definition AlphaBeta (alpha beta depth_ : Z) (b : ChessBoard) (info : SearchInfo)
    (DoNull : Z) : Z * ChessBoard * SearchInfo :=
  if depth_ <=? 0 then Quiescence alpha beta b info
  else
    let info := if Z.land (nodes info) 2047 =? 0 then CheckUp info else info in
    let info := set_nodes (nodes info + 1) info in
    if (nz (IsRepetition b) || (100 <=? fiftyMove b)) && nz (ply b) then (0, b, info)
    else AlphaBeta_rest alpha beta depth_ b info DoNull.

End Search.

(* ================================================================== *)
(** * Sample inputs *)
(* ================================================================== *)

(** A fixed choice of keys for the worked examples. *)
Definition sample_keys : HashKeys :=
  {| g_pieceKeys := fun piece sq => (piece * 120 + sq + 1) * 11400714819323198485 mod 2 ^ 64;
     g_sideKey := 9650029242287828579;
     g_castleKeys := fun perm => (perm + 1) * 14029467366897019727 mod 2 ^ 64 |}.

Definition setup (fen : string) : ChessBoard :=
  match Board_ParseFromFEN sample_keys fen zero_board with
  | Some (_, b) => b
  | None => zero_board
  end.


(* ================================================================== *)
(** * Bit-set utilities ([bitboards_utils.c]) *)
(* ================================================================== *)

(** Wrap-around of [U64] and [unsigned int] arithmetic. *)
Definition u64 (x : Z) : Z := x mod 2 ^ 64.
Definition u32 (x : Z) : Z := x mod 2 ^ 32.

Definition BitTable : list Z := [
  63; 30; 3; 32; 25; 41; 22; 33; 15; 50; 42; 13; 11; 53; 19; 34; 61; 29; 2;
  51; 21; 43; 45; 10; 18; 47; 1; 54; 9; 57; 0; 35; 62; 31; 40; 4; 49; 5; 52;
  26; 60; 6; 23; 44; 46; 27; 56; 16; 7; 39; 48; 24; 59; 14; 12; 55; 38; 28;
  58; 20; 37; 17; 36; 8 ].

(** [Bitboard_PopBit]: the returned index and the value left in [*bb]. *)
Definition Bitboard_PopBit (bb : Z) : Z * Z :=
  let b := Z.lxor bb (u64 (bb - 1)) in
  let fold := u32 (Z.lxor (Z.land b 4294967295) (Z.shiftr b 32)) in
  let bb' := Z.land bb (u64 (bb - 1)) in
  (aget BitTable (Z.shiftr (u32 (fold * 2017106723)) 26), bb').

(** The loop [for(r = 0; b; r++, b &= b - 1);] of [Bitboard_CountBits],
    at most [fuel] iterations of it; [None] when it has not ended by
    then. *)
Fixpoint CountBits_loop (fuel : nat) (b r : Z) : option Z :=
  match fuel with
  | O => None
  | S k => if nz b then CountBits_loop k (Z.land b (u64 (b - 1))) (r + 1) else Some r
  end.

Definition Bitboard_CountBits (fuel : nat) (b : Z) : option Z := CountBits_loop fuel b 0.

(* ================================================================== *)
(** * Table initialisation ([utils_init.c])

    The tables are C globals, all zero before the initialisation runs;
    each function below gives the tables after its loops. *)
(* ================================================================== *)

(** [Init_Square120To64]: [g_square120To64] and [g_square64To120]. *)
Definition Init_Square120To64 : list Z * list Z :=
  let t120 := fold_left (fun t index => aset t index 65)
                (seqZ 0 CHESS_BOARD_SQUARE_NUM) (replicate 120 0) in
  let t64 := fold_left (fun t index => aset t index 120) (seqZ 0 64) (replicate 64 0) in
  let '(t120, t64, _) :=
    fold_left (fun st rank =>
      fold_left (fun '(t120, t64, sq64) file =>
        let squareIndex := FILE_RANK_TO_SQUARE file rank in
        let t64 := aset t64 sq64 squareIndex in
        let t120 := aset t120 squareIndex sq64 in
        (t120, t64, sq64 + 1))
        (seqZ FILE_TYPE_A 8) st)
      (seqZ RANK_TYPE_1 8) (t120, t64, 0) in
  (t120, t64).

(** [Init_FilesRanksBoard]: [g_filesBoard] and [g_ranksBoard]. *)
Definition Init_FilesRanksBoard : list Z * list Z :=
  let off :=
    fold_left (fun '(fb, rb) index => (aset fb index OFFBOARD, aset rb index OFFBOARD))
      (seqZ 0 CHESS_BOARD_SQUARE_NUM) (replicate 120 0, replicate 120 0) in
  fold_left (fun st rank =>
    fold_left (fun '(fb, rb) file =>
      let squareIndex := FILE_RANK_TO_SQUARE file rank in
      (aset fb squareIndex file, aset rb squareIndex rank))
      (seqZ FILE_TYPE_A 8) st)
    (seqZ RANK_TYPE_1 8) off.

(** [Init_BitMasks]: [g_bitSetMask] and [g_bitClearMask]; [~x] on a
    [U64] flips its 64 bits. *)
Definition Init_BitMasks : list Z * list Z :=
  let zero :=
    fold_left (fun '(sm, cm) index => (aset sm index 0, aset cm index 0))
      (seqZ 0 64) (replicate 64 0, replicate 64 0) in
  fold_left (fun '(sm, cm) index =>
    let sm := aset sm index (Z.lor (aget sm index) (u64 (Z.shiftl 1 index))) in
    (sm, aset cm index (Z.lxor U64_MAX (aget sm index))))
    (seqZ 0 64) zero.

(** The five mask tables of [Init_EvalMasks]. *)
Record EvalMasks : Type := mkMasks {
  g_fileBBMask : list Z;
  g_rankBBMask : list Z;
  g_blackPassedMask : list Z;
  g_whitePassedMask : list Z;
  g_isolatedMask : list Z
}.

(** [while(tsq < 64) { mask |= (1ULL << tsq); tsq += 8; }], at most
    [fuel] iterations. *)
Fixpoint mask_up (fuel : nat) (mask tsq : Z) : Z :=
  match fuel with
  | O => mask
  | S k => if tsq <? 64 then mask_up k (Z.lor mask (u64 (Z.shiftl 1 tsq))) (tsq + 8) else mask
  end.

(** [while(tsq >= 0) { mask |= (1ULL << tsq); tsq -= 8; }], at most
    [fuel] iterations. *)
Fixpoint mask_down (fuel : nat) (mask tsq : Z) : Z :=
  match fuel with
  | O => mask
  | S k => if 0 <=? tsq then mask_down k (Z.lor mask (u64 (Z.shiftl 1 tsq))) (tsq - 8) else mask
  end.

(** The body of the last loop of [Init_EvalMasks] for one square; no
    column of the board has more than eight squares. *)
Definition eval_mask_square (m : EvalMasks) (squareIndex : Z) : EvalMasks :=
  let wp := aset (g_whitePassedMask m) squareIndex
              (mask_up 8 (aget (g_whitePassedMask m) squareIndex) (squareIndex + 8)) in
  let bp := aset (g_blackPassedMask m) squareIndex
              (mask_down 8 (aget (g_blackPassedMask m) squareIndex) (squareIndex - 8)) in
  let iso := g_isolatedMask m in
  let file := g_filesBoard (SQUARE_64_TO_120 squareIndex) in
  let '(iso, wp, bp) :=
    if FILE_TYPE_A <? file then
      (aset iso squareIndex
         (Z.lor (aget iso squareIndex) (aget (g_fileBBMask m) (file - 1))),
       aset wp squareIndex (mask_up 8 (aget wp squareIndex) (squareIndex + 7)),
       aset bp squareIndex (mask_down 8 (aget bp squareIndex) (squareIndex - 9)))
    else (iso, wp, bp) in
  let '(iso, wp, bp) :=
    if file <? FILE_TYPE_H then
      (aset iso squareIndex
         (Z.lor (aget iso squareIndex) (aget (g_fileBBMask m) (file + 1))),
       aset wp squareIndex (mask_up 8 (aget wp squareIndex) (squareIndex + 9)),
       aset bp squareIndex (mask_down 8 (aget bp squareIndex) (squareIndex - 7)))
    else (iso, wp, bp) in
  mkMasks (g_fileBBMask m) (g_rankBBMask m) bp wp iso.

Definition Init_EvalMasks : EvalMasks :=
  let '(fm, rm) :=
    fold_left (fun '(fm, rm) squareIndex => (aset fm squareIndex 0, aset rm squareIndex 0))
      (seqZ 0 8) (replicate 8 0, replicate 8 0) in
  let '(fm, rm) :=
    fold_left (fun st r =>
      fold_left (fun '(fm, rm) f =>
        let squareIndex := r * 8 + f in
        (aset fm f (Z.lor (aget fm f) (u64 (Z.shiftl 1 squareIndex))),
         aset rm r (Z.lor (aget rm r) (u64 (Z.shiftl 1 squareIndex)))))
        (seqZ FILE_TYPE_A 8) st)
      (rev (seqZ RANK_TYPE_1 8)) (fm, rm) in
  let zero :=
    fold_left (fun m squareIndex =>
      mkMasks (g_fileBBMask m) (g_rankBBMask m)
        (aset (g_blackPassedMask m) squareIndex 0)
        (aset (g_whitePassedMask m) squareIndex 0)
        (aset (g_isolatedMask m) squareIndex 0))
      (seqZ 0 64) (mkMasks fm rm (replicate 64 0) (replicate 64 0) (replicate 64 0)) in
  fold_left eval_mask_square (seqZ 0 64) zero.

(* ================================================================== *)
(** * Capture ordering table ([moves_generation.c]) *)
(* ================================================================== *)

Definition VictimScore : list Z :=
  [0; 100; 200; 300; 400; 500; 600; 100; 200; 300; 400; 500; 600].

(** [Init_MvvLva]: the table [MvvLvaScores], indexed by victim and
    attacker. *)
Definition Init_MvvLva : list (list Z) :=
  fold_left (fun t Attacker =>
    fold_left (fun t Victim =>
      aset2 t Victim Attacker
        (aget VictimScore Victim + 6 - Z.quot (aget VictimScore Attacker) 100))
      (seqZ PIECE_TYPE_WHITE_PAWN 12) t)
    (seqZ PIECE_TYPE_WHITE_PAWN 12) (replicate 13 (replicate 13 0)).

(* ================================================================== *)
(** * Printing of squares and moves ([moves_io.c]) *)
(* ================================================================== *)

(** The character [%c] prints for an [int]. *)
Definition char_of (x : Z) : ascii := ascii_of_N (Z.to_N (x mod 256)).

Definition PrSq (squareIndex : Z) : string :=
  let file := g_filesBoard squareIndex in
  let rank := g_ranksBoard squareIndex in
  String (char_of (code "a" + file)) (String (char_of (code "1" + rank)) EmptyString).

Definition PrMove (move : Z) : string :=
  let ff := g_filesBoard (MOVE_GET_FROM_SQUARE move) in
  let rf := g_ranksBoard (MOVE_GET_FROM_SQUARE move) in
  let ft := g_filesBoard (MOVE_GET_TO_SQUARE move) in
  let rt := g_ranksBoard (MOVE_GET_TO_SQUARE move) in
  let promoted := MOVE_GET_PROMOTED move in
  if nz promoted then
    let pchar :=
      if PIECE_IS_KNIGHT promoted then "n"%char
      else if PIECE_IS_ROOK_QUEEN promoted && negb (PIECE_IS_BISHOP_QUEEN promoted)
      then "r"%char
      else if negb (PIECE_IS_ROOK_QUEEN promoted) && PIECE_IS_BISHOP_QUEEN promoted
      then "b"%char
      else "q"%char in
    String (char_of (code "a" + ff)) (String (char_of (code "1" + rf))
      (String (char_of (code "a" + ft)) (String (char_of (code "1" + rt))
        (String pchar EmptyString))))
  else
    String (char_of (code "a" + ff)) (String (char_of (code "1" + rf))
      (String (char_of (code "a" + ft)) (String (char_of (code "1" + rt)) EmptyString))).

(* ================================================================== *)
(** * Transposition table, the stored move ([hashtable_pv.c]) *)
(* ================================================================== *)

Definition HashTable_ProbePvMove (b : ChessBoard) : Z :=
  let index := posKey b mod numEntries (hashTable b) in
  if e_posKey (aget (pTable (hashTable b)) index) =? posKey b
  then e_move (aget (pTable (hashTable b)) index)
  else NOMOVE.

(* ================================================================== *)
(** * Move ordering in the search ([search_algorithm.c]) *)
(* ================================================================== *)

(** An entry of a move list, with its ordering score. *)
Record Move : Type := mkMove { m_move : Z; m_score : Z }.

#[global] Instance Move_filler : Filler Move := mkMove 0 0.

(** The scan of [PickNextMove]: the best score met and its index. *)
Definition pick_scan (moves : list Move) (moveNum count : Z) : Z * Z :=
  fold_left (fun '(bestScore, bestNum) index =>
    if bestScore <? m_score (aget moves index)
    then (m_score (aget moves index), index)
    else (bestScore, bestNum))
    (seqZ moveNum (count - moveNum)) (0, moveNum).

(** [PickNextMove]: the array [list->moves] after the call. *)
Definition PickNextMove (moveNum : Z) (moves : list Move) (count : Z) : list Move :=
  let bestNum := snd (pick_scan moves moveNum count) in
  let temp := aget moves moveNum in
  let moves := aset moves moveNum (aget moves bestNum) in
  aset moves bestNum temp.

(* ================================================================== *)
(** * Material draws of the evaluation ([evaluation_static.c]) *)
(* ================================================================== *)

Definition MaterialDraw (b : ChessBoard) : Z :=
  let n p := aget (pieceCount b) p in
  let wR := n PIECE_TYPE_WHITE_ROOK in let bR := n PIECE_TYPE_BLACK_ROOK in
  let wQ := n PIECE_TYPE_WHITE_QUEEN in let bQ := n PIECE_TYPE_BLACK_QUEEN in
  let wB := n PIECE_TYPE_WHITE_BISHOP in let bB := n PIECE_TYPE_BLACK_BISHOP in
  let wN := n PIECE_TYPE_WHITE_KNIGHT in let bN := n PIECE_TYPE_BLACK_KNIGHT in
  if negb (nz wR) && negb (nz bR) && negb (nz wQ) && negb (nz bQ) then
    if negb (nz bB) && negb (nz wB) then
      if (wN <? 3) && (bN <? 3) then BOOL_TYPE_TRUE else BOOL_TYPE_FALSE
    else if negb (nz wN) && negb (nz bN) then
      if Z.abs (wB - bB) <? 2 then BOOL_TYPE_TRUE else BOOL_TYPE_FALSE
    else if ((wN <? 3) && negb (nz wB)) || ((wB =? 1) && negb (nz wN)) then
      if ((bN <? 3) && negb (nz bB)) || ((bB =? 1) && negb (nz bN))
      then BOOL_TYPE_TRUE else BOOL_TYPE_FALSE
    else BOOL_TYPE_FALSE
  else if negb (nz wQ) && negb (nz bQ) then
    if (wR =? 1) && (bR =? 1) then
      if (wN + wB <? 2) && (bN + bB <? 2) then BOOL_TYPE_TRUE else BOOL_TYPE_FALSE
    else if (wR =? 1) && negb (nz bR) then
      if (wN + wB =? 0) && ((bN + bB =? 1) || (bN + bB =? 2))
      then BOOL_TYPE_TRUE else BOOL_TYPE_FALSE
    else if (bR =? 1) && negb (nz wR) then
      if (bN + bB =? 0) && ((wN + wB =? 1) || (wN + wB =? 2))
      then BOOL_TYPE_TRUE else BOOL_TYPE_FALSE
    else BOOL_TYPE_FALSE
  else BOOL_TYPE_FALSE.

(** The position after 1.Nf3 Nf6 2.Ng1 Ng8 3.Nf3 Nf6 4.Ng1 Ng8 from the
    starting position: the starting position for the third time. *)
Definition start_board : ChessBoard :=
  setup "rnbqkbnr/pppppppp/8/8/8/8/PPPPPPPP/RNBQKBNR w KQkq - 0 1".

Definition play (b : ChessBoard) (text : string) : ChessBoard :=
  snd (Move_Make sample_keys b (Move_Parse text b)).

Definition shuffle_board : ChessBoard :=
  fold_left play ["g1f3"; "g8f6"; "f3g1"; "f6g8"; "g1f3"; "g8f6"; "f3g1"; "f6g8"]%string
    start_board.

(** The position after 1.e4 d5, where the pawn on e4 can take on d5. *)
Definition exchange_board : ChessBoard := play (play start_board "e2e4") "d7d5".

(** King and bishop against king and knight. *)
Definition minor_board : ChessBoard := setup "4k1n1/8/8/8/8/8/8/2B1K3 w - - 0 1".

(** A board with an eight-slot transposition table. *)
Definition table_board : ChessBoard :=
  set_ply 3 (set_hashTable (mkTable (replicate 8 (mkEntry 0 0 0 0 0)) 8 0 0 0 0) start_board).

Definition idle_info : SearchInfo := mkInfo 0 0 0 0 0 1 0 0 0 0 0.

(** One move of a game played at the board: [checkresult] first, which
    ends the game when it returns true, then the move typed, which has to
    parse and to be accepted by [Move_Make]. *)
Definition game_move (ob : option ChessBoard) (text : string) : option ChessBoard :=
  match ob with
  | None => None
  | Some b =>
      let '(over, _, b) := checkresult sample_keys b in
      if over =? BOOL_TYPE_TRUE then None
      else
        let m := Move_Parse text b in
        if m =? NOMOVE then None
        else
          let '(ok, b) := Move_Make sample_keys b m in
          if ok =? BOOL_TYPE_TRUE then Some b else None
  end.

(** The moves of two players, black's first. *)
Fixpoint interleave (black white : list string) : list string :=
  match black, white with
  | x :: black, y :: white => x :: y :: interleave black white
  | _, _ => black ++ white
  end.

(** A game of 101 knight moves from the starting position: five moves,
    then twice a lap of 48 in which the black knight goes round six
    squares four times and the white knight round eight squares three
    times.  The position after move 5 comes back after moves 53 and 101,
    and no position comes a third time before. *)
Definition knight_tour : list string :=
  let black_lap := ["g8f6"; "f6e4"; "e4d6"; "d6f5"; "f5h6"; "h6g8"]%string in
  let white_lap := ["b1c3"; "c3a4"; "a4c5"; "c5b3"; "b3d4"; "d4b5"; "b5a3"; "a3b1"]%string in
  (["g1f3"; "b8a6"; "f3g1"; "a6b8"; "g1h3"]%string)
  ++ interleave (concat (replicate 8 black_lap)) (concat (replicate 6 white_lap)).

(** The board after the game [knight_tour]. *)
Definition tour_board : ChessBoard :=
  match fold_left game_move knight_tour (Some start_board) with
  | Some b => b
  | None => zero_board
  end.

(** White king on e1 attacked along the second rank only from e2: the king
    step to d2 is generated and walks into the rook. *)
Definition pin_board : ChessBoard := setup "4k3/8/8/8/8/8/4r3/4K3 w - - 0 1".

(** The text [ptrChar] designates the encoded move [m]: four board
    coordinates that are the move's squares and, when the move promotes,
    the matching promotion letter. *)
Definition designates (ptrChar : string) (m : Z) : bool :=
  negb ((code "8" <? char_at ptrChar 1) || (char_at ptrChar 1 <? code "1"))
  && negb ((code "8" <? char_at ptrChar 3) || (char_at ptrChar 3 <? code "1"))
  && negb ((code "h" <? char_at ptrChar 0) || (char_at ptrChar 0 <? code "a"))
  && negb ((code "h" <? char_at ptrChar 2) || (char_at ptrChar 2 <? code "a"))
  && (MOVE_GET_FROM_SQUARE m
      =? FILE_RANK_TO_SQUARE (char_at ptrChar 0 - code "a") (char_at ptrChar 1 - code "1"))
  && (MOVE_GET_TO_SQUARE m
      =? FILE_RANK_TO_SQUARE (char_at ptrChar 2 - code "a") (char_at ptrChar 3 - code "1"))
  && ((MOVE_GET_PROMOTED m =? EMPTY)
      || promo_letter_matches (MOVE_GET_PROMOTED m) (char_at ptrChar 4)).

(** The starting position with the last piece letter replaced by [X]. *)
Definition bad_fen : string := "rnbqkbnr/pppppppp/8/8/8/8/PPPPPPPP/RNBQKBNX w KQkq - 0 1".

(* ================================================================== *)
(** * Effect of the move executor, field by field

    The value each block of the executor assigns to each field, as a
    function of the fields before the block. *)
(* ================================================================== *)

(** [a[c] += d] when [flag] holds. *)
Definition bumped (flag : bool) (a : list Z) (c d : Z) : list Z :=
  if flag then aset a c (aget a c + d) else a.

(** Pawn boards after [ClearPiece] of piece [p] (colour [c]) on [sq]. *)
Definition cleared_pawns (p c sq : Z) (pw : list Z) : list Z :=
  if nz (aget PieceBig p) then pw
  else
    let pw1 := aset pw c (BITBOARD_CLEAR_BIT (aget pw c) (SQUARE_120_TO_64 sq)) in
    aset pw1 COLOR_TYPE_BOTH
      (BITBOARD_CLEAR_BIT (aget pw1 COLOR_TYPE_BOTH) (SQUARE_120_TO_64 sq)).

(** Pawn boards after [AddPiece] of piece [p] (colour [c]) on [sq]. *)
Definition added_pawns (p c sq : Z) (pw : list Z) : list Z :=
  if nz (aget PieceBig p) then pw
  else
    let pw1 := aset pw c (BITBOARD_SET_BIT (aget pw c) (SQUARE_120_TO_64 sq)) in
    aset pw1 COLOR_TYPE_BOTH
      (BITBOARD_SET_BIT (aget pw1 COLOR_TYPE_BOTH) (SQUARE_120_TO_64 sq)).

(** Pawn boards after [MovePiece] of piece [p] (colour [c]). *)
Definition moved_pawns (p c from to : Z) (pw : list Z) : list Z :=
  if negb (nz (aget PieceBig p)) then
    let pw1 := aset pw c (BITBOARD_CLEAR_BIT (aget pw c) (SQUARE_120_TO_64 from)) in
    let pw2 := aset pw1 COLOR_TYPE_BOTH
                 (BITBOARD_CLEAR_BIT (aget pw1 COLOR_TYPE_BOTH) (SQUARE_120_TO_64 from)) in
    let pw3 := aset pw2 c (BITBOARD_SET_BIT (aget pw2 c) (SQUARE_120_TO_64 to)) in
    aset pw3 COLOR_TYPE_BOTH
      (BITBOARD_SET_BIT (aget pw3 COLOR_TYPE_BOTH) (SQUARE_120_TO_64 to))
  else pw.

(** Piece lists after [ClearPiece] of piece [p] on [sq]: the last live
    cell is copied over the cell that held [sq]. *)
Definition cleared_pList (p sq : Z) (counts : list Z) (pl : list (list Z)) : list (list Z) :=
  aset2 pl p (find_piece (aget pl p) (aget counts p) sq)
    (aget2 pl p (aget (aset counts p (aget counts p - 1)) p)).

(** Piece lists after [MovePiece] of piece [p]. *)
Definition moved_pList (p from to : Z) (counts : list Z) (pl : list (list Z))
    : list (list Z) :=
  if 0 <=? find_piece (aget pl p) (aget counts p) from
  then aset2 pl p (find_piece (aget pl p) (aget counts p) from) to
  else pl.

(** The en-passant part of the key: [g_pieceKeys[EMPTY][enPas]] when a
    target is set. *)
Definition ep_key (K : HashKeys) (e : Z) : Z :=
  if negb (e =? NO_SQ) then g_pieceKeys K EMPTY e else 0.

(* ================================================================== *)
(** * Consistency of the derived structures with the mailbox *)
(* ================================================================== *)

(** The first [n] cells of [row] list, without repetition, exactly the
    squares in [S]. *)
Definition row_ok (S : Z -> Prop) (row : list Z) (n : Z) : Prop :=
  0 <= n <= 10 /\ length row = 10%nat
  /\ (forall i j, 0 <= i < n -> 0 <= j < n -> aget row i = aget row j -> i = j)
  /\ (forall i, 0 <= i < n -> S (aget row i))
  /\ (forall sq, S sq -> exists i, 0 <= i < n /\ aget row i = sq).

(** Piece lists and counts against the mailbox: for every piece, the live
    part of its list is the set of squares that hold it. *)
Definition lists_inv (pcs cnt : list Z) (pl : list (list Z)) : Prop :=
  length pcs = 120%nat /\ length pl = 13%nat /\ length cnt = 13%nat
  /\ forall p, 1 <= p <= 12 -> row_ok (fun sq => aget pcs sq = p) (aget pl p) (aget cnt p).

(** Pawn bit-sets against the mailbox: bit [i] of a colour's set says
    whether that colour has a pawn on square [i] (of 64), the combined
    set has the bits of both, and no set has a bit beyond the 64th. *)
Definition pawns_inv (pcs pw : list Z) : Prop :=
  length pw = 3%nat
  /\ (forall c i, 0 <= c <= 2 -> 64 <= i -> Z.testbit (aget pw c) i = false)
  /\ (forall i, 0 <= i < 64 ->
        Z.testbit (aget pw COLOR_TYPE_WHITE) i
        = (aget pcs (SQUARE_64_TO_120 i) =? PIECE_TYPE_WHITE_PAWN))
  /\ (forall i, 0 <= i < 64 ->
        Z.testbit (aget pw COLOR_TYPE_BLACK) i
        = (aget pcs (SQUARE_64_TO_120 i) =? PIECE_TYPE_BLACK_PAWN))
  /\ (forall i, 0 <= i < 64 ->
        Z.testbit (aget pw COLOR_TYPE_BOTH) i
        = (aget pcs (SQUARE_64_TO_120 i) =? PIECE_TYPE_WHITE_PAWN)
          || (aget pcs (SQUARE_64_TO_120 i) =? PIECE_TYPE_BLACK_PAWN)).

(* ================================================================== *)
(** * Consistent boards and moves that fit them *)
(* ================================================================== *)

(** The king of a colour. *)
Definition king_of (c : Z) : Z :=
  if c =? COLOR_TYPE_WHITE then PIECE_TYPE_WHITE_KING else PIECE_TYPE_BLACK_KING.

(** The pawn of a colour. *)
Definition pawn_of (c : Z) : Z :=
  if c =? COLOR_TYPE_WHITE then PIECE_TYPE_WHITE_PAWN else PIECE_TYPE_BLACK_PAWN.

(** The rook of a colour. *)
Definition rook_of (c : Z) : Z :=
  if c =? COLOR_TYPE_WHITE then PIECE_TYPE_WHITE_ROOK else PIECE_TYPE_BLACK_ROOK.

(** A board whose derived structures agree with its mailbox: the arrays
    have the sizes of the C struct, pieces stand on the 64 squares only,
    piece lists, counts and pawn bit-sets describe the mailbox, a king on
    the board is the one [KingSq] names, the side to move is a colour and
    there is room for one more history record. *)
Definition consistent (b : ChessBoard) : Prop :=
  lists_inv (pieces b) (pieceCount b) (pList b)
  /\ pawns_inv (pieces b) (pawns b)
  /\ (forall sq, 1 <= aget (pieces b) sq <= 12 -> on_board sq = true)
  /\ (forall sq c, 0 <= c <= 1 -> aget (pieces b) sq = king_of c -> aget (KingSq b) c = sq)
  /\ length (KingSq b) = 2%nat
  /\ length (material b) = 2%nat /\ length (bigPce b) = 2%nat
  /\ length (majPce b) = 2%nat /\ length (minPce b) = 2%nat
  /\ length (history b) = 2048%nat /\ 0 <= hisPly b < 2048
  /\ 0 <= side b <= 1.

(** The fields of the board that the executor and the attack test use as
    indexes lie inside the arrays they index, as [Board_Check] asserts of
    them: the mailbox has its border of OFFBOARD cells, where the rays of
    [Attack_IsSquareAttacked] end; both king squares are squares of the
    board; the en-passant square indexes a row of [g_pieceKeys] and the
    castling rights index [g_castleKeys]; the counts of captured pieces
    are not negative. *)
Definition in_bounds (b : ChessBoard) : bool :=
  forallb (fun sq => on_board sq || (aget (pieces b) sq =? OFFBOARD))
    (seqZ 0 CHESS_BOARD_SQUARE_NUM)
  && on_board (aget (KingSq b) COLOR_TYPE_WHITE)
  && on_board (aget (KingSq b) COLOR_TYPE_BLACK)
  && (0 <=? enPas b) && (enPas b <? CHESS_BOARD_SQUARE_NUM)
  && (0 <=? castlePerm b) && (castlePerm b <=? 15)
  && (0 <=? capturedWhiteCount b) && (0 <=? capturedBlackCount b).

(** The rook's squares of a castle that takes the king to [to]:
    where the rook stands and where it goes ([NO_SQ] twice when [to] is no
    castling target). *)
Definition castle_rook_squares (to : Z) : Z * Z :=
  if to =? C1 then (A1, D1)
  else if to =? C8 then (A8, D8)
  else if to =? G1 then (H1, F1)
  else if to =? G8 then (H8, F8)
  else (NO_SQ, NO_SQ).

(** The square of the pawn an en-passant capture to [to] removes. *)
Definition ep_victim_square (side_ to : Z) : Z :=
  if side_ =? COLOR_TYPE_WHITE then to - 10 else to + 10.

(** The encoded move agrees with the mailbox: a piece of the side to move stands on the from-square; an
    en-passant capture is a pawn move to an empty square behind an enemy
    pawn; a castle is a king move to an empty castling target with the own
    rook in its corner and the rook's target empty; any other move records
    the content of the to-square as its capture, which is empty or an enemy
    piece, and promotes, if at all, a pawn to an own piece that is neither
    pawn nor king. *)
Definition move_fits (b : ChessBoard) (move : Z) : bool :=
  let from := MOVE_GET_FROM_SQUARE move in
  let to := MOVE_GET_TO_SQUARE move in
  let captured := MOVE_GET_CAPTURED move in
  let promoted := MOVE_GET_PROMOTED move in
  let piece := aget (pieces b) from in
  let own q := PieceValid q && (aget g_pieceCol q =? side b) in
  let enemy q := PieceValid q && (aget g_pieceCol q =? Z.lxor (side b) 1) in
  on_board from && on_board to && negb (from =? to) && own piece
  && if nz (Z.land move MFLAGEP) then
       (piece =? pawn_of (side b)) && (captured =? EMPTY) && (promoted =? EMPTY)
       && (aget (pieces b) to =? EMPTY)
       && (aget (pieces b) (ep_victim_square (side b) to) =? pawn_of (Z.lxor (side b) 1))
     else if nz (Z.land move MFLAGCA) then
       (piece =? king_of (side b)) && (captured =? EMPTY) && (promoted =? EMPTY)
       && (aget (pieces b) to =? EMPTY)
       && negb (fst (castle_rook_squares to) =? NO_SQ)
       && (aget (pieces b) (fst (castle_rook_squares to)) =? rook_of (side b))
       && (aget (pieces b) (snd (castle_rook_squares to)) =? EMPTY)
     else
       (aget (pieces b) to =? captured)
       && ((captured =? EMPTY) || enemy captured)
       && ((promoted =? EMPTY)
           || ((piece =? pawn_of (side b)) && own promoted
               && negb (nz (aget g_piecePawn promoted))
               && negb (nz (aget g_pieceKing promoted)))).

(** The piece list of the promotion piece has a free cell. *)
Definition promotion_room (b : ChessBoard) (move : Z) : bool :=
  (MOVE_GET_PROMOTED move =? EMPTY) || (aget (pieceCount b) (MOVE_GET_PROMOTED move) <? 10).

(** Two boards show the same position: every field that describes the
    position is equal, and each piece list has the same live squares,
    possibly in another order. *)
Definition same_position (b b' : ChessBoard) : Prop :=
  pieces b' = pieces b /\ pawns b' = pawns b /\ KingSq b' = KingSq b
  /\ side b' = side b /\ enPas b' = enPas b /\ fiftyMove b' = fiftyMove b
  /\ ply b' = ply b /\ hisPly b' = hisPly b /\ castlePerm b' = castlePerm b
  /\ posKey b' = posKey b /\ pieceCount b' = pieceCount b
  /\ bigPce b' = bigPce b /\ majPce b' = majPce b /\ minPce b' = minPce b
  /\ material b' = material b
  /\ forall p, 1 <= p <= 12 -> live b' p ≡ₚ live b p.

(* ================================================================== *)
(** * Consistency, decided *)
(* ================================================================== *)

(** [row_ok] for the squares that hold piece [p], decided. *)
Definition row_okb (pcs : list Z) (p : Z) (row : list Z) (n : Z) : bool :=
  (0 <=? n) && (n <=? 10) && (Z.of_nat (length row) =? 10)
  && forallb (fun i => forallb (fun j => implb (aget row i =? aget row j) (i =? j))
                         (seqZ 0 n)) (seqZ 0 n)
  && forallb (fun i => aget pcs (aget row i) =? p) (seqZ 0 n)
  && forallb (fun sq => implb (aget pcs sq =? p)
                          (existsb (fun i => aget row i =? sq) (seqZ 0 n))) (seqZ 0 120).

(** [consistent], decided. *)
Definition consistentb (b : ChessBoard) : bool :=
  (Z.of_nat (length (pieces b)) =? 120) && (Z.of_nat (length (pList b)) =? 13)
  && (Z.of_nat (length (pieceCount b)) =? 13)
  && forallb (fun p => row_okb (pieces b) p (aget (pList b) p) (aget (pieceCount b) p))
       (seqZ 1 12)
  && (Z.of_nat (length (pawns b)) =? 3)
  && forallb (fun c => (0 <=? aget (pawns b) c) && (aget (pawns b) c <? 2 ^ 64)) (seqZ 0 3)
  && forallb (fun i =>
       Bool.eqb (Z.testbit (aget (pawns b) COLOR_TYPE_WHITE) i)
         (aget (pieces b) (SQUARE_64_TO_120 i) =? PIECE_TYPE_WHITE_PAWN)
       && Bool.eqb (Z.testbit (aget (pawns b) COLOR_TYPE_BLACK) i)
            (aget (pieces b) (SQUARE_64_TO_120 i) =? PIECE_TYPE_BLACK_PAWN)
       && Bool.eqb (Z.testbit (aget (pawns b) COLOR_TYPE_BOTH) i)
            ((aget (pieces b) (SQUARE_64_TO_120 i) =? PIECE_TYPE_WHITE_PAWN)
             || (aget (pieces b) (SQUARE_64_TO_120 i) =? PIECE_TYPE_BLACK_PAWN)))
       (seqZ 0 64)
  && forallb (fun sq =>
       implb ((1 <=? aget (pieces b) sq) && (aget (pieces b) sq <=? 12)) (on_board sq)
       && forallb (fun c => implb (aget (pieces b) sq =? king_of c) (aget (KingSq b) c =? sq))
            (seqZ 0 2))
       (seqZ 0 120)
  && (Z.of_nat (length (KingSq b)) =? 2) && (Z.of_nat (length (material b)) =? 2)
  && (Z.of_nat (length (bigPce b)) =? 2) && (Z.of_nat (length (majPce b)) =? 2)
  && (Z.of_nat (length (minPce b)) =? 2) && (Z.of_nat (length (history b)) =? 2048)
  && (0 <=? hisPly b) && (hisPly b <? 2048) && (0 <=? side b) && (side b <=? 1).

(* ================================================================== *)
(** * Bit-sets *)
(* ================================================================== *)

(** Bit [k] is the lowest bit set in [bb]. *)
Definition lowest_bit (bb k : Z) : Prop :=
  0 <= k /\ Z.testbit bb k = true /\ forall j, 0 <= j < k -> Z.testbit bb j = false.

(** The number of bits set among the 64 of a [U64]. *)
Definition popcount (b : Z) : Z := Z.of_nat (length (List.filter (Z.testbit b) (seqZ 0 64))).

(* ================================================================== *)
(** * Moves, state fields and piece counts *)
(* ================================================================== *)

(** The flag argument of [MOVE] for an en-passant capture, a pawn start
    and a castle. *)
Definition move_flags (ep ps ca : bool) : Z :=
  Z.lor (if ep then MFLAGEP else 0) (Z.lor (if ps then MFLAGPS else 0) (if ca then MFLAGCA else 0)).

(** A piece a pawn may promote to, or no piece. *)
Definition promotable (p : Z) : bool :=
  (p =? EMPTY)
  || (PieceValid p && negb (nz (aget g_piecePawn p)) && negb (nz (aget g_pieceKing p))).

(** The state fields of a board: the fields the piece primitives
    [ClearPiece], [AddPiece] and [MovePiece] leave alone. *)
Definition game_state (b : ChessBoard) : Z * Z * Z * Z * Z * Z * list UndoMove :=
  (side b, enPas b, fiftyMove b, ply b, hisPly b, castlePerm b, history b).

(** The colours of the pieces exchanged in the piece counts. *)
Definition colours_swapped (b b' : ChessBoard) : Prop :=
  forall p, 1 <= p <= 6 ->
    aget (pieceCount b') p = aget (pieceCount b) (p + 6)
    /\ aget (pieceCount b') (p + 6) = aget (pieceCount b) p.

(** [minor_board] with the colours exchanged. *)
Definition minor_board_swapped : ChessBoard := setup "4K1N1/8/8/8/8/8/8/2b1k3 w - - 0 1".

(** A move list with scores. *)
Definition scored_moves : list Move := [mkMove 11 5; mkMove 12 9; mkMove 13 7; mkMove 14 9].

(* ================================================================== *)
(** * The key kept by the executor and the key computed from scratch *)
(* ================================================================== *)

(** The part of the key a square with content [p] contributes. *)
Definition piece_key (K : HashKeys) (p sq : Z) : Z :=
  if negb (p =? NO_SQ) && negb (p =? EMPTY) && negb (p =? OFFBOARD)
  then g_pieceKeys K p sq else 0.

(** The part of the key the mailbox contributes. *)
Definition mailbox_key (K : HashKeys) (pcs : list Z) : Z :=
  fold_left (fun acc sq => Z.lxor acc (piece_key K (aget pcs sq) sq))
    (seqZ 0 CHESS_BOARD_SQUARE_NUM) 0.

(** The incrementally kept key is the key computed from scratch. *)
Definition key_ok (K : HashKeys) (b : ChessBoard) : Prop :=
  posKey b = Board_GeneratePositionKey K b.

(** The fields the key is computed from, and the key. *)
Definition keyed (b : ChessBoard) : list Z * Z * Z * Z * Z :=
  (pieces b, side b, enPas b, castlePerm b, posKey b).

(** A king on the board stands on the square [KingSq] names. *)
Definition kings_ok (pcs ks : list Z) : Prop :=
  forall sq c, 0 <= c <= 1 -> aget pcs sq = king_of c -> aget ks c = sq.

(* ================================================================== *)
(** * Sequences of executor calls *)
(* ================================================================== *)

(** Two boards agree in every field that describes the position: all
    fields but the piece lists, the history, the hash table and the
    record of captured pieces. *)
Definition same_fields (b b' : ChessBoard) : Prop :=
  pieces b' = pieces b /\ pawns b' = pawns b /\ KingSq b' = KingSq b
  /\ side b' = side b /\ enPas b' = enPas b /\ fiftyMove b' = fiftyMove b
  /\ ply b' = ply b /\ hisPly b' = hisPly b /\ castlePerm b' = castlePerm b
  /\ posKey b' = posKey b /\ pieceCount b' = pieceCount b
  /\ bigPce b' = bigPce b /\ majPce b' = majPce b /\ minPce b' = minPce b
  /\ material b' = material b.

(** Two boards agree in the position fields and in the history records
    below [hisPly], the records a take-back can still read. *)
Definition alike (b b' : ChessBoard) : Prop :=
  same_fields b b'
  /\ length (history b') = length (history b)
  /\ forall i, 0 <= i < hisPly b -> aget (history b') i = aget (history b) i.

(** A call of the move executor. *)
Inductive Call : Type :=
| CallMake (move : Z)
| CallTake
| CallMakeNull
| CallTakeNull.

(** What a take-back undoes: a move [Move_Make] accepted, or a null
    move. *)
Inductive Pending : Type :=
| PendingMove
| PendingNull.

(** One call on the board [b], with the calls not yet taken back in
    [pending], newest first.  [Move_Make] is called with a move that fits
    the board and, if it promotes, finds a free cell in the list of the
    promotion piece, while the history has room; a move it refuses leaves
    nothing to take back.  [Move_Take] is called when the newest call not
    yet taken back is an accepted move, [TakeNullMove] when it is a null
    move.  Any other call gives [None]. *)
Definition call_step (K : HashKeys) (st : ChessBoard * list Pending) (c : Call)
    : option (ChessBoard * list Pending) :=
  let b := fst st in
  let pending := snd st in
  match c with
  | CallMake move =>
      if move_fits b move && promotion_room b move
         && (hisPly b + 1 <? CHESS_MAX_GAME_MOVES)
      then
        let r := Move_Make K b move in
        Some (snd r, if fst r =? BOOL_TYPE_TRUE then PendingMove :: pending else pending)
      else None
  | CallTake =>
      match pending with
      | PendingMove :: rest => Some (Move_Take K b, rest)
      | _ => None
      end
  | CallMakeNull =>
      if hisPly b + 1 <? CHESS_MAX_GAME_MOVES
      then Some (MakeNullMove K b, PendingNull :: pending)
      else None
  | CallTakeNull =>
      match pending with
      | PendingNull :: rest => Some (TakeNullMove K b, rest)
      | _ => None
      end
  end.

(** A sequence of calls, from the first to the last. *)
Fixpoint run_calls (K : HashKeys) (st : ChessBoard * list Pending) (calls : list Call)
    : option (ChessBoard * list Pending) :=
  match calls with
  | [] => Some st
  | c :: rest =>
      match call_step K st c with
      | Some st' => run_calls K st' rest
      | None => None
      end
  end.

(** The board the calls not yet taken back would have made on their own,
    each applied to the board the one before it made, from a consistent
    start board whose index fields are in range and whose key is the key
    computed from scratch. *)
Inductive made_by (K : HashKeys) : ChessBoard -> list Pending -> Prop :=
| made_start (b : ChessBoard) :
    consistent b -> in_bounds b = true -> key_ok K b -> made_by K b []
| made_move (b : ChessBoard) (move : Z) (pending : list Pending) :
    made_by K b pending ->
    move_fits b move = true -> promotion_room b move = true ->
    hisPly b + 1 < CHESS_MAX_GAME_MOVES ->
    made_by K (Move_Make_apply K b move) (PendingMove :: pending)
| made_null (b : ChessBoard) (pending : list Pending) :
    made_by K b pending ->
    hisPly b + 1 < CHESS_MAX_GAME_MOVES ->
    made_by K (MakeNullMove K b) (PendingNull :: pending).

(** The board a sequence of calls has reached is like the board the
    calls not yet taken back make on their own, and its counts of
    captured pieces are not negative. *)
Definition tracked (K : HashKeys) (st : ChessBoard * list Pending) : Prop :=
  (exists i, made_by K i (snd st) /\ alike i (fst st))
  /\ 0 <= capturedWhiteCount (fst st) /\ 0 <= capturedBlackCount (fst st).

(** A position whose castling rights name a rook that is not on the
    board: white may castle king-side, and h1 is empty. *)
Definition rookless_fen : string := "4k3/8/8/8/8/8/8/4K3 w K - 0 1".

Definition rookless_board : ChessBoard := setup rookless_fen.

(** The castling move the generator builds on [rookless_board]. *)
Definition rookless_castle : Z := MOVE E1 G1 EMPTY EMPTY MFLAGCA.

(** Calls on [pin_board]: the king step to d2, which [Move_Make] refuses,
    the capture of the rook, a null move and the take-backs. *)
Definition sample_calls : list Call :=
  [CallMake (Move_Parse "e1d2" pin_board); CallMake (Move_Parse "e1e2" pin_board);
   CallMakeNull; CallTakeNull; CallTake].

(* ================================================================== *)
(** * Array laws *)
(* ================================================================== *)

Section ArrayLaws.

Context {A : Type} `{Filler A}.

Implicit Types (a : list A) (i j n : Z) (v w : A).

Lemma length_aset a i v : length (aset a i v) = length a.
Proof. unfold aset. destruct (i <? 0); [reflexivity | apply length_insert]. Qed.

Lemma aget_aset_eq a i v :
  0 <= i < Z.of_nat (length a) -> aget (aset a i v) i = v.
Proof.
  intros Hi. unfold aget, aset.
  destruct (Z.ltb_spec i 0); [lia |].
  rewrite list_lookup_insert_eq by lia. reflexivity.
Qed.

Lemma aget_aset_ne a i j v : i <> j -> aget (aset a i v) j = aget a j.
Proof.
  intros Hne. unfold aget, aset.
  destruct (Z.ltb_spec j 0); [reflexivity |].
  destruct (Z.ltb_spec i 0); [reflexivity |].
  rewrite list_lookup_insert_ne by lia. reflexivity.
Qed.

Lemma aget_aset a i j v :
  0 <= i < Z.of_nat (length a) ->
  aget (aset a i v) j = if j =? i then v else aget a j.
Proof.
  intros Hi. destruct (Z.eqb_spec j i) as [-> | Hne].
  - apply aget_aset_eq; assumption.
  - apply aget_aset_ne; congruence.
Qed.

Lemma aset_aset_eq a i v w : aset (aset a i v) i w = aset a i w.
Proof.
  unfold aset. destruct (i <? 0); [reflexivity | apply list_insert_insert_eq].
Qed.

Lemma aset_ext a a' :
  length a = length a' ->
  (forall i, 0 <= i < Z.of_nat (length a) -> aget a i = aget a' i) ->
  a = a'.
Proof.
  intros Hlen Hget. apply list_eq_same_length with (length a); [symmetry; exact Hlen | reflexivity |].
  intros k x y Hk Hx Hy.
  specialize (Hget (Z.of_nat k) ltac:(lia)).
  unfold aget in Hget. destruct (Z.ltb_spec (Z.of_nat k) 0); [lia |].
  rewrite Nat2Z.id, Hx, Hy in Hget. exact Hget.
Qed.

Lemma aset_id a i v : aget a i = v -> 0 <= i < Z.of_nat (length a) -> aset a i v = a.
Proof.
  intros Hv Hi. apply aset_ext; [apply length_aset |].
  intros j Hj. rewrite aget_aset by assumption.
  destruct (Z.eqb_spec j i); congruence.
Qed.

Lemma aset_out a i v : Z.of_nat (length a) <= i -> aset a i v = a.
Proof.
  intros Hi. unfold aset. destruct (Z.ltb_spec i 0); [reflexivity |].
  apply list_insert_ge. lia.
Qed.

Lemma aset_neg a i v : i < 0 -> aset a i v = a.
Proof. intros Hi. unfold aset. destruct (Z.ltb_spec i 0); [reflexivity | lia]. Qed.

Lemma aget_lookup a i x :
  0 <= i -> a !! Z.to_nat i = Some x -> aget a i = x.
Proof.
  intros Hi Hx. unfold aget. destruct (Z.ltb_spec i 0); [lia |]. rewrite Hx. reflexivity.
Qed.

Lemma lookup_aget a i :
  0 <= i < Z.of_nat (length a) -> a !! Z.to_nat i = Some (aget a i).
Proof.
  intros Hi. unfold aget. destruct (Z.ltb_spec i 0); [lia |].
  destruct (lookup_lt_is_Some_2 a (Z.to_nat i) ltac:(lia)) as [x Hx].
  rewrite Hx. reflexivity.
Qed.

Lemma length_aprefix a n :
  0 <= n <= Z.of_nat (length a) -> Z.of_nat (length (aprefix a n)) = n.
Proof. intros Hn. unfold aprefix. rewrite length_take. lia. Qed.

Lemma aprefix_lookup a n (k : nat) :
  (Z.of_nat k < n) -> aprefix a n !! k = a !! k.
Proof. intros Hk. unfold aprefix. apply lookup_take_lt. lia. Qed.

Lemma aprefix_aset_out a n i v : n <= i -> aprefix (aset a i v) n = aprefix a n.
Proof.
  intros Hi. unfold aprefix, aset. destruct (Z.ltb_spec i 0); [reflexivity |].
  apply take_insert_ge. lia.
Qed.

Lemma aprefix_snoc a n :
  0 <= n < Z.of_nat (length a) -> aprefix a (n + 1) = aprefix a n ++ [aget a n].
Proof.
  intros Hn. unfold aprefix.
  replace (Z.to_nat (n + 1)) with (S (Z.to_nat n)) by lia.
  apply take_S_r. apply lookup_aget. lia.
Qed.

End ArrayLaws.

Lemma aget_nil_Z (i : Z) : aget (@nil Z) i = 0.
Proof. unfold aget. destruct (i <? 0); reflexivity. Qed.

(* ================================================================== *)
(** * Reading a field of an updated board

    A field read through an assignment is either the assigned value or the
    same field of the board underneath.  The equation is proved for a
    variable board and then used by rewriting, so that no proof ever
    compares two large board terms by computation. *)
(* ================================================================== *)

Ltac is_field f :=
  lazymatch f with
  | pieces => idtac | pawns => idtac | KingSq => idtac | side => idtac
  | enPas => idtac | fiftyMove => idtac | ply => idtac | hisPly => idtac
  | castlePerm => idtac | posKey => idtac | pieceCount => idtac
  | bigPce => idtac | majPce => idtac | minPce => idtac | material => idtac
  | history => idtac | pList => idtac | hashTable => idtac
  | capturedWhite => idtac | capturedBlack => idtac
  | capturedWhiteCount => idtac | capturedBlackCount => idtac
  end.

Ltac is_setter g :=
  lazymatch g with
  | set_pieces => idtac | set_pawns => idtac | set_KingSq => idtac | set_side => idtac
  | set_enPas => idtac | set_fiftyMove => idtac | set_ply => idtac | set_hisPly => idtac
  | set_castlePerm => idtac | set_posKey => idtac | set_pieceCount => idtac
  | set_bigPce => idtac | set_majPce => idtac | set_minPce => idtac | set_material => idtac
  | set_history => idtac | set_pList => idtac | set_hashTable => idtac
  | set_capturedWhite => idtac | set_capturedBlack => idtac
  | set_capturedWhiteCount => idtac | set_capturedBlackCount => idtac
  end.

(** One rewriting step in the goal. *)
Ltac field_step :=
  match goal with
  | |- context [?f (?g ?v ?x)] =>
      is_field f; is_setter g;
      let E := fresh "E" in
      first
        [ assert (E : forall v' x', f (g v' x') = f x') by (intros; reflexivity)
        | assert (E : forall v' x', f (g v' x') = v') by (intros; reflexivity) ];
      rewrite !E; clear E
  end.

Ltac fields := repeat field_step.

(** The same in a hypothesis. *)
Ltac field_step_in H :=
  match type of H with
  | context [?f (?g ?v ?x)] =>
      is_field f; is_setter g;
      let E := fresh "E" in
      first
        [ assert (E : forall v' x', f (g v' x') = f x') by (intros; reflexivity)
        | assert (E : forall v' x', f (g v' x') = v') by (intros; reflexivity) ];
      rewrite !E in H; clear E
  end.

Ltac fields_in H := repeat field_step_in H.

Ltac split_ands := repeat match goal with |- _ /\ _ => split end.

(** Unfolding of assignments and reads on an explicit record. *)
Ltac board_cbv :=
  cbv beta iota zeta delta
    [set_pieces set_pawns set_KingSq set_side set_enPas set_fiftyMove set_ply set_hisPly
     set_castlePerm set_posKey set_pieceCount set_bigPce set_majPce set_minPce set_material
     set_history set_pList set_hashTable set_capturedWhite set_capturedBlack
     set_capturedWhiteCount set_capturedBlackCount
     pieces pawns KingSq side enPas fiftyMove ply hisPly castlePerm posKey pieceCount
     bigPce majPce minPce material history pList hashTable capturedWhite capturedBlack
     capturedWhiteCount capturedBlackCount].

(** Opens a board into its fields, under fixed names. *)
Ltac break_board b :=
  destruct b as [x_pieces x_pawns x_KingSq x_side x_enPas x_fiftyMove x_ply x_hisPly
                 x_castlePerm x_posKey x_pieceCount x_bigPce x_majPce x_minPce x_material
                 x_history x_pList x_hashTable x_capturedWhite x_capturedBlack
                 x_capturedWhiteCount x_capturedBlackCount].

(** Closed goals over concrete boards are settled by evaluation. *)
Ltac by_eval :=
  vm_compute; repeat split;
  first [reflexivity | discriminate | (intro; discriminate) | (intros; reflexivity)].

(* ================================================================== *)
(** * Transposition table: what a probe sees after a store *)
(* ================================================================== *)

Lemma slot_in_range (key n : Z) (tbl : list HashEntry) :
  0 < n -> Z.of_nat (length tbl) = n -> 0 <= key mod n < Z.of_nat (length tbl).
Proof. intros Hn Hlen. rewrite Hlen. apply Z.mod_pos_bound. exact Hn. Qed.

(** The slot [HashTable_StoreEntry] leaves behind. *)
Lemma store_slot (b : ChessBoard) (move score flags depth_ : Z) :
  0 < numEntries (hashTable b) ->
  Z.of_nat (length (pTable (hashTable b))) = numEntries (hashTable b) ->
  aget (pTable (hashTable (HashTable_StoreEntry b move score flags depth_)))
       (posKey b mod numEntries (hashTable b))
  = mkEntry (posKey b) move
      (if CHESS_IS_MATE <? score then score + ply b
       else if score <? - CHESS_IS_MATE then score - ply b else score)
      depth_ flags.
Proof.
  intros Hn Hlen.
  pose proof (slot_in_range (posKey b) _ _ Hn Hlen) as Hidx.
  unfold HashTable_StoreEntry, set_entry.
  destruct (e_posKey (aget (pTable (hashTable b)) (posKey b mod numEntries (hashTable b))) =? 0);
    cbn [hashTable set_hashTable pTable set_pTable set_newWrite set_overWrite numEntries];
    repeat (rewrite aget_aset_eq by (rewrite ?length_aset; exact Hidx));
    reflexivity.
Qed.

Lemma store_numEntries (b : ChessBoard) (move score flags depth_ : Z) :
  numEntries (hashTable (HashTable_StoreEntry b move score flags depth_))
  = numEntries (hashTable b).
Proof.
  unfold HashTable_StoreEntry, set_entry.
  destruct (e_posKey (aget (pTable (hashTable b)) (posKey b mod numEntries (hashTable b))) =? 0);
    reflexivity.
Qed.

(** The mate-distance shift applied on write is undone on read at the same
    ply. *)
Lemma mate_shift_roundtrip (score p : Z) :
  0 <= p ->
  let stored := if CHESS_IS_MATE <? score then score + p
                else if score <? - CHESS_IS_MATE then score - p else score in
  (if CHESS_IS_MATE <? stored then stored - p
   else if stored <? - CHESS_IS_MATE then stored + p else stored) = score.
Proof.
  intros Hp. unfold CHESS_IS_MATE, CHESS_INFINITE, CHESS_MAX_SEARCH_DEPTH. cbv zeta.
  repeat match goal with
         | |- context [?x <? ?y] => destruct (Z.ltb_spec x y)
         end; lia.
Qed.

(** A score that is no mate score passes the write and the read unshifted,
    whatever the two plies. *)
Lemma mate_shift_plain (score p p2 : Z) :
  - CHESS_IS_MATE <= score <= CHESS_IS_MATE ->
  let stored := if CHESS_IS_MATE <? score then score + p
                else if score <? - CHESS_IS_MATE then score - p else score in
  (if CHESS_IS_MATE <? stored then stored - p2
   else if stored <? - CHESS_IS_MATE then stored + p2 else stored) = score.
Proof.
  intros Hs. cbv zeta.
  destruct (Z.ltb_spec CHESS_IS_MATE score); [lia |].
  destruct (Z.ltb_spec score (- CHESS_IS_MATE)); [lia |].
  destruct (Z.ltb_spec CHESS_IS_MATE score); [lia |].
  destruct (Z.ltb_spec score (- CHESS_IS_MATE)); [lia | reflexivity].
Qed.

(** C4 (as the code has it).  After [HashTable_StoreEntry] has written an
    entry at depth [D] for the current key, a [HashTable_ProbeEntry] for
    the same key that still finds that entry in the slot, with a window
    [alpha < beta]:
    - if the entry was stored with [HFEXACT], the probe runs at the ply
      of the store and asks for a depth of at most [D], the probe reports
      the entry usable and hands back exactly the stored score;
    - if the entry was stored with [HFBETA] and the probe reports it
      usable, the requested depth is at most [D], the probe hands back
      [beta], and [beta] is at most the score as the probe reads it, which
      is the score given to the store shifted by the store's ply on write
      and by the probe's ply on read when it is a mate score;
    - so an [HFBETA] entry reported usable has a stored score of at least
      [beta] when the store's score is no mate score, and when the probe
      runs at the ply of the store. *)
Theorem C4_probe_after_store
    (b : ChessBoard) (move score flags D : Z)
    (b2 : ChessBoard) (move0 score0 alpha beta d : Z) :
  0 < numEntries (hashTable b) ->
  Z.of_nat (length (pTable (hashTable b))) = numEntries (hashTable b) ->
  posKey b2 = posKey b ->
  numEntries (hashTable b2) = numEntries (hashTable b) ->
  aget (pTable (hashTable b2)) (posKey b mod numEntries (hashTable b))
  = aget (pTable (hashTable (HashTable_StoreEntry b move score flags D)))
         (posKey b mod numEntries (hashTable b)) ->
  alpha < beta ->
  let '(usable, _, s, _) := HashTable_ProbeEntry b2 move0 score0 alpha beta d in
  let stored := if CHESS_IS_MATE <? score then score + ply b
                else if score <? - CHESS_IS_MATE then score - ply b else score in
  let read := if CHESS_IS_MATE <? stored then stored - ply b2
              else if stored <? - CHESS_IS_MATE then stored + ply b2 else stored in
  (flags = HFEXACT -> 0 <= ply b -> ply b2 = ply b -> d <= D ->
   usable = BOOL_TYPE_TRUE /\ s = score)
  /\ (flags = HFBETA -> usable = BOOL_TYPE_TRUE -> d <= D /\ beta <= read /\ s = beta)
  /\ (flags = HFBETA -> usable = BOOL_TYPE_TRUE ->
      - CHESS_IS_MATE <= score <= CHESS_IS_MATE \/ (0 <= ply b /\ ply b2 = ply b) ->
      beta <= score).
Proof.
  intros Hn Hlen Hkey Hn2 Hslot Hw.
  rewrite store_slot in Hslot by assumption.
  unfold HashTable_ProbeEntry.
  rewrite Hkey, Hn2, Hslot. cbn [e_posKey e_move e_depth e_score e_flags ply set_hashTable].
  rewrite Z.eqb_refl.
  set (stored := if CHESS_IS_MATE <? score then score + ply b
                 else if score <? - CHESS_IS_MATE then score - ply b else score).
  set (read := if CHESS_IS_MATE <? stored then stored - ply b2
               else if stored <? - CHESS_IS_MATE then stored + ply b2 else stored).
  assert (Hplain : - CHESS_IS_MATE <= score <= CHESS_IS_MATE \/ (0 <= ply b /\ ply b2 = ply b) ->
                   read = score).
  { intros [Hs | [Hp Hp2]].
    - apply (mate_shift_plain score (ply b) (ply b2) Hs).
    - unfold read, stored. rewrite Hp2. apply (mate_shift_roundtrip score (ply b) Hp). }
  destruct (Z.leb_spec d D) as [Hd | Hd].
  - destruct (Z.eqb_spec flags HFALPHA) as [Ha | Ha].
    { subst flags. destruct (read <=? alpha);
        (split; [discriminate | split; [discriminate | discriminate]]). }
    destruct (Z.eqb_spec flags HFBETA) as [Hb | Hb].
    { subst flags. destruct (Z.leb_spec beta read) as [Hbr | Hbr].
      - split; [discriminate |]. split.
        + intros _ _. split; [exact Hd |]. split; [exact Hbr | reflexivity].
        + intros _ _ Hc. rewrite <- (Hplain Hc). exact Hbr.
      - split; [discriminate |].
        split; intros _ Hu; discriminate Hu. }
    destruct (Z.eqb_spec flags HFEXACT) as [He | He].
    { split.
      - intros _ Hp Hp2 _. split; [reflexivity |]. apply Hplain. right. split; assumption.
      - split; intros Hf; congruence. }
    split; [intros Hf; congruence |]. split; intros Hf; congruence.
  - split; [intros _ _ _ Hd'; lia |].
    split; intros _ Hu; discriminate Hu.
Qed.

Lemma C4_probe_after_store_witness :
  (let '(usable, _, s, _) :=
     HashTable_ProbeEntry (HashTable_StoreEntry table_board 531363 29990 HFEXACT 5)
       0 0 (-50) 50 4 in
   usable = BOOL_TYPE_TRUE /\ s = 29990)
  /\ (let '(usable, _, s, _) :=
        HashTable_ProbeEntry (HashTable_StoreEntry table_board 531363 80 HFBETA 5)
          0 0 (-50) 50 4 in
      usable = BOOL_TYPE_TRUE /\ 4 <= 5 /\ s = 50 /\ 50 <= 80).
Proof.
  split.
  - pose proof (C4_probe_after_store table_board 531363 29990 HFEXACT 5
                  (HashTable_StoreEntry table_board 531363 29990 HFEXACT 5)
                  0 0 (-50) 50 4
                  ltac:(vm_compute; reflexivity) ltac:(vm_compute; reflexivity)
                  ltac:(vm_compute; reflexivity) ltac:(vm_compute; reflexivity)
                  ltac:(reflexivity) ltac:(lia)) as H.
    destruct (HashTable_ProbeEntry _ _ _ _ _ _) as [[[usable mv] s] b'].
    cbv zeta in H. destruct H as (H & _).
    apply H; [reflexivity | vm_compute; discriminate | vm_compute; reflexivity | lia].
  - pose proof (C4_probe_after_store table_board 531363 80 HFBETA 5
                  (HashTable_StoreEntry table_board 531363 80 HFBETA 5)
                  0 0 (-50) 50 4
                  ltac:(vm_compute; reflexivity) ltac:(vm_compute; reflexivity)
                  ltac:(vm_compute; reflexivity) ltac:(vm_compute; reflexivity)
                  ltac:(reflexivity) ltac:(lia)) as H.
    assert (Hu : fst (fst (fst (HashTable_ProbeEntry
                   (HashTable_StoreEntry table_board 531363 80 HFBETA 5) 0 0 (-50) 50 4)))
                 = BOOL_TYPE_TRUE) by (vm_compute; reflexivity).
    destruct (HashTable_ProbeEntry _ _ _ _ _ _) as [[[usable mv] s] b'].
    cbn [fst] in Hu. cbv zeta in H. destruct H as (_ & H2 & H3).
    destruct (H2 eq_refl Hu) as (Hd & _ & Hs).
    split; [exact Hu |]. split; [exact Hd |]. split; [exact Hs |].
    apply (H3 eq_refl Hu). left. vm_compute. split; discriminate.
Defined.

(** C4, the claim as stated fails for mate scores: a lower bound of 29990
    stored at ply 10 is kept as 30000 and read at ply 3 as 29997, so the
    probe with [beta = 29995] reports the entry usable although the score
    given to the store is below [beta]. *)
Lemma C4_counterexample :
  let b := set_ply 10 table_board in
  let b2 := set_ply 3 (HashTable_StoreEntry b 531363 29990 HFBETA 5) in
  let '(usable, _, s, _) := HashTable_ProbeEntry b2 0 0 29000 29995 4 in
  posKey b2 = posKey b /\ usable = BOOL_TYPE_TRUE /\ s = 29995 /\ 29990 < 29995.
Proof. vm_compute. repeat split; reflexivity. Qed.

(* ================================================================== *)
(** * Transposition table: sizing and the retry on allocation failure *)
(* ================================================================== *)

Lemma HashTable_Clear_fold_numEntries (l : list Z) (t : HashTable) :
  numEntries (fold_left
     (fun t i => set_pTable (aset (pTable t) i (mkEntry 0 NOMOVE 0 0 0)) t) l t)
  = numEntries t.
Proof.
  revert t. induction l as [| i l IH]; intros t; [reflexivity |].
  cbn [fold_left]. rewrite IH. reflexivity.
Qed.

Lemma HashTable_Clear_numEntries (t : HashTable) :
  numEntries (HashTable_Clear t) = numEntries t.
Proof.
  unfold HashTable_Clear. cbn [numEntries set_newWrite].
  apply HashTable_Clear_fold_numEntries.
Qed.

(** One call: it returns with the count of its own budget when [malloc]
    serves the request, and goes on with half the budget when not. *)
Lemma HashTable_Init_step (sizeof_HashEntry : Z) (malloc_succeeds : Z -> bool)
    (fuel : nat) (table : HashTable) (MB : Z) :
  0 <= MB <= CHESS_MAX_HASH ->
  let request :=
    to_size_t (1048576 * MB / sizeof_HashEntry - 2) * sizeof_HashEntry mod 2 ^ 64 in
  (malloc_succeeds request = true ->
   exists table',
     HashTable_Init sizeof_HashEntry malloc_succeeds (S fuel) table MB = Some table'
     /\ numEntries table' = 1048576 * MB / sizeof_HashEntry - 2)
  /\ (malloc_succeeds request = false ->
      exists table0,
        HashTable_Init sizeof_HashEntry malloc_succeeds (S fuel) table MB
        = HashTable_Init sizeof_HashEntry malloc_succeeds fuel table0 (MB / 2)).
Proof.
  intros HMB request.
  assert (E : to_size_t (1048576 * MB) = 1048576 * MB).
  { unfold to_size_t. apply Z.mod_small. unfold CHESS_MAX_HASH in HMB. lia. }
  assert (Hq : Z.quot MB 2 = MB / 2) by (apply Z.quot_div_nonneg; lia).
  split; intros Hm.
  - cbn [HashTable_Init numEntries set_numEntries]. rewrite E. fold request. rewrite Hm.
    eexists. split; [reflexivity |].
    rewrite HashTable_Clear_numEntries. reflexivity.
  - cbn [HashTable_Init numEntries set_numEntries]. rewrite E. fold request. rewrite Hm, Hq.
    eexists. reflexivity.
Qed.

Lemma half_budget (MB : Z) :
  0 <= MB <= CHESS_MAX_HASH -> 0 <= MB / 2 <= CHESS_MAX_HASH.
Proof.
  intros HMB. split; [apply Z.div_pos; lia |].
  apply Z.le_trans with MB; [| lia]. apply Z.div_le_upper_bound; lia.
Qed.

Lemma halved_again (MB : Z) (i : nat) :
  MB / 2 / 2 ^ Z.of_nat i = MB / 2 ^ Z.of_nat (S i).
Proof.
  rewrite Nat2Z.inj_succ, Z.pow_succ_r by lia. rewrite Z.div_div by lia. reflexivity.
Qed.

(** The call after [k] refused allocations and one that is served. *)
Lemma HashTable_Init_refused (sizeof_HashEntry : Z) (malloc_succeeds : Z -> bool) (k : nat) :
  forall (table : HashTable) (MB : Z),
  0 <= MB <= CHESS_MAX_HASH ->
  (forall i : nat, (i < k)%nat ->
     malloc_succeeds
       (to_size_t (1048576 * (MB / 2 ^ Z.of_nat i) / sizeof_HashEntry - 2)
        * sizeof_HashEntry mod 2 ^ 64) = false) ->
  malloc_succeeds
    (to_size_t (1048576 * (MB / 2 ^ Z.of_nat k) / sizeof_HashEntry - 2)
     * sizeof_HashEntry mod 2 ^ 64) = true ->
  forall fuel : nat,
    match HashTable_Init sizeof_HashEntry malloc_succeeds fuel table MB with
    | Some table' =>
        (k < fuel)%nat
        /\ numEntries table' = 1048576 * (MB / 2 ^ Z.of_nat k) / sizeof_HashEntry - 2
    | None => (fuel <= k)%nat
    end.
Proof.
  induction k as [| k IH]; intros table MB HMB Hno Hyes fuel.
  - change (2 ^ Z.of_nat 0) with 1 in Hyes. rewrite Z.div_1_r in Hyes.
    destruct fuel as [| fuel]; [cbn [HashTable_Init]; lia |].
    destruct (proj1 (HashTable_Init_step sizeof_HashEntry malloc_succeeds fuel table MB HMB)
                Hyes) as (t' & -> & Hnum).
    split; [lia |]. rewrite Hnum. change (2 ^ Z.of_nat 0) with 1. rewrite Z.div_1_r.
    reflexivity.
  - destruct fuel as [| fuel]; [cbn [HashTable_Init]; lia |].
    pose proof (Hno 0%nat ltac:(lia)) as H0.
    change (2 ^ Z.of_nat 0) with 1 in H0. rewrite Z.div_1_r in H0.
    destruct (proj2 (HashTable_Init_step sizeof_HashEntry malloc_succeeds fuel table MB HMB)
                H0) as (t0 & ->).
    specialize (IH t0 (MB / 2) (half_budget MB HMB)).
    assert (Hno' : forall i : nat, (i < k)%nat ->
              malloc_succeeds
                (to_size_t (1048576 * (MB / 2 / 2 ^ Z.of_nat i) / sizeof_HashEntry - 2)
                 * sizeof_HashEntry mod 2 ^ 64) = false).
    { intros i Hi. rewrite halved_again. apply Hno. lia. }
    assert (Hyes' : malloc_succeeds
                (to_size_t (1048576 * (MB / 2 / 2 ^ Z.of_nat k) / sizeof_HashEntry - 2)
                 * sizeof_HashEntry mod 2 ^ 64) = true).
    { rewrite halved_again. exact Hyes. }
    specialize (IH Hno' Hyes' fuel).
    destruct (HashTable_Init sizeof_HashEntry malloc_succeeds fuel t0 (MB / 2)) as [t' |].
    + destruct IH as (Hk & Hnum). split; [lia |]. rewrite Hnum, halved_again. reflexivity.
    + lia.
Qed.

(** The first attempt: if [malloc] serves it, the call returns at once. *)
Lemma HashTable_Init_first_attempt (sizeof_HashEntry : Z) (malloc_succeeds : Z -> bool)
    (fuel : nat) (table : HashTable) (MB : Z) :
  0 <= MB <= CHESS_MAX_HASH ->
  malloc_succeeds
    (to_size_t (1048576 * MB / sizeof_HashEntry - 2) * sizeof_HashEntry mod 2 ^ 64) = true ->
  exists table',
    HashTable_Init sizeof_HashEntry malloc_succeeds (S fuel) table MB = Some table'
    /\ numEntries table' = 1048576 * MB / sizeof_HashEntry - 2.
Proof.
  intros HMB Hok.
  exact (proj1 (HashTable_Init_step sizeof_HashEntry malloc_succeeds fuel table MB HMB) Hok).
Qed.

(** C7 (as the code has it).  [HashTable_Init] is called with a budget of
    [MB] megabytes, [malloc] refuses the requests of the first [k]
    attempts -- made for [MB], [MB / 2], ... , the budget halved once per
    refusal -- and serves the request of the next one.  Then the call
    returns after these [k + 1] attempts, and the table it leaves has as
    many entries as fit the budget [MB / 2^k] it settled on, in bytes
    divided by the entry size, rounded down, minus two. *)
Theorem C7_entry_count (sizeof_HashEntry : Z) (malloc_succeeds : Z -> bool)
    (table : HashTable) (MB : Z) (k : nat) :
  0 <= MB <= CHESS_MAX_HASH ->
  (forall i : nat, (i < k)%nat ->
     malloc_succeeds
       (to_size_t (1048576 * (MB / 2 ^ Z.of_nat i) / sizeof_HashEntry - 2)
        * sizeof_HashEntry mod 2 ^ 64) = false) ->
  malloc_succeeds
    (to_size_t (1048576 * (MB / 2 ^ Z.of_nat k) / sizeof_HashEntry - 2)
     * sizeof_HashEntry mod 2 ^ 64) = true ->
  (exists table',
     HashTable_Init sizeof_HashEntry malloc_succeeds (S k) table MB = Some table')
  /\ (forall (fuel : nat) (table' : HashTable),
        HashTable_Init sizeof_HashEntry malloc_succeeds fuel table MB = Some table' ->
        (k < fuel)%nat
        /\ numEntries table' = 1048576 * (MB / 2 ^ Z.of_nat k) / sizeof_HashEntry - 2).
Proof.
  intros HMB Hno Hyes. split.
  - pose proof (HashTable_Init_refused sizeof_HashEntry malloc_succeeds k table MB
                  HMB Hno Hyes (S k)) as H.
    destruct (HashTable_Init sizeof_HashEntry malloc_succeeds (S k) table MB) as [t' |].
    + exists t'. reflexivity.
    + lia.
  - intros fuel table' Hinit.
    pose proof (HashTable_Init_refused sizeof_HashEntry malloc_succeeds k table MB
                  HMB Hno Hyes fuel) as H.
    rewrite Hinit in H. exact H.
Qed.

Lemma C7_entry_count_witness :
  (exists table',
     HashTable_Init 24 (fun n => n <? 20000000) 3 (mkTable [] 0 0 0 0 0) 64 = Some table')
  /\ (forall (fuel : nat) (table' : HashTable),
        HashTable_Init 24 (fun n => n <? 20000000) fuel (mkTable [] 0 0 0 0 0) 64
        = Some table' ->
        (2 < fuel)%nat /\ numEntries table' = 1048576 * (64 / 2 ^ Z.of_nat 2) / 24 - 2).
Proof.
  apply (C7_entry_count 24 (fun n => n <? 20000000) (mkTable [] 0 0 0 0 0) 64 2).
  - unfold CHESS_MAX_HASH. lia.
  - intros i Hi. destruct i as [| [| i]]; [vm_compute; reflexivity | vm_compute; reflexivity | lia].
  - vm_compute. reflexivity.
Defined.

(** C7, the claim as stated fails: at start-up the engine asks for 64 MB;
    with 24-byte entries and memory available the table gets 2796200
    entries, two fewer than the 2796202 that fit the budget. *)
Lemma C7_counterexample :
  exists table',
    HashTable_Init 24 (fun n => n <? 2 ^ 40) 1 (mkTable [] 0 0 0 0 0) 64 = Some table'
    /\ numEntries table' = 2796200
    /\ numEntries table' <> 1048576 * 64 / 24.
Proof.
  destruct (HashTable_Init_first_attempt 24 (fun n => n <? 2 ^ 40) 0
              (mkTable [] 0 0 0 0 0) 64) as (t1 & Ht1 & Hn1).
  - unfold CHESS_MAX_HASH. lia.
  - vm_compute. reflexivity.
  - exists t1. split; [exact Ht1 |]. rewrite Hn1. split; [reflexivity | discriminate].
Qed.

(** C8.  [HashTable_Init] has no floor.  With memory exhausted (every
    request refused) the call for 64 MB never returns, however far the
    recursion is unfolded; and once the budget has been halved down to 0
    the request is for [2^64 - 48] bytes, which an allocator that serves
    anything below [2^47] bytes still refuses, so the call for 0 MB never
    returns either. *)
Theorem C8_retry_does_not_terminate :
  (forall (fuel : nat) (table : HashTable),
      HashTable_Init 24 (fun _ => false) fuel table 64 = None)
  /\ (forall (fuel : nat) (table : HashTable),
      HashTable_Init 24 (fun n => n <? 2 ^ 47) fuel table 0 = None).
Proof.
  split.
  - intros fuel table. generalize 64. revert table.
    induction fuel as [| fuel IH]; intros table MB; [reflexivity |].
    cbn [HashTable_Init]. apply IH.
  - intros fuel. induction fuel as [| fuel IH]; intros table; [reflexivity |].
    cbn [HashTable_Init].
    change (Z.quot 0 2) with 0.
    replace ((fun n => n <? 2 ^ 47)
               (to_size_t (numEntries
                  (set_numEntries (numEntries
                     (set_numEntries (to_size_t (1048576 * 0) / 24) table) - 2)
                     (set_numEntries (to_size_t (1048576 * 0) / 24) table))) * 24 mod 2 ^ 64))
      with false by (vm_compute; reflexivity).
    apply IH.
Qed.

(* ================================================================== *)
(** * Draw rules of the protocol layer *)
(* ================================================================== *)

(** A counting loop adds the number of indices that pass the test. *)
Lemma count_loop (P : Z -> bool) (l : list Z) (r : Z) :
  fold_left (fun r i => if P i then r + 1 else r) l r
  = r + Z.of_nat (length (List.filter P l)).
Proof.
  revert r. induction l as [| i l IH]; intros r; cbn [fold_left List.filter].
  - cbn. lia.
  - rewrite IH. destruct (P i); cbn [length]; lia.
Qed.

Lemma filter_hit (P : Z -> bool) (l : list Z) (x : Z) :
  In x l -> P x = true -> (1 <= length (List.filter P l))%nat.
Proof.
  intros Hin HP.
  assert (Hx : In x (List.filter P l)) by (apply filter_In; split; assumption).
  destruct (List.filter P l); [destruct Hx | cbn; lia].
Qed.

Lemma ThreeFoldRep_two (b : ChessBoard) (i j : Z) :
  0 <= i < j -> j < hisPly b ->
  u_posKey (aget (history b) i) = posKey b ->
  u_posKey (aget (history b) j) = posKey b ->
  2 <= ThreeFoldRep b.
Proof.
  intros Hij Hj Hi Hjk. unfold ThreeFoldRep. rewrite count_loop.
  replace (hisPly b) with (j + (hisPly b - j)) by lia.
  rewrite seqZ_app by lia. rewrite List.filter_app, length_app.
  pose proof (filter_hit (fun k => u_posKey (aget (history b) k) =? posKey b)
                (seqZ 0 j) i) as H1.
  pose proof (filter_hit (fun k => u_posKey (aget (history b) k) =? posKey b)
                (seqZ (0 + j) (hisPly b - j)) j) as H2.
  cbv beta in H1, H2.
  rewrite Hi, Z.eqb_refl in H1. rewrite Hjk, Z.eqb_refl in H2.
  specialize (H1 ltac:(apply list_elem_of_In, elem_of_seqZ; lia) eq_refl).
  specialize (H2 ltac:(apply list_elem_of_In, elem_of_seqZ; lia) eq_refl).
  lia.
Qed.

(** C9 (as the code has it).  A position whose key stands at two earlier places of the recorded
    history (so that it is now reached for the third time) makes
    [ThreeFoldRep] report at least 2 and [checkresult] return true,
    announcing the repetition unless the fifty-move test, which comes
    first, already fired; and a position in which neither side has a pawn,
    rook or queen and each side has at most one minor piece (a bishop or a
    knight, not both) makes [DrawMaterial] return true, which
    [checkresult] announces as insufficient material when the two earlier
    tests do not fire. *)
Theorem C9_draw_detection (K : HashKeys) (b : ChessBoard) :
  ((exists i j, 0 <= i < j /\ j < hisPly b
       /\ u_posKey (aget (history b) i) = posKey b
       /\ u_posKey (aget (history b) j) = posKey b) ->
   2 <= ThreeFoldRep b
   /\ fst (fst (checkresult K b)) = BOOL_TYPE_TRUE
   /\ (fiftyMove b <= 100 -> snd (fst (checkresult K b)) = Some ThreeFoldRepetition))
  /\
  (let n := aget (pieceCount b) in
   n PIECE_TYPE_WHITE_PAWN = 0 /\ n PIECE_TYPE_BLACK_PAWN = 0 /\
   n PIECE_TYPE_WHITE_ROOK = 0 /\ n PIECE_TYPE_BLACK_ROOK = 0 /\
   n PIECE_TYPE_WHITE_QUEEN = 0 /\ n PIECE_TYPE_BLACK_QUEEN = 0 /\
   0 <= n PIECE_TYPE_WHITE_KNIGHT /\ 0 <= n PIECE_TYPE_WHITE_BISHOP /\
   n PIECE_TYPE_WHITE_KNIGHT + n PIECE_TYPE_WHITE_BISHOP <= 1 /\
   0 <= n PIECE_TYPE_BLACK_KNIGHT /\ 0 <= n PIECE_TYPE_BLACK_BISHOP /\
   n PIECE_TYPE_BLACK_KNIGHT + n PIECE_TYPE_BLACK_BISHOP <= 1 ->
   DrawMaterial b = BOOL_TYPE_TRUE
   /\ fst (fst (checkresult K b)) = BOOL_TYPE_TRUE
   /\ (fiftyMove b <= 100 -> ThreeFoldRep b < 2 ->
       snd (fst (checkresult K b)) = Some InsufficientMaterial)).
Proof.
  split.
  - intros (i & j & Hij & Hj & Hi & Hjk).
    pose proof (ThreeFoldRep_two b i j Hij Hj Hi Hjk) as Hrep.
    split; [exact Hrep |].
    unfold checkresult.
    destruct (Z.ltb_spec 100 (fiftyMove b)).
    + split; [reflexivity | intros; lia].
    + destruct (Z.leb_spec 2 (ThreeFoldRep b)); [| lia].
      split; [reflexivity | intros _; reflexivity].
  - cbv zeta. intros (Hwp & Hbp & Hwr & Hbr & Hwq & Hbq & Hwn & Hwb & Hw & Hbn & Hbb & Hb).
    assert (Hdraw : DrawMaterial b = BOOL_TYPE_TRUE).
    { unfold DrawMaterial. cbv zeta.
      rewrite Hwp, Hbp, Hwr, Hbr, Hwq, Hbq. cbn [nz Z.eqb negb orb].
      unfold nz.
      repeat match goal with
             | |- context [?x <? ?y] => destruct (Z.ltb_spec x y); try lia
             | |- context [?x =? ?y] => destruct (Z.eqb_spec x y); try lia
             end; reflexivity. }
    split; [exact Hdraw |].
    unfold checkresult.
    destruct (Z.ltb_spec 100 (fiftyMove b)).
    + split; [reflexivity | intros; lia].
    + destruct (Z.leb_spec 2 (ThreeFoldRep b)).
      * split; [reflexivity | intros; lia].
      * rewrite Hdraw. cbn [Z.eqb BOOL_TYPE_TRUE].
        split; [reflexivity | intros; reflexivity].
Qed.

Lemma C9_draw_detection_witness :
  (2 <= ThreeFoldRep shuffle_board
   /\ fst (fst (checkresult sample_keys shuffle_board)) = BOOL_TYPE_TRUE
   /\ (fiftyMove shuffle_board <= 100 ->
       snd (fst (checkresult sample_keys shuffle_board)) = Some ThreeFoldRepetition))
  /\ (DrawMaterial minor_board = BOOL_TYPE_TRUE
      /\ fst (fst (checkresult sample_keys minor_board)) = BOOL_TYPE_TRUE
      /\ (fiftyMove minor_board <= 100 -> ThreeFoldRep minor_board < 2 ->
          snd (fst (checkresult sample_keys minor_board)) = Some InsufficientMaterial)).
Proof.
  split.
  - refine (proj1 (C9_draw_detection sample_keys shuffle_board) _).
    exists 0, 4. by_eval.
  - refine (proj2 (C9_draw_detection sample_keys minor_board) _).
    by_eval.
Defined.

(** C9, the claim as stated fails: the game [knight_tour] is played move
    by move from the starting position, [checkresult] letting it go on
    before every move; after its 101 moves the position stands for the
    third time (its key is in the history entries 5 and 53 and
    [ThreeFoldRep] counts 2), yet [checkresult] does not flag a
    repetition: the fifty-move counter is 101 and it announces the
    fifty-move rule, without calling [ThreeFoldRep]. *)
Lemma C9_counterexample :
  fold_left game_move knight_tour (Some start_board) = Some tour_board
  /\ hisPly tour_board = 101 /\ fiftyMove tour_board = 101
  /\ u_posKey (aget (history tour_board) 5) = posKey tour_board
  /\ u_posKey (aget (history tour_board) 53) = posKey tour_board
  /\ ThreeFoldRep tour_board = 2
  /\ snd (fst (checkresult sample_keys tour_board)) = Some FiftyMoveRule
  /\ snd (fst (checkresult sample_keys tour_board)) <> Some ThreeFoldRepetition.
Proof.
  split; [vm_compute; reflexivity |].
  split; [vm_compute; reflexivity |].
  split; [vm_compute; reflexivity |].
  split; [vm_compute; reflexivity |].
  split; [vm_compute; reflexivity |].
  split; [vm_compute; reflexivity |].
  split; [vm_compute; reflexivity |].
  vm_compute. discriminate.
Qed.

(* ================================================================== *)
(** * Draw short-circuit of the search *)
(* ================================================================== *)

Lemma IsRepetition_hit (b : ChessBoard) (i : Z) :
  hisPly b - fiftyMove b <= i < hisPly b - 1 ->
  u_posKey (aget (history b) i) = posKey b ->
  IsRepetition b = BOOL_TYPE_TRUE.
Proof.
  intros Hi Hkey. unfold IsRepetition.
  replace (existsb _ _) with true; [reflexivity |].
  symmetry. apply existsb_exists. exists i. split.
  - apply list_elem_of_In, elem_of_seqZ. lia.
  - rewrite Hkey. apply Z.eqb_refl.
Qed.



(* ================================================================== *)
(** * Coordinate notation *)
(* ================================================================== *)

(** The scan returns the first move of the list that the squares and the
    promotion letter designate. *)
Lemma parse_scan_first (moves : list Z) (from to c4 : Z) :
  parse_scan moves from to c4
  = hd NOMOVE (List.filter
       (fun m => (MOVE_GET_FROM_SQUARE m =? from) && (MOVE_GET_TO_SQUARE m =? to)
                 && ((MOVE_GET_PROMOTED m =? EMPTY)
                     || promo_letter_matches (MOVE_GET_PROMOTED m) c4))
       moves).
Proof.
  induction moves as [| m moves IH]; [reflexivity |].
  cbn [parse_scan List.filter].
  destruct (MOVE_GET_FROM_SQUARE m =? from); [| exact IH].
  destruct (MOVE_GET_TO_SQUARE m =? to); [| exact IH].
  destruct (MOVE_GET_PROMOTED m =? EMPTY); [reflexivity |].
  cbn [negb andb orb].
  destruct (promo_letter_matches (MOVE_GET_PROMOTED m) c4); [reflexivity | exact IH].
Qed.

Lemma Move_Parse_first (ptrChar : string) (b : ChessBoard) :
  Move_Parse ptrChar b = hd NOMOVE (List.filter (designates ptrChar) (Move_GenerateAll b)).
Proof.
  unfold Move_Parse, designates.
  destruct ((code "8" <? char_at ptrChar 1) || (char_at ptrChar 1 <? code "1"));
    [cbn [negb andb]; induction (Move_GenerateAll b); [reflexivity | assumption] |].
  destruct ((code "8" <? char_at ptrChar 3) || (char_at ptrChar 3 <? code "1"));
    [cbn [negb andb]; induction (Move_GenerateAll b); [reflexivity | assumption] |].
  destruct ((code "h" <? char_at ptrChar 0) || (char_at ptrChar 0 <? code "a"));
    [cbn [negb andb]; induction (Move_GenerateAll b); [reflexivity | assumption] |].
  destruct ((code "h" <? char_at ptrChar 2) || (char_at ptrChar 2 <? code "a"));
    [cbn [negb andb]; induction (Move_GenerateAll b); [reflexivity | assumption] |].
  cbn [negb andb]. apply parse_scan_first.
Qed.

Lemma hd_filter_in (P : Z -> bool) (l : list Z) (m : Z) :
  hd NOMOVE (List.filter P l) = m -> m <> NOMOVE -> In m l /\ P m = true.
Proof.
  intros Hhd Hm.
  destruct (List.filter P l) as [| x r] eqn:E; cbn [hd] in Hhd; [congruence |].
  subst x. apply filter_In. rewrite E. left. reflexivity.
Qed.

Lemma hd_filter_none (P : Z -> bool) (l : list Z) :
  (forall m, In m l -> P m = false) -> hd NOMOVE (List.filter P l) = NOMOVE.
Proof.
  intros Hnone.
  destruct (List.filter P l) as [| x r] eqn:E; [reflexivity |].
  assert (Hx : In x (List.filter P l)) by (rewrite E; left; reflexivity).
  apply filter_In in Hx. destruct Hx as [Hin HP].
  rewrite (Hnone x Hin) in HP. discriminate.
Qed.

(** C6 (as the code has it).  [Move_Parse] returns the first move of the
    list [Move_GenerateAll] produces for the position that the text
    designates (source square, destination square and, for a promotion,
    the promotion letter).  So a move it returns is always a generated,
    that is pseudo-legal, move designated by the text, and it returns
    [NOMOVE] when the text designates no generated move.  Whether
    [Move_Make] would accept the move plays no part. *)
Theorem C6_parse_generated (ptrChar : string) (b : ChessBoard) :
  Move_Parse ptrChar b = hd NOMOVE (List.filter (designates ptrChar) (Move_GenerateAll b))
  /\ (Move_Parse ptrChar b <> NOMOVE ->
      In (Move_Parse ptrChar b) (Move_GenerateAll b)
      /\ designates ptrChar (Move_Parse ptrChar b) = true)
  /\ ((forall m, In m (Move_GenerateAll b) -> designates ptrChar m = false) ->
      Move_Parse ptrChar b = NOMOVE).
Proof.
  split; [apply Move_Parse_first |]. split.
  - intros Hm. apply hd_filter_in; [symmetry; apply Move_Parse_first | exact Hm].
  - intros Hnone. rewrite Move_Parse_first. apply hd_filter_none. exact Hnone.
Qed.

Lemma C6_parse_generated_witness :
  Move_Parse "e2e4" start_board
  = hd NOMOVE (List.filter (designates "e2e4") (Move_GenerateAll start_board))
  /\ In (Move_Parse "e2e4" start_board) (Move_GenerateAll start_board)
  /\ designates "e2e4" (Move_Parse "e2e4" start_board) = true
  /\ Move_Parse "e2e5" start_board = NOMOVE.
Proof.
  destruct (C6_parse_generated "e2e4" start_board) as (H1 & H2 & _).
  destruct (C6_parse_generated "e2e5" start_board) as (_ & _ & H3).
  split; [exact H1 |].
  split; [apply H2; by_eval |].
  split; [apply H2; by_eval |].
  apply H3. intros m Hm.
  revert m Hm. apply Forall_forall. vm_compute.
  repeat (constructor; [reflexivity |]). constructor.
Defined.

(** C6, the claim as stated fails: in [pin_board] the text [e1d2] is
    parsed to a move although [Move_Make] refuses that move (the king
    would stand next to the rook on e2, on its rank). *)
Lemma C6_counterexample :
  Move_Parse "e1d2" pin_board <> NOMOVE
  /\ fst (Move_Make sample_keys pin_board (Move_Parse "e1d2" pin_board)) = BOOL_TYPE_FALSE.
Proof. by_eval. Qed.

(* ================================================================== *)
(** * Position setup: what a refused string leaves behind *)
(* ================================================================== *)

Lemma set_pieces_eta (b : ChessBoard) : set_pieces (pieces b) b = b.
Proof. destruct b; reflexivity. Qed.

Lemma set_pieces_twice (v w : list Z) (b : ChessBoard) :
  set_pieces v (set_pieces w b) = set_pieces v b.
Proof. reflexivity. Qed.

(** A loop whose body leaves a projection alone leaves it alone. *)
Lemma fold_left_keeps {S A T : Type} (proj : S -> T) (f : S -> A -> S) (l : list A) (s : S) :
  (forall s x, proj (f s x) = proj s) -> proj (fold_left f l s) = proj s.
Proof.
  intros Hstep. revert s. induction l as [| x l IH]; intros s; [reflexivity |].
  cbn [fold_left]. rewrite IH. apply Hstep.
Qed.

Ltac fold_keeps :=
  repeat match goal with
         | |- context [?p (fold_left ?f ?l ?s)] =>
             rewrite (fold_left_keeps p f l s (fun _ _ => eq_refl))
         end.

(** What the four blocks of [Board_Reset] do to the fields the theorem
    mentions. *)
Lemma reset_mailbox_frame (b : ChessBoard) :
  pList (reset_mailbox b) = pList b /\ history (reset_mailbox b) = history b
  /\ hashTable (reset_mailbox b) = hashTable b.
Proof.
  unfold reset_mailbox. split_ands;
    fold_keeps; reflexivity.
Qed.

Lemma reset_counters_frame (b : ChessBoard) :
  pList (reset_counters b) = pList b /\ history (reset_counters b) = history b
  /\ hashTable (reset_counters b) = hashTable b.
Proof.
  unfold reset_counters. split_ands;
    fold_keeps; reflexivity.
Qed.

Lemma reset_state_frame (b : ChessBoard) :
  pList (reset_state b) = pList b /\ history (reset_state b) = history b
  /\ hashTable (reset_state b) = hashTable b.
Proof. split_ands; reflexivity. Qed.

Lemma reset_state_values (b : ChessBoard) :
  side (reset_state b) = COLOR_TYPE_BOTH /\ enPas (reset_state b) = NO_SQ
  /\ castlePerm (reset_state b) = 0 /\ posKey (reset_state b) = 0
  /\ fiftyMove (reset_state b) = 0 /\ ply (reset_state b) = 0 /\ hisPly (reset_state b) = 0.
Proof. split_ands; reflexivity. Qed.

Lemma reset_captured_frame (b : ChessBoard) :
  (pList (reset_captured b) = pList b /\ history (reset_captured b) = history b
   /\ hashTable (reset_captured b) = hashTable b)
  /\ side (reset_captured b) = side b /\ enPas (reset_captured b) = enPas b
  /\ castlePerm (reset_captured b) = castlePerm b /\ posKey (reset_captured b) = posKey b
  /\ fiftyMove (reset_captured b) = fiftyMove b /\ ply (reset_captured b) = ply b
  /\ hisPly (reset_captured b) = hisPly b.
Proof.
  unfold reset_captured. split_ands;
    fold_keeps; reflexivity.
Qed.

Lemma Board_Reset_scalars (b : ChessBoard) :
  side (Board_Reset b) = COLOR_TYPE_BOTH /\ enPas (Board_Reset b) = NO_SQ
  /\ castlePerm (Board_Reset b) = 0 /\ posKey (Board_Reset b) = 0
  /\ fiftyMove (Board_Reset b) = 0 /\ ply (Board_Reset b) = 0 /\ hisPly (Board_Reset b) = 0.
Proof.
  unfold Board_Reset. cbv zeta.
  destruct (reset_captured_frame (reset_state (reset_counters (reset_mailbox b))))
    as (_ & H1 & H2 & H3 & H4 & H5 & H6 & H7).
  destruct (reset_state_values (reset_counters (reset_mailbox b)))
    as (V1 & V2 & V3 & V4 & V5 & V6 & V7).
  rewrite H1, H2, H3, H4, H5, H6, H7. split_ands; assumption.
Qed.

Lemma Board_Reset_untouched (b : ChessBoard) :
  pList (Board_Reset b) = pList b /\ history (Board_Reset b) = history b
  /\ hashTable (Board_Reset b) = hashTable b.
Proof.
  unfold Board_Reset. cbv zeta.
  destruct (reset_captured_frame (reset_state (reset_counters (reset_mailbox b))))
    as ((A1 & A2 & A3) & _).
  destruct (reset_state_frame (reset_counters (reset_mailbox b))) as (B1 & B2 & B3).
  destruct (reset_counters_frame (reset_mailbox b)) as (C1' & C2' & C3').
  destruct (reset_mailbox_frame b) as (D1' & D2' & D3').
  rewrite A1, A2, A3, B1, B2, B3, C1', C2', C3'. split_ands; assumption.
Qed.

Lemma fen_fill_frame (piece rank file : Z) (b : ChessBoard) (count : nat)
    (b1 : ChessBoard) (file1 : Z) :
  fen_fill piece rank file b count = Some (b1, file1) ->
  b1 = set_pieces (pieces b1) b.
Proof.
  revert file b. induction count as [| k IH]; intros file b; cbn [fen_fill].
  - intros E. injection E as <- _. symmetry. apply set_pieces_eta.
  - destruct ((0 <=? rank * 8 + file) && (rank * 8 + file <? 64)); [| discriminate].
    intros E. apply IH in E. rewrite E at 1.
    destruct (negb (piece =? EMPTY)); reflexivity.
Qed.

Lemma fen_placement_frame (fen : string) (rank file : Z) (b : ChessBoard) :
  match fen_placement fen rank file b with
  | FenOutOfBounds => True
  | FenError b' => b' = set_pieces (pieces b') b
  | FenRest _ _ _ b' => b' = set_pieces (pieces b') b
  end.
Proof.
  revert rank file b. induction fen as [| c rest IH]; intros rank file b; cbn [fen_placement].
  - symmetry. apply set_pieces_eta.
  - destruct ((rank <? RANK_TYPE_1) || (code c =? 0)); [symmetry; apply set_pieces_eta |].
    destruct (fen_switch (code c)) as [piece | count | |].
    + destruct (fen_fill piece rank file b 1) as [[b1 file1] |] eqn:Hfill; [| exact I].
      apply fen_fill_frame in Hfill. specialize (IH rank file1 b1).
      destruct (fen_placement rest rank file1 b1) as [| b' | rest' r' f' b'];
        [exact I | |]; rewrite IH, Hfill; reflexivity.
    + destruct (fen_fill EMPTY rank file b (Z.to_nat count)) as [[b1 file1] |] eqn:Hfill;
        [| exact I].
      apply fen_fill_frame in Hfill. specialize (IH rank file1 b1).
      destruct (fen_placement rest rank file1 b1) as [| b' | rest' r' f' b'];
        [exact I | |]; rewrite IH, Hfill; reflexivity.
    + apply IH.
    + symmetry. apply set_pieces_eta.
Qed.

(** The scan of a string goes on where the scan of a first part, read to
    its end, left off. *)
Lemma fen_placement_app (pre rest : string) (rank file : Z) (b : ChessBoard)
    (rank' file' : Z) (b' : ChessBoard) :
  fen_placement pre rank file b = FenRest EmptyString rank' file' b' ->
  fen_placement (pre ++ rest) rank file b = fen_placement rest rank' file' b'.
Proof.
  revert rank file b. induction pre as [| c pre IH]; intros rank file b; cbn [fen_placement].
  - intros E. injection E as <- <- <-. reflexivity.
  - change ((String c pre ++ rest)%string) with (String c (pre ++ rest)%string).
    cbn [fen_placement].
    destruct ((rank <? RANK_TYPE_1) || (code c =? 0)); [discriminate |].
    destruct (fen_switch (code c)) as [piece | count | |].
    + destruct (fen_fill piece rank file b 1) as [[b1 file1] |]; [apply IH | discriminate].
    + destruct (fen_fill EMPTY rank file b (Z.to_nat count)) as [[b1 file1] |];
        [apply IH | discriminate].
    + apply IH.
    + discriminate.
Qed.

(** The scan returns -1 at a character that is none of the letters, digits
    and separators, met while ranks are left, after a first part read to
    its end. *)
Lemma fen_placement_error (fen : string) (rank file : Z) (b b' : ChessBoard) :
  fen_placement fen rank file b = FenError b' ->
  exists (pre : string) (c : ascii) (rest : string) (rank' file' : Z),
    fen = (pre ++ String c rest)%string
    /\ fen_placement pre rank file b = FenRest EmptyString rank' file' b'
    /\ RANK_TYPE_1 <= rank' /\ code c <> 0 /\ fen_switch (code c) = FenBad.
Proof.
  revert rank file b. induction fen as [| c fen IH]; intros rank file b; cbn [fen_placement];
    [discriminate |].
  destruct (Z.ltb_spec rank RANK_TYPE_1) as [Hr | Hr]; [discriminate |].
  destruct (Z.eqb_spec (code c) 0) as [Hc | Hc]; [discriminate |].
  cbn [orb].
  destruct (fen_switch (code c)) as [piece | count | |] eqn:Hsw.
  - destruct (fen_fill piece rank file b 1) as [[b1 file1] |] eqn:Hfill; [| discriminate].
    intros E. destruct (IH _ _ _ E) as (pre & c' & rest & r' & f' & -> & Hpre & Hr' & Hc' & Hbad).
    exists (String c pre), c', rest, r', f'. split; [reflexivity |].
    split; [| auto]. cbn [fen_placement].
    destruct (Z.ltb_spec rank RANK_TYPE_1); [lia |].
    destruct (Z.eqb_spec (code c) 0); [contradiction |].
    cbn [orb]. rewrite Hsw, Hfill. exact Hpre.
  - destruct (fen_fill EMPTY rank file b (Z.to_nat count)) as [[b1 file1] |] eqn:Hfill;
      [| discriminate].
    intros E. destruct (IH _ _ _ E) as (pre & c' & rest & r' & f' & -> & Hpre & Hr' & Hc' & Hbad).
    exists (String c pre), c', rest, r', f'. split; [reflexivity |].
    split; [| auto]. cbn [fen_placement].
    destruct (Z.ltb_spec rank RANK_TYPE_1); [lia |].
    destruct (Z.eqb_spec (code c) 0); [contradiction |].
    cbn [orb]. rewrite Hsw, Hfill. exact Hpre.
  - intros E. destruct (IH _ _ _ E) as (pre & c' & rest & r' & f' & -> & Hpre & Hr' & Hc' & Hbad).
    exists (String c pre), c', rest, r', f'. split; [reflexivity |].
    split; [| auto]. cbn [fen_placement].
    destruct (Z.ltb_spec rank RANK_TYPE_1); [lia |].
    destruct (Z.eqb_spec (code c) 0); [contradiction |].
    cbn [orb]. rewrite Hsw. exact Hpre.
  - intros E. injection E as <-.
    exists EmptyString, c, fen, rank, file. split; [reflexivity |].
    split; [reflexivity |]. split; [lia |]. split; assumption.
Qed.

(** The results of [Board_ParseFromFEN] by the way the placement loop
    ends. *)
Lemma Board_ParseFromFEN_error (K : HashKeys) (fen : string) (b b' : ChessBoard) :
  Board_ParseFromFEN K fen b = Some (-1, b')
  <-> fen_placement fen RANK_TYPE_8 FILE_TYPE_A (Board_Reset b) = FenError b'.
Proof.
  unfold Board_ParseFromFEN. cbv zeta.
  destruct (fen_placement fen RANK_TYPE_8 FILE_TYPE_A (Board_Reset b))
    as [| b1 | rest r f b1].
  - split; discriminate.
  - split; intros E; injection E as <-; reflexivity.
  - split; [| discriminate].
    destruct (cur (Some rest)); [| discriminate].
    destruct (fen_castle _ _ 4) as [[fen2 b2] |]; [| discriminate].
    destruct (fen_enpas _ _) as [b3 |]; [| discriminate].
    destruct ((0 <=? enPas b3) && (enPas b3 <? CHESS_BOARD_SQUARE_NUM)); [| discriminate].
    destruct (Board_UpdateListsMaterial _); discriminate.
Qed.

Lemma Board_ParseFromFEN_results (K : HashKeys) (fen : string) (b b' : ChessBoard) (r : Z) :
  Board_ParseFromFEN K fen b = Some (r, b') -> r = 0 \/ r = -1.
Proof.
  unfold Board_ParseFromFEN. cbv zeta.
  destruct (fen_placement fen RANK_TYPE_8 FILE_TYPE_A (Board_Reset b))
    as [| b1 | rest rk f b1].
  - discriminate.
  - intros E. injection E as <- _. right. reflexivity.
  - destruct (cur (Some rest)); [| discriminate].
    destruct (fen_castle _ _ 4) as [[fen2 b2] |]; [| discriminate].
    destruct (fen_enpas _ _) as [b3 |]; [| discriminate].
    destruct ((0 <=? enPas b3) && (enPas b3 <? CHESS_BOARD_SQUARE_NUM)); [| discriminate].
    destruct (Board_UpdateListsMaterial _); [| discriminate].
    intros E. injection E as <- _. left. reflexivity.
Qed.

(** C5 (as the code has it).  While its indexes stay inside their arrays
    [Board_ParseFromFEN] returns 0 or -1.  It returns -1 exactly when the
    placement loop, having read a first part of the string to its end with
    ranks still left, meets a character other than the terminator that is
    no piece letter, no digit from 1 to 8, no ['/'] and no space.  The
    board it then leaves is not the board it was given: it is the board
    the loop had reached from the board [Board_Reset] makes of the one
    given, that is the reset board (no side to move, no en-passant square,
    no rights, counters and key at 0; piece lists, history and table
    untouched) with the pieces of that first part in the mailbox. *)
Theorem C5_parse_failure (K : HashKeys) (fen : string) (b : ChessBoard) :
  (forall (r : Z) (b' : ChessBoard),
      Board_ParseFromFEN K fen b = Some (r, b') -> r = 0 \/ r = -1)
  /\ (forall b' : ChessBoard,
        Board_ParseFromFEN K fen b = Some (-1, b')
        <-> exists (pre : string) (c : ascii) (rest : string) (rank file : Z),
              fen = (pre ++ String c rest)%string
              /\ fen_placement pre RANK_TYPE_8 FILE_TYPE_A (Board_Reset b)
                 = FenRest EmptyString rank file b'
              /\ RANK_TYPE_1 <= rank /\ code c <> 0 /\ fen_switch (code c) = FenBad)
  /\ (forall b' : ChessBoard,
        Board_ParseFromFEN K fen b = Some (-1, b') ->
        b' = set_pieces (pieces b') (Board_Reset b)
        /\ side b' = COLOR_TYPE_BOTH /\ enPas b' = NO_SQ /\ castlePerm b' = 0
        /\ posKey b' = 0 /\ fiftyMove b' = 0 /\ ply b' = 0 /\ hisPly b' = 0
        /\ pList b' = pList b /\ history b' = history b /\ hashTable b' = hashTable b).
Proof.
  split; [intros r b'; apply Board_ParseFromFEN_results |]. split.
  - intros b'. rewrite Board_ParseFromFEN_error. split.
    + apply fen_placement_error.
    + intros (pre & c & rest & rank & file & -> & Hpre & Hr & Hc & Hbad).
      rewrite (fen_placement_app _ _ _ _ _ _ _ _ Hpre). cbn [fen_placement].
      destruct (Z.ltb_spec rank RANK_TYPE_1); [lia |].
      destruct (Z.eqb_spec (code c) 0); [contradiction |].
      cbn [orb]. rewrite Hbad. reflexivity.
  - intros b' E. apply Board_ParseFromFEN_error in E.
    pose proof (fen_placement_frame fen RANK_TYPE_8 FILE_TYPE_A (Board_Reset b)) as Hframe.
    rewrite E in Hframe.
    split; [exact Hframe |].
    destruct (Board_Reset_scalars b) as (H1 & H2 & H3 & H4 & H5 & H6 & H7).
    destruct (Board_Reset_untouched b) as (H8 & H9 & H10).
    rewrite Hframe. fields.
    split_ands; assumption.
Qed.

Lemma C5_parse_failure_witness :
  (exists (pre : string) (c : ascii) (rest : string) (rank file : Z),
      bad_fen = (pre ++ String c rest)%string
      /\ fen_placement pre RANK_TYPE_8 FILE_TYPE_A (Board_Reset zero_board)
         = FenRest EmptyString rank file (setup bad_fen)
      /\ RANK_TYPE_1 <= rank /\ code c <> 0 /\ fen_switch (code c) = FenBad)
  /\ side (setup bad_fen) = COLOR_TYPE_BOTH /\ castlePerm (setup bad_fen) = 0
  /\ posKey (setup bad_fen) = 0.
Proof.
  assert (E : Board_ParseFromFEN sample_keys bad_fen zero_board = Some (-1, setup bad_fen))
    by (vm_compute; reflexivity).
  destruct (C5_parse_failure sample_keys bad_fen zero_board) as (_ & H2 & H3).
  split; [exact (proj1 (H2 _) E) |].
  destruct (H3 _ E) as (_ & Hs & _ & Hc & Hk & _).
  split; [exact Hs |]. split; [exact Hc | exact Hk].
Defined.

(** C5, the claim as stated fails: the string [bad_fen] is refused with -1
    on the starting position, and the board left behind has no side to
    move, no castling rights, a zero key and an empty h1 square. *)
Lemma C5_counterexample :
  exists b' : ChessBoard,
    Board_ParseFromFEN sample_keys bad_fen start_board = Some (-1, b')
    /\ side b' <> side start_board
    /\ castlePerm b' <> castlePerm start_board
    /\ posKey b' <> posKey start_board
    /\ aget (pieces b') H1 <> aget (pieces start_board) H1
    /\ b' <> start_board.
Proof.
  eexists. split; [vm_compute; reflexivity |].
  split; [by_eval |]. split; [by_eval |]. split; [by_eval |]. split; [by_eval |].
  intros Heq. apply (f_equal side) in Heq. revert Heq. by_eval.
Qed.

(* ================================================================== *)
(** * Normal forms of the executor's blocks

    Each block, applied to a board [b], is a run of field assignments
    whose values are read from [b] itself. *)
(* ================================================================== *)

Section NormalForms.

Variable K : HashKeys.

Lemma set_eta (b : ChessBoard) :
  set_pawns (pawns b) b = b /\ set_bigPce (bigPce b) b = b /\ set_majPce (majPce b) b = b
  /\ set_minPce (minPce b) b = b /\ set_pList (pList b) b = b /\ set_KingSq (KingSq b) b = b
  /\ set_posKey (posKey b) b = b.
Proof. break_board b. split_ands; reflexivity. Qed.

Lemma ClearPiece_nf (sq : Z) (b : ChessBoard) :
  ClearPiece K sq b =
  let p := aget (pieces b) sq in
  let c := aget g_pieceCol p in
  set_pList (cleared_pList p sq (pieceCount b) (pList b))
    (set_pieceCount (aset (pieceCount b) p (aget (pieceCount b) p - 1))
    (set_pawns (cleared_pawns p c sq (pawns b))
    (set_minPce (bumped (nz (aget PieceBig p) && negb (nz (aget PieceMaj p))) (minPce b) c (-1))
    (set_majPce (bumped (nz (aget PieceBig p) && nz (aget PieceMaj p)) (majPce b) c (-1))
    (set_bigPce (bumped (nz (aget PieceBig p)) (bigPce b) c (-1))
    (set_material (aset (material b) c (aget (material b) c - aget g_pieceVal p))
    (set_pieces (aset (pieces b) sq EMPTY)
    (set_posKey (Z.lxor (posKey b) (g_pieceKeys K p sq)) b)))))))).
Proof.
  break_board b. unfold ClearPiece, clear_counters, HASH_PCE, cleared_pList, cleared_pawns, bumped.
  board_cbv.
  destruct (nz (aget PieceBig (aget x_pieces sq)));
    destruct (nz (aget PieceMaj (aget x_pieces sq))); reflexivity.
Qed.

Lemma AddPiece_nf (sq : Z) (b : ChessBoard) (p : Z) :
  AddPiece K sq b p =
  let c := aget g_pieceCol p in
  set_pieceCount (aset (pieceCount b) p (aget (pieceCount b) p + 1))
    (set_pList (aset2 (pList b) p (aget (pieceCount b) p) sq)
    (set_material (aset (material b) c (aget (material b) c + aget g_pieceVal p))
    (set_pawns (added_pawns p c sq (pawns b))
    (set_minPce (bumped (nz (aget PieceBig p) && negb (nz (aget PieceMaj p))) (minPce b) c 1)
    (set_majPce (bumped (nz (aget PieceBig p) && nz (aget PieceMaj p)) (majPce b) c 1)
    (set_bigPce (bumped (nz (aget PieceBig p)) (bigPce b) c 1)
    (set_pieces (aset (pieces b) sq p)
    (set_posKey (Z.lxor (posKey b) (g_pieceKeys K p sq)) b)))))))).
Proof.
  break_board b. unfold AddPiece, add_counters, HASH_PCE, added_pawns, bumped.
  board_cbv.
  destruct (nz (aget PieceBig p)); destruct (nz (aget PieceMaj p)); reflexivity.
Qed.

Lemma MovePiece_nf (from to : Z) (b : ChessBoard) :
  MovePiece K from to b =
  let p := aget (pieces b) from in
  let c := aget g_pieceCol p in
  set_pList (moved_pList p from to (pieceCount b) (pList b))
    (set_pawns (moved_pawns p c from to (pawns b))
    (set_pieces (aset (aset (pieces b) from EMPTY) to p)
    (set_posKey (Z.lxor (Z.lxor (posKey b) (g_pieceKeys K p from)) (g_pieceKeys K p to)) b))).
Proof.
  break_board b. unfold MovePiece, move_pawn_bits, HASH_PCE, moved_pList, moved_pawns.
  board_cbv.
  destruct (negb (nz (aget PieceBig (aget x_pieces from))));
    board_cbv;
    match goal with
    | |- context [0 <=? ?x] => destruct (0 <=? x)
    end; reflexivity.
Qed.


Lemma save_key_nf (b : ChessBoard) :
  save_key b =
  set_history (aset (history b) (hisPly b)
    (mkUndo (u_move (aget (history b) (hisPly b)))
       (u_castlePerm (aget (history b) (hisPly b)))
       (u_enPas (aget (history b) (hisPly b)))
       (u_fiftyMove (aget (history b) (hisPly b))) (posKey b))) b.
Proof. reflexivity. Qed.

Lemma save_state_nf (move : Z) (b : ChessBoard) :
  save_state move b =
  set_history (aset (history b) (hisPly b)
    (mkUndo move (castlePerm b) (enPas b) (fiftyMove b)
       (u_posKey (aget (history b) (hisPly b))))) b.
Proof. reflexivity. Qed.

Lemma hash_ep_if_set_nf (b : ChessBoard) :
  hash_ep_if_set K b = set_posKey (Z.lxor (posKey b) (ep_key K (enPas b))) b.
Proof.
  break_board b. unfold hash_ep_if_set, HASH_EP, ep_key. board_cbv.
  destruct (negb (x_enPas =? NO_SQ)); rewrite ?Z.lxor_0_r; reflexivity.
Qed.

Lemma restore_state_nf (b : ChessBoard) :
  restore_state b =
  set_enPas (u_enPas (aget (history b) (hisPly b)))
    (set_fiftyMove (u_fiftyMove (aget (history b) (hisPly b)))
    (set_castlePerm (u_castlePerm (aget (history b) (hisPly b))) b)).
Proof. break_board b. reflexivity. Qed.

Lemma flip_side_nf (b : ChessBoard) :
  flip_side K b =
  set_posKey (Z.lxor (posKey b) (g_sideKey K)) (set_side (Z.lxor (side b) 1) b).
Proof. break_board b. reflexivity. Qed.

Lemma take_ply_nf (b : ChessBoard) :
  take_ply b = set_ply (ply b - 1) (set_hisPly (hisPly b - 1) b).
Proof. break_board b. reflexivity. Qed.

Lemma make_ply_nf (b : ChessBoard) :
  make_ply b = set_ply (ply b + 1) (set_hisPly (hisPly b + 1) b).
Proof. break_board b. reflexivity. Qed.

Lemma take_state_nf (b : ChessBoard) :
  take_state K b =
  set_posKey
    (Z.lxor (Z.lxor (Z.lxor (Z.lxor (Z.lxor (posKey b) (ep_key K (enPas b)))
       (g_castleKeys K (castlePerm b)))
       (ep_key K (u_enPas (aget (history b) (hisPly b)))))
       (g_castleKeys K (u_castlePerm (aget (history b) (hisPly b)))))
       (g_sideKey K))
    (set_side (Z.lxor (side b) 1)
    (set_enPas (u_enPas (aget (history b) (hisPly b)))
    (set_fiftyMove (u_fiftyMove (aget (history b) (hisPly b)))
    (set_castlePerm (u_castlePerm (aget (history b) (hisPly b))) b)))).
Proof.
  break_board b. unfold take_state, flip_side, restore_state, hash_ep_if_set, HASH_EP, HASH_CA,
    HASH_SIDE, ep_key. board_cbv.
  destruct (negb (x_enPas =? NO_SQ));
    destruct (negb (u_enPas (aget x_history x_hisPly) =? NO_SQ));
    board_cbv; rewrite ?Z.lxor_0_r; reflexivity.
Qed.

Lemma make_state_nf (move from to : Z) (b : ChessBoard) :
  make_state K move from to b =
  set_posKey
    (Z.lxor (Z.lxor (Z.lxor (posKey b) (ep_key K (enPas b)))
       (g_castleKeys K (castlePerm b)))
       (g_castleKeys K
          (Z.land (Z.land (castlePerm b) (aget CastlePerm from)) (aget CastlePerm to))))
    (set_enPas NO_SQ
    (set_castlePerm
       (Z.land (Z.land (castlePerm b) (aget CastlePerm from)) (aget CastlePerm to))
    (set_history (aset (history b) (hisPly b)
       (mkUndo move (castlePerm b) (enPas b) (fiftyMove b)
          (u_posKey (aget (history b) (hisPly b))))) b))).
Proof.
  break_board b. unfold make_state, save_state, hash_ep_if_set, HASH_EP, HASH_CA, ep_key.
  board_cbv.
  destruct (negb (x_enPas =? NO_SQ)); board_cbv; rewrite ?Z.lxor_0_r; reflexivity.
Qed.

Lemma make_pawn_nf (move from side_ : Z) (b : ChessBoard) :
  make_pawn K move from side_ b =
  let pawn := nz (aget g_piecePawn (aget (pieces b) from)) in
  let ps := nz (Z.land move MFLAGPS) in
  let target := if side_ =? COLOR_TYPE_WHITE then from + 10 else from - 10 in
  set_posKey (if pawn && ps then Z.lxor (posKey b) (g_pieceKeys K EMPTY target)
              else posKey b)
    (set_enPas (if pawn && ps then target else enPas b)
    (set_fiftyMove (if pawn then 0 else fiftyMove b) b)).
Proof.
  break_board b. unfold make_pawn, HASH_EP. board_cbv.
  destruct (nz (aget g_piecePawn (aget x_pieces from)));
    destruct (nz (Z.land move MFLAGPS));
    destruct (side_ =? COLOR_TYPE_WHITE); reflexivity.
Qed.

Lemma king_moved_nf (sq : Z) (b : ChessBoard) :
  king_moved sq b =
  set_KingSq (if nz (aget g_pieceKing (aget (pieces b) sq))
              then aset (KingSq b) (side b) sq else KingSq b) b.
Proof.
  break_board b. unfold king_moved. board_cbv.
  destruct (nz (aget g_pieceKing (aget x_pieces sq))); reflexivity.
Qed.

Lemma track_capture_nf (captured : Z) (b : ChessBoard) :
  track_capture captured b =
  let w := is_white_piece captured && (capturedWhiteCount b <? 16) in
  let k := negb (is_white_piece captured) && is_black_piece captured
           && (capturedBlackCount b <? 16) in
  set_capturedBlackCount (if k then capturedBlackCount b + 1 else capturedBlackCount b)
    (set_capturedBlack
       (if k then aset (capturedBlack b) (capturedBlackCount b) captured
        else capturedBlack b)
    (set_capturedWhiteCount (if w then capturedWhiteCount b + 1 else capturedWhiteCount b)
    (set_capturedWhite
       (if w then aset (capturedWhite b) (capturedWhiteCount b) captured
        else capturedWhite b) b))).
Proof.
  break_board b. unfold track_capture. board_cbv.
  destruct (is_white_piece captured); destruct (is_black_piece captured);
    destruct (x_capturedWhiteCount <? 16); destruct (x_capturedBlackCount <? 16); reflexivity.
Qed.

Lemma untrack_capture_nf (captured : Z) (b : ChessBoard) :
  untrack_capture captured b =
  let w := is_white_piece captured && (0 <? capturedWhiteCount b) in
  let k := negb (is_white_piece captured) && is_black_piece captured
           && (0 <? capturedBlackCount b) in
  set_capturedBlackCount (if k then capturedBlackCount b - 1 else capturedBlackCount b)
    (set_capturedWhiteCount (if w then capturedWhiteCount b - 1 else capturedWhiteCount b)
       b).
Proof.
  break_board b. unfold untrack_capture. board_cbv.
  destruct (is_white_piece captured); destruct (is_black_piece captured);
    destruct (0 <? x_capturedWhiteCount); destruct (0 <? x_capturedBlackCount); reflexivity.
Qed.

Lemma null_ply_nf (b : ChessBoard) : null_ply b = set_ply (ply b + 1) b.
Proof. reflexivity. Qed.

Lemma null_state_nf (b : ChessBoard) :
  null_state b =
  set_enPas NO_SQ
    (set_history (aset (history b) (hisPly b)
       (mkUndo NOMOVE (castlePerm b) (enPas b) (fiftyMove b)
          (u_posKey (aget (history b) (hisPly b))))) b).
Proof. break_board b. reflexivity. Qed.

Lemma null_side_nf (b : ChessBoard) :
  null_side K b =
  set_posKey (Z.lxor (posKey b) (g_sideKey K))
    (set_hisPly (hisPly b + 1) (set_side (Z.lxor (side b) 1) b)).
Proof. break_board b. reflexivity. Qed.

(** ** The blocks that branch on the move *)

Lemma make_special_ep_white (move to side_ : Z) (b : ChessBoard) :
  nz (Z.land move MFLAGEP) = true -> (side_ =? COLOR_TYPE_WHITE) = true ->
  make_special K move to side_ b = ClearPiece K (to - 10) b.
Proof. intros H1 H2. unfold make_special. rewrite H1, H2. reflexivity. Qed.

Lemma make_special_ep_black (move to side_ : Z) (b : ChessBoard) :
  nz (Z.land move MFLAGEP) = true -> (side_ =? COLOR_TYPE_WHITE) = false ->
  make_special K move to side_ b = ClearPiece K (to + 10) b.
Proof. intros H1 H2. unfold make_special. rewrite H1, H2. reflexivity. Qed.

Lemma make_special_castle (move to side_ : Z) (b : ChessBoard) :
  nz (Z.land move MFLAGEP) = false -> nz (Z.land move MFLAGCA) = true ->
  make_special K move to side_ b = castle_rook_make K to b.
Proof. intros H1 H2. unfold make_special. rewrite H1, H2. reflexivity. Qed.

Lemma make_special_none (move to side_ : Z) (b : ChessBoard) :
  nz (Z.land move MFLAGEP) = false -> nz (Z.land move MFLAGCA) = false ->
  make_special K move to side_ b = b.
Proof. intros H1 H2. unfold make_special. rewrite H1, H2. reflexivity. Qed.

Lemma take_special_ep_white (move to : Z) (b : ChessBoard) :
  nz (Z.land MFLAGEP move) = true -> (side b =? COLOR_TYPE_WHITE) = true ->
  take_special K move to b = AddPiece K (to - 10) b PIECE_TYPE_BLACK_PAWN.
Proof. intros H1 H2. unfold take_special. rewrite H1, H2. reflexivity. Qed.

Lemma take_special_ep_black (move to : Z) (b : ChessBoard) :
  nz (Z.land MFLAGEP move) = true -> (side b =? COLOR_TYPE_WHITE) = false ->
  take_special K move to b = AddPiece K (to + 10) b PIECE_TYPE_WHITE_PAWN.
Proof. intros H1 H2. unfold take_special. rewrite H1, H2. reflexivity. Qed.

Lemma take_special_castle (move to : Z) (b : ChessBoard) :
  nz (Z.land MFLAGEP move) = false -> nz (Z.land MFLAGCA move) = true ->
  take_special K move to b = castle_rook_take K to b.
Proof. intros H1 H2. unfold take_special. rewrite H1, H2. reflexivity. Qed.

Lemma take_special_none (move to : Z) (b : ChessBoard) :
  nz (Z.land MFLAGEP move) = false -> nz (Z.land MFLAGCA move) = false ->
  take_special K move to b = b.
Proof. intros H1 H2. unfold take_special. rewrite H1, H2. reflexivity. Qed.

Lemma make_capture_none (to : Z) (b : ChessBoard) :
  make_capture K EMPTY to b = set_fiftyMove (fiftyMove b + 1) b.
Proof. reflexivity. Qed.

Lemma make_capture_some (captured to : Z) (b : ChessBoard) :
  (captured =? EMPTY) = false ->
  make_capture K captured to b =
  track_capture captured
    (set_fiftyMove 0 (ClearPiece K to (set_fiftyMove (fiftyMove b + 1) b))).
Proof. intros H. unfold make_capture. rewrite H. reflexivity. Qed.

Lemma take_capture_none (to : Z) (b : ChessBoard) : take_capture K EMPTY to b = b.
Proof. reflexivity. Qed.

Lemma take_capture_some (captured to : Z) (b : ChessBoard) :
  (captured =? EMPTY) = false ->
  take_capture K captured to b = untrack_capture captured (AddPiece K to b captured).
Proof. intros H. unfold take_capture. rewrite H. reflexivity. Qed.

Lemma make_promote_none (to : Z) (b : ChessBoard) : make_promote K EMPTY to b = b.
Proof. reflexivity. Qed.

Lemma make_promote_some (promotedPiece to : Z) (b : ChessBoard) :
  (promotedPiece =? EMPTY) = false ->
  make_promote K promotedPiece to b = AddPiece K to (ClearPiece K to b) promotedPiece.
Proof. intros H. unfold make_promote. rewrite H. reflexivity. Qed.

Lemma take_promote_none (move from : Z) (b : ChessBoard) :
  (MOVE_GET_PROMOTED move =? EMPTY) = true -> take_promote K move from b = b.
Proof. intros H. unfold take_promote. rewrite H. reflexivity. Qed.

Lemma take_promote_some (move from : Z) (b : ChessBoard) :
  (MOVE_GET_PROMOTED move =? EMPTY) = false ->
  take_promote K move from b =
  AddPiece K from (ClearPiece K from b)
    (if aget g_pieceCol (MOVE_GET_PROMOTED move) =? COLOR_TYPE_WHITE
     then PIECE_TYPE_WHITE_PAWN else PIECE_TYPE_BLACK_PAWN).
Proof. intros H. unfold take_promote. rewrite H. reflexivity. Qed.

End NormalForms.

(** Evaluation of a field read through the executor's blocks: the
    outermost block under a field read is replaced by its normal form, and
    the read is pushed through the assignments. *)
Ltac nf_step :=
  match goal with
  | |- context [?f (ClearPiece ?K ?sq ?X)] => is_field f; rewrite (ClearPiece_nf K sq X)
  | |- context [?f (AddPiece ?K ?sq ?X ?p)] => is_field f; rewrite (AddPiece_nf K sq X p)
  | |- context [?f (MovePiece ?K ?a ?c ?X)] => is_field f; rewrite (MovePiece_nf K a c X)
  | |- context [?f (save_key ?X)] => is_field f; rewrite (save_key_nf X)
  | |- context [?f (save_state ?m ?X)] => is_field f; rewrite (save_state_nf m X)
  | |- context [?f (hash_ep_if_set ?K ?X)] => is_field f; rewrite (hash_ep_if_set_nf K X)
  | |- context [?f (restore_state ?X)] => is_field f; rewrite (restore_state_nf X)
  | |- context [?f (flip_side ?K ?X)] => is_field f; rewrite (flip_side_nf K X)
  | |- context [?f (take_ply ?X)] => is_field f; rewrite (take_ply_nf X)
  | |- context [?f (make_ply ?X)] => is_field f; rewrite (make_ply_nf X)
  | |- context [?f (take_state ?K ?X)] => is_field f; rewrite (take_state_nf K X)
  | |- context [?f (make_state ?K ?m ?a ?c ?X)] =>
      is_field f; rewrite (make_state_nf K m a c X)
  | |- context [?f (make_pawn ?K ?m ?a ?c ?X)] =>
      is_field f; rewrite (make_pawn_nf K m a c X)
  | |- context [?f (king_moved ?sq ?X)] => is_field f; rewrite (king_moved_nf sq X)
  | |- context [?f (track_capture ?c ?X)] => is_field f; rewrite (track_capture_nf c X)
  | |- context [?f (untrack_capture ?c ?X)] => is_field f; rewrite (untrack_capture_nf c X)
  | |- context [?f (null_ply ?X)] => is_field f; rewrite (null_ply_nf X)
  | |- context [?f (null_state ?X)] => is_field f; rewrite (null_state_nf X)
  | |- context [?f (null_side ?K ?X)] => is_field f; rewrite (null_side_nf K X)
  end; cbv zeta.

Ltac beval := repeat (first [ field_step | nf_step ]).

(* ================================================================== *)
(** * Piece lists: the three list operations keep the list a set *)
(* ================================================================== *)

Lemma find_from_spec (row : list Z) (sq : Z) (steps : nat) (index : Z) :
  (exists i, index <= i < index + Z.of_nat steps /\ aget row i = sq) ->
  index <= find_from row sq index steps < index + Z.of_nat steps
  /\ aget row (find_from row sq index steps) = sq.
Proof.
  revert index. induction steps as [| k IH]; intros index (i & Hi & Hsq); [lia |].
  cbn [find_from]. destruct (Z.eqb_spec (aget row index) sq) as [Heq | Hne].
  - split; [lia | exact Heq].
  - destruct (IH (index + 1)) as [Hr He].
    + exists i. split; [| exact Hsq].
      assert (i <> index) by congruence. lia.
    + split; [lia | exact He].
Qed.

Lemma find_piece_spec (S : Z -> Prop) (row : list Z) (n sq : Z) :
  row_ok S row n -> S sq ->
  0 <= find_piece row n sq < n /\ aget row (find_piece row n sq) = sq.
Proof.
  intros (Hn & _ & _ & _ & Hall) HS. unfold find_piece.
  destruct (Hall sq HS) as (i & Hi & Hrow).
  destruct (find_from_spec row sq (Z.to_nat n) 0) as [Hr He].
  - exists i. split; [lia | exact Hrow].
  - split; [lia | exact He].
Qed.

Lemma row_ok_ext (S S' : Z -> Prop) (row : list Z) (n : Z) :
  (forall x, S x <-> S' x) -> row_ok S row n -> row_ok S' row n.
Proof.
  intros Hext (Hn & Hlen & Hinj & Hin & Hall).
  split; [exact Hn |]. split; [exact Hlen |]. split; [exact Hinj |]. split.
  - intros i Hi. apply Hext, Hin, Hi.
  - intros sq Hsq. apply Hall, Hext, Hsq.
Qed.

(** [ClearPiece]: the cell that held [sq] receives the last live cell. *)
Lemma row_ok_clear (S : Z -> Prop) (row : list Z) (n sq : Z) :
  row_ok S row n -> S sq ->
  row_ok (fun x => S x /\ x <> sq)
    (aset row (find_piece row n sq) (aget row (n - 1))) (n - 1).
Proof.
  intros Hok HS.
  destruct (find_piece_spec S row n sq Hok HS) as [Ht Hrow].
  destruct Hok as (Hn & Hlen & Hinj & Hin & Hall).
  set (t := find_piece row n sq) in *.
  assert (Hget : forall i, aget (aset row t (aget row (n - 1))) i
                           = if i =? t then aget row (n - 1) else aget row i).
  { intros i. apply aget_aset. lia. }
  split; [lia |]. split; [rewrite length_aset; exact Hlen |]. split; [| split].
  - intros i j Hi Hj. rewrite !Hget.
    destruct (Z.eqb_spec i t), (Z.eqb_spec j t); intros Heq.
    + congruence.
    + apply Hinj in Heq; lia.
    + apply Hinj in Heq; lia.
    + apply Hinj in Heq; lia.
  - intros i Hi. rewrite Hget.
    destruct (Z.eqb_spec i t) as [-> | Hne].
    + split; [apply Hin; lia |].
      intros Heq. rewrite <- Hrow in Heq. apply Hinj in Heq; lia.
    + split; [apply Hin; lia |].
      intros Heq. rewrite <- Hrow in Heq. apply Hinj in Heq; lia.
  - intros x [HSx Hne].
    destruct (Hall x HSx) as (i & Hi & Hrowi).
    assert (i <> t) by (intros ->; congruence).
    destruct (Z.eq_dec i (n - 1)) as [-> | Hlast].
    + exists t. split; [lia |]. rewrite Hget, Z.eqb_refl. exact Hrowi.
    + exists i. split; [lia |]. rewrite Hget.
      destruct (Z.eqb_spec i t); [contradiction | exact Hrowi].
Qed.

(** [AddPiece]: the square is written into the first dead cell. *)
Lemma row_ok_add (S : Z -> Prop) (row : list Z) (n sq : Z) :
  row_ok S row n -> ~ S sq -> n < 10 ->
  row_ok (fun x => S x \/ x = sq) (aset row n sq) (n + 1).
Proof.
  intros (Hn & Hlen & Hinj & Hin & Hall) HnS Hlt.
  assert (Hget : forall i, aget (aset row n sq) i = if i =? n then sq else aget row i).
  { intros i. apply aget_aset. lia. }
  split; [lia |]. split; [rewrite length_aset; exact Hlen |]. split; [| split].
  - intros i j Hi Hj. rewrite !Hget.
    destruct (Z.eqb_spec i n), (Z.eqb_spec j n); intros Heq.
    + congruence.
    + exfalso. apply HnS. rewrite Heq. apply Hin. lia.
    + exfalso. apply HnS. rewrite <- Heq. apply Hin. lia.
    + apply Hinj in Heq; lia.
  - intros i Hi. rewrite Hget.
    destruct (Z.eqb_spec i n); [right; reflexivity | left; apply Hin; lia].
  - intros x [HSx | ->].
    + destruct (Hall x HSx) as (i & Hi & Hrowi).
      exists i. split; [lia |]. rewrite Hget.
      destruct (Z.eqb_spec i n); [lia | exact Hrowi].
    + exists n. split; [lia |]. rewrite Hget, Z.eqb_refl. reflexivity.
Qed.

(** [MovePiece]: the cell that held [from] now holds [to]. *)
Lemma row_ok_move (S : Z -> Prop) (row : list Z) (n from to : Z) :
  row_ok S row n -> S from -> ~ S to ->
  0 <= find_piece row n from
  /\ row_ok (fun x => (S x /\ x <> from) \/ x = to)
       (aset row (find_piece row n from) to) n.
Proof.
  intros Hok HS HnS.
  destruct (find_piece_spec S row n from Hok HS) as [Ht Hrow].
  destruct Hok as (Hn & Hlen & Hinj & Hin & Hall).
  set (t := find_piece row n from) in *.
  assert (Hget : forall i, aget (aset row t to) i = if i =? t then to else aget row i).
  { intros i. apply aget_aset. lia. }
  split; [lia |].
  split; [lia |]. split; [rewrite length_aset; exact Hlen |]. split; [| split].
  - intros i j Hi Hj. rewrite !Hget.
    destruct (Z.eqb_spec i t), (Z.eqb_spec j t); intros Heq.
    + congruence.
    + exfalso. apply HnS. rewrite Heq. apply Hin. lia.
    + exfalso. apply HnS. rewrite <- Heq. apply Hin. lia.
    + apply Hinj in Heq; lia.
  - intros i Hi. rewrite Hget.
    destruct (Z.eqb_spec i t) as [-> | Hne]; [right; reflexivity |].
    left. split; [apply Hin; lia |].
    intros Heq. rewrite <- Hrow in Heq. apply Hinj in Heq; lia.
  - intros x [[HSx Hne] | ->].
    + destruct (Hall x HSx) as (i & Hi & Hrowi).
      exists i. split; [lia |]. rewrite Hget.
      destruct (Z.eqb_spec i t) as [-> | Hit]; [congruence | exact Hrowi].
    + exists t. split; [lia |]. rewrite Hget, Z.eqb_refl. reflexivity.
Qed.

(** Two lists of the same set have as many cells and the same cells up
    to order. *)
Lemma row_ok_elem (S : Z -> Prop) (row : list Z) (n x : Z) :
  row_ok S row n -> (x ∈ aprefix row n <-> S x).
Proof.
  intros (Hn & Hlen & Hinj & Hin & Hall). unfold aprefix. rewrite elem_of_take. split.
  - intros (k & Hk & Hlt).
    rewrite <- (aget_lookup row (Z.of_nat k) x); [apply Hin; lia | lia |].
    rewrite Nat2Z.id. exact Hk.
  - intros HS. destruct (Hall x HS) as (i & Hi & Hrow).
    exists (Z.to_nat i). split; [| lia].
    rewrite lookup_aget by lia. congruence.
Qed.

Lemma row_ok_NoDup (S : Z -> Prop) (row : list Z) (n : Z) :
  row_ok S row n -> NoDup (aprefix row n).
Proof.
  intros (Hn & Hlen & Hinj & Hin & Hall). apply NoDup_alt.
  intros i j x Hi Hj. unfold aprefix in *.
  assert (Hil : (i < Z.to_nat n)%nat).
  { destruct (Nat.lt_ge_cases i (Z.to_nat n)); [assumption |].
    rewrite lookup_take_ge in Hi by assumption. discriminate. }
  assert (Hjl : (j < Z.to_nat n)%nat).
  { destruct (Nat.lt_ge_cases j (Z.to_nat n)); [assumption |].
    rewrite lookup_take_ge in Hj by assumption. discriminate. }
  rewrite lookup_take_lt in Hi, Hj by assumption.
  assert (Z.of_nat i = Z.of_nat j); [| lia].
  apply Hinj; [lia | lia |].
  rewrite (aget_lookup row (Z.of_nat i) x), (aget_lookup row (Z.of_nat j) x);
    rewrite ?Nat2Z.id; try assumption; try lia; reflexivity.
Qed.

Lemma row_ok_same (S : Z -> Prop) (row row' : list Z) (n n' : Z) :
  row_ok S row n -> row_ok S row' n' ->
  n' = n /\ aprefix row' n' ≡ₚ aprefix row n.
Proof.
  intros Hok Hok'.
  assert (Hperm : aprefix row' n' ≡ₚ aprefix row n).
  { apply NoDup_Permutation.
    - eapply row_ok_NoDup; eassumption.
    - eapply row_ok_NoDup; eassumption.
    - intros x. rewrite (row_ok_elem S row' n' x Hok'), (row_ok_elem S row n x Hok).
      reflexivity. }
  split; [| exact Hperm].
  apply Permutation_length in Hperm.
  destruct Hok as (Hn & Hlen & _), Hok' as (Hn' & Hlen' & _).
  unfold aprefix in Hperm. rewrite !length_take in Hperm. lia.
Qed.

(* ================================================================== *)
(** * Piece lists against the mailbox *)
(* ================================================================== *)

(** A cell read as non-zero lies inside the array. *)
Lemma aget_nonzero_range (a : list Z) (i : Z) :
  aget a i <> 0 -> 0 <= i < Z.of_nat (length a).
Proof.
  unfold aget. destruct (Z.ltb_spec i 0); [intros Hne; exfalso; apply Hne; reflexivity |].
  intros Hne. split; [assumption |].
  destruct (a !! Z.to_nat i) eqn:E.
  - apply lookup_lt_Some in E. lia.
  - exfalso. apply Hne. reflexivity.
Qed.

Lemma aget_aset2_eq (pl : list (list Z)) (p j v : Z) :
  0 <= p < Z.of_nat (length pl) ->
  aget (aset2 pl p j v) p = aset (aget pl p) j v.
Proof. intros Hp. unfold aset2. apply aget_aset_eq. exact Hp. Qed.

Lemma aget_aset2_ne (pl : list (list Z)) (p q j v : Z) :
  p <> q -> aget (aset2 pl p j v) q = aget pl q.
Proof. intros Hne. unfold aset2. apply aget_aset_ne. exact Hne. Qed.

Lemma length_aset2 (pl : list (list Z)) (p j v : Z) :
  length (aset2 pl p j v) = length pl.
Proof. unfold aset2. apply length_aset. Qed.

Lemma lists_inv_clear (pcs cnt : list Z) (pl : list (list Z)) (sq p : Z) :
  lists_inv pcs cnt pl -> aget pcs sq = p -> 1 <= p <= 12 ->
  lists_inv (aset pcs sq EMPTY) (aset cnt p (aget cnt p - 1)) (cleared_pList p sq cnt pl).
Proof.
  intros (Hlp & Hll & Hlc & Hrows) Hsq Hp.
  assert (Hrange : 0 <= sq < Z.of_nat (length pcs)) by (apply aget_nonzero_range; lia).
  assert (Hget : forall x, aget (aset pcs sq EMPTY) x = if x =? sq then EMPTY else aget pcs x)
    by (intros x; apply aget_aset; exact Hrange).
  unfold cleared_pList.
  split; [rewrite length_aset; exact Hlp |].
  split; [rewrite length_aset2; exact Hll |].
  split; [rewrite length_aset; exact Hlc |].
  intros q Hq. destruct (Z.eq_dec q p) as [-> | Hne].
  - rewrite aget_aset2_eq, !aget_aset_eq by lia. unfold aget2.
    eapply row_ok_ext; [| apply (row_ok_clear _ _ _ sq (Hrows p Hp) Hsq)].
    intros x. cbv beta. rewrite Hget. unfold EMPTY.
    destruct (Z.eqb_spec x sq); [subst x | ]; intuition lia.
  - rewrite aget_aset2_ne, aget_aset_ne by congruence.
    eapply row_ok_ext; [| apply (Hrows q Hq)].
    intros x. cbv beta. rewrite Hget. unfold EMPTY.
    destruct (Z.eqb_spec x sq); [subst x | ]; intuition lia.
Qed.

Lemma lists_inv_add (pcs cnt : list Z) (pl : list (list Z)) (sq p : Z) :
  lists_inv pcs cnt pl -> aget pcs sq = EMPTY -> 0 <= sq < 120 -> 1 <= p <= 12 ->
  aget cnt p < 10 ->
  lists_inv (aset pcs sq p) (aset cnt p (aget cnt p + 1)) (aset2 pl p (aget cnt p) sq).
Proof.
  intros (Hlp & Hll & Hlc & Hrows) Hsq Hrange Hp Hcnt.
  assert (Hget : forall x, aget (aset pcs sq p) x = if x =? sq then p else aget pcs x)
    by (intros x; apply aget_aset; lia).
  split; [rewrite length_aset; exact Hlp |].
  split; [rewrite length_aset2; exact Hll |].
  split; [rewrite length_aset; exact Hlc |].
  unfold EMPTY in Hsq.
  intros q Hq. destruct (Z.eq_dec q p) as [-> | Hne].
  - rewrite aget_aset2_eq, aget_aset_eq by lia.
    eapply row_ok_ext; [| apply (row_ok_add _ _ _ sq (Hrows p Hp)); [cbv beta; lia | exact Hcnt]].
    intros x. cbv beta. rewrite Hget.
    destruct (Z.eqb_spec x sq); [subst x | ]; intuition lia.
  - rewrite aget_aset2_ne, aget_aset_ne by congruence.
    eapply row_ok_ext; [| apply (Hrows q Hq)].
    intros x. cbv beta. rewrite Hget.
    destruct (Z.eqb_spec x sq); [subst x | ]; intuition lia.
Qed.

Lemma lists_inv_move (pcs cnt : list Z) (pl : list (list Z)) (from to p : Z) :
  lists_inv pcs cnt pl -> aget pcs from = p -> 1 <= p <= 12 ->
  aget pcs to = EMPTY -> 0 <= to < 120 -> from <> to ->
  lists_inv (aset (aset pcs from EMPTY) to p) cnt (moved_pList p from to cnt pl).
Proof.
  intros (Hlp & Hll & Hlc & Hrows) Hfrom Hp Hto Hrange Hne.
  assert (Hfr : 0 <= from < Z.of_nat (length pcs)) by (apply aget_nonzero_range; lia).
  assert (Hget : forall x, aget (aset (aset pcs from EMPTY) to p) x
                           = if x =? to then p else if x =? from then EMPTY else aget pcs x).
  { intros x. rewrite aget_aset by (rewrite length_aset; lia).
    rewrite aget_aset by exact Hfr. reflexivity. }
  unfold EMPTY in *.
  destruct (row_ok_move _ _ _ from to (Hrows p Hp) Hfrom) as [Hfound Hrow]; [cbv beta; lia |].
  unfold moved_pList.
  destruct (Z.leb_spec 0 (find_piece (aget pl p) (aget cnt p) from)) as [_ | ?]; [| lia].
  split; [rewrite !length_aset; exact Hlp |].
  split; [rewrite length_aset2; exact Hll |].
  split; [exact Hlc |].
  intros q Hq. destruct (Z.eq_dec q p) as [-> | Hqp].
  - rewrite aget_aset2_eq by lia.
    eapply row_ok_ext; [| exact Hrow].
    intros x. cbv beta. rewrite Hget.
    destruct (Z.eqb_spec x to); destruct (Z.eqb_spec x from);
      try subst x; intuition (try lia; try congruence).
  - rewrite aget_aset2_ne by congruence.
    eapply row_ok_ext; [| apply (Hrows q Hq)].
    intros x. cbv beta. rewrite Hget.
    destruct (Z.eqb_spec x to); destruct (Z.eqb_spec x from);
      try subst x; intuition (try lia; try congruence).
Qed.

(** Two boards with the same mailbox have the same counts and, piece by
    piece, the same live squares. *)
Lemma lists_inv_same (pcs cnt cnt' : list Z) (pl pl' : list (list Z)) (p : Z) :
  lists_inv pcs cnt pl -> lists_inv pcs cnt' pl' -> 1 <= p <= 12 ->
  aget cnt' p = aget cnt p
  /\ aprefix (aget pl' p) (aget cnt' p) ≡ₚ aprefix (aget pl p) (aget cnt p).
Proof.
  intros (_ & _ & _ & Hrows) (_ & _ & _ & Hrows') Hp.
  apply (row_ok_same _ _ _ _ _ (Hrows p Hp) (Hrows' p Hp)).
Qed.

(* ================================================================== *)
(** * Pawn bit-sets against the mailbox *)
(* ================================================================== *)

(** A property checked on every element of a range holds on the range. *)
Lemma forallb_range (P : Z -> bool) (lo : Z) (n : Z) :
  forallb P (seqZ lo n) = true -> forall x, lo <= x < lo + n -> P x = true.
Proof.
  intros Hall x Hx. rewrite forallb_forall in Hall. apply Hall.
  apply list_elem_of_In, elem_of_seqZ. lia.
Qed.

Lemma sq64_of_board (sq : Z) :
  on_board sq = true ->
  0 <= SQUARE_120_TO_64 sq < 64 /\ SQUARE_64_TO_120 (SQUARE_120_TO_64 sq) = sq.
Proof.
  intros Hon.
  assert (Hr : 21 <= sq < 21 + 78) by (unfold on_board in Hon; lia).
  pose proof (forallb_range
    (fun s => implb (on_board s)
       ((0 <=? SQUARE_120_TO_64 s) && (SQUARE_120_TO_64 s <? 64)
        && (SQUARE_64_TO_120 (SQUARE_120_TO_64 s) =? s))) 21 78 eq_refl sq Hr) as Hc.
  cbv beta in Hc. rewrite Hon in Hc. cbn [implb] in Hc. lia.
Qed.

Lemma sq120_of_64 (i : Z) :
  0 <= i < 64 ->
  on_board (SQUARE_64_TO_120 i) = true /\ SQUARE_120_TO_64 (SQUARE_64_TO_120 i) = i.
Proof.
  intros Hi.
  pose proof (forallb_range
    (fun s => on_board (SQUARE_64_TO_120 s) && (SQUARE_120_TO_64 (SQUARE_64_TO_120 s) =? s))
    0 64 eq_refl i ltac:(lia)) as Hc.
  cbv beta in Hc. apply andb_prop in Hc. destruct Hc as [H1 H2]. split; [exact H1 | lia].
Qed.

(** The 120-square index of a 64-square index hits [sq] only at the
    64-square index of [sq]. *)
Lemma sq120_hits (sq i : Z) :
  on_board sq = true -> 0 <= i < 64 ->
  (SQUARE_64_TO_120 i =? sq) = (i =? SQUARE_120_TO_64 sq).
Proof.
  intros Hon Hi.
  destruct (sq64_of_board sq Hon) as [_ Hback].
  destruct (sq120_of_64 i Hi) as [_ Hforth].
  destruct (Z.eqb_spec (SQUARE_64_TO_120 i) sq) as [E | E];
    destruct (Z.eqb_spec i (SQUARE_120_TO_64 sq)) as [E' | E']; try reflexivity.
  - exfalso. apply E'. rewrite <- E, Hforth. reflexivity.
  - exfalso. apply E. rewrite E', Hback. reflexivity.
Qed.

Lemma testbit_U64_MAX (i : Z) : Z.testbit U64_MAX i = (0 <=? i) && (i <? 64).
Proof.
  change U64_MAX with (Z.ones 64).
  destruct (Z.leb_spec 0 i); [| rewrite Z.testbit_neg_r by lia; reflexivity].
  destruct (Z.ltb_spec i 64).
  - apply Z.ones_spec_low. lia.
  - apply Z.ones_spec_high. lia.
Qed.

Lemma testbit_clear (x s i : Z) :
  0 <= s < 64 ->
  Z.testbit (BITBOARD_CLEAR_BIT x s) i
  = Z.testbit x i && ((0 <=? i) && (i <? 64)) && negb (i =? s).
Proof.
  intros Hs. unfold BITBOARD_CLEAR_BIT, g_bitClearMask.
  replace ((0 <=? s) && (s <? 64)) with true by lia.
  rewrite Z.land_spec, Z.lxor_spec, testbit_U64_MAX, Z.shiftl_1_l.
  destruct (Z.leb_spec 0 i).
  - rewrite Z.pow2_bits_eqb by lia. rewrite (Z.eqb_sym s i).
    replace (0 <=? i) with true by lia.
    destruct (Z.eqb_spec i s) as [-> | _].
    + replace (s <? 64) with true by lia. destruct (Z.testbit x s); reflexivity.
    + destruct (Z.testbit x i), (i <? 64); reflexivity.
  - rewrite !Z.testbit_neg_r by lia. reflexivity.
Qed.

Lemma testbit_set (x s i : Z) :
  0 <= s < 64 ->
  Z.testbit (BITBOARD_SET_BIT x s) i = Z.testbit x i || (i =? s).
Proof.
  intros Hs. unfold BITBOARD_SET_BIT, g_bitSetMask.
  replace ((0 <=? s) && (s <? 64)) with true by lia.
  rewrite Z.lor_spec, Z.shiftl_1_l.
  destruct (Z.leb_spec 0 i).
  - rewrite Z.pow2_bits_eqb by lia. rewrite (Z.eqb_sym s i). reflexivity.
  - rewrite !Z.testbit_neg_r by lia. replace (i =? s) with false by lia. reflexivity.
Qed.

(** Among the pieces only the pawns are not "big". *)
Lemma big_not_pawn (p : Z) :
  1 <= p <= 12 ->
  nz (aget PieceBig p) = negb ((p =? PIECE_TYPE_WHITE_PAWN) || (p =? PIECE_TYPE_BLACK_PAWN)).
Proof.
  intros Hp. apply eqb_prop.
  exact (forallb_range
    (fun q => Bool.eqb (nz (aget PieceBig q))
                (negb ((q =? PIECE_TYPE_WHITE_PAWN) || (q =? PIECE_TYPE_BLACK_PAWN))))
    1 12 eq_refl p ltac:(lia)).
Qed.

(** The mailbox changes on one square and the bit-sets change on the bit
    of that square only, to the pawn tests of the new content. *)
Lemma pawns_inv_update (pcs pw pw' : list Z) (sq v : Z) :
  pawns_inv pcs pw -> on_board sq = true -> length pcs = 120%nat ->
  length pw' = 3%nat ->
  (forall c i, 0 <= c <= 2 -> 64 <= i -> Z.testbit (aget pw' c) i = false) ->
  (forall c i, 0 <= c <= 2 -> 0 <= i < 64 -> i <> SQUARE_120_TO_64 sq ->
     Z.testbit (aget pw' c) i = Z.testbit (aget pw c) i) ->
  Z.testbit (aget pw' COLOR_TYPE_WHITE) (SQUARE_120_TO_64 sq) = (v =? PIECE_TYPE_WHITE_PAWN) ->
  Z.testbit (aget pw' COLOR_TYPE_BLACK) (SQUARE_120_TO_64 sq) = (v =? PIECE_TYPE_BLACK_PAWN) ->
  Z.testbit (aget pw' COLOR_TYPE_BOTH) (SQUARE_120_TO_64 sq)
  = (v =? PIECE_TYPE_WHITE_PAWN) || (v =? PIECE_TYPE_BLACK_PAWN) ->
  pawns_inv (aset pcs sq v) pw'.
Proof.
  intros (Hl & Hhi & Hw & Hb & Hboth) Hon Hlen Hl' Hhi' Hother Hw' Hb' Hboth'.
  assert (Hrange : 0 <= sq < 120) by (unfold on_board in Hon; lia).
  assert (Hget : forall i, 0 <= i < 64 ->
            aget (aset pcs sq v) (SQUARE_64_TO_120 i)
            = if i =? SQUARE_120_TO_64 sq then v else aget pcs (SQUARE_64_TO_120 i)).
  { intros i Hi. rewrite aget_aset by lia. rewrite (sq120_hits sq i Hon Hi). reflexivity. }
  unfold pawns_inv, COLOR_TYPE_WHITE, COLOR_TYPE_BLACK, COLOR_TYPE_BOTH in *.
  split; [exact Hl' |]. split; [exact Hhi' |].
  split; [| split]; intros i Hi; rewrite (Hget i Hi);
    (destruct (Z.eqb_spec i (SQUARE_120_TO_64 sq)) as [-> | Hne];
     [ assumption | rewrite Hother by lia; auto ]).
Qed.

Ltac pw_read :=
  rewrite ?aget_aset_eq by (rewrite ?length_aset; lia);
  rewrite ?aget_aset_ne by lia;
  rewrite ?aget_aset_eq by (rewrite ?length_aset; lia);
  rewrite ?aget_aset_ne by lia.

Ltac color_cases c :=
  let H := fresh in
  assert (H : c = 0 \/ c = 1 \/ c = 2) by lia;
  destruct H as [-> | [-> | ->]].

(** Decides every integer test of the goal, then closes it. *)
Ltac ztests :=
  repeat match goal with
         | |- context [?a =? ?b] => destruct (Z.eqb_spec a b)
         | |- context [?a <? ?b] => destruct (Z.ltb_spec a b)
         | |- context [?a <=? ?b] => destruct (Z.leb_spec a b)
         end;
  cbn [andb orb negb xorb implb];
  rewrite ?andb_true_r, ?andb_false_r, ?orb_true_r, ?orb_false_r;
  first [ reflexivity | lia | congruence | assumption ].

Ltac colors :=
  unfold COLOR_TYPE_WHITE, COLOR_TYPE_BLACK, COLOR_TYPE_BOTH, PIECE_TYPE_WHITE_PAWN,
    PIECE_TYPE_BLACK_PAWN, EMPTY in *.

Lemma pawns_inv_clear (pcs pw : list Z) (sq p : Z) :
  pawns_inv pcs pw -> aget pcs sq = p -> 1 <= p <= 12 -> on_board sq = true ->
  length pcs = 120%nat ->
  pawns_inv (aset pcs sq EMPTY) (cleared_pawns p (aget g_pieceCol p) sq pw).
Proof.
  intros Hinv Hsq Hp Hon Hlen.
  pose proof Hinv as (Hl & Hhi & Hw & Hb & Hboth).
  destruct (sq64_of_board sq Hon) as [Hs Hback].
  specialize (Hw _ Hs). specialize (Hb _ Hs). specialize (Hboth _ Hs).
  rewrite Hback, Hsq in Hw, Hb, Hboth.
  unfold cleared_pawns. rewrite (big_not_pawn p Hp). colors.
  destruct (Z.eqb_spec p 1) as [-> | Hn1]; [| destruct (Z.eqb_spec p 7) as [-> | Hn7]];
    cbn [orb negb];
    [ change (aget g_pieceCol 1) with 0 | change (aget g_pieceCol 7) with 1 | ];
    (apply (pawns_inv_update pcs pw _ sq 0 Hinv Hon Hlen); colors;
     [ rewrite ?length_aset; exact Hl
     | intros c i Hc Hi; color_cases c; pw_read; rewrite ?testbit_clear by lia;
       rewrite ?Hhi by lia; ztests
     | intros c i Hc Hi Hne; color_cases c; pw_read; rewrite ?testbit_clear by lia;
       ztests
     | pw_read; rewrite ?testbit_clear by lia; rewrite ?Hw, ?Hb, ?Hboth; ztests .. ]).
Qed.

Lemma pawns_inv_add (pcs pw : list Z) (sq p : Z) :
  pawns_inv pcs pw -> aget pcs sq = EMPTY -> 1 <= p <= 12 -> on_board sq = true ->
  length pcs = 120%nat ->
  pawns_inv (aset pcs sq p) (added_pawns p (aget g_pieceCol p) sq pw).
Proof.
  intros Hinv Hsq Hp Hon Hlen.
  pose proof Hinv as (Hl & Hhi & Hw & Hb & Hboth).
  destruct (sq64_of_board sq Hon) as [Hs Hback].
  specialize (Hw _ Hs). specialize (Hb _ Hs). specialize (Hboth _ Hs).
  rewrite Hback, Hsq in Hw, Hb, Hboth.
  unfold added_pawns. rewrite (big_not_pawn p Hp). colors.
  destruct (Z.eqb_spec p 1) as [-> | Hn1]; [| destruct (Z.eqb_spec p 7) as [-> | Hn7]];
    cbn [orb negb];
    [ change (aget g_pieceCol 1) with 0 | change (aget g_pieceCol 7) with 1 | ];
    (apply (pawns_inv_update pcs pw _ sq _ Hinv Hon Hlen); colors;
     [ rewrite ?length_aset; exact Hl
     | intros c i Hc Hi; color_cases c; pw_read; rewrite ?testbit_set by lia;
       rewrite ?Hhi by lia; ztests
     | intros c i Hc Hi Hne; color_cases c; pw_read; rewrite ?testbit_set by lia;
       ztests
     | pw_read; rewrite ?testbit_set by lia; rewrite ?Hw, ?Hb, ?Hboth; ztests .. ]).
Qed.

Lemma moved_pawns_eq (p c from to : Z) (pw : list Z) :
  moved_pawns p c from to pw = added_pawns p c to (cleared_pawns p c from pw).
Proof.
  unfold moved_pawns, added_pawns, cleared_pawns.
  destruct (nz (aget PieceBig p)); reflexivity.
Qed.

Lemma pawns_inv_move (pcs pw : list Z) (from to p : Z) :
  pawns_inv pcs pw -> aget pcs from = p -> 1 <= p <= 12 -> aget pcs to = EMPTY ->
  on_board from = true -> on_board to = true -> from <> to -> length pcs = 120%nat ->
  pawns_inv (aset (aset pcs from EMPTY) to p)
    (moved_pawns p (aget g_pieceCol p) from to pw).
Proof.
  intros Hinv Hfrom Hp Hto Hf Ht Hne Hlen.
  rewrite moved_pawns_eq.
  apply pawns_inv_add; try assumption.
  - apply pawns_inv_clear; assumption.
  - rewrite aget_aset_ne by assumption. exact Hto.
  - rewrite length_aset. exact Hlen.
Qed.

(** The mailbox determines the pawn bit-sets. *)
Lemma pawns_inv_same (pcs pw pw' : list Z) :
  pawns_inv pcs pw -> pawns_inv pcs pw' -> pw' = pw.
Proof.
  intros (Hl & Hhi & Hw & Hb & Hboth) (Hl' & Hhi' & Hw' & Hb' & Hboth').
  colors. apply aset_ext; [congruence |].
  intros c Hc. rewrite Hl' in Hc.
  apply Z.bits_inj'. intros i Hi.
  destruct (Z.ltb_spec i 64).
  - color_cases c; [rewrite Hw, Hw' | rewrite Hb, Hb' | rewrite Hboth, Hboth'];
      try reflexivity; lia.
  - rewrite Hhi, Hhi' by lia. reflexivity.
Qed.

(** A range cut at one of its elements. *)
Lemma seqZ_split (n k : Z) :
  0 <= k < n -> seqZ 0 n = seqZ 0 k ++ k :: seqZ (k + 1) (n - k - 1).
Proof.
  intros Hk. replace n with (k + (n - k)) at 1 by lia.
  rewrite seqZ_app by lia. f_equal.
  rewrite seqZ_cons by lia.
  replace (0 + k) with k by lia. replace (Z.succ k) with (k + 1) by lia.
  replace (Z.pred (n - k)) with (n - k - 1) by lia. reflexivity.
Qed.

(* ================================================================== *)
(** * Symbolic execution of the executor on an opened board

    On a board given by its fields, each block is replaced by its normal
    form and the assignments are carried out, innermost block first.  The
    result is again a board given by its fields. *)
(* ================================================================== *)

Ltac is_record X :=
  lazymatch X with
  | mkBoard _ _ _ _ _ _ _ _ _ _ _ _ _ _ _ _ _ _ _ _ _ _ => idtac
  end.

Ltac rec_cbv_in H :=
  cbv beta iota zeta delta
    [set_pieces set_pawns set_KingSq set_side set_enPas set_fiftyMove set_ply set_hisPly
     set_castlePerm set_posKey set_pieceCount set_bigPce set_majPce set_minPce set_material
     set_history set_pList set_hashTable set_capturedWhite set_capturedBlack
     set_capturedWhiteCount set_capturedBlackCount
     pieces pawns KingSq side enPas fiftyMove ply hisPly castlePerm posKey pieceCount
     bigPce majPce minPce material history pList hashTable capturedWhite capturedBlack
     capturedWhiteCount capturedBlackCount] in H.

Ltac norm_rewrite L :=
  let E := fresh "E" in pose proof L as E; rec_cbv_in E; rewrite E; clear E.

Ltac norm_change t :=
  let r := eval cbv beta iota zeta delta
    [set_pieces set_pawns set_KingSq set_side set_enPas set_fiftyMove set_ply set_hisPly
     set_castlePerm set_posKey set_pieceCount set_bigPce set_majPce set_minPce set_material
     set_history set_pList set_hashTable set_capturedWhite set_capturedBlack
     set_capturedWhiteCount set_capturedBlackCount
     pieces pawns KingSq side enPas fiftyMove ply hisPly castlePerm posKey pieceCount
     bigPce majPce minPce material history pList hashTable capturedWhite capturedBlack
     capturedWhiteCount capturedBlackCount] in t in
  let E := fresh "E" in
  assert (E : t = r) by reflexivity;
  rewrite E; clear E.

Lemma undo_fields (a b c d e : Z) :
  u_move (mkUndo a b c d e) = a /\ u_castlePerm (mkUndo a b c d e) = b
  /\ u_enPas (mkUndo a b c d e) = c /\ u_fiftyMove (mkUndo a b c d e) = d
  /\ u_posKey (mkUndo a b c d e) = e.
Proof. split_ands; reflexivity. Qed.

Ltac undo_simp :=
  repeat match goal with
         | |- context [u_move (mkUndo ?a ?b ?c ?d ?e)] =>
             rewrite (proj1 (undo_fields a b c d e))
         | |- context [u_castlePerm (mkUndo ?a ?b ?c ?d ?e)] =>
             rewrite (proj1 (proj2 (undo_fields a b c d e)))
         | |- context [u_enPas (mkUndo ?a ?b ?c ?d ?e)] =>
             rewrite (proj1 (proj2 (proj2 (undo_fields a b c d e))))
         | |- context [u_fiftyMove (mkUndo ?a ?b ?c ?d ?e)] =>
             rewrite (proj1 (proj2 (proj2 (proj2 (undo_fields a b c d e)))))
         | |- context [u_posKey (mkUndo ?a ?b ?c ?d ?e)] =>
             rewrite (proj2 (proj2 (proj2 (proj2 (undo_fields a b c d e)))))
         end.

(** One block, or one assignment, or one read, on an opened board. *)
Ltac exec_step :=
  match goal with
  | |- context [?f ?X] => is_field f; is_record X; norm_change (f X)
  | |- context [?g ?v ?X] => is_setter g; is_record X; norm_change (g v X)
  | |- context [save_key ?X] => is_record X; norm_rewrite (save_key_nf X)
  | |- context [make_state ?K ?m ?a ?c ?X] =>
      is_record X; norm_rewrite (make_state_nf K m a c X)
  | |- context [make_ply ?X] => is_record X; norm_rewrite (make_ply_nf X)
  | |- context [make_pawn ?K ?m ?a ?c ?X] =>
      is_record X; norm_rewrite (make_pawn_nf K m a c X)
  | |- context [king_moved ?sq ?X] => is_record X; norm_rewrite (king_moved_nf sq X)
  | |- context [flip_side ?K ?X] => is_record X; norm_rewrite (flip_side_nf K X)
  | |- context [take_ply ?X] => is_record X; norm_rewrite (take_ply_nf X)
  | |- context [take_state ?K ?X] => is_record X; norm_rewrite (take_state_nf K X)
  | |- context [track_capture ?c ?X] => is_record X; norm_rewrite (track_capture_nf c X)
  | |- context [untrack_capture ?c ?X] =>
      is_record X; norm_rewrite (untrack_capture_nf c X)
  | |- context [hash_ep_if_set ?K ?X] => is_record X; norm_rewrite (hash_ep_if_set_nf K X)
  | |- context [null_ply ?X] => is_record X; norm_rewrite (null_ply_nf X)
  | |- context [null_state ?X] => is_record X; norm_rewrite (null_state_nf X)
  | |- context [null_side ?K ?X] => is_record X; norm_rewrite (null_side_nf K X)
  | |- context [restore_state ?X] => is_record X; norm_rewrite (restore_state_nf X)
  | |- context [ClearPiece ?K ?sq ?X] => is_record X; norm_rewrite (ClearPiece_nf K sq X)
  | |- context [AddPiece ?K ?sq ?X ?p] => is_record X; norm_rewrite (AddPiece_nf K sq X p)
  | |- context [MovePiece ?K ?a ?c ?X] => is_record X; norm_rewrite (MovePiece_nf K a c X)
  end.

(** Reads of [a[i]] after [a[j] = v], decided by arithmetic. *)
Ltac asimp :=
  repeat match goal with
         | |- context [aget (aset ?a ?i ?v) ?j] =>
             first [ rewrite (aget_aset_ne a i j v) by lia
                   | rewrite (aget_aset_eq a i v) by (rewrite ?length_aset; lia) ]
         end.

Ltac names :=
  unfold PieceValid, EMPTY, PIECE_TYPE_WHITE_PAWN, PIECE_TYPE_WHITE_KNIGHT,
    PIECE_TYPE_WHITE_BISHOP, PIECE_TYPE_WHITE_ROOK, PIECE_TYPE_WHITE_QUEEN,
    PIECE_TYPE_WHITE_KING, PIECE_TYPE_BLACK_PAWN, PIECE_TYPE_BLACK_KNIGHT,
    PIECE_TYPE_BLACK_BISHOP, PIECE_TYPE_BLACK_ROOK, PIECE_TYPE_BLACK_QUEEN,
    PIECE_TYPE_BLACK_KING, COLOR_TYPE_WHITE, COLOR_TYPE_BLACK, COLOR_TYPE_BOTH,
    NO_SQ, OFFBOARD, A1, C1, D1, E1, F1, G1, H1, A8, C8, D8, E8, F8, G8, H8 in *.

(** A conjunction of tests that holds, taken apart. *)
Ltac split_bool H :=
  lazymatch type of H with
  | _ && _ = true =>
      let H1 := fresh H in
      let H2 := fresh H in
      apply andb_prop in H; destruct H as [H1 H2]; split_bool H1; split_bool H2
  | negb _ = true => apply negb_true_iff in H; split_bool H
  | (_ =? _) = true => apply Z.eqb_eq in H
  | (_ =? _) = false => apply Z.eqb_neq in H
  | (_ <=? _) = true => apply Z.leb_le in H
  | (_ <? _) = true => apply Z.ltb_lt in H
  | _ => idtac
  end.

(** Equality of two xor-sums of the same terms. *)
Ltac xor_solve :=
  apply Z.bits_inj'; intros ?n ?Hn; rewrite !Z.lxor_spec, ?Z.bits_0;
  repeat match goal with
         | |- context [Z.testbit ?x ?n] =>
             let v := fresh "v" in generalize (Z.testbit x n); intro v
         end;
  timeout 30 btauto.

Lemma on_board_range (sq : Z) : on_board sq = true -> 21 <= sq <= 98.
Proof. unfold on_board. lia. Qed.

Lemma step_not_NO_SQ (f d : Z) :
  on_board f = true -> d = 10 \/ d = -10 -> f + d <> NO_SQ.
Proof.
  intros H Hd. unfold on_board in H.
  apply andb_prop in H. destruct H as [H H4]. apply andb_prop in H. destruct H as [H H3].
  apply andb_prop in H. destruct H as [H1 H2].
  unfold NO_SQ. intros E. assert (Hf : f = 89 \/ f = 109) by lia.
  destruct Hf as [-> | ->]; vm_compute in H3, H4; discriminate.
Qed.

Lemma ep_key_step (K : HashKeys) (f d : Z) :
  on_board f = true -> d = 10 \/ d = -10 -> ep_key K (f + d) = g_pieceKeys K EMPTY (f + d).
Proof.
  intros H Hd. unfold ep_key.
  destruct (Z.eqb_spec (f + d) NO_SQ) as [E |]; [| reflexivity].
  exfalso. exact (step_not_NO_SQ f d H Hd E).
Qed.

Lemma lxor_flip_flip (s : Z) : Z.lxor (Z.lxor s 1) 1 = s.
Proof. rewrite Z.lxor_assoc. change (Z.lxor 1 1) with 0. apply Z.lxor_0_r. Qed.

Lemma flip_color (s : Z) : 0 <= s <= 1 -> 0 <= Z.lxor s 1 <= 1 /\ Z.lxor s 1 <> s.
Proof.
  intros Hs. assert (H : s = 0 \/ s = 1) by lia.
  destruct H as [-> | ->]; [change (Z.lxor 0 1) with 1 | change (Z.lxor 1 1) with 0]; lia.
Qed.

Lemma king_has_color (p : Z) :
  1 <= p <= 12 -> nz (aget g_pieceKing p) = true -> p = king_of (aget g_pieceCol p).
Proof.
  intros Hp Hk.
  pose proof (forallb_range
    (fun q => implb (nz (aget g_pieceKing q)) (q =? king_of (aget g_pieceCol q)))
    1 12 eq_refl p ltac:(lia)) as Hc.
  cbv beta in Hc. rewrite Hk in Hc. cbn [implb] in Hc. lia.
Qed.

Lemma color_range (p : Z) : 1 <= p <= 12 -> 0 <= aget g_pieceCol p <= 1.
Proof.
  intros Hp.
  pose proof (forallb_range
    (fun q => (0 <=? aget g_pieceCol q) && (aget g_pieceCol q <=? 1))
    1 12 eq_refl p ltac:(lia)) as Hc.
  cbv beta in Hc. lia.
Qed.

(** Known contents of cells, used from left to right. *)
Ltac use_cells :=
  repeat match goal with
         | H : aget ?a ?i = ?v |- context [aget ?a ?i] =>
             lazymatch v with
             | context [aget a i] => fail
             | _ => rewrite H
             end
         end.

Ltac side_solve :=
  names; rewrite ?length_aset; asimp; use_cells; asimp;
  first [ reflexivity | assumption | lia | congruence ].

(** Consistency of lists and bit-sets after a run of [ClearPiece],
    [AddPiece] and [MovePiece], from the consistency before it. *)
Ltac inv_chain :=
  repeat first
    [ eassumption
    | apply pawns_inv_add | apply pawns_inv_move | apply pawns_inv_clear
    | apply lists_inv_add | apply lists_inv_move | apply lists_inv_clear ].

Ltac rec_cbv :=
  cbv beta iota zeta delta
    [set_pieces set_pawns set_KingSq set_side set_enPas set_fiftyMove set_ply set_hisPly
     set_castlePerm set_posKey set_pieceCount set_bigPce set_majPce set_minPce set_material
     set_history set_pList set_hashTable set_capturedWhite set_capturedBlack
     set_capturedWhiteCount set_capturedBlackCount
     pieces pawns KingSq side enPas fiftyMove ply hisPly castlePerm posKey pieceCount
     bigPce majPce minPce material history pList hashTable capturedWhite capturedBlack
     capturedWhiteCount capturedBlackCount].

Lemma castle_rook_make_to (K : HashKeys) (b : ChessBoard) :
  castle_rook_make K 23 b = MovePiece K 21 24 b
  /\ castle_rook_make K 93 b = MovePiece K 91 94 b
  /\ castle_rook_make K 27 b = MovePiece K 28 26 b
  /\ castle_rook_make K 97 b = MovePiece K 98 96 b.
Proof. split_ands; reflexivity. Qed.

Lemma castle_rook_take_to (K : HashKeys) (b : ChessBoard) :
  castle_rook_take K 23 b = MovePiece K 24 21 b
  /\ castle_rook_take K 93 b = MovePiece K 94 91 b
  /\ castle_rook_take K 27 b = MovePiece K 26 28 b
  /\ castle_rook_take K 97 b = MovePiece K 96 98 b.
Proof. split_ands; reflexivity. Qed.

(** The test of a branching block, read off the hypotheses. *)
Ltac cond_side :=
  rec_cbv;
  rewrite ?lxor_flip_flip, ?(Z.land_comm MFLAGEP), ?(Z.land_comm MFLAGCA);
  try match goal with
      | H : ?v = MOVE_GET_PROMOTED ?m |- context [MOVE_GET_PROMOTED ?m] => rewrite <- H
      end;
  first [ assumption | reflexivity ].

(** One branching block on an opened board, by the branch the hypotheses
    select. *)
Ltac cond_step :=
  match goal with
  | |- context [make_special ?K ?m ?t ?s ?X] =>
      is_record X;
      first [ rewrite (make_special_none K m t s X) by cond_side
            | rewrite (make_special_ep_white K m t s X) by cond_side
            | rewrite (make_special_ep_black K m t s X) by cond_side
            | rewrite (make_special_castle K m t s X) by cond_side ]
  | |- context [take_special ?K ?m ?t ?X] =>
      is_record X;
      first [ rewrite (take_special_none K m t X) by cond_side
            | rewrite (take_special_ep_white K m t X) by cond_side
            | rewrite (take_special_ep_black K m t X) by cond_side
            | rewrite (take_special_castle K m t X) by cond_side ]
  | |- context [castle_rook_make ?K 23 ?X] =>
      is_record X; rewrite (proj1 (castle_rook_make_to K X))
  | |- context [castle_rook_make ?K 93 ?X] =>
      is_record X; rewrite (proj1 (proj2 (castle_rook_make_to K X)))
  | |- context [castle_rook_make ?K 27 ?X] =>
      is_record X; rewrite (proj1 (proj2 (proj2 (castle_rook_make_to K X))))
  | |- context [castle_rook_make ?K 97 ?X] =>
      is_record X; rewrite (proj2 (proj2 (proj2 (castle_rook_make_to K X))))
  | |- context [castle_rook_take ?K 23 ?X] =>
      is_record X; rewrite (proj1 (castle_rook_take_to K X))
  | |- context [castle_rook_take ?K 93 ?X] =>
      is_record X; rewrite (proj1 (proj2 (castle_rook_take_to K X)))
  | |- context [castle_rook_take ?K 27 ?X] =>
      is_record X; rewrite (proj1 (proj2 (proj2 (castle_rook_take_to K X))))
  | |- context [castle_rook_take ?K 97 ?X] =>
      is_record X; rewrite (proj2 (proj2 (proj2 (castle_rook_take_to K X))))
  | |- context [make_capture ?K EMPTY ?t ?X] =>
      is_record X; rewrite (make_capture_none K t X)
  | |- context [make_capture ?K ?c ?t ?X] =>
      is_record X; rewrite (make_capture_some K c t X) by cond_side
  | |- context [take_capture ?K EMPTY ?t ?X] =>
      is_record X; rewrite (take_capture_none K t X)
  | |- context [take_capture ?K ?c ?t ?X] =>
      is_record X; rewrite (take_capture_some K c t X) by cond_side
  | |- context [make_promote ?K EMPTY ?t ?X] =>
      is_record X; rewrite (make_promote_none K t X)
  | |- context [make_promote ?K ?p ?t ?X] =>
      is_record X; rewrite (make_promote_some K p t X) by cond_side
  | |- context [take_promote ?K ?m ?f ?X] =>
      is_record X;
      first [ rewrite (take_promote_none K m f X) by cond_side
            | rewrite (take_promote_some K m f X) by cond_side ]
  end.

(** The undo record read back from the history cell it was written to. *)
Ltac hist_step :=
  progress
    (rewrite ?Z.add_simpl_r;
     repeat match goal with
            | |- context [aset (aset ?h ?i ?u) ?i (mkUndo ?a ?b ?c ?d ?e)] =>
                rewrite (aset_aset_eq h i u (mkUndo a b c d e))
            end;
     repeat match goal with
            | |- context [aget (aset ?h ?i (mkUndo ?a ?b ?c ?d ?e)) ?i] =>
                rewrite (aget_aset_eq h i (mkUndo a b c d e)) by lia
            end;
     undo_simp).

(** The larger fields of the opened board are named, so that the board
    stays small while the run goes on; [unname] puts the values back. *)
Ltac name_field e :=
  tryif is_var e then idtac
  else (let w := fresh "w" in set (w := e) in |- *).

Ltac name_fields :=
  match goal with
  | |- context [mkBoard ?pcs ?pw ?ks _ _ _ _ _ _ ?key ?cnt ?big ?maj ?mnr ?mat _ ?pl _
                  ?cw ?cb ?cwc ?cbc] =>
      progress (name_field pcs; name_field cnt; name_field pw; name_field ks;
                name_field key; name_field big; name_field maj; name_field mnr;
                name_field mat; name_field pl; name_field cw; name_field cb;
                name_field cwc; name_field cbc)
  end.

Ltac unname := repeat match goal with w := _ |- _ => subst w end; try hist_step.

Ltac run := repeat first [ name_fields | hist_step | exec_step | cond_step ].

(** The mailbox after the run equals the mailbox before it: square by
    square, with the squares the run touched told apart first. *)
Ltac mailbox_cases j sqs :=
  lazymatch sqs with
  | nil => idtac
  | cons ?s ?rest => destruct (Z.eq_dec j s) as [-> | ?]; [| mailbox_cases j rest]
  end.

Ltac array_eq sqs :=
  apply aset_ext; [rewrite ?length_aset; reflexivity |];
  let j := fresh "j" in
  intros j _; mailbox_cases j sqs; asimp; first [ reflexivity | congruence | lia ].

(** [bumped] twice on the same cell, down and up. *)
Lemma bumped_back (flag : bool) (a : list Z) (c : Z) :
  0 <= c < Z.of_nat (length a) ->
  bumped flag (bumped flag a c (-1)) c 1 = a.
Proof.
  intros Hc. unfold bumped. destruct flag; [| reflexivity].
  rewrite aget_aset_eq by exact Hc. rewrite aset_aset_eq. apply aset_id; [lia | exact Hc].
Qed.

Lemma bumped_forth (flag : bool) (a : list Z) (c : Z) :
  0 <= c < Z.of_nat (length a) ->
  bumped flag (bumped flag a c 1) c (-1) = a.
Proof.
  intros Hc. unfold bumped. destruct flag; [| reflexivity].
  rewrite aget_aset_eq by exact Hc. rewrite aset_aset_eq. apply aset_id; [lia | exact Hc].
Qed.

Lemma bumped_length (flag : bool) (a : list Z) (c d : Z) :
  length (bumped flag a c d) = length a.
Proof. unfold bumped. destruct flag; [apply length_aset | reflexivity]. Qed.

(** [Move_Take] with the move it reads from the history named. *)
Lemma Move_Take_unfold (K : HashKeys) (b : ChessBoard) (m : Z) :
  u_move (aget (history (take_ply b)) (hisPly (take_ply b))) = m ->
  Move_Take K b =
  take_promote K m (MOVE_GET_FROM_SQUARE m)
    (take_capture K (MOVE_GET_CAPTURED m) (MOVE_GET_TO_SQUARE m)
       (king_moved (MOVE_GET_FROM_SQUARE m)
          (MovePiece K (MOVE_GET_TO_SQUARE m) (MOVE_GET_FROM_SQUARE m)
             (take_special K m (MOVE_GET_TO_SQUARE m) (take_state K (take_ply b)))))).
Proof. intros Hm. unfold Move_Take. cbv zeta. rewrite Hm. reflexivity. Qed.

(** [same_position] against a board given by its fields. *)
Lemma same_position_fields (b : ChessBoard)
    (pcs pw ks : list Z) (sd ep fm pl hp cp key : Z) (cnt big maj mnr mat : list Z)
    (hist : list UndoMove) (plist : list (list Z)) (ht : HashTable) (cw cb : list Z)
    (cwc cbc : Z) :
  pcs = pieces b -> pw = pawns b -> ks = KingSq b -> sd = side b -> ep = enPas b ->
  fm = fiftyMove b -> pl = ply b -> hp = hisPly b -> cp = castlePerm b -> key = posKey b ->
  cnt = pieceCount b -> big = bigPce b -> maj = majPce b -> mnr = minPce b ->
  mat = material b ->
  (forall p, 1 <= p <= 12 ->
     aprefix (aget plist p) (aget cnt p) ≡ₚ aprefix (aget (pList b) p) (aget (pieceCount b) p)) ->
  same_position b
    (mkBoard pcs pw ks sd ep fm pl hp cp key cnt big maj mnr mat hist plist ht cw cb cwc cbc).
Proof.
  intros -> -> -> -> -> -> -> -> -> -> -> -> -> -> -> Hl.
  unfold same_position, live. split_ands; try reflexivity. exact Hl.
Qed.

(** The bit-sets, and the live lists, of two consistent descriptions of
    equal mailboxes. *)
Lemma pawns_inv_back (pcs pcs' pw pw' : list Z) :
  pawns_inv pcs pw -> pawns_inv pcs' pw' -> pcs' = pcs -> pw' = pw.
Proof. intros H H' E. subst pcs'. exact (pawns_inv_same pcs pw pw' H H'). Qed.

Lemma lists_inv_back (pcs pcs' cnt cnt' : list Z) (pl pl' : list (list Z)) (p : Z) :
  lists_inv pcs cnt pl -> 1 <= p <= 12 -> lists_inv pcs' cnt' pl' -> pcs' = pcs ->
  aprefix (aget pl' p) (aget cnt' p) ≡ₚ aprefix (aget pl p) (aget cnt p).
Proof.
  intros H Hp H' E. subst pcs'. exact (proj2 (lists_inv_same pcs cnt cnt' pl pl' p H H' Hp)).
Qed.

(** ** Facts about the piece tables *)

Lemma pawn_of_facts (c : Z) :
  0 <= c <= 1 ->
  1 <= pawn_of c <= 12 /\ aget g_pieceCol (pawn_of c) = c
  /\ nz (aget PieceBig (pawn_of c)) = false /\ nz (aget g_pieceKing (pawn_of c)) = false
  /\ nz (aget g_piecePawn (pawn_of c)) = true.
Proof.
  intros Hc. assert (H : c = 0 \/ c = 1) by lia.
  destruct H as [-> | ->]; vm_compute; split_ands; try reflexivity; discriminate.
Qed.

Lemma king_of_facts (c : Z) :
  0 <= c <= 1 ->
  1 <= king_of c <= 12 /\ aget g_pieceCol (king_of c) = c
  /\ nz (aget g_pieceKing (king_of c)) = true /\ nz (aget g_piecePawn (king_of c)) = false
  /\ nz (aget PieceBig (king_of c)) = true.
Proof.
  intros Hc. assert (H : c = 0 \/ c = 1) by lia.
  destruct H as [-> | ->]; vm_compute; split_ands; try reflexivity; discriminate.
Qed.

Lemma rook_of_facts (c : Z) :
  0 <= c <= 1 ->
  1 <= rook_of c <= 12 /\ aget g_pieceCol (rook_of c) = c
  /\ nz (aget g_pieceKing (rook_of c)) = false /\ nz (aget g_piecePawn (rook_of c)) = false
  /\ nz (aget PieceBig (rook_of c)) = true.
Proof.
  intros Hc. assert (H : c = 0 \/ c = 1) by lia.
  destruct H as [-> | ->]; vm_compute; split_ands; try reflexivity; discriminate.
Qed.

Lemma pawn_is_pawn_of (p : Z) :
  1 <= p <= 12 -> nz (aget g_piecePawn p) = true -> p = pawn_of (aget g_pieceCol p).
Proof.
  intros Hp Hk.
  pose proof (forallb_range
    (fun q => implb (nz (aget g_piecePawn q)) (q =? pawn_of (aget g_pieceCol q)))
    1 12 eq_refl p ltac:(lia)) as Hc.
  cbv beta in Hc. rewrite Hk in Hc. cbn [implb] in Hc. lia.
Qed.

(** ** Closing the goals a round trip leaves *)

Ltac open_consistent Hc :=
  unfold consistent in Hc; rec_cbv_in Hc;
  destruct Hc as (HL & HP & Hon & Hk & Hlk & Hlm & Hlb & Hlj & Hln & Hlh & Hhp & Hsd);
  pose proof HL as (Hlp & Hll & Hlc & Hrows).

Ltac cells_eq sqs :=
  apply aset_ext; [rewrite ?length_aset; reflexivity |];
  let j := fresh "j" in
  intros j _; mailbox_cases j sqs; asimp; use_cells; asimp;
  first [ reflexivity | congruence | lia ].

Ltac fin_pawns sqs :=
  eapply pawns_inv_back; [eassumption | inv_chain | ]; try side_solve; cells_eq sqs.

Ltac fin_lists sqs :=
  let q := fresh "q" in
  let Hq := fresh "Hq" in
  intros q Hq;
  eapply lists_inv_back; [eassumption | exact Hq | inv_chain | ]; try side_solve;
  cells_eq sqs.

Ltac fin_bumped idxs :=
  use_cells; unfold bumped;
  repeat match goal with
         | |- context [if ?c then _ else _] => destruct c
         end;
  first [ reflexivity | cells_eq idxs ].

(* ================================================================== *)
(** * [Move_Take] after [Move_Make], move kind by move kind *)
(* ================================================================== *)

Ltac key_solve K f Hof :=
  asimp; use_cells; asimp;
  repeat match goal with
         | |- context [if nz ?a && nz ?b then _ else _] => destruct (nz a && nz b)
         | |- context [if ?s =? COLOR_TYPE_WHITE then _ else _] =>
             destruct (s =? COLOR_TYPE_WHITE)
         end;
  change (f - 10) with (f + -10);
  rewrite ?(ep_key_step K f 10 Hof), ?(ep_key_step K f (-10) Hof) by lia;
  change (ep_key K NO_SQ) with 0; rewrite ?Z.lxor_0_r;
  xor_solve.

Section RoundTrip.

Variable K : HashKeys.

Lemma roundtrip_quiet (b : ChessBoard) (m : Z) :
  consistent b ->
  on_board (MOVE_GET_FROM_SQUARE m) = true -> on_board (MOVE_GET_TO_SQUARE m) = true ->
  MOVE_GET_FROM_SQUARE m <> MOVE_GET_TO_SQUARE m ->
  1 <= aget (pieces b) (MOVE_GET_FROM_SQUARE m) <= 12 ->
  aget g_pieceCol (aget (pieces b) (MOVE_GET_FROM_SQUARE m)) = side b ->
  nz (Z.land m MFLAGEP) = false -> nz (Z.land m MFLAGCA) = false ->
  aget (pieces b) (MOVE_GET_TO_SQUARE m) = MOVE_GET_CAPTURED m ->
  (MOVE_GET_CAPTURED m =? EMPTY) = true ->
  (MOVE_GET_PROMOTED m =? EMPTY) = true ->
  same_position b (Move_Take K (Move_Make_apply K b m)).
Proof.
  intros Hc Hof Hot Hft Hpv Hpc Hep Hca Hto Hcapb Hpromb.
  assert (Hprom : MOVE_GET_PROMOTED m = EMPTY) by lia.
  assert (Hcap : MOVE_GET_CAPTURED m = EMPTY) by lia.
  break_board b. open_consistent Hc. rec_cbv_in Hpv. rec_cbv_in Hpc. rec_cbv_in Hto.
  unfold Move_Make_apply. cbv zeta. rewrite Hprom, Hcap. rewrite Hcap in Hto.
  remember (MOVE_GET_FROM_SQUARE m) as f eqn:Ef.
  remember (MOVE_GET_TO_SQUARE m) as t eqn:Et.
  run.
  rewrite (Move_Take_unfold K _ m) by (run; reflexivity).
  rewrite <- ?Ef, <- ?Et, ?Hcap, ?Hprom. run.
  pose proof (on_board_range f Hof) as Hrf.
  pose proof (on_board_range t Hot) as Hrt.
  destruct (flip_color x_side Hsd) as [Hosd Hosd'].
  assert (Hpk : nz (aget g_pieceKing (aget x_pieces f)) = true -> aget x_KingSq x_side = f).
  { intros Hking. apply Hk; [lia |]. rewrite <- Hpc.
    apply king_has_color; [lia | exact Hking]. }
  apply same_position_fields; rec_cbv; unname.
  - cells_eq (f :: t :: nil).
  - fin_pawns (f :: t :: nil).
  - asimp.
    destruct (nz (aget g_pieceKing (aget x_pieces f))) eqn:Hking; [| reflexivity].
    rewrite lxor_flip_flip, aset_aset_eq. apply aset_id; [auto | lia].
  - apply lxor_flip_flip.
  - reflexivity.
  - reflexivity.
  - lia.
  - lia.
  - reflexivity.
  - key_solve K f Hof.
  - reflexivity.
  - reflexivity.
  - reflexivity.
  - reflexivity.
  - reflexivity.
  - fin_lists (f :: t :: nil).
Qed.

Lemma roundtrip_capture (b : ChessBoard) (m : Z) :
  consistent b ->
  on_board (MOVE_GET_FROM_SQUARE m) = true -> on_board (MOVE_GET_TO_SQUARE m) = true ->
  MOVE_GET_FROM_SQUARE m <> MOVE_GET_TO_SQUARE m ->
  1 <= aget (pieces b) (MOVE_GET_FROM_SQUARE m) <= 12 ->
  aget g_pieceCol (aget (pieces b) (MOVE_GET_FROM_SQUARE m)) = side b ->
  nz (Z.land m MFLAGEP) = false -> nz (Z.land m MFLAGCA) = false ->
  aget (pieces b) (MOVE_GET_TO_SQUARE m) = MOVE_GET_CAPTURED m ->
  1 <= MOVE_GET_CAPTURED m <= 12 ->
  aget g_pieceCol (MOVE_GET_CAPTURED m) = Z.lxor (side b) 1 ->
  (MOVE_GET_CAPTURED m =? EMPTY) = false ->
  (MOVE_GET_PROMOTED m =? EMPTY) = true ->
  same_position b (Move_Take K (Move_Make_apply K b m)).
Proof.
  intros Hc Hof Hot Hft Hpv Hpc Hep Hca Hto Hcv Hcc Hcap Hpromb.
  assert (Hprom : MOVE_GET_PROMOTED m = EMPTY) by lia.
  break_board b. unfold consistent in Hc. rec_cbv_in Hc. rec_cbv_in Hpv. rec_cbv_in Hpc.
  rec_cbv_in Hto. rec_cbv_in Hcc.
  destruct Hc as (HL & HP & Hon & Hk & Hlk & Hlm & Hlb & Hlj & Hln & Hlh & Hhp & Hsd).
  pose proof HL as (Hlp & Hll & Hlc & Hrows).
  unfold Move_Make_apply. cbv zeta. rewrite Hprom.
  remember (MOVE_GET_FROM_SQUARE m) as f eqn:Ef.
  remember (MOVE_GET_TO_SQUARE m) as t eqn:Et.
  remember (MOVE_GET_CAPTURED m) as cap eqn:Ecap.
  run.
  rewrite (Move_Take_unfold K _ m) by (run; reflexivity).
  rewrite <- ?Ef, <- ?Et, <- ?Ecap. run.
  pose proof (on_board_range f Hof) as Hrf.
  pose proof (on_board_range t Hot) as Hrt.
  destruct (flip_color x_side Hsd) as [Hosd Hosd'].
  pose proof (Hrows cap ltac:(lia)) as (Hcnt_cap & _).
  assert (Hpk : nz (aget g_pieceKing (aget x_pieces f)) = true -> aget x_KingSq x_side = f).
  { intros Hking. apply Hk; [lia |]. rewrite <- Hpc.
    apply king_has_color; [lia | exact Hking]. }
  apply same_position_fields; rec_cbv; unname.
  - array_eq (f :: t :: nil).
  - eapply pawns_inv_back; [exact HP | inv_chain | ]. all: try side_solve.
    array_eq (f :: t :: nil).
  - asimp.
    destruct (nz (aget g_pieceKing (aget x_pieces f))) eqn:Hking; [| reflexivity].
    rewrite lxor_flip_flip, aset_aset_eq. apply aset_id; [auto | lia].
  - apply lxor_flip_flip.
  - reflexivity.
  - reflexivity.
  - lia.
  - lia.
  - reflexivity.
  - asimp. rewrite ?Hto.
    destruct (nz (aget g_piecePawn (aget x_pieces f)) && nz (Z.land m MFLAGPS));
      [ destruct (x_side =? COLOR_TYPE_WHITE);
        [ rewrite (ep_key_step K f 10 Hof) by lia
        | change (f - 10) with (f + -10); rewrite (ep_key_step K f (-10) Hof) by lia ]
      | change (ep_key K NO_SQ) with 0; rewrite ?Z.lxor_0_r ];
      xor_solve.
  - rewrite ?Hto. array_eq (cap :: nil).
  - rewrite ?Hto, Hcc. apply bumped_back; lia.
  - rewrite ?Hto, Hcc. apply bumped_back; lia.
  - rewrite ?Hto, Hcc. apply bumped_back; lia.
  - rewrite ?Hto, Hcc. array_eq (Z.lxor x_side 1 :: nil).
  - intros q Hq.
    eapply lists_inv_back; [exact HL | exact Hq | inv_chain | ]. all: try side_solve.
    array_eq (f :: t :: nil).
Qed.

Lemma roundtrip_promotion (b : ChessBoard) (m : Z) :
  consistent b ->
  on_board (MOVE_GET_FROM_SQUARE m) = true -> on_board (MOVE_GET_TO_SQUARE m) = true ->
  MOVE_GET_FROM_SQUARE m <> MOVE_GET_TO_SQUARE m ->
  aget (pieces b) (MOVE_GET_FROM_SQUARE m) = pawn_of (side b) ->
  nz (Z.land m MFLAGEP) = false -> nz (Z.land m MFLAGCA) = false ->
  aget (pieces b) (MOVE_GET_TO_SQUARE m) = MOVE_GET_CAPTURED m ->
  (MOVE_GET_CAPTURED m =? EMPTY) = true ->
  (MOVE_GET_PROMOTED m =? EMPTY) = false ->
  1 <= MOVE_GET_PROMOTED m <= 12 ->
  aget g_pieceCol (MOVE_GET_PROMOTED m) = side b ->
  nz (aget g_piecePawn (MOVE_GET_PROMOTED m)) = false ->
  nz (aget g_pieceKing (MOVE_GET_PROMOTED m)) = false ->
  aget (pieceCount b) (MOVE_GET_PROMOTED m) < 10 ->
  same_position b (Move_Take K (Move_Make_apply K b m)).
Proof.
  intros Hc Hof Hot Hft Hpv Hep Hca Hto Hcapb Hpromb Hrv Hrc Hrp Hrk Hroom.
  assert (Hcap : MOVE_GET_CAPTURED m = EMPTY) by lia.
  break_board b. open_consistent Hc. rec_cbv_in Hpv. rec_cbv_in Hto.
  rec_cbv_in Hrc. rec_cbv_in Hroom.
  unfold Move_Make_apply. cbv zeta. rewrite Hcap. rewrite Hcap in Hto.
  remember (MOVE_GET_FROM_SQUARE m) as f eqn:Ef.
  remember (MOVE_GET_TO_SQUARE m) as t eqn:Et.
  remember (MOVE_GET_PROMOTED m) as prom eqn:Eprom.
  run.
  rewrite (Move_Take_unfold K _ m) by (run; reflexivity).
  rewrite <- ?Ef, <- ?Et, ?Hcap, <- ?Eprom. run.
  pose proof (on_board_range f Hof) as Hrf.
  pose proof (on_board_range t Hot) as Hrt.
  destruct (flip_color x_side Hsd) as [Hosd Hosd'].
  destruct (pawn_of_facts x_side Hsd) as (Hw1 & Hw2 & Hw3 & Hw4 & Hw5).
  pose proof (Hrows (pawn_of x_side) ltac:(lia)) as (Hcnt_pawn & _).
  pose proof (Hrows prom ltac:(lia)) as (Hcnt_prom & _).
  assert (Hne3 : prom <> pawn_of x_side) by congruence.
  apply same_position_fields; rec_cbv; unname;
    rewrite <- ?Eprom; try fold (pawn_of (aget g_pieceCol prom));
    rewrite ?(f_equal pawn_of Hrc).
  - cells_eq (f :: t :: nil).
  - fin_pawns (f :: t :: nil).
  - asimp. rewrite ?Hrk. reflexivity.
  - apply lxor_flip_flip.
  - reflexivity.
  - reflexivity.
  - lia.
  - lia.
  - reflexivity.
  - key_solve K f Hof.
  - asimp; use_cells; asimp. cells_eq (pawn_of x_side :: prom :: nil).
  - asimp; use_cells; asimp. rewrite ?Hrc, ?Hw2.
    fin_bumped (x_side :: Z.lxor x_side 1 :: nil).
  - asimp; use_cells; asimp. rewrite ?Hrc, ?Hw2.
    fin_bumped (x_side :: Z.lxor x_side 1 :: nil).
  - asimp; use_cells; asimp. rewrite ?Hrc, ?Hw2.
    fin_bumped (x_side :: Z.lxor x_side 1 :: nil).
  - asimp; use_cells; asimp. rewrite ?Hrc, ?Hw2.
    cells_eq (x_side :: Z.lxor x_side 1 :: nil).
  - fin_lists (f :: t :: nil).
Qed.

Lemma roundtrip_capture_promotion (b : ChessBoard) (m : Z) :
  consistent b ->
  on_board (MOVE_GET_FROM_SQUARE m) = true -> on_board (MOVE_GET_TO_SQUARE m) = true ->
  MOVE_GET_FROM_SQUARE m <> MOVE_GET_TO_SQUARE m ->
  aget (pieces b) (MOVE_GET_FROM_SQUARE m) = pawn_of (side b) ->
  nz (Z.land m MFLAGEP) = false -> nz (Z.land m MFLAGCA) = false ->
  aget (pieces b) (MOVE_GET_TO_SQUARE m) = MOVE_GET_CAPTURED m ->
  1 <= MOVE_GET_CAPTURED m <= 12 ->
  aget g_pieceCol (MOVE_GET_CAPTURED m) = Z.lxor (side b) 1 ->
  (MOVE_GET_CAPTURED m =? EMPTY) = false ->
  (MOVE_GET_PROMOTED m =? EMPTY) = false ->
  1 <= MOVE_GET_PROMOTED m <= 12 ->
  aget g_pieceCol (MOVE_GET_PROMOTED m) = side b ->
  nz (aget g_piecePawn (MOVE_GET_PROMOTED m)) = false ->
  nz (aget g_pieceKing (MOVE_GET_PROMOTED m)) = false ->
  aget (pieceCount b) (MOVE_GET_PROMOTED m) < 10 ->
  same_position b (Move_Take K (Move_Make_apply K b m)).
Proof.
  intros Hc Hof Hot Hft Hpv Hep Hca Hto Hcv Hcc Hcap Hpromb Hrv Hrc Hrp Hrk Hroom.
  break_board b. open_consistent Hc. rec_cbv_in Hpv. rec_cbv_in Hto. rec_cbv_in Hcc.
  rec_cbv_in Hrc. rec_cbv_in Hroom.
  unfold Move_Make_apply. cbv zeta.
  remember (MOVE_GET_FROM_SQUARE m) as f eqn:Ef.
  remember (MOVE_GET_TO_SQUARE m) as t eqn:Et.
  remember (MOVE_GET_CAPTURED m) as cap eqn:Ecap.
  remember (MOVE_GET_PROMOTED m) as prom eqn:Eprom.
  run.
  rewrite (Move_Take_unfold K _ m) by (run; reflexivity).
  rewrite <- ?Ef, <- ?Et, <- ?Ecap, <- ?Eprom. run.
  pose proof (on_board_range f Hof) as Hrf.
  pose proof (on_board_range t Hot) as Hrt.
  destruct (flip_color x_side Hsd) as [Hosd Hosd'].
  destruct (pawn_of_facts x_side Hsd) as (Hw1 & Hw2 & Hw3 & Hw4 & Hw5).
  pose proof (Hrows cap ltac:(lia)) as (Hcnt_cap & _).
  pose proof (Hrows (pawn_of x_side) ltac:(lia)) as (Hcnt_pawn & _).
  pose proof (Hrows prom ltac:(lia)) as (Hcnt_prom & _).
  assert (Hne1 : cap <> pawn_of x_side) by congruence.
  assert (Hne2 : cap <> prom) by congruence.
  assert (Hne3 : prom <> pawn_of x_side) by congruence.
  apply same_position_fields; rec_cbv; unname;
    rewrite <- ?Eprom; try fold (pawn_of (aget g_pieceCol prom));
    rewrite ?(f_equal pawn_of Hrc).
  - cells_eq (f :: t :: nil).
  - fin_pawns (f :: t :: nil).
  - asimp. rewrite ?Hrk. reflexivity.
  - apply lxor_flip_flip.
  - reflexivity.
  - reflexivity.
  - lia.
  - lia.
  - reflexivity.
  - key_solve K f Hof.
  - asimp; use_cells; asimp. cells_eq (cap :: pawn_of x_side :: prom :: nil).
  - asimp; use_cells; asimp. rewrite ?Hcc, ?Hrc, ?Hw2.
    fin_bumped (x_side :: Z.lxor x_side 1 :: nil).
  - asimp; use_cells; asimp. rewrite ?Hcc, ?Hrc, ?Hw2.
    fin_bumped (x_side :: Z.lxor x_side 1 :: nil).
  - asimp; use_cells; asimp. rewrite ?Hcc, ?Hrc, ?Hw2.
    fin_bumped (x_side :: Z.lxor x_side 1 :: nil).
  - asimp; use_cells; asimp. rewrite ?Hcc, ?Hrc, ?Hw2.
    cells_eq (x_side :: Z.lxor x_side 1 :: nil).
  - fin_lists (f :: t :: nil).
Qed.

Lemma roundtrip_ep_white (b : ChessBoard) (m : Z) :
  consistent b ->
  on_board (MOVE_GET_FROM_SQUARE m) = true -> on_board (MOVE_GET_TO_SQUARE m) = true ->
  MOVE_GET_FROM_SQUARE m <> MOVE_GET_TO_SQUARE m ->
  side b = COLOR_TYPE_WHITE ->
  aget (pieces b) (MOVE_GET_FROM_SQUARE m) = PIECE_TYPE_WHITE_PAWN ->
  nz (Z.land m MFLAGEP) = true ->
  (MOVE_GET_CAPTURED m =? EMPTY) = true ->
  (MOVE_GET_PROMOTED m =? EMPTY) = true ->
  aget (pieces b) (MOVE_GET_TO_SQUARE m) = EMPTY ->
  aget (pieces b) (MOVE_GET_TO_SQUARE m - 10) = PIECE_TYPE_BLACK_PAWN ->
  same_position b (Move_Take K (Move_Make_apply K b m)).
Proof.
  intros Hc Hof Hot Hft Hside Hpv Hep Hcapb Hpromb Hto Hvic.
  assert (Hprom : MOVE_GET_PROMOTED m = EMPTY) by lia.
  assert (Hcap : MOVE_GET_CAPTURED m = EMPTY) by lia.
  break_board b. open_consistent Hc. rec_cbv_in Hside. subst x_side.
  rec_cbv_in Hpv. rec_cbv_in Hto. rec_cbv_in Hvic.
  unfold Move_Make_apply. cbv zeta. rewrite Hprom, Hcap.
  remember (MOVE_GET_FROM_SQUARE m) as f eqn:Ef.
  remember (MOVE_GET_TO_SQUARE m) as t eqn:Et.
  assert (Hov : on_board (t - 10) = true).
  { apply Hon. rewrite Hvic. vm_compute. split; discriminate. }
  run.
  rewrite (Move_Take_unfold K _ m) by (run; reflexivity).
  rewrite <- ?Ef, <- ?Et, ?Hcap, ?Hprom. run.
  pose proof (on_board_range f Hof) as Hrf.
  pose proof (on_board_range t Hot) as Hrt.
  pose proof (on_board_range _ Hov) as Hrv.
  assert (Hfv : f <> t - 10).
  { intros E. rewrite <- E, Hpv in Hvic. discriminate. }
  pose proof (Hrows PIECE_TYPE_WHITE_PAWN ltac:(names; lia)) as (Hcnt_w & _).
  pose proof (Hrows PIECE_TYPE_BLACK_PAWN ltac:(names; lia)) as (Hcnt_b & _).
  apply same_position_fields; rec_cbv; unname.
  - cells_eq (f :: t :: t - 10 :: nil).
  - fin_pawns (f :: t :: t - 10 :: nil).
  - asimp; use_cells; asimp. reflexivity.
  - reflexivity.
  - reflexivity.
  - reflexivity.
  - lia.
  - lia.
  - reflexivity.
  - key_solve K f Hof.
  - asimp; use_cells; asimp. names. cells_eq (7 :: nil).
  - asimp; use_cells; asimp.
    apply bumped_back; change (aget g_pieceCol PIECE_TYPE_BLACK_PAWN) with 1; lia.
  - asimp; use_cells; asimp.
    apply bumped_back; change (aget g_pieceCol PIECE_TYPE_BLACK_PAWN) with 1; lia.
  - asimp; use_cells; asimp.
    apply bumped_back; change (aget g_pieceCol PIECE_TYPE_BLACK_PAWN) with 1; lia.
  - asimp; use_cells; asimp.
    change (aget g_pieceCol PIECE_TYPE_BLACK_PAWN) with 1. cells_eq (1 :: nil).
  - fin_lists (f :: t :: t - 10 :: nil).
Qed.

Lemma roundtrip_ep_black (b : ChessBoard) (m : Z) :
  consistent b ->
  on_board (MOVE_GET_FROM_SQUARE m) = true -> on_board (MOVE_GET_TO_SQUARE m) = true ->
  MOVE_GET_FROM_SQUARE m <> MOVE_GET_TO_SQUARE m ->
  side b = COLOR_TYPE_BLACK ->
  aget (pieces b) (MOVE_GET_FROM_SQUARE m) = PIECE_TYPE_BLACK_PAWN ->
  nz (Z.land m MFLAGEP) = true ->
  (MOVE_GET_CAPTURED m =? EMPTY) = true ->
  (MOVE_GET_PROMOTED m =? EMPTY) = true ->
  aget (pieces b) (MOVE_GET_TO_SQUARE m) = EMPTY ->
  aget (pieces b) (MOVE_GET_TO_SQUARE m + 10) = PIECE_TYPE_WHITE_PAWN ->
  same_position b (Move_Take K (Move_Make_apply K b m)).
Proof.
  intros Hc Hof Hot Hft Hside Hpv Hep Hcapb Hpromb Hto Hvic.
  assert (Hprom : MOVE_GET_PROMOTED m = EMPTY) by lia.
  assert (Hcap : MOVE_GET_CAPTURED m = EMPTY) by lia.
  break_board b. open_consistent Hc. rec_cbv_in Hside. subst x_side.
  rec_cbv_in Hpv. rec_cbv_in Hto. rec_cbv_in Hvic.
  unfold Move_Make_apply. cbv zeta. rewrite Hprom, Hcap.
  remember (MOVE_GET_FROM_SQUARE m) as f eqn:Ef.
  remember (MOVE_GET_TO_SQUARE m) as t eqn:Et.
  assert (Hov : on_board (t + 10) = true).
  { apply Hon. rewrite Hvic. vm_compute. split; discriminate. }
  run.
  rewrite (Move_Take_unfold K _ m) by (run; reflexivity).
  rewrite <- ?Ef, <- ?Et, ?Hcap, ?Hprom. run.
  pose proof (on_board_range f Hof) as Hrf.
  pose proof (on_board_range t Hot) as Hrt.
  pose proof (on_board_range _ Hov) as Hrv.
  assert (Hfv : f <> t + 10).
  { intros E. rewrite <- E, Hpv in Hvic. discriminate. }
  pose proof (Hrows PIECE_TYPE_BLACK_PAWN ltac:(names; lia)) as (Hcnt_w & _).
  pose proof (Hrows PIECE_TYPE_WHITE_PAWN ltac:(names; lia)) as (Hcnt_b & _).
  apply same_position_fields; rec_cbv; unname.
  - cells_eq (f :: t :: t + 10 :: nil).
  - fin_pawns (f :: t :: t + 10 :: nil).
  - asimp; use_cells; asimp. reflexivity.
  - reflexivity.
  - reflexivity.
  - reflexivity.
  - lia.
  - lia.
  - reflexivity.
  - key_solve K f Hof.
  - asimp; use_cells; asimp. names. cells_eq (1 :: nil).
  - asimp; use_cells; asimp.
    apply bumped_back; change (aget g_pieceCol PIECE_TYPE_WHITE_PAWN) with 0; lia.
  - asimp; use_cells; asimp.
    apply bumped_back; change (aget g_pieceCol PIECE_TYPE_WHITE_PAWN) with 0; lia.
  - asimp; use_cells; asimp.
    apply bumped_back; change (aget g_pieceCol PIECE_TYPE_WHITE_PAWN) with 0; lia.
  - asimp; use_cells; asimp.
    change (aget g_pieceCol PIECE_TYPE_WHITE_PAWN) with 0. cells_eq (0 :: nil).
  - fin_lists (f :: t :: t + 10 :: nil).
Qed.

Lemma castle_rook_squares_cases (t rf rt : Z) :
  castle_rook_squares t = (rf, rt) -> rf <> NO_SQ ->
  (t = 23 /\ rf = 21 /\ rt = 24) \/ (t = 93 /\ rf = 91 /\ rt = 94)
  \/ (t = 27 /\ rf = 28 /\ rt = 26) \/ (t = 97 /\ rf = 98 /\ rt = 96).
Proof.
  unfold castle_rook_squares, C1, C8, G1, G8, A1, A8, D1, D8, H1, H8, F1, F8.
  intros E Hn.
  destruct (Z.eqb_spec t 23); [injection E as <- <-; auto |].
  destruct (Z.eqb_spec t 93); [injection E as <- <-; auto |].
  destruct (Z.eqb_spec t 27); [injection E as <- <-; auto 6 |].
  destruct (Z.eqb_spec t 97); [injection E as <- <-; auto 6 |].
  injection E as <- <-. contradiction.
Qed.

Lemma roundtrip_castle (b : ChessBoard) (m rf rt : Z) :
  consistent b ->
  on_board (MOVE_GET_FROM_SQUARE m) = true ->
  MOVE_GET_FROM_SQUARE m <> MOVE_GET_TO_SQUARE m ->
  aget (pieces b) (MOVE_GET_FROM_SQUARE m) = king_of (side b) ->
  nz (Z.land m MFLAGEP) = false -> nz (Z.land m MFLAGCA) = true ->
  (MOVE_GET_CAPTURED m =? EMPTY) = true ->
  (MOVE_GET_PROMOTED m =? EMPTY) = true ->
  aget (pieces b) (MOVE_GET_TO_SQUARE m) = EMPTY ->
  castle_rook_squares (MOVE_GET_TO_SQUARE m) = (rf, rt) -> rf <> NO_SQ ->
  aget (pieces b) rf = rook_of (side b) ->
  aget (pieces b) rt = EMPTY ->
  same_position b (Move_Take K (Move_Make_apply K b m)).
Proof.
  intros Hc Hof Hft Hpv Hep Hca Hcapb Hpromb Hto Hsq Hrf0 Hrook Hrt0.
  assert (Hprom : MOVE_GET_PROMOTED m = EMPTY) by lia.
  assert (Hcap : MOVE_GET_CAPTURED m = EMPTY) by lia.
  break_board b. open_consistent Hc.
  rec_cbv_in Hpv. rec_cbv_in Hto. rec_cbv_in Hrook. rec_cbv_in Hrt0.
  unfold Move_Make_apply. cbv zeta. rewrite Hprom, Hcap.
  remember (MOVE_GET_FROM_SQUARE m) as f eqn:Ef.
  remember (MOVE_GET_TO_SQUARE m) as t eqn:Et.
  pose proof (on_board_range f Hof) as Hrf.
  destruct (flip_color x_side Hsd) as [Hosd Hosd'].
  destruct (king_of_facts x_side Hsd) as (Hg1 & Hg2 & Hg3 & Hg4 & Hg5).
  destruct (rook_of_facts x_side Hsd) as (Hr1 & Hr2 & Hr3 & Hr4 & Hr5).
  assert (Hkf : aget x_KingSq x_side = f) by (apply Hk; [lia | exact Hpv]).
  assert (Hne : king_of x_side <> rook_of x_side) by congruence.
  assert (Hfrf : f <> rf) by (intros E; rewrite <- E, Hpv in Hrook; congruence).
  assert (Hfrt : f <> rt) by (intros E; rewrite <- E, Hpv in Hrt0; unfold EMPTY in Hrt0; lia).
  pose proof (Hrows (king_of x_side) ltac:(lia)) as (Hcnt_k & _).
  pose proof (Hrows (rook_of x_side) ltac:(lia)) as (Hcnt_r & _).
  destruct (castle_rook_squares_cases t rf rt Hsq Hrf0)
    as [(Ht & -> & ->) | [(Ht & -> & ->) | [(Ht & -> & ->) | (Ht & -> & ->)]]];
    rewrite Ht in *; clear Ht.
  all: run;
    (rewrite (Move_Take_unfold K _ m) by (run; reflexivity));
    rewrite <- ?Ef, <- ?Et, ?Hcap, ?Hprom; run;
    apply same_position_fields; rec_cbv; unname;
    [ | | asimp; use_cells; asimp; rewrite ?Hg3;
          rewrite lxor_flip_flip, aset_aset_eq; apply aset_id; [exact Hkf | lia]
    | apply lxor_flip_flip | reflexivity | reflexivity | lia | lia | reflexivity
    | key_solve K f Hof
    | reflexivity | reflexivity | reflexivity | reflexivity | reflexivity | ].
  - cells_eq (f :: 23 :: 21 :: 24 :: nil).
  - fin_pawns (f :: 23 :: 21 :: 24 :: nil).
  - fin_lists (f :: 23 :: 21 :: 24 :: nil).
  - cells_eq (f :: 93 :: 91 :: 94 :: nil).
  - fin_pawns (f :: 93 :: 91 :: 94 :: nil).
  - fin_lists (f :: 93 :: 91 :: 94 :: nil).
  - cells_eq (f :: 27 :: 28 :: 26 :: nil).
  - fin_pawns (f :: 27 :: 28 :: 26 :: nil).
  - fin_lists (f :: 27 :: 28 :: 26 :: nil).
  - cells_eq (f :: 97 :: 98 :: 96 :: nil).
  - fin_pawns (f :: 97 :: 98 :: 96 :: nil).
  - fin_lists (f :: 97 :: 98 :: 96 :: nil).
Qed.

End RoundTrip.

(* ================================================================== *)
(** * The move executor on consistent boards *)
(* ================================================================== *)

Lemma piece_valid_range (p : Z) : PieceValid p = true -> 1 <= p <= 12.
Proof.
  unfold PieceValid, PIECE_TYPE_WHITE_PAWN, PIECE_TYPE_BLACK_KING. lia.
Qed.

(** A boolean conjunction of tests as the conjunction of their
    meanings. *)
Ltac props H :=
  repeat rewrite andb_true_iff in H;
  rewrite ?negb_true_iff, ?Z.eqb_eq, ?Z.eqb_neq, ?Z.ltb_lt in H.

(** [Move_Take] after the board changes of [Move_Make] gives back the
    position, for every move that fits the board. *)
Lemma make_take_same_position (K : HashKeys) (b : ChessBoard) (m : Z) :
  consistent b -> move_fits b m = true -> promotion_room b m = true ->
  same_position b (Move_Take K (Move_Make_apply K b m)).
Proof.
  intros Hc Hf Hr. unfold move_fits in Hf. cbv zeta in Hf.
  apply andb_prop in Hf. destruct Hf as [Hf Hkind].
  props Hf. destruct Hf as (((Hof & Hot) & Hne) & (Hv & Hcol)).
  apply piece_valid_range in Hv.
  assert (Hsd : 0 <= side b <= 1) by (unfold consistent in Hc; tauto).
  destruct (nz (Z.land m MFLAGEP)) eqn:Hep.
  - props Hkind. destruct Hkind as ((((Hp & Hcap) & Hprom) & Hto) & Hvic).
    apply Z.eqb_eq in Hcap, Hprom.
    assert (Hs : side b = COLOR_TYPE_WHITE \/ side b = COLOR_TYPE_BLACK)
      by (unfold COLOR_TYPE_WHITE, COLOR_TYPE_BLACK; lia).
    destruct Hs as [Hs | Hs]; rewrite Hs in *.
    + apply roundtrip_ep_white; auto.
    + apply roundtrip_ep_black; auto.
  - destruct (nz (Z.land m MFLAGCA)) eqn:Hca.
    + props Hkind.
      destruct Hkind as ((((((Hp & Hcap) & Hprom) & Hto) & Hrf) & Hrook) & Hrt).
      apply Z.eqb_eq in Hcap, Hprom.
      apply (roundtrip_castle K b m (fst (castle_rook_squares (MOVE_GET_TO_SQUARE m)))
               (snd (castle_rook_squares (MOVE_GET_TO_SQUARE m)))); auto.
      apply surjective_pairing.
    + apply andb_prop in Hkind. destruct Hkind as [Hkind Hpr].
      apply andb_prop in Hkind. destruct Hkind as [Hto Hcp].
      apply Z.eqb_eq in Hto.
      unfold promotion_room in Hr.
      destruct (MOVE_GET_CAPTURED m =? EMPTY) eqn:Hce;
        destruct (MOVE_GET_PROMOTED m =? EMPTY) eqn:Hpe;
        cbn [orb] in Hcp, Hpr, Hr; props Hcp; props Hpr; props Hr.
      * apply roundtrip_quiet; auto.
      * destruct Hpr as (((Hp & (Hpv & Hpc)) & Hnp) & Hnk).
        apply piece_valid_range in Hpv.
        apply roundtrip_promotion; auto.
      * destruct Hcp as (Hcv & Hcc). apply piece_valid_range in Hcv.
        apply roundtrip_capture; auto.
      * destruct Hpr as (((Hp & (Hpv & Hpc)) & Hnp) & Hnk).
        destruct Hcp as (Hcv & Hcc).
        apply piece_valid_range in Hpv. apply piece_valid_range in Hcv.
        apply roundtrip_capture_promotion; auto.
Qed.

(** ** Soundness of the decision of consistency *)

Lemma row_okb_sound (pcs : list Z) (p : Z) (row : list Z) (n : Z) :
  length pcs = 120%nat -> 1 <= p ->
  row_okb pcs p row n = true -> row_ok (fun sq => aget pcs sq = p) row n.
Proof.
  intros Hl Hp H. unfold row_okb in H.
  repeat rewrite andb_true_iff in H.
  destruct H as (((((H0 & H10) & Hlen) & Hinj) & Hin) & Hall).
  unfold row_ok. split; [lia |]. split; [lia |]. split; [| split].
  - intros i j Hi Hj E.
    pose proof (forallb_range _ 0 n Hinj i ltac:(lia)) as Hi'. cbv beta in Hi'.
    pose proof (forallb_range _ 0 n Hi' j ltac:(lia)) as Hj'. cbv beta in Hj'.
    rewrite E, Z.eqb_refl in Hj'. cbn [implb] in Hj'. lia.
  - intros i Hi.
    pose proof (forallb_range _ 0 n Hin i ltac:(lia)) as Hi'. cbv beta in Hi'. lia.
  - intros sq Hsq.
    assert (Hr : 0 <= sq < 0 + 120).
    { pose proof (aget_nonzero_range pcs sq ltac:(lia)). lia. }
    pose proof (forallb_range _ 0 120 Hall sq Hr) as Hs. cbv beta in Hs.
    rewrite Hsq, Z.eqb_refl in Hs. cbn [implb] in Hs.
    apply existsb_exists in Hs. destruct Hs as (i & Hi & Hs).
    apply list_elem_of_In, elem_of_seqZ in Hi. exists i. split; lia.
Qed.

Lemma testbit_above (x i : Z) : 0 <= x < 2 ^ 64 -> 64 <= i -> Z.testbit x i = false.
Proof.
  intros Hx Hi. rewrite <- (Z.mod_small x (2 ^ 64)) by exact Hx.
  apply Z.mod_pow2_bits_high. lia.
Qed.

Lemma consistentb_sound (b : ChessBoard) : consistentb b = true -> consistent b.
Proof.
  intros H. unfold consistentb in H.
  repeat rewrite andb_true_iff in H.
  destruct H as (((((((((((((((((Hl1 & Hl2) & Hl3) & Hrows) & Hl4) & Hpb) & Hbits) & Hsq)
    & Hk1) & Hk2) & Hk3) & Hk4) & Hk5) & Hk6) & Hh1) & Hh2) & Hs1) & Hs2).
  unfold consistent. split_ands; try lia.
  - unfold lists_inv. split_ands; try lia.
    intros p Hp. apply row_okb_sound; [lia | lia |].
    exact (forallb_range _ 1 12 Hrows p ltac:(lia)).
  - unfold pawns_inv. split_ands; try lia.
    + intros c i Hc Hi.
      pose proof (forallb_range _ 0 3 Hpb c ltac:(lia)) as Hc'. cbv beta in Hc'.
      apply testbit_above; lia.
    + intros i Hi. pose proof (forallb_range _ 0 64 Hbits i ltac:(lia)) as Hi'.
      cbv beta in Hi'. repeat rewrite andb_true_iff in Hi'.
      destruct Hi' as ((Hw & _) & _). apply eqb_prop. exact Hw.
    + intros i Hi. pose proof (forallb_range _ 0 64 Hbits i ltac:(lia)) as Hi'.
      cbv beta in Hi'. repeat rewrite andb_true_iff in Hi'.
      destruct Hi' as ((_ & Hw) & _). apply eqb_prop. exact Hw.
    + intros i Hi. pose proof (forallb_range _ 0 64 Hbits i ltac:(lia)) as Hi'.
      cbv beta in Hi'. repeat rewrite andb_true_iff in Hi'.
      destruct Hi' as (_ & Hw). apply eqb_prop. exact Hw.
  - intros sq Hv.
    assert (Hr : 0 <= sq < 0 + 120).
    { pose proof (aget_nonzero_range (pieces b) sq ltac:(lia)). lia. }
    pose proof (forallb_range _ 0 120 Hsq sq Hr) as Hs. cbv beta in Hs.
    apply andb_prop in Hs. destruct Hs as [Hs _].
    replace ((1 <=? aget (pieces b) sq) && (aget (pieces b) sq <=? 12)) with true in Hs by lia.
    exact Hs.
  - intros sq c Hc Hking.
    assert (Hkr : 1 <= king_of c <= 12) by (apply king_of_facts; exact Hc).
    assert (Hr : 0 <= sq < 0 + 120).
    { pose proof (aget_nonzero_range (pieces b) sq ltac:(lia)). lia. }
    pose proof (forallb_range _ 0 120 Hsq sq Hr) as Hs. cbv beta in Hs.
    apply andb_prop in Hs. destruct Hs as [_ Hs].
    pose proof (forallb_range _ 0 2 Hs c ltac:(lia)) as Hc'. cbv beta in Hc'.
    rewrite Hking, Z.eqb_refl in Hc'. cbn [implb] in Hc'. lia.
Qed.

(* ================================================================== *)
(** * The state fields through the move executor *)
(* ================================================================== *)

Section Frame.

Variable K : HashKeys.

Lemma gs_ClearPiece (sq : Z) (b : ChessBoard) :
  game_state (ClearPiece K sq b) = game_state b.
Proof. rewrite ClearPiece_nf. break_board b. reflexivity. Qed.

Lemma gs_AddPiece (sq : Z) (b : ChessBoard) (p : Z) :
  game_state (AddPiece K sq b p) = game_state b.
Proof. rewrite AddPiece_nf. break_board b. reflexivity. Qed.

Lemma gs_MovePiece (from to : Z) (b : ChessBoard) :
  game_state (MovePiece K from to b) = game_state b.
Proof. rewrite MovePiece_nf. break_board b. reflexivity. Qed.

Lemma gs_make_special (m to s : Z) (b : ChessBoard) :
  game_state (make_special K m to s b) = game_state b.
Proof.
  unfold make_special, castle_rook_make.
  repeat match goal with
         | |- context [if ?c then _ else _] => destruct c
         end; rewrite ?gs_ClearPiece, ?gs_MovePiece; reflexivity.
Qed.

Lemma gs_take_special (m to : Z) (b : ChessBoard) :
  game_state (take_special K m to b) = game_state b.
Proof.
  unfold take_special, castle_rook_take.
  repeat match goal with
         | |- context [if ?c then _ else _] => destruct c
         end; rewrite ?gs_AddPiece, ?gs_MovePiece; reflexivity.
Qed.

Lemma gs_king_moved (sq : Z) (b : ChessBoard) : game_state (king_moved sq b) = game_state b.
Proof. unfold king_moved. destruct (nz _); [break_board b |]; reflexivity. Qed.

Lemma gs_track_capture (c : Z) (b : ChessBoard) : game_state (track_capture c b) = game_state b.
Proof.
  unfold track_capture.
  repeat match goal with
         | |- context [if ?c then _ else _] => destruct c
         end; try reflexivity; break_board b; reflexivity.
Qed.

Lemma gs_untrack_capture (c : Z) (b : ChessBoard) :
  game_state (untrack_capture c b) = game_state b.
Proof.
  unfold untrack_capture.
  repeat match goal with
         | |- context [if ?c then _ else _] => destruct c
         end; try reflexivity; break_board b; reflexivity.
Qed.

Lemma gs_make_promote (p to : Z) (b : ChessBoard) :
  game_state (make_promote K p to b) = game_state b.
Proof.
  unfold make_promote. destruct (negb _); [| reflexivity].
  rewrite gs_AddPiece. apply gs_ClearPiece.
Qed.

Lemma gs_take_promote (m from : Z) (b : ChessBoard) :
  game_state (take_promote K m from b) = game_state b.
Proof.
  unfold take_promote. destruct (negb _); [| reflexivity].
  rewrite gs_AddPiece. apply gs_ClearPiece.
Qed.

Lemma gs_take_capture (c to : Z) (b : ChessBoard) :
  game_state (take_capture K c to b) = game_state b.
Proof.
  unfold take_capture. destruct (negb _); [| reflexivity].
  rewrite gs_untrack_capture. apply gs_AddPiece.
Qed.

(** The history cell written by [save_key] and then [save_state]. *)
Lemma saved_twice (h : list UndoMove) (i m cp ep fm key : Z) :
  aset (aset h i (mkUndo (u_move (aget h i)) (u_castlePerm (aget h i)) (u_enPas (aget h i))
                    (u_fiftyMove (aget h i)) key)) i
    (mkUndo m cp ep fm
       (u_posKey (aget (aset h i (mkUndo (u_move (aget h i)) (u_castlePerm (aget h i))
                                    (u_enPas (aget h i)) (u_fiftyMove (aget h i)) key)) i)))
  = aset h i (mkUndo m cp ep fm key).
Proof.
  rewrite aset_aset_eq.
  destruct (Z.ltb_spec i 0); [rewrite !aset_neg by lia; reflexivity |].
  destruct (Z.ltb_spec i (Z.of_nat (length h))).
  - rewrite aget_aset_eq by lia. reflexivity.
  - rewrite !aset_out by lia. reflexivity.
Qed.

Lemma gs_fields (b : ChessBoard) s e f p h c hist :
  game_state b = (s, e, f, p, h, c, hist) ->
  side b = s /\ enPas b = e /\ fiftyMove b = f /\ ply b = p /\ hisPly b = h
  /\ castlePerm b = c /\ history b = hist.
Proof.
  generalize b. clear b. intros b. unfold game_state. intros H.
  assert (H1 := f_equal (fun t => fst (fst (fst (fst (fst (fst t)))))) H).
  assert (H2 := f_equal (fun t => snd (fst (fst (fst (fst (fst t)))))) H).
  assert (H3 := f_equal (fun t => snd (fst (fst (fst (fst t))))) H).
  assert (H4 := f_equal (fun t => snd (fst (fst (fst t)))) H).
  assert (H5 := f_equal (fun t => snd (fst (fst t))) H).
  assert (H6 := f_equal (fun t => snd (fst t)) H).
  assert (H7 := f_equal (fun t => snd t) H).
  cbn [fst snd] in *. tauto.
Qed.

Lemma gs_save_key (b : ChessBoard) s e f p h c hist :
  game_state b = (s, e, f, p, h, c, hist) ->
  game_state (save_key b)
  = (s, e, f, p, h, c,
     aset hist h (mkUndo (u_move (aget hist h)) (u_castlePerm (aget hist h))
                    (u_enPas (aget hist h)) (u_fiftyMove (aget hist h)) (posKey b))).
Proof. unfold game_state. break_board b. intros H. injection H as <- <- <- <- <- <- <-. reflexivity. Qed.

Lemma gs_make_state (m from to : Z) (b : ChessBoard) s e f p h c hist :
  game_state b = (s, e, f, p, h, c, hist) ->
  game_state (make_state K m from to b)
  = (s, NO_SQ, f, p, h, Z.land (Z.land c (aget CastlePerm from)) (aget CastlePerm to),
     aset hist h (mkUndo m c e f (u_posKey (aget hist h)))).
Proof.
  unfold game_state. rewrite make_state_nf. break_board b.
  intros H. injection H as <- <- <- <- <- <- <-. reflexivity.
Qed.

Lemma gs_make_capture (cap to : Z) (b : ChessBoard) s e f p h c hist :
  game_state b = (s, e, f, p, h, c, hist) ->
  game_state (make_capture K cap to b)
  = (s, e, (if negb (cap =? EMPTY) then 0 else f + 1), p, h, c, hist).
Proof.
  intros H. unfold make_capture. cbv zeta. destruct (negb (cap =? EMPTY)).
  - rewrite gs_track_capture.
    transitivity (let '(s, e, _, p, h, c, hist) :=
                    game_state (ClearPiece K to (set_fiftyMove (fiftyMove b + 1) b)) in
                  (s, e, 0, p, h, c, hist)).
    + generalize (ClearPiece K to (set_fiftyMove (fiftyMove b + 1) b)).
      intros x. break_board x. reflexivity.
    + rewrite gs_ClearPiece. revert H. unfold game_state. break_board b.
      intros H. injection H as <- <- <- <- <- <- <-. reflexivity.
  - revert H. unfold game_state. break_board b.
    intros H. injection H as <- <- <- <- <- <- <-. reflexivity.
Qed.

Lemma gs_make_ply (b : ChessBoard) s e f p h c hist :
  game_state b = (s, e, f, p, h, c, hist) ->
  game_state (make_ply b) = (s, e, f, p + 1, h + 1, c, hist).
Proof.
  unfold game_state. break_board b. intros H. injection H as <- <- <- <- <- <- <-.
  reflexivity.
Qed.

Lemma gs_make_pawn (m from side_ : Z) (b : ChessBoard) s e f p h c hist :
  game_state b = (s, e, f, p, h, c, hist) ->
  game_state (make_pawn K m from side_ b)
  = (s,
     (if nz (aget g_piecePawn (aget (pieces b) from)) && nz (Z.land m MFLAGPS)
      then if side_ =? COLOR_TYPE_WHITE then from + 10 else from - 10 else e),
     (if nz (aget g_piecePawn (aget (pieces b) from)) then 0 else f), p, h, c, hist).
Proof.
  unfold game_state, make_pawn. break_board b. board_cbv.
  intros H. injection H as <- <- <- <- <- <- <-.
  destruct (nz (aget g_piecePawn (aget x_pieces from))); [| reflexivity].
  destruct (nz (Z.land m MFLAGPS)); [| reflexivity].
  destruct (side_ =? COLOR_TYPE_WHITE); reflexivity.
Qed.

Lemma gs_flip_side (b : ChessBoard) s e f p h c hist :
  game_state b = (s, e, f, p, h, c, hist) ->
  game_state (flip_side K b) = (Z.lxor s 1, e, f, p, h, c, hist).
Proof.
  unfold game_state. break_board b. intros H. injection H as <- <- <- <- <- <- <-.
  reflexivity.
Qed.

(** The state fields after the board changes of [Move_Make]. *)
Lemma make_state_fields (b : ChessBoard) (m : Z) :
  exists e' f',
    game_state (Move_Make_apply K b m)
    = (Z.lxor (side b) 1, e', f', ply b + 1, hisPly b + 1,
       Z.land (Z.land (castlePerm b) (aget CastlePerm (MOVE_GET_FROM_SQUARE m)))
         (aget CastlePerm (MOVE_GET_TO_SQUARE m)),
       aset (history b) (hisPly b)
         (mkUndo m (castlePerm b) (enPas b) (fiftyMove b) (posKey b)))
    /\ (MOVE_GET_CAPTURED m <> EMPTY -> f' = 0).
Proof.
  assert (H : game_state b
              = (side b, enPas b, fiftyMove b, ply b, hisPly b, castlePerm b, history b))
    by reflexivity.
  apply gs_save_key in H.
  rewrite <- (gs_make_special m (MOVE_GET_TO_SQUARE m) (side b)) in H.
  apply (gs_make_state m (MOVE_GET_FROM_SQUARE m) (MOVE_GET_TO_SQUARE m)) in H.
  apply (gs_make_capture (MOVE_GET_CAPTURED m) (MOVE_GET_TO_SQUARE m)) in H.
  apply gs_make_ply in H.
  apply (gs_make_pawn m (MOVE_GET_FROM_SQUARE m) (side b)) in H.
  rewrite <- (gs_MovePiece (MOVE_GET_FROM_SQUARE m) (MOVE_GET_TO_SQUARE m)) in H.
  rewrite <- (gs_make_promote (MOVE_GET_PROMOTED m) (MOVE_GET_TO_SQUARE m)) in H.
  rewrite <- (gs_king_moved (MOVE_GET_TO_SQUARE m)) in H.
  apply gs_flip_side in H.
  rewrite saved_twice in H.
  eexists _, _. split; [exact H |].
  intros Hc. destruct (Z.eqb_spec (MOVE_GET_CAPTURED m) EMPTY); [contradiction |].
  cbn [negb]. destruct (nz _); reflexivity.
Qed.

Lemma gs_take_ply (b : ChessBoard) s e f p h c hist :
  game_state b = (s, e, f, p, h, c, hist) ->
  game_state (take_ply b) = (s, e, f, p - 1, h - 1, c, hist).
Proof.
  unfold game_state. break_board b. intros H. injection H as <- <- <- <- <- <- <-.
  reflexivity.
Qed.

Lemma gs_take_state (b : ChessBoard) s e f p h c hist :
  game_state b = (s, e, f, p, h, c, hist) ->
  game_state (take_state K b)
  = (Z.lxor s 1, u_enPas (aget hist h), u_fiftyMove (aget hist h), p, h,
     u_castlePerm (aget hist h), hist).
Proof.
  unfold game_state. rewrite take_state_nf. break_board b.
  intros H. injection H as <- <- <- <- <- <- <-. reflexivity.
Qed.

(** The state fields after [Move_Take]. *)
Lemma gs_Move_Take (b : ChessBoard) s e f p h c hist :
  game_state b = (s, e, f, p, h, c, hist) ->
  game_state (Move_Take K b)
  = (Z.lxor s 1, u_enPas (aget hist (h - 1)), u_fiftyMove (aget hist (h - 1)), p - 1, h - 1,
     u_castlePerm (aget hist (h - 1)), hist).
Proof.
  intros H. unfold Move_Take. cbv zeta.
  apply gs_take_ply in H. apply gs_take_state in H.
  rewrite gs_take_promote, gs_take_capture, gs_king_moved, gs_MovePiece, gs_take_special.
  exact H.
Qed.

(** [Move_Take] after the board changes of [Move_Make] gives back the
    state fields, whatever the move. *)
Lemma any_move_state_restored (b : ChessBoard) (m : Z) :
  0 <= hisPly b < Z.of_nat (length (history b)) ->
  game_state (Move_Take K (Move_Make_apply K b m))
  = (side b, enPas b, fiftyMove b, ply b, hisPly b, castlePerm b,
     aset (history b) (hisPly b)
       (mkUndo m (castlePerm b) (enPas b) (fiftyMove b) (posKey b))).
Proof.
  intros Hh. destruct (make_state_fields b m) as (e' & f' & H & _).
  apply gs_Move_Take in H. rewrite H.
  rewrite !Z.add_simpl_r, lxor_flip_flip, aget_aset_eq by exact Hh. reflexivity.
Qed.

End Frame.

(* ================================================================== *)
(** * The position key through the move executor *)
(* ================================================================== *)

Section Keys.

Variable K : HashKeys.

Lemma fold_xor_shift (g : Z -> Z) (l : list Z) (a : Z) :
  fold_left (fun acc i => Z.lxor acc (g i)) l a
  = Z.lxor a (fold_left (fun acc i => Z.lxor acc (g i)) l 0).
Proof.
  revert a. induction l as [| x l IH]; intros a; cbn [fold_left].
  - rewrite Z.lxor_0_r. reflexivity.
  - rewrite IH, (IH (Z.lxor 0 (g x))), Z.lxor_0_l, Z.lxor_assoc. reflexivity.
Qed.

Lemma fold_xor_ext (g g' : Z -> Z) (l : list Z) (a : Z) :
  (forall i, In i l -> g i = g' i) ->
  fold_left (fun acc i => Z.lxor acc (g i)) l a
  = fold_left (fun acc i => Z.lxor acc (g' i)) l a.
Proof.
  revert a. induction l as [| x l IH]; intros a H; cbn [fold_left]; [reflexivity |].
  rewrite (H x) by (left; reflexivity). apply IH. intros i Hi. apply H. right. exact Hi.
Qed.

Lemma genkey_eq (b : ChessBoard) :
  Board_GeneratePositionKey K b
  = Z.lxor (Z.lxor (Z.lxor (mailbox_key K (pieces b))
       (if side b =? COLOR_TYPE_WHITE then g_sideKey K else 0))
       (ep_key K (enPas b))) (g_castleKeys K (castlePerm b)).
Proof.
  unfold Board_GeneratePositionKey, mailbox_key, ep_key. cbv zeta.
  replace (fold_left (key_step K b) (seqZ 0 CHESS_BOARD_SQUARE_NUM) 0)
    with (fold_left (fun acc sq => Z.lxor acc (piece_key K (aget (pieces b) sq) sq))
            (seqZ 0 CHESS_BOARD_SQUARE_NUM) 0).
  - destruct (side b =? COLOR_TYPE_WHITE); destruct (negb (enPas b =? NO_SQ));
      rewrite ?Z.lxor_0_r; reflexivity.
  - generalize 0 at 2 4. induction (seqZ 0 CHESS_BOARD_SQUARE_NUM) as [| x l IH]; intros a;
      cbn [fold_left]; [reflexivity |].
    rewrite IH. f_equal. unfold key_step, piece_key. cbv zeta.
    destruct (negb _ && negb _ && negb _); [reflexivity | apply Z.lxor_0_r].
Qed.

Lemma mailbox_key_aset (pcs : list Z) (sq v : Z) :
  0 <= sq < 120 -> length pcs = 120%nat ->
  mailbox_key K (aset pcs sq v)
  = Z.lxor (Z.lxor (mailbox_key K pcs) (piece_key K (aget pcs sq) sq)) (piece_key K v sq).
Proof.
  intros Hsq Hlen. unfold mailbox_key, CHESS_BOARD_SQUARE_NUM.
  rewrite (seqZ_split 120 sq Hsq).
  rewrite !fold_left_app. cbn [fold_left].
  rewrite (fold_xor_shift _ (seqZ (sq + 1) _)).
  rewrite (fold_xor_shift (fun sq0 => piece_key K (aget pcs sq0) sq0) (seqZ (sq + 1) _)).
  rewrite (fold_xor_ext (fun i => piece_key K (aget (aset pcs sq v) i) i)
             (fun i => piece_key K (aget pcs i) i) (seqZ 0 sq)).
  2:{ intros i Hi. apply list_elem_of_In, elem_of_seqZ in Hi.
      rewrite aget_aset_ne by lia. reflexivity. }
  rewrite (fold_xor_ext (fun i => piece_key K (aget (aset pcs sq v) i) i)
             (fun i => piece_key K (aget pcs i) i) (seqZ (sq + 1) (120 - sq - 1))).
  2:{ intros i Hi. apply list_elem_of_In, elem_of_seqZ in Hi.
      rewrite aget_aset_ne by lia. reflexivity. }
  rewrite aget_aset_eq by lia.
  xor_solve.
Qed.

Lemma piece_key_valid (p sq : Z) : 1 <= p <= 12 -> piece_key K p sq = g_pieceKeys K p sq.
Proof.
  intros Hp. unfold piece_key, NO_SQ, EMPTY, OFFBOARD.
  destruct (Z.eqb_spec p 99); [lia |]. destruct (Z.eqb_spec p 0); [lia |].
  destruct (Z.eqb_spec p 100); [lia |]. reflexivity.
Qed.

Lemma piece_key_empty (sq : Z) : piece_key K EMPTY sq = 0.
Proof. reflexivity. Qed.

End Keys.

Lemma side_key_flip (s k : Z) :
  0 <= s <= 1 ->
  (if Z.lxor s 1 =? COLOR_TYPE_WHITE then k else 0)
  = Z.lxor (if s =? COLOR_TYPE_WHITE then k else 0) k.
Proof.
  intros Hs. assert (H : s = 0 \/ s = 1) by lia.
  destruct H as [-> | ->]; cbn; [rewrite Z.lxor_nilpotent | rewrite Z.lxor_0_l]; reflexivity.
Qed.

(** The key of the board after the run is the key computed from its
    fields. *)
Ltac key_finish K f Hof Hkey :=
  repeat (rewrite mailbox_key_aset by (rewrite ?length_aset; first [lia | assumption]));
  asimp; use_cells; asimp;
  rewrite ?piece_key_empty;
  rewrite ?piece_key_valid by first [lia | assumption | (names; lia)];
  rewrite side_key_flip by assumption;
  rewrite Hkey;
  key_solve K f Hof.

Section KeyCases.
Variable K : HashKeys.

Lemma key_quiet (b : ChessBoard) (m : Z) :
  consistent b -> key_ok K b ->
  on_board (MOVE_GET_FROM_SQUARE m) = true -> on_board (MOVE_GET_TO_SQUARE m) = true ->
  MOVE_GET_FROM_SQUARE m <> MOVE_GET_TO_SQUARE m ->
  1 <= aget (pieces b) (MOVE_GET_FROM_SQUARE m) <= 12 ->
  aget g_pieceCol (aget (pieces b) (MOVE_GET_FROM_SQUARE m)) = side b ->
  nz (Z.land m MFLAGEP) = false -> nz (Z.land m MFLAGCA) = false ->
  aget (pieces b) (MOVE_GET_TO_SQUARE m) = MOVE_GET_CAPTURED m ->
  (MOVE_GET_CAPTURED m =? EMPTY) = true ->
  (MOVE_GET_PROMOTED m =? EMPTY) = true ->
  key_ok K (Move_Make_apply K b m).
Proof.
  intros Hc Hkey Hof Hot Hft Hpv Hpc Hep Hca Hto Hcapb Hpromb.
  assert (Hprom : MOVE_GET_PROMOTED m = EMPTY) by lia.
  assert (Hcap : MOVE_GET_CAPTURED m = EMPTY) by lia.
  unfold key_ok in *. rewrite genkey_eq in *.
  break_board b. rec_cbv_in Hkey. open_consistent Hc. rec_cbv_in Hpv. rec_cbv_in Hpc. rec_cbv_in Hto.
  unfold Move_Make_apply. cbv zeta. rewrite Hprom, Hcap. rewrite Hcap in Hto.
  remember (MOVE_GET_FROM_SQUARE m) as f eqn:Ef.
  remember (MOVE_GET_TO_SQUARE m) as t eqn:Et.
  run.
  pose proof (on_board_range f Hof) as Hrf.
  pose proof (on_board_range t Hot) as Hrt.
  destruct (flip_color x_side Hsd) as [Hosd Hosd'].
  assert (Hpk : nz (aget g_pieceKing (aget x_pieces f)) = true -> aget x_KingSq x_side = f).
  { intros Hking. apply Hk; [lia |]. rewrite <- Hpc.
    apply king_has_color; [lia | exact Hking]. }
  rec_cbv. unname.
  key_finish K f Hof Hkey.
Qed.

Lemma key_capture (b : ChessBoard) (m : Z) :
  consistent b -> key_ok K b ->
  on_board (MOVE_GET_FROM_SQUARE m) = true -> on_board (MOVE_GET_TO_SQUARE m) = true ->
  MOVE_GET_FROM_SQUARE m <> MOVE_GET_TO_SQUARE m ->
  1 <= aget (pieces b) (MOVE_GET_FROM_SQUARE m) <= 12 ->
  aget g_pieceCol (aget (pieces b) (MOVE_GET_FROM_SQUARE m)) = side b ->
  nz (Z.land m MFLAGEP) = false -> nz (Z.land m MFLAGCA) = false ->
  aget (pieces b) (MOVE_GET_TO_SQUARE m) = MOVE_GET_CAPTURED m ->
  1 <= MOVE_GET_CAPTURED m <= 12 ->
  aget g_pieceCol (MOVE_GET_CAPTURED m) = Z.lxor (side b) 1 ->
  (MOVE_GET_CAPTURED m =? EMPTY) = false ->
  (MOVE_GET_PROMOTED m =? EMPTY) = true ->
  key_ok K (Move_Make_apply K b m).
Proof.
  intros Hc Hkey Hof Hot Hft Hpv Hpc Hep Hca Hto Hcv Hcc Hcap Hpromb.
  assert (Hprom : MOVE_GET_PROMOTED m = EMPTY) by lia.
  unfold key_ok in *. rewrite genkey_eq in *.
  break_board b. rec_cbv_in Hkey. unfold consistent in Hc. rec_cbv_in Hc. rec_cbv_in Hpv. rec_cbv_in Hpc.
  rec_cbv_in Hto. rec_cbv_in Hcc.
  destruct Hc as (HL & HP & Hon & Hk & Hlk & Hlm & Hlb & Hlj & Hln & Hlh & Hhp & Hsd).
  pose proof HL as (Hlp & Hll & Hlc & Hrows).
  unfold Move_Make_apply. cbv zeta. rewrite Hprom.
  remember (MOVE_GET_FROM_SQUARE m) as f eqn:Ef.
  remember (MOVE_GET_TO_SQUARE m) as t eqn:Et.
  remember (MOVE_GET_CAPTURED m) as cap eqn:Ecap.
  run.
  pose proof (on_board_range f Hof) as Hrf.
  pose proof (on_board_range t Hot) as Hrt.
  destruct (flip_color x_side Hsd) as [Hosd Hosd'].
  pose proof (Hrows cap ltac:(lia)) as (Hcnt_cap & _).
  assert (Hpk : nz (aget g_pieceKing (aget x_pieces f)) = true -> aget x_KingSq x_side = f).
  { intros Hking. apply Hk; [lia |]. rewrite <- Hpc.
    apply king_has_color; [lia | exact Hking]. }
  rec_cbv. unname.
  key_finish K f Hof Hkey.
Qed.

Lemma key_promotion (b : ChessBoard) (m : Z) :
  consistent b -> key_ok K b ->
  on_board (MOVE_GET_FROM_SQUARE m) = true -> on_board (MOVE_GET_TO_SQUARE m) = true ->
  MOVE_GET_FROM_SQUARE m <> MOVE_GET_TO_SQUARE m ->
  aget (pieces b) (MOVE_GET_FROM_SQUARE m) = pawn_of (side b) ->
  nz (Z.land m MFLAGEP) = false -> nz (Z.land m MFLAGCA) = false ->
  aget (pieces b) (MOVE_GET_TO_SQUARE m) = MOVE_GET_CAPTURED m ->
  (MOVE_GET_CAPTURED m =? EMPTY) = true ->
  (MOVE_GET_PROMOTED m =? EMPTY) = false ->
  1 <= MOVE_GET_PROMOTED m <= 12 ->
  aget g_pieceCol (MOVE_GET_PROMOTED m) = side b ->
  nz (aget g_piecePawn (MOVE_GET_PROMOTED m)) = false ->
  nz (aget g_pieceKing (MOVE_GET_PROMOTED m)) = false ->
  key_ok K (Move_Make_apply K b m).
Proof.
  intros Hc Hkey Hof Hot Hft Hpv Hep Hca Hto Hcapb Hpromb Hrv Hrc Hrp Hrk.
  assert (Hcap : MOVE_GET_CAPTURED m = EMPTY) by lia.
  unfold key_ok in *. rewrite genkey_eq in *.
  break_board b. rec_cbv_in Hkey. open_consistent Hc. rec_cbv_in Hpv. rec_cbv_in Hto.
  rec_cbv_in Hrc.
  unfold Move_Make_apply. cbv zeta. rewrite Hcap. rewrite Hcap in Hto.
  remember (MOVE_GET_FROM_SQUARE m) as f eqn:Ef.
  remember (MOVE_GET_TO_SQUARE m) as t eqn:Et.
  remember (MOVE_GET_PROMOTED m) as prom eqn:Eprom.
  run.
  pose proof (on_board_range f Hof) as Hrf.
  pose proof (on_board_range t Hot) as Hrt.
  destruct (flip_color x_side Hsd) as [Hosd Hosd'].
  destruct (pawn_of_facts x_side Hsd) as (Hw1 & Hw2 & Hw3 & Hw4 & Hw5).
  pose proof (Hrows (pawn_of x_side) ltac:(lia)) as (Hcnt_pawn & _).
  pose proof (Hrows prom ltac:(lia)) as (Hcnt_prom & _).
  assert (Hne3 : prom <> pawn_of x_side) by congruence.
  rec_cbv. unname.
  key_finish K f Hof Hkey.
Qed.

Lemma key_capture_promotion (b : ChessBoard) (m : Z) :
  consistent b -> key_ok K b ->
  on_board (MOVE_GET_FROM_SQUARE m) = true -> on_board (MOVE_GET_TO_SQUARE m) = true ->
  MOVE_GET_FROM_SQUARE m <> MOVE_GET_TO_SQUARE m ->
  aget (pieces b) (MOVE_GET_FROM_SQUARE m) = pawn_of (side b) ->
  nz (Z.land m MFLAGEP) = false -> nz (Z.land m MFLAGCA) = false ->
  aget (pieces b) (MOVE_GET_TO_SQUARE m) = MOVE_GET_CAPTURED m ->
  1 <= MOVE_GET_CAPTURED m <= 12 ->
  aget g_pieceCol (MOVE_GET_CAPTURED m) = Z.lxor (side b) 1 ->
  (MOVE_GET_CAPTURED m =? EMPTY) = false ->
  (MOVE_GET_PROMOTED m =? EMPTY) = false ->
  1 <= MOVE_GET_PROMOTED m <= 12 ->
  aget g_pieceCol (MOVE_GET_PROMOTED m) = side b ->
  nz (aget g_piecePawn (MOVE_GET_PROMOTED m)) = false ->
  nz (aget g_pieceKing (MOVE_GET_PROMOTED m)) = false ->
  key_ok K (Move_Make_apply K b m).
Proof.
  intros Hc Hkey Hof Hot Hft Hpv Hep Hca Hto Hcv Hcc Hcap Hpromb Hrv Hrc Hrp Hrk.
  unfold key_ok in *. rewrite genkey_eq in *.
  break_board b. rec_cbv_in Hkey. open_consistent Hc. rec_cbv_in Hpv. rec_cbv_in Hto. rec_cbv_in Hcc.
  rec_cbv_in Hrc.
  unfold Move_Make_apply. cbv zeta.
  remember (MOVE_GET_FROM_SQUARE m) as f eqn:Ef.
  remember (MOVE_GET_TO_SQUARE m) as t eqn:Et.
  remember (MOVE_GET_CAPTURED m) as cap eqn:Ecap.
  remember (MOVE_GET_PROMOTED m) as prom eqn:Eprom.
  run.
  pose proof (on_board_range f Hof) as Hrf.
  pose proof (on_board_range t Hot) as Hrt.
  destruct (flip_color x_side Hsd) as [Hosd Hosd'].
  destruct (pawn_of_facts x_side Hsd) as (Hw1 & Hw2 & Hw3 & Hw4 & Hw5).
  pose proof (Hrows cap ltac:(lia)) as (Hcnt_cap & _).
  pose proof (Hrows (pawn_of x_side) ltac:(lia)) as (Hcnt_pawn & _).
  pose proof (Hrows prom ltac:(lia)) as (Hcnt_prom & _).
  assert (Hne1 : cap <> pawn_of x_side) by congruence.
  assert (Hne2 : cap <> prom) by congruence.
  assert (Hne3 : prom <> pawn_of x_side) by congruence.
  rec_cbv. unname.
  key_finish K f Hof Hkey.
Qed.

Lemma key_ep_white (b : ChessBoard) (m : Z) :
  consistent b -> key_ok K b ->
  on_board (MOVE_GET_FROM_SQUARE m) = true -> on_board (MOVE_GET_TO_SQUARE m) = true ->
  MOVE_GET_FROM_SQUARE m <> MOVE_GET_TO_SQUARE m ->
  side b = COLOR_TYPE_WHITE ->
  aget (pieces b) (MOVE_GET_FROM_SQUARE m) = PIECE_TYPE_WHITE_PAWN ->
  nz (Z.land m MFLAGEP) = true ->
  (MOVE_GET_CAPTURED m =? EMPTY) = true ->
  (MOVE_GET_PROMOTED m =? EMPTY) = true ->
  aget (pieces b) (MOVE_GET_TO_SQUARE m) = EMPTY ->
  aget (pieces b) (MOVE_GET_TO_SQUARE m - 10) = PIECE_TYPE_BLACK_PAWN ->
  key_ok K (Move_Make_apply K b m).
Proof.
  intros Hc Hkey Hof Hot Hft Hside Hpv Hep Hcapb Hpromb Hto Hvic.
  assert (Hprom : MOVE_GET_PROMOTED m = EMPTY) by lia.
  assert (Hcap : MOVE_GET_CAPTURED m = EMPTY) by lia.
  unfold key_ok in *. rewrite genkey_eq in *.
  break_board b. rec_cbv_in Hkey. open_consistent Hc. rec_cbv_in Hside. subst x_side.
  rec_cbv_in Hpv. rec_cbv_in Hto. rec_cbv_in Hvic.
  unfold Move_Make_apply. cbv zeta. rewrite Hprom, Hcap.
  remember (MOVE_GET_FROM_SQUARE m) as f eqn:Ef.
  remember (MOVE_GET_TO_SQUARE m) as t eqn:Et.
  assert (Hov : on_board (t - 10) = true).
  { apply Hon. rewrite Hvic. vm_compute. split; discriminate. }
  run.
  pose proof (on_board_range f Hof) as Hrf.
  pose proof (on_board_range t Hot) as Hrt.
  pose proof (on_board_range _ Hov) as Hrv.
  assert (Hfv : f <> t - 10).
  { intros E. rewrite <- E, Hpv in Hvic. discriminate. }
  pose proof (Hrows PIECE_TYPE_WHITE_PAWN ltac:(names; lia)) as (Hcnt_w & _).
  pose proof (Hrows PIECE_TYPE_BLACK_PAWN ltac:(names; lia)) as (Hcnt_b & _).
  rec_cbv. unname.
  key_finish K f Hof Hkey.
Qed.

Lemma key_ep_black (b : ChessBoard) (m : Z) :
  consistent b -> key_ok K b ->
  on_board (MOVE_GET_FROM_SQUARE m) = true -> on_board (MOVE_GET_TO_SQUARE m) = true ->
  MOVE_GET_FROM_SQUARE m <> MOVE_GET_TO_SQUARE m ->
  side b = COLOR_TYPE_BLACK ->
  aget (pieces b) (MOVE_GET_FROM_SQUARE m) = PIECE_TYPE_BLACK_PAWN ->
  nz (Z.land m MFLAGEP) = true ->
  (MOVE_GET_CAPTURED m =? EMPTY) = true ->
  (MOVE_GET_PROMOTED m =? EMPTY) = true ->
  aget (pieces b) (MOVE_GET_TO_SQUARE m) = EMPTY ->
  aget (pieces b) (MOVE_GET_TO_SQUARE m + 10) = PIECE_TYPE_WHITE_PAWN ->
  key_ok K (Move_Make_apply K b m).
Proof.
  intros Hc Hkey Hof Hot Hft Hside Hpv Hep Hcapb Hpromb Hto Hvic.
  assert (Hprom : MOVE_GET_PROMOTED m = EMPTY) by lia.
  assert (Hcap : MOVE_GET_CAPTURED m = EMPTY) by lia.
  unfold key_ok in *. rewrite genkey_eq in *.
  break_board b. rec_cbv_in Hkey. open_consistent Hc. rec_cbv_in Hside. subst x_side.
  rec_cbv_in Hpv. rec_cbv_in Hto. rec_cbv_in Hvic.
  unfold Move_Make_apply. cbv zeta. rewrite Hprom, Hcap.
  remember (MOVE_GET_FROM_SQUARE m) as f eqn:Ef.
  remember (MOVE_GET_TO_SQUARE m) as t eqn:Et.
  assert (Hov : on_board (t + 10) = true).
  { apply Hon. rewrite Hvic. vm_compute. split; discriminate. }
  run.
  pose proof (on_board_range f Hof) as Hrf.
  pose proof (on_board_range t Hot) as Hrt.
  pose proof (on_board_range _ Hov) as Hrv.
  assert (Hfv : f <> t + 10).
  { intros E. rewrite <- E, Hpv in Hvic. discriminate. }
  pose proof (Hrows PIECE_TYPE_BLACK_PAWN ltac:(names; lia)) as (Hcnt_w & _).
  pose proof (Hrows PIECE_TYPE_WHITE_PAWN ltac:(names; lia)) as (Hcnt_b & _).
  rec_cbv. unname.
  key_finish K f Hof Hkey.
Qed.

Lemma key_castle (b : ChessBoard) (m rf rt : Z) :
  consistent b -> key_ok K b ->
  on_board (MOVE_GET_FROM_SQUARE m) = true ->
  MOVE_GET_FROM_SQUARE m <> MOVE_GET_TO_SQUARE m ->
  aget (pieces b) (MOVE_GET_FROM_SQUARE m) = king_of (side b) ->
  nz (Z.land m MFLAGEP) = false -> nz (Z.land m MFLAGCA) = true ->
  (MOVE_GET_CAPTURED m =? EMPTY) = true ->
  (MOVE_GET_PROMOTED m =? EMPTY) = true ->
  aget (pieces b) (MOVE_GET_TO_SQUARE m) = EMPTY ->
  castle_rook_squares (MOVE_GET_TO_SQUARE m) = (rf, rt) -> rf <> NO_SQ ->
  aget (pieces b) rf = rook_of (side b) ->
  aget (pieces b) rt = EMPTY ->
  key_ok K (Move_Make_apply K b m).
Proof.
  intros Hc Hkey Hof Hft Hpv Hep Hca Hcapb Hpromb Hto Hsq Hrf0 Hrook Hrt0.
  assert (Hprom : MOVE_GET_PROMOTED m = EMPTY) by lia.
  assert (Hcap : MOVE_GET_CAPTURED m = EMPTY) by lia.
  unfold key_ok in *. rewrite genkey_eq in *.
  break_board b. rec_cbv_in Hkey. open_consistent Hc.
  rec_cbv_in Hpv. rec_cbv_in Hto. rec_cbv_in Hrook. rec_cbv_in Hrt0.
  unfold Move_Make_apply. cbv zeta. rewrite Hprom, Hcap.
  remember (MOVE_GET_FROM_SQUARE m) as f eqn:Ef.
  remember (MOVE_GET_TO_SQUARE m) as t eqn:Et.
  pose proof (on_board_range f Hof) as Hrf.
  destruct (flip_color x_side Hsd) as [Hosd Hosd'].
  destruct (king_of_facts x_side Hsd) as (Hg1 & Hg2 & Hg3 & Hg4 & Hg5).
  destruct (rook_of_facts x_side Hsd) as (Hr1 & Hr2 & Hr3 & Hr4 & Hr5).
  assert (Hkf : aget x_KingSq x_side = f) by (apply Hk; [lia | exact Hpv]).
  assert (Hne : king_of x_side <> rook_of x_side) by congruence.
  assert (Hfrf : f <> rf) by (intros E; rewrite <- E, Hpv in Hrook; congruence).
  assert (Hfrt : f <> rt) by (intros E; rewrite <- E, Hpv in Hrt0; unfold EMPTY in Hrt0; lia).
  pose proof (Hrows (king_of x_side) ltac:(lia)) as (Hcnt_k & _).
  pose proof (Hrows (rook_of x_side) ltac:(lia)) as (Hcnt_r & _).
  destruct (castle_rook_squares_cases t rf rt Hsq Hrf0)
    as [(Ht & -> & ->) | [(Ht & -> & ->) | [(Ht & -> & ->) | (Ht & -> & ->)]]];
    rewrite Ht in *; clear Ht.
  all: run; rec_cbv; unname; key_finish K f Hof Hkey.
Qed.

End KeyCases.

(** The key computed from scratch reads the mailbox, the side, the
    en-passant square and the castling rights only. *)
Lemma key_ok_same_position (K : HashKeys) (b b' : ChessBoard) :
  same_position b b' -> key_ok K b -> key_ok K b'.
Proof.
  unfold same_position, key_ok. rewrite !genkey_eq.
  intros (Hp & _ & _ & Hs & He & _ & _ & _ & Hc & Hk & _) H.
  rewrite Hk, Hp, Hs, He, Hc. exact H.
Qed.

(** The board changes of [Move_Make] keep the key equal to the key
    computed from scratch, for every move that fits the board. *)
Lemma make_key_ok (K : HashKeys) (b : ChessBoard) (m : Z) :
  consistent b -> key_ok K b -> move_fits b m = true ->
  key_ok K (Move_Make_apply K b m).
Proof.
  intros Hc Hkey Hf. unfold move_fits in Hf. cbv zeta in Hf.
  apply andb_prop in Hf. destruct Hf as [Hf Hkind].
  props Hf. destruct Hf as (((Hof & Hot) & Hne) & (Hv & Hcol)).
  apply piece_valid_range in Hv.
  assert (Hsd : 0 <= side b <= 1) by (unfold consistent in Hc; tauto).
  destruct (nz (Z.land m MFLAGEP)) eqn:Hep.
  - props Hkind. destruct Hkind as ((((Hp & Hcap) & Hprom) & Hto) & Hvic).
    apply Z.eqb_eq in Hcap, Hprom.
    assert (Hs : side b = COLOR_TYPE_WHITE \/ side b = COLOR_TYPE_BLACK)
      by (unfold COLOR_TYPE_WHITE, COLOR_TYPE_BLACK; lia).
    destruct Hs as [Hs | Hs]; rewrite Hs in *.
    + apply key_ep_white; auto.
    + apply key_ep_black; auto.
  - destruct (nz (Z.land m MFLAGCA)) eqn:Hca.
    + props Hkind.
      destruct Hkind as ((((((Hp & Hcap) & Hprom) & Hto) & Hrf) & Hrook) & Hrt).
      apply Z.eqb_eq in Hcap, Hprom.
      apply (key_castle K b m (fst (castle_rook_squares (MOVE_GET_TO_SQUARE m)))
               (snd (castle_rook_squares (MOVE_GET_TO_SQUARE m)))); auto.
      apply surjective_pairing.
    + apply andb_prop in Hkind. destruct Hkind as [Hkind Hpr].
      apply andb_prop in Hkind. destruct Hkind as [Hto Hcp].
      apply Z.eqb_eq in Hto.
      destruct (MOVE_GET_CAPTURED m =? EMPTY) eqn:Hce;
        destruct (MOVE_GET_PROMOTED m =? EMPTY) eqn:Hpe;
        cbn [orb] in Hcp, Hpr; props Hcp; props Hpr.
      * apply key_quiet; auto.
      * destruct Hpr as (((Hp & (Hpv & Hpc)) & Hnp) & Hnk).
        apply piece_valid_range in Hpv.
        apply key_promotion; auto.
      * destruct Hcp as (Hcv & Hcc). apply piece_valid_range in Hcv.
        apply key_capture; auto.
      * destruct Hpr as (((Hp & (Hpv & Hpc)) & Hnp) & Hnk).
        destruct Hcp as (Hcv & Hcc).
        apply piece_valid_range in Hpv. apply piece_valid_range in Hcv.
        apply key_capture_promotion; auto.
Qed.

(** ** Null moves and position setup *)

Lemma null_key_ok (K : HashKeys) (b : ChessBoard) :
  0 <= side b <= 1 -> key_ok K b -> key_ok K (MakeNullMove K b).
Proof.
  intros Hs Hkey. unfold key_ok in *. rewrite genkey_eq in *.
  break_board b. rec_cbv_in Hs. rec_cbv_in Hkey.
  unfold MakeNullMove. cbv zeta. run. rec_cbv. unname.
  rewrite side_key_flip by assumption. rewrite Hkey.
  change (ep_key K NO_SQ) with 0. xor_solve.
Qed.

Lemma null_take_key_ok (K : HashKeys) (b : ChessBoard) :
  0 <= hisPly b < Z.of_nat (length (history b)) ->
  key_ok K b -> key_ok K (TakeNullMove K (MakeNullMove K b)).
Proof.
  intros Hh Hkey. unfold key_ok in *. rewrite genkey_eq in *.
  break_board b. rec_cbv_in Hh. rec_cbv_in Hkey.
  unfold MakeNullMove, TakeNullMove. cbv zeta. run. rec_cbv. unname.
  rewrite lxor_flip_flip. rewrite Hkey.
  change (ep_key K NO_SQ) with 0. xor_solve.
Qed.

Lemma let_frame {A : Type} (f : ChessBoard -> A) (X : ChessBoard)
    (F : ChessBoard -> ChessBoard) (v : A) :
  f X = v -> (forall b, f b = v -> f (F b) = v) -> f (let b := X in F b) = v.
Proof. intros H1 H2. cbv zeta. apply H2. exact H1. Qed.

Lemma let_val {A B : Type} (f : ChessBoard -> A) (x : B) (F : B -> ChessBoard) (v : A) :
  (forall z, z = x -> f (F z) = v) -> f (let z := x in F z) = v.
Proof. intros H. cbv zeta. apply H. reflexivity. Qed.

Lemma keyed_setters (b : ChessBoard) :
  (forall v, keyed (set_bigPce v b) = keyed b) /\ (forall v, keyed (set_minPce v b) = keyed b)
  /\ (forall v, keyed (set_majPce v b) = keyed b) /\ (forall v, keyed (set_material v b) = keyed b)
  /\ (forall v, keyed (set_pList v b) = keyed b) /\ (forall v, keyed (set_pieceCount v b) = keyed b)
  /\ (forall v, keyed (set_KingSq v b) = keyed b) /\ (forall v, keyed (set_pawns v b) = keyed b).
Proof. break_board b. repeat split. Qed.

Ltac keyed_setter :=
  match goal with
  | |- keyed (?g ?v ?b) = _ =>
      first [ rewrite (proj1 (keyed_setters b) v)
            | rewrite (proj1 (proj2 (keyed_setters b)) v)
            | rewrite (proj1 (proj2 (proj2 (keyed_setters b))) v)
            | rewrite (proj1 (proj2 (proj2 (proj2 (keyed_setters b)))) v)
            | rewrite (proj1 (proj2 (proj2 (proj2 (proj2 (keyed_setters b))))) v)
            | rewrite (proj1 (proj2 (proj2 (proj2 (proj2 (proj2 (keyed_setters b)))))) v)
            | rewrite (proj1 (proj2 (proj2 (proj2 (proj2 (proj2 (proj2 (keyed_setters b))))))) v)
            | rewrite (proj2 (proj2 (proj2 (proj2 (proj2 (proj2 (proj2 (keyed_setters b))))))) v) ]
  end.

Ltac keyed_step :=
  lazymatch goal with
  | |- keyed (let z := ?x in @?F z) = ?v =>
      first [ refine (let_frame keyed x F v _ _); [| intros ?b ?Hb; cbv beta]
            | refine (let_val keyed x F v _); intros ?z ?Hz; cbv beta ]
  | |- keyed (if ?c then _ else _) = _ => destruct c
  | |- keyed (?g ?v ?b) = _ => keyed_setter
  | |- _ => assumption
  end.

Lemma update_lists_step_keyed (b : ChessBoard) (index : Z) :
  keyed (update_lists_step b index) = keyed b.
Proof.
  assert (H : keyed b = keyed b) by reflexivity. revert H.
  generalize (keyed b) at 2 3. intros v H.
  cbv beta delta [update_lists_step].
  repeat keyed_step.
Qed.

Lemma update_lists_keyed (l : list Z) (ob : option ChessBoard) (b' : ChessBoard) :
  fold_left
    (fun ob index =>
       match ob with
       | Some b =>
           if update_lists_in_range b index then Some (update_lists_step b index) else None
       | None => None
       end) l ob = Some b' ->
  exists b, ob = Some b /\ keyed b' = keyed b.
Proof.
  revert ob. induction l as [| i l IH]; intros ob; cbn [fold_left].
  - intros ->. exists b'. split; reflexivity.
  - intros E. destruct (IH _ E) as (b1 & E1 & Hk).
    destruct ob as [b |]; [| discriminate].
    destruct (update_lists_in_range b i); [| discriminate].
    injection E1 as <-. exists b. split; [reflexivity |].
    rewrite Hk. apply update_lists_step_keyed.
Qed.

Lemma Board_UpdateListsMaterial_keyed (b b' : ChessBoard) :
  Board_UpdateListsMaterial b = Some b' -> keyed b' = keyed b.
Proof.
  unfold Board_UpdateListsMaterial. intros E.
  destruct (update_lists_keyed _ _ _ E) as (b0 & E0 & Hk).
  injection E0 as <-. exact Hk.
Qed.

Lemma key_ok_keyed (K : HashKeys) (b b' : ChessBoard) :
  keyed b' = keyed b -> key_ok K b -> key_ok K b'.
Proof.
  unfold keyed, key_ok. rewrite !genkey_eq. intros H Hk.
  assert (H1 := f_equal (fun t => fst (fst (fst (fst t)))) H).
  assert (H2 := f_equal (fun t => snd (fst (fst (fst t)))) H).
  assert (H3 := f_equal (fun t => snd (fst (fst t))) H).
  assert (H4 := f_equal (fun t => snd (fst t)) H).
  assert (H5 := f_equal (fun t => snd t) H).
  cbn [fst snd] in *. rewrite H1, H2, H3, H4, H5. exact Hk.
Qed.

(** [Board_ParseFromFEN] sets the key from the board it has read, and
    [Board_UpdateListsMaterial], which runs after it, touches none of the
    fields the key is computed from. *)
Lemma Board_ParseFromFEN_key_ok (K : HashKeys) (fen : string) (b b' : ChessBoard) :
  Board_ParseFromFEN K fen b = Some (0, b') -> key_ok K b'.
Proof.
  unfold Board_ParseFromFEN. cbv zeta.
  destruct (fen_placement fen RANK_TYPE_8 FILE_TYPE_A (Board_Reset b))
    as [| b1 | rest rk f b1]; [discriminate | discriminate |].
  destruct (cur (Some rest)); [| discriminate].
  destruct (fen_castle _ _ 4) as [[fen2 b2] |]; [| discriminate].
  destruct (fen_enpas _ _) as [b3 |]; [| discriminate].
  destruct ((0 <=? enPas b3) && (enPas b3 <? CHESS_BOARD_SQUARE_NUM)); [| discriminate].
  destruct (Board_UpdateListsMaterial _) as [b4 |] eqn:E; [| discriminate].
  intros E'. injection E' as <-.
  apply (key_ok_keyed K (set_posKey (Board_GeneratePositionKey K b3) b3)).
  - apply Board_UpdateListsMaterial_keyed. exact E.
  - unfold key_ok. rewrite !genkey_eq. break_board b3. reflexivity.
Qed.

(** * Making a move keeps the board consistent *)

Lemma king_of_inj (c c' : Z) : 0 <= c <= 1 -> 0 <= c' <= 1 -> king_of c = king_of c' -> c = c'.
Proof.
  intros Hc Hc'. assert (H : c = 0 \/ c = 1) by lia. assert (H' : c' = 0 \/ c' = 1) by lia.
  destruct H as [-> | ->]; destruct H' as [-> | ->]; vm_compute; intros E;
    first [reflexivity | discriminate].
Qed.

Lemma kings_set_nonking (pcs ks : list Z) (sq v : Z) :
  kings_ok pcs ks -> nz (aget g_pieceKing v) = false -> kings_ok (aset pcs sq v) ks.
Proof.
  intros Hk Hv sq' c Hc Hking.
  destruct (Z.eq_dec sq' sq) as [-> | Hne].
  - destruct (Z.ltb_spec sq 0); [rewrite aset_neg in Hking by lia; exact (Hk _ _ Hc Hking) |].
    destruct (Z.ltb_spec sq (Z.of_nat (length pcs))).
    + rewrite aget_aset_eq in Hking by lia. rewrite Hking in Hv.
      destruct (king_of_facts c Hc) as (_ & _ & Hkg & _). congruence.
    + rewrite aset_out in Hking by lia. exact (Hk _ _ Hc Hking).
  - rewrite aget_aset_ne in Hking by lia. exact (Hk _ _ Hc Hking).
Qed.

Lemma kings_move_king (pcs ks : list Z) (f t s : Z) :
  kings_ok pcs ks -> aget pcs f = king_of s -> 0 <= s <= 1 -> f <> t ->
  0 <= t < Z.of_nat (length pcs) -> length ks = 2%nat ->
  kings_ok (aset (aset pcs f EMPTY) t (king_of s)) (aset ks s t).
Proof.
  intros Hk Hf Hs Hft Ht Hl sq c Hc Hking.
  destruct (Z.eq_dec sq t) as [-> | Hnt].
  - rewrite aget_aset_eq in Hking by (rewrite length_aset; lia).
    apply king_of_inj in Hking; [| assumption | assumption]. subst c.
    apply aget_aset_eq. lia.
  - rewrite aget_aset_ne in Hking by lia.
    assert (Hkf : kings_ok (aset pcs f EMPTY) ks) by (apply kings_set_nonking; [exact Hk | reflexivity]).
    pose proof (Hkf _ _ Hc Hking) as Hsq.
    destruct (Z.eq_dec c s) as [-> | Hcs].
    + exfalso. pose proof (Hk _ _ Hs Hf) as Hfs.
      assert (E : sq = f) by congruence. rewrite E in Hking.
      assert (Hr : 0 <= f < Z.of_nat (length pcs)).
      { apply aget_nonzero_range. rewrite Hf. destruct (king_of_facts s Hs). lia. }
      rewrite aget_aset_eq in Hking by lia.
      destruct (king_of_facts s Hs) as (Hr1 & _). unfold EMPTY in Hking. lia.
    + rewrite aget_aset_ne by lia. exact Hsq.
Qed.

Ltac fin_on_board sqs :=
  let sq := fresh "sq" in
  let H := fresh "H" in
  intros sq H; revert H; mailbox_cases sq sqs; asimp; use_cells; asimp; intros H;
  first [ assumption | reflexivity
        | match goal with Hon : forall sq, _ -> on_board sq = true |- _ => apply Hon; exact H end
        | (exfalso; revert H; names; lia) ].

Ltac fold_kings :=
  match goal with
  | |- forall sq c, _ -> aget ?pcs sq = king_of c -> aget ?ks c = sq =>
      change (kings_ok pcs ks)
  end.

Ltac kings_chain :=
  repeat first [ eassumption | apply kings_move_king | apply kings_set_nonking ].

Ltac kings_side :=
  first [ reflexivity | assumption | side_solve
        | (rewrite ?length_aset; first [assumption | lia]) ].

Ltac fin_len :=
  repeat match goal with |- context [if ?c then _ else _] => destruct c end;
  rewrite ?bumped_length, ?length_aset;
  first [ assumption | lia
        | lazymatch goal with |- Z.le _ _ => vm_compute; intro; discriminate end ].

Section ConsCases.
Variable K : HashKeys.

Lemma cons_quiet (b : ChessBoard) (m : Z) :
  consistent b -> hisPly b + 1 < 2048 ->
  on_board (MOVE_GET_FROM_SQUARE m) = true -> on_board (MOVE_GET_TO_SQUARE m) = true ->
  MOVE_GET_FROM_SQUARE m <> MOVE_GET_TO_SQUARE m ->
  1 <= aget (pieces b) (MOVE_GET_FROM_SQUARE m) <= 12 ->
  aget g_pieceCol (aget (pieces b) (MOVE_GET_FROM_SQUARE m)) = side b ->
  nz (Z.land m MFLAGEP) = false -> nz (Z.land m MFLAGCA) = false ->
  aget (pieces b) (MOVE_GET_TO_SQUARE m) = MOVE_GET_CAPTURED m ->
  (MOVE_GET_CAPTURED m =? EMPTY) = true ->
  (MOVE_GET_PROMOTED m =? EMPTY) = true ->
  consistent (Move_Make_apply K b m).
Proof.
  intros Hc Hply Hof Hot Hft Hpv Hpc Hep Hca Hto Hcapb Hpromb.
  assert (Hprom : MOVE_GET_PROMOTED m = EMPTY) by lia.
  assert (Hcap : MOVE_GET_CAPTURED m = EMPTY) by lia.
  break_board b. rec_cbv_in Hply. open_consistent Hc. rec_cbv_in Hpv. rec_cbv_in Hpc. rec_cbv_in Hto.
  unfold Move_Make_apply. cbv zeta. rewrite Hprom, Hcap. rewrite Hcap in Hto.
  remember (MOVE_GET_FROM_SQUARE m) as f eqn:Ef.
  remember (MOVE_GET_TO_SQUARE m) as t eqn:Et.
  run.
  pose proof (on_board_range f Hof) as Hrf.
  pose proof (on_board_range t Hot) as Hrt.
  destruct (flip_color x_side Hsd) as [Hosd Hosd'].
  assert (Hpk : nz (aget g_pieceKing (aget x_pieces f)) = true -> aget x_KingSq x_side = f).
  { intros Hking. apply Hk; [lia |]. rewrite <- Hpc.
    apply king_has_color; [lia | exact Hking]. }
  unfold consistent. rec_cbv. unname.
  split_ands.
  all: try solve [fin_len].
  - inv_chain. all: try side_solve.
  - inv_chain. all: try side_solve.
  - fin_on_board (f :: t :: nil).
  - fold_kings. asimp.
    assert (Hk' : kings_ok x_pieces x_KingSq) by exact Hk.
    destruct (nz (aget g_pieceKing (aget x_pieces f))) eqn:Hkg.
    + pose proof (king_has_color _ Hpv Hkg) as Hpk2. rewrite Hpc in Hpk2.
      rewrite Hpk2. kings_chain. all: kings_side.
    + kings_chain. all: kings_side.
Qed.

Lemma cons_capture (b : ChessBoard) (m : Z) :
  consistent b -> hisPly b + 1 < 2048 ->
  on_board (MOVE_GET_FROM_SQUARE m) = true -> on_board (MOVE_GET_TO_SQUARE m) = true ->
  MOVE_GET_FROM_SQUARE m <> MOVE_GET_TO_SQUARE m ->
  1 <= aget (pieces b) (MOVE_GET_FROM_SQUARE m) <= 12 ->
  aget g_pieceCol (aget (pieces b) (MOVE_GET_FROM_SQUARE m)) = side b ->
  nz (Z.land m MFLAGEP) = false -> nz (Z.land m MFLAGCA) = false ->
  aget (pieces b) (MOVE_GET_TO_SQUARE m) = MOVE_GET_CAPTURED m ->
  1 <= MOVE_GET_CAPTURED m <= 12 ->
  aget g_pieceCol (MOVE_GET_CAPTURED m) = Z.lxor (side b) 1 ->
  (MOVE_GET_CAPTURED m =? EMPTY) = false ->
  (MOVE_GET_PROMOTED m =? EMPTY) = true ->
  consistent (Move_Make_apply K b m).
Proof.
  intros Hc Hply Hof Hot Hft Hpv Hpc Hep Hca Hto Hcv Hcc Hcap Hpromb.
  assert (Hprom : MOVE_GET_PROMOTED m = EMPTY) by lia.
  break_board b. rec_cbv_in Hply. unfold consistent in Hc. rec_cbv_in Hc. rec_cbv_in Hpv. rec_cbv_in Hpc.
  rec_cbv_in Hto. rec_cbv_in Hcc.
  destruct Hc as (HL & HP & Hon & Hk & Hlk & Hlm & Hlb & Hlj & Hln & Hlh & Hhp & Hsd).
  pose proof HL as (Hlp & Hll & Hlc & Hrows).
  unfold Move_Make_apply. cbv zeta. rewrite Hprom.
  remember (MOVE_GET_FROM_SQUARE m) as f eqn:Ef.
  remember (MOVE_GET_TO_SQUARE m) as t eqn:Et.
  remember (MOVE_GET_CAPTURED m) as cap eqn:Ecap.
  run.
  pose proof (on_board_range f Hof) as Hrf.
  pose proof (on_board_range t Hot) as Hrt.
  destruct (flip_color x_side Hsd) as [Hosd Hosd'].
  pose proof (Hrows cap ltac:(lia)) as (Hcnt_cap & _).
  assert (Hpk : nz (aget g_pieceKing (aget x_pieces f)) = true -> aget x_KingSq x_side = f).
  { intros Hking. apply Hk; [lia |]. rewrite <- Hpc.
    apply king_has_color; [lia | exact Hking]. }
  unfold consistent. rec_cbv. unname.
  split_ands.
  all: try solve [fin_len].
  - inv_chain. all: try side_solve.
  - inv_chain. all: try side_solve.
  - fin_on_board (f :: t :: nil).
  - fold_kings. asimp.
    assert (Hk' : kings_ok x_pieces x_KingSq) by exact Hk.
    destruct (nz (aget g_pieceKing (aget x_pieces f))) eqn:Hkg.
    + pose proof (king_has_color _ Hpv Hkg) as Hpk2. rewrite Hpc in Hpk2.
      rewrite Hpk2. kings_chain. all: kings_side.
    + kings_chain. all: kings_side.
Qed.

Lemma cons_promotion (b : ChessBoard) (m : Z) :
  consistent b -> hisPly b + 1 < 2048 ->
  on_board (MOVE_GET_FROM_SQUARE m) = true -> on_board (MOVE_GET_TO_SQUARE m) = true ->
  MOVE_GET_FROM_SQUARE m <> MOVE_GET_TO_SQUARE m ->
  aget (pieces b) (MOVE_GET_FROM_SQUARE m) = pawn_of (side b) ->
  nz (Z.land m MFLAGEP) = false -> nz (Z.land m MFLAGCA) = false ->
  aget (pieces b) (MOVE_GET_TO_SQUARE m) = MOVE_GET_CAPTURED m ->
  (MOVE_GET_CAPTURED m =? EMPTY) = true ->
  (MOVE_GET_PROMOTED m =? EMPTY) = false ->
  1 <= MOVE_GET_PROMOTED m <= 12 ->
  aget g_pieceCol (MOVE_GET_PROMOTED m) = side b ->
  nz (aget g_piecePawn (MOVE_GET_PROMOTED m)) = false ->
  nz (aget g_pieceKing (MOVE_GET_PROMOTED m)) = false ->
  aget (pieceCount b) (MOVE_GET_PROMOTED m) < 10 ->
  consistent (Move_Make_apply K b m).
Proof.
  intros Hc Hply Hof Hot Hft Hpv Hep Hca Hto Hcapb Hpromb Hrv Hrc Hrp Hrk Hroom.
  assert (Hcap : MOVE_GET_CAPTURED m = EMPTY) by lia.
  break_board b. rec_cbv_in Hply. open_consistent Hc. rec_cbv_in Hpv. rec_cbv_in Hto.
  rec_cbv_in Hrc. rec_cbv_in Hroom.
  unfold Move_Make_apply. cbv zeta. rewrite Hcap. rewrite Hcap in Hto.
  remember (MOVE_GET_FROM_SQUARE m) as f eqn:Ef.
  remember (MOVE_GET_TO_SQUARE m) as t eqn:Et.
  remember (MOVE_GET_PROMOTED m) as prom eqn:Eprom.
  run.
  pose proof (on_board_range f Hof) as Hrf.
  pose proof (on_board_range t Hot) as Hrt.
  destruct (flip_color x_side Hsd) as [Hosd Hosd'].
  destruct (pawn_of_facts x_side Hsd) as (Hw1 & Hw2 & Hw3 & Hw4 & Hw5).
  pose proof (Hrows (pawn_of x_side) ltac:(lia)) as (Hcnt_pawn & _).
  pose proof (Hrows prom ltac:(lia)) as (Hcnt_prom & _).
  assert (Hne3 : prom <> pawn_of x_side) by congruence.
  unfold consistent. rec_cbv. unname.
  split_ands.
  all: try solve [fin_len].
  - inv_chain. all: try side_solve.
  - inv_chain. all: try side_solve.
  - fin_on_board (f :: t :: nil).
  - fold_kings. asimp. use_cells. asimp.
    assert (Hk' : kings_ok x_pieces x_KingSq) by exact Hk.
    rewrite ?Hrk, ?Hw4. cbn [nz].
    kings_chain. all: kings_side.
Qed.

Lemma cons_capture_promotion (b : ChessBoard) (m : Z) :
  consistent b -> hisPly b + 1 < 2048 ->
  on_board (MOVE_GET_FROM_SQUARE m) = true -> on_board (MOVE_GET_TO_SQUARE m) = true ->
  MOVE_GET_FROM_SQUARE m <> MOVE_GET_TO_SQUARE m ->
  aget (pieces b) (MOVE_GET_FROM_SQUARE m) = pawn_of (side b) ->
  nz (Z.land m MFLAGEP) = false -> nz (Z.land m MFLAGCA) = false ->
  aget (pieces b) (MOVE_GET_TO_SQUARE m) = MOVE_GET_CAPTURED m ->
  1 <= MOVE_GET_CAPTURED m <= 12 ->
  aget g_pieceCol (MOVE_GET_CAPTURED m) = Z.lxor (side b) 1 ->
  (MOVE_GET_CAPTURED m =? EMPTY) = false ->
  (MOVE_GET_PROMOTED m =? EMPTY) = false ->
  1 <= MOVE_GET_PROMOTED m <= 12 ->
  aget g_pieceCol (MOVE_GET_PROMOTED m) = side b ->
  nz (aget g_piecePawn (MOVE_GET_PROMOTED m)) = false ->
  nz (aget g_pieceKing (MOVE_GET_PROMOTED m)) = false ->
  aget (pieceCount b) (MOVE_GET_PROMOTED m) < 10 ->
  consistent (Move_Make_apply K b m).
Proof.
  intros Hc Hply Hof Hot Hft Hpv Hep Hca Hto Hcv Hcc Hcap Hpromb Hrv Hrc Hrp Hrk Hroom.
  break_board b. rec_cbv_in Hply. open_consistent Hc. rec_cbv_in Hpv. rec_cbv_in Hto. rec_cbv_in Hcc.
  rec_cbv_in Hrc. rec_cbv_in Hroom.
  unfold Move_Make_apply. cbv zeta.
  remember (MOVE_GET_FROM_SQUARE m) as f eqn:Ef.
  remember (MOVE_GET_TO_SQUARE m) as t eqn:Et.
  remember (MOVE_GET_CAPTURED m) as cap eqn:Ecap.
  remember (MOVE_GET_PROMOTED m) as prom eqn:Eprom.
  run.
  pose proof (on_board_range f Hof) as Hrf.
  pose proof (on_board_range t Hot) as Hrt.
  destruct (flip_color x_side Hsd) as [Hosd Hosd'].
  destruct (pawn_of_facts x_side Hsd) as (Hw1 & Hw2 & Hw3 & Hw4 & Hw5).
  pose proof (Hrows cap ltac:(lia)) as (Hcnt_cap & _).
  pose proof (Hrows (pawn_of x_side) ltac:(lia)) as (Hcnt_pawn & _).
  pose proof (Hrows prom ltac:(lia)) as (Hcnt_prom & _).
  assert (Hne1 : cap <> pawn_of x_side) by congruence.
  assert (Hne2 : cap <> prom) by congruence.
  assert (Hne3 : prom <> pawn_of x_side) by congruence.
  unfold consistent. rec_cbv. unname.
  split_ands.
  all: try solve [fin_len].
  - inv_chain. all: try side_solve.
  - inv_chain. all: try side_solve.
  - fin_on_board (f :: t :: nil).
  - fold_kings. asimp. use_cells. asimp.
    assert (Hk' : kings_ok x_pieces x_KingSq) by exact Hk.
    rewrite ?Hrk, ?Hw4. cbn [nz].
    kings_chain. all: kings_side.
Qed.

Lemma cons_ep_white (b : ChessBoard) (m : Z) :
  consistent b -> hisPly b + 1 < 2048 ->
  on_board (MOVE_GET_FROM_SQUARE m) = true -> on_board (MOVE_GET_TO_SQUARE m) = true ->
  MOVE_GET_FROM_SQUARE m <> MOVE_GET_TO_SQUARE m ->
  side b = COLOR_TYPE_WHITE ->
  aget (pieces b) (MOVE_GET_FROM_SQUARE m) = PIECE_TYPE_WHITE_PAWN ->
  nz (Z.land m MFLAGEP) = true ->
  (MOVE_GET_CAPTURED m =? EMPTY) = true ->
  (MOVE_GET_PROMOTED m =? EMPTY) = true ->
  aget (pieces b) (MOVE_GET_TO_SQUARE m) = EMPTY ->
  aget (pieces b) (MOVE_GET_TO_SQUARE m - 10) = PIECE_TYPE_BLACK_PAWN ->
  consistent (Move_Make_apply K b m).
Proof.
  intros Hc Hply Hof Hot Hft Hside Hpv Hep Hcapb Hpromb Hto Hvic.
  assert (Hprom : MOVE_GET_PROMOTED m = EMPTY) by lia.
  assert (Hcap : MOVE_GET_CAPTURED m = EMPTY) by lia.
  break_board b. rec_cbv_in Hply. open_consistent Hc. rec_cbv_in Hside. subst x_side.
  rec_cbv_in Hpv. rec_cbv_in Hto. rec_cbv_in Hvic.
  unfold Move_Make_apply. cbv zeta. rewrite Hprom, Hcap.
  remember (MOVE_GET_FROM_SQUARE m) as f eqn:Ef.
  remember (MOVE_GET_TO_SQUARE m) as t eqn:Et.
  assert (Hov : on_board (t - 10) = true).
  { apply Hon. rewrite Hvic. vm_compute. split; discriminate. }
  run.
  pose proof (on_board_range f Hof) as Hrf.
  pose proof (on_board_range t Hot) as Hrt.
  pose proof (on_board_range _ Hov) as Hrv.
  assert (Hfv : f <> t - 10).
  { intros E. rewrite <- E, Hpv in Hvic. discriminate. }
  pose proof (Hrows PIECE_TYPE_WHITE_PAWN ltac:(names; lia)) as (Hcnt_w & _).
  pose proof (Hrows PIECE_TYPE_BLACK_PAWN ltac:(names; lia)) as (Hcnt_b & _).
  unfold consistent. rec_cbv. unname.
  split_ands.
  all: try solve [fin_len].
  - inv_chain. all: try side_solve.
  - inv_chain. all: try side_solve.
  - fin_on_board (f :: t :: t - 10 :: nil).
  - fold_kings. asimp. use_cells. asimp.
    assert (Hk' : kings_ok x_pieces x_KingSq) by exact Hk.
    rewrite ?Hrk, ?Hw4. cbn [nz].
    kings_chain. all: kings_side.
Qed.

Lemma cons_ep_black (b : ChessBoard) (m : Z) :
  consistent b -> hisPly b + 1 < 2048 ->
  on_board (MOVE_GET_FROM_SQUARE m) = true -> on_board (MOVE_GET_TO_SQUARE m) = true ->
  MOVE_GET_FROM_SQUARE m <> MOVE_GET_TO_SQUARE m ->
  side b = COLOR_TYPE_BLACK ->
  aget (pieces b) (MOVE_GET_FROM_SQUARE m) = PIECE_TYPE_BLACK_PAWN ->
  nz (Z.land m MFLAGEP) = true ->
  (MOVE_GET_CAPTURED m =? EMPTY) = true ->
  (MOVE_GET_PROMOTED m =? EMPTY) = true ->
  aget (pieces b) (MOVE_GET_TO_SQUARE m) = EMPTY ->
  aget (pieces b) (MOVE_GET_TO_SQUARE m + 10) = PIECE_TYPE_WHITE_PAWN ->
  consistent (Move_Make_apply K b m).
Proof.
  intros Hc Hply Hof Hot Hft Hside Hpv Hep Hcapb Hpromb Hto Hvic.
  assert (Hprom : MOVE_GET_PROMOTED m = EMPTY) by lia.
  assert (Hcap : MOVE_GET_CAPTURED m = EMPTY) by lia.
  break_board b. rec_cbv_in Hply. open_consistent Hc. rec_cbv_in Hside. subst x_side.
  rec_cbv_in Hpv. rec_cbv_in Hto. rec_cbv_in Hvic.
  unfold Move_Make_apply. cbv zeta. rewrite Hprom, Hcap.
  remember (MOVE_GET_FROM_SQUARE m) as f eqn:Ef.
  remember (MOVE_GET_TO_SQUARE m) as t eqn:Et.
  assert (Hov : on_board (t + 10) = true).
  { apply Hon. rewrite Hvic. vm_compute. split; discriminate. }
  run.
  pose proof (on_board_range f Hof) as Hrf.
  pose proof (on_board_range t Hot) as Hrt.
  pose proof (on_board_range _ Hov) as Hrv.
  assert (Hfv : f <> t + 10).
  { intros E. rewrite <- E, Hpv in Hvic. discriminate. }
  pose proof (Hrows PIECE_TYPE_BLACK_PAWN ltac:(names; lia)) as (Hcnt_w & _).
  pose proof (Hrows PIECE_TYPE_WHITE_PAWN ltac:(names; lia)) as (Hcnt_b & _).
  unfold consistent. rec_cbv. unname.
  split_ands.
  all: try solve [fin_len].
  - inv_chain. all: try side_solve.
  - inv_chain. all: try side_solve.
  - fin_on_board (f :: t :: t + 10 :: nil).
  - fold_kings. asimp. use_cells. asimp.
    assert (Hk' : kings_ok x_pieces x_KingSq) by exact Hk.
    rewrite ?Hrk, ?Hw4. cbn [nz].
    kings_chain. all: kings_side.
Qed.

Lemma cons_castle (b : ChessBoard) (m rf rt : Z) :
  consistent b -> hisPly b + 1 < 2048 ->
  on_board (MOVE_GET_FROM_SQUARE m) = true ->
  MOVE_GET_FROM_SQUARE m <> MOVE_GET_TO_SQUARE m ->
  aget (pieces b) (MOVE_GET_FROM_SQUARE m) = king_of (side b) ->
  nz (Z.land m MFLAGEP) = false -> nz (Z.land m MFLAGCA) = true ->
  (MOVE_GET_CAPTURED m =? EMPTY) = true ->
  (MOVE_GET_PROMOTED m =? EMPTY) = true ->
  aget (pieces b) (MOVE_GET_TO_SQUARE m) = EMPTY ->
  castle_rook_squares (MOVE_GET_TO_SQUARE m) = (rf, rt) -> rf <> NO_SQ ->
  aget (pieces b) rf = rook_of (side b) ->
  aget (pieces b) rt = EMPTY ->
  consistent (Move_Make_apply K b m).
Proof.
  intros Hc Hply Hof Hft Hpv Hep Hca Hcapb Hpromb Hto Hsq Hrf0 Hrook Hrt0.
  assert (Hprom : MOVE_GET_PROMOTED m = EMPTY) by lia.
  assert (Hcap : MOVE_GET_CAPTURED m = EMPTY) by lia.
  break_board b. rec_cbv_in Hply. open_consistent Hc.
  rec_cbv_in Hpv. rec_cbv_in Hto. rec_cbv_in Hrook. rec_cbv_in Hrt0.
  unfold Move_Make_apply. cbv zeta. rewrite Hprom, Hcap.
  remember (MOVE_GET_FROM_SQUARE m) as f eqn:Ef.
  remember (MOVE_GET_TO_SQUARE m) as t eqn:Et.
  pose proof (on_board_range f Hof) as Hrf.
  destruct (flip_color x_side Hsd) as [Hosd Hosd'].
  destruct (king_of_facts x_side Hsd) as (Hg1 & Hg2 & Hg3 & Hg4 & Hg5).
  destruct (rook_of_facts x_side Hsd) as (Hr1 & Hr2 & Hr3 & Hr4 & Hr5).
  assert (Hkf : aget x_KingSq x_side = f) by (apply Hk; [lia | exact Hpv]).
  assert (Hne : king_of x_side <> rook_of x_side) by congruence.
  assert (Hfrf : f <> rf) by (intros E; rewrite <- E, Hpv in Hrook; congruence).
  assert (Hfrt : f <> rt) by (intros E; rewrite <- E, Hpv in Hrt0; unfold EMPTY in Hrt0; lia).
  pose proof (Hrows (king_of x_side) ltac:(lia)) as (Hcnt_k & _).
  pose proof (Hrows (rook_of x_side) ltac:(lia)) as (Hcnt_r & _).
  destruct (castle_rook_squares_cases t rf rt Hsq Hrf0)
    as [(Ht & -> & ->) | [(Ht & -> & ->) | [(Ht & -> & ->) | (Ht & -> & ->)]]];
    rewrite Ht in *; clear Ht.
  all: run; unfold consistent; rec_cbv; unname; split_ands; try solve [fin_len];
    [ inv_chain; try side_solve | inv_chain; try side_solve | | ].
  - fin_on_board (f :: 23 :: 21 :: 24 :: nil).
  - fold_kings. asimp. use_cells. asimp. rewrite ?Hg3.
    assert (Hk' : kings_ok x_pieces x_KingSq) by exact Hk.
    kings_chain. all: kings_side.
  - fin_on_board (f :: 93 :: 91 :: 94 :: nil).
  - fold_kings. asimp. use_cells. asimp. rewrite ?Hg3.
    assert (Hk' : kings_ok x_pieces x_KingSq) by exact Hk.
    kings_chain. all: kings_side.
  - fin_on_board (f :: 27 :: 28 :: 26 :: nil).
  - fold_kings. asimp. use_cells. asimp. rewrite ?Hg3.
    assert (Hk' : kings_ok x_pieces x_KingSq) by exact Hk.
    kings_chain. all: kings_side.
  - fin_on_board (f :: 97 :: 98 :: 96 :: nil).
  - fold_kings. asimp. use_cells. asimp. rewrite ?Hg3.
    assert (Hk' : kings_ok x_pieces x_KingSq) by exact Hk.
    kings_chain. all: kings_side.
Qed.

End ConsCases.

(** Every move that fits the board leaves a consistent board when the
    history has room for its record. *)
Lemma make_consistent (K : HashKeys) (b : ChessBoard) (m : Z) :
  consistent b -> hisPly b + 1 < 2048 ->
  move_fits b m = true -> promotion_room b m = true ->
  consistent (Move_Make_apply K b m).
Proof.
  intros Hc Hply Hf Hr. unfold move_fits in Hf. cbv zeta in Hf.
  apply andb_prop in Hf. destruct Hf as [Hf Hkind].
  props Hf. destruct Hf as (((Hof & Hot) & Hne) & (Hv & Hcol)).
  apply piece_valid_range in Hv.
  assert (Hsd : 0 <= side b <= 1) by (unfold consistent in Hc; tauto).
  destruct (nz (Z.land m MFLAGEP)) eqn:Hep.
  - props Hkind. destruct Hkind as ((((Hp & Hcap) & Hprom) & Hto) & Hvic).
    apply Z.eqb_eq in Hcap, Hprom.
    assert (Hs : side b = COLOR_TYPE_WHITE \/ side b = COLOR_TYPE_BLACK)
      by (unfold COLOR_TYPE_WHITE, COLOR_TYPE_BLACK; lia).
    destruct Hs as [Hs | Hs]; rewrite Hs in *.
    + apply cons_ep_white; auto.
    + apply cons_ep_black; auto.
  - destruct (nz (Z.land m MFLAGCA)) eqn:Hca.
    + props Hkind.
      destruct Hkind as ((((((Hp & Hcap) & Hprom) & Hto) & Hrf) & Hrook) & Hrt).
      apply Z.eqb_eq in Hcap, Hprom.
      apply (cons_castle K b m (fst (castle_rook_squares (MOVE_GET_TO_SQUARE m)))
               (snd (castle_rook_squares (MOVE_GET_TO_SQUARE m)))); auto.
      apply surjective_pairing.
    + apply andb_prop in Hkind. destruct Hkind as [Hkind Hpr].
      apply andb_prop in Hkind. destruct Hkind as [Hto Hcp].
      apply Z.eqb_eq in Hto.
      unfold promotion_room in Hr.
      destruct (MOVE_GET_CAPTURED m =? EMPTY) eqn:Hce;
        destruct (MOVE_GET_PROMOTED m =? EMPTY) eqn:Hpe;
        cbn [orb] in Hcp, Hpr, Hr; props Hcp; props Hpr; props Hr.
      * apply cons_quiet; auto.
      * destruct Hpr as (((Hp & (Hpv & Hpc)) & Hnp) & Hnk).
        apply piece_valid_range in Hpv.
        apply cons_promotion; auto.
      * destruct Hcp as (Hcv & Hcc). apply piece_valid_range in Hcv.
        apply cons_capture; auto.
      * destruct Hpr as (((Hp & (Hpv & Hpc)) & Hnp) & Hnk).
        destruct Hcp as (Hcv & Hcc).
        apply piece_valid_range in Hpv. apply piece_valid_range in Hcv.
        apply cons_capture_promotion; auto.
Qed.

(** ** Taking the move back keeps the board consistent *)

(** A write into a row of a two-dimensional array changes no row length. *)
Lemma rows_aset2 (pl : list (list Z)) (p j v : Z) :
  map length (aset2 pl p j v) = map length pl.
Proof.
  unfold aset2. unfold aset at 1. destruct (p <? 0) eqn:Hp; [reflexivity |].
  change (map length ?l) with (length <$> l).
  rewrite list_fmap_insert, length_aset.
  apply list_insert_id'. intros Hlt. 
  rewrite length_fmap in Hlt.
  rewrite list_lookup_fmap. unfold aget. rewrite Hp.
  destruct (pl !! Z.to_nat p) eqn:E; [reflexivity |].
  apply lookup_ge_None in E. lia.
Qed.

Section Rows.
Variable K : HashKeys.

Ltac ifs := repeat match goal with |- context [if ?c then _ else _] => destruct c end.

Lemma rows_ClearPiece (sq : Z) (b : ChessBoard) :
  map length (pList (ClearPiece K sq b)) = map length (pList b).
Proof. rewrite ClearPiece_nf. break_board b. cbn. apply rows_aset2. Qed.

Lemma rows_AddPiece (sq : Z) (b : ChessBoard) (p : Z) :
  map length (pList (AddPiece K sq b p)) = map length (pList b).
Proof. rewrite AddPiece_nf. break_board b. cbn. apply rows_aset2. Qed.

Lemma rows_MovePiece (from to : Z) (b : ChessBoard) :
  map length (pList (MovePiece K from to b)) = map length (pList b).
Proof.
  rewrite MovePiece_nf. break_board b. cbn. unfold moved_pList.
  ifs; [apply rows_aset2 | reflexivity].
Qed.

Ltac rows_step :=
  first [ rewrite rows_ClearPiece | rewrite rows_AddPiece | rewrite rows_MovePiece ].

Ltac rows_block b :=
  ifs; repeat rows_step; try reflexivity; try (break_board b; reflexivity).

Lemma rows_make_special (m to s : Z) (b : ChessBoard) :
  map length (pList (make_special K m to s b)) = map length (pList b).
Proof. unfold make_special, castle_rook_make. rows_block b. Qed.

Lemma rows_take_special (m to : Z) (b : ChessBoard) :
  map length (pList (take_special K m to b)) = map length (pList b).
Proof. unfold take_special, castle_rook_take. rows_block b. Qed.

Lemma rows_king_moved (sq : Z) (b : ChessBoard) :
  map length (pList (king_moved sq b)) = map length (pList b).
Proof. unfold king_moved. rows_block b. Qed.

Lemma rows_track_capture (c : Z) (b : ChessBoard) :
  map length (pList (track_capture c b)) = map length (pList b).
Proof. unfold track_capture. rows_block b. Qed.

Lemma rows_untrack_capture (c : Z) (b : ChessBoard) :
  map length (pList (untrack_capture c b)) = map length (pList b).
Proof. unfold untrack_capture. rows_block b. Qed.

Lemma rows_make_promote (p to : Z) (b : ChessBoard) :
  map length (pList (make_promote K p to b)) = map length (pList b).
Proof. unfold make_promote. rows_block b. Qed.

Lemma rows_take_promote (m from : Z) (b : ChessBoard) :
  map length (pList (take_promote K m from b)) = map length (pList b).
Proof. unfold take_promote. rows_block b. Qed.

Lemma rows_take_capture (c to : Z) (b : ChessBoard) :
  map length (pList (take_capture K c to b)) = map length (pList b).
Proof. unfold take_capture. ifs; [| reflexivity]. rewrite rows_untrack_capture. apply rows_AddPiece. Qed.

Lemma rows_make_capture (c to : Z) (b : ChessBoard) :
  map length (pList (make_capture K c to b)) = map length (pList b).
Proof.
  unfold make_capture. cbv zeta. ifs; [| break_board b; reflexivity].
  rewrite rows_track_capture.
  change (pList (set_fiftyMove 0 ?x)) with (pList x).
  rewrite rows_ClearPiece. break_board b. reflexivity.
Qed.

Lemma rows_save_key (b : ChessBoard) : map length (pList (save_key b)) = map length (pList b).
Proof. break_board b. reflexivity. Qed.

Lemma rows_make_state (m from to : Z) (b : ChessBoard) :
  map length (pList (make_state K m from to b)) = map length (pList b).
Proof. rewrite make_state_nf. break_board b. reflexivity. Qed.

Lemma rows_make_ply (b : ChessBoard) : map length (pList (make_ply b)) = map length (pList b).
Proof. break_board b. reflexivity. Qed.

Lemma rows_make_pawn (m from s : Z) (b : ChessBoard) :
  map length (pList (make_pawn K m from s b)) = map length (pList b).
Proof. rewrite make_pawn_nf. break_board b. cbn. ifs; reflexivity. Qed.

Lemma rows_flip_side (b : ChessBoard) : map length (pList (flip_side K b)) = map length (pList b).
Proof. break_board b. reflexivity. Qed.

Lemma rows_take_ply (b : ChessBoard) : map length (pList (take_ply b)) = map length (pList b).
Proof. break_board b. reflexivity. Qed.

Lemma rows_take_state (b : ChessBoard) :
  map length (pList (take_state K b)) = map length (pList b).
Proof. rewrite take_state_nf. break_board b. reflexivity. Qed.

Lemma rows_Move_Make_apply (b : ChessBoard) (m : Z) :
  map length (pList (Move_Make_apply K b m)) = map length (pList b).
Proof.
  unfold Move_Make_apply. cbv zeta.
  rewrite rows_flip_side, rows_king_moved, rows_make_promote, rows_MovePiece, rows_make_pawn,
    rows_make_ply, rows_make_capture, rows_make_state, rows_make_special.
  apply rows_save_key.
Qed.

Lemma rows_Move_Take (b : ChessBoard) :
  map length (pList (Move_Take K b)) = map length (pList b).
Proof.
  unfold Move_Take. cbv zeta.
  rewrite rows_take_promote, rows_take_capture, rows_king_moved, rows_MovePiece,
    rows_take_special, rows_take_state.
  apply rows_take_ply.
Qed.

End Rows.

(** Rows of equal lengths. *)
Lemma rows_length (pl pl' : list (list Z)) (p : Z) :
  map length pl' = map length pl -> length (aget pl' p) = length (aget pl p).
Proof.
  intros H. unfold aget. destruct (p <? 0); [reflexivity |].
  assert (E : (length <$> pl') !! Z.to_nat p = (length <$> pl) !! Z.to_nat p)
    by (change (length <$> ?l) with (map length l); rewrite H; reflexivity).
  rewrite !list_lookup_fmap in E.
  destruct (pl' !! Z.to_nat p), (pl !! Z.to_nat p); cbn in E |- *; congruence.
Qed.

(** A row whose live part is a rearrangement of a good row's is good. *)
Lemma row_ok_perm (S : Z -> Prop) (row row' : list Z) (n : Z) :
  row_ok S row n -> length row' = 10%nat -> aprefix row' n ≡ₚ aprefix row n ->
  row_ok S row' n.
Proof.
  intros Hok Hlen' Hperm.
  pose proof (row_ok_NoDup S row n Hok) as Hnd.
  rewrite <- Hperm in Hnd.
  assert (Hel : forall x, x ∈ aprefix row' n <-> S x).
  { intros x. rewrite Hperm. apply (row_ok_elem S row n x Hok). }
  destruct Hok as (Hn & Hlen & _).
  assert (Hlk : forall i, 0 <= i < n -> aprefix row' n !! Z.to_nat i = Some (aget row' i)).
  { intros i Hi. unfold aprefix. rewrite lookup_take_lt by lia. apply lookup_aget. lia. }
  split; [exact Hn |]. split; [exact Hlen' |]. split; [| split].
  - intros i j Hi Hj E.
    pose proof (Hlk i Hi) as Li. pose proof (Hlk j Hj) as Lj. rewrite <- E in Lj.
    pose proof (NoDup_lookup _ _ _ _ Hnd Li Lj). lia.
  - intros i Hi. apply Hel. eapply list_elem_of_lookup_2. apply (Hlk i Hi).
  - intros sq Hs. apply Hel in Hs. apply list_elem_of_lookup_1 in Hs.
    destruct Hs as (k & Hk).
    assert (Hkn : (k < Z.to_nat n)%nat).
    { apply lookup_lt_Some in Hk. unfold aprefix in Hk. rewrite length_take in Hk. lia. }
    exists (Z.of_nat k). split; [lia |].
    pose proof (Hlk (Z.of_nat k) ltac:(lia)) as L. rewrite Nat2Z.id in L. congruence.
Qed.

(** Consistency is a property of the position, the row lengths and the
    length of the history. *)
Lemma consistent_same_position (b b' : ChessBoard) :
  consistent b -> same_position b b' ->
  map length (pList b') = map length (pList b) ->
  length (history b') = length (history b) ->
  consistent b'.
Proof.
  unfold consistent, same_position, lists_inv.
  intros ((Hl1 & Hl2 & Hl3 & Hrows) & Hpw & Hon & Hk & Hrest)
         (E1 & E2 & E3 & E4 & E5 & E6 & E7 & E8 & E9 & E10 & E11 & E12 & E13 & E14 & E15 & Hlive)
         Hr Hh.
  rewrite E1, E2, E3, E4, E8, E11, E12, E13, E14, E15, Hh.
  split; [| tauto].
  split; [exact Hl1 |]. split.
  { rewrite <- Hl2. rewrite <- (length_map length (pList b')), Hr. apply length_map. }
  split; [exact Hl3 |].
  intros p Hp. apply (row_ok_perm _ (aget (pList b) p)).
  - apply Hrows. exact Hp.
  - rewrite (rows_length _ _ p Hr). destruct (Hrows p Hp) as (_ & H & _). exact H.
  - pose proof (Hlive p Hp) as H. unfold live in H. rewrite E11 in H. exact H.
Qed.

(** Taking back a fitting move leaves a consistent board. *)
Lemma make_take_consistent (K : HashKeys) (b : ChessBoard) (m : Z) :
  consistent b -> move_fits b m = true -> promotion_room b m = true ->
  consistent (Move_Take K (Move_Make_apply K b m)).
Proof.
  intros Hc Hf Hr. apply (consistent_same_position b).
  - exact Hc.
  - apply make_take_same_position; assumption.
  - rewrite rows_Move_Take. apply rows_Move_Make_apply.
  - assert (Hh : 0 <= hisPly b < Z.of_nat (length (history b)))
      by (unfold consistent in Hc; lia).
    pose proof (any_move_state_restored K b m Hh) as H.
    apply gs_fields in H. destruct H as (_ & _ & _ & _ & _ & _ & H).
    rewrite H. apply length_aset.
Qed.

(* ================================================================== *)
(** * The position fields after a call depend on the position fields
      before it *)
(* ================================================================== *)

Ltac sf_open H :=
  let E1 := fresh "E" in let E2 := fresh "E" in let E3 := fresh "E" in
  let E4 := fresh "E" in let E5 := fresh "E" in let E6 := fresh "E" in
  let E7 := fresh "E" in let E8 := fresh "E" in let E9 := fresh "E" in
  let E10 := fresh "E" in let E11 := fresh "E" in let E12 := fresh "E" in
  let E13 := fresh "E" in let E14 := fresh "E" in let E15 := fresh "E" in
  destruct H as (E1 & E2 & E3 & E4 & E5 & E6 & E7 & E8 & E9 & E10 & E11 & E12
                 & E13 & E14 & E15).

Ltac sf_rewrite :=
  repeat match goal with
         | E : ?f ?b' = ?f ?b |- _ => is_field f; rewrite !E; clear E
         end.

Ltac sf_prim :=
  let H := fresh "H" in
  intros H; sf_open H; unfold same_fields; beval;
  repeat match goal with
         | E : ?f ?b' = ?f ?b |- _ => is_field f; rewrite ?E; clear E
         end;
  split_ands; reflexivity.

Lemma same_fields_refl (b : ChessBoard) : same_fields b b.
Proof. unfold same_fields. split_ands; reflexivity. Qed.

Lemma same_fields_sym (b b' : ChessBoard) : same_fields b b' -> same_fields b' b.
Proof. intros H. sf_open H. unfold same_fields. split_ands; congruence. Qed.

Lemma same_fields_trans (b b' b'' : ChessBoard) :
  same_fields b b' -> same_fields b' b'' -> same_fields b b''.
Proof. intros H H'. sf_open H. sf_open H'. unfold same_fields. split_ands; congruence. Qed.

Section Congruence.
Variable K : HashKeys.

Lemma sf_ClearPiece (sq : Z) (b b' : ChessBoard) :
  same_fields b b' -> same_fields (ClearPiece K sq b) (ClearPiece K sq b').
Proof. sf_prim. Qed.

Lemma sf_AddPiece (sq p : Z) (b b' : ChessBoard) :
  same_fields b b' -> same_fields (AddPiece K sq b p) (AddPiece K sq b' p).
Proof. sf_prim. Qed.

Lemma sf_MovePiece (from to : Z) (b b' : ChessBoard) :
  same_fields b b' -> same_fields (MovePiece K from to b) (MovePiece K from to b').
Proof. sf_prim. Qed.

Lemma sf_save_key (b b' : ChessBoard) :
  same_fields b b' -> same_fields (save_key b) (save_key b').
Proof. sf_prim. Qed.

Lemma sf_save_state (m : Z) (b b' : ChessBoard) :
  same_fields b b' -> same_fields (save_state m b) (save_state m b').
Proof. sf_prim. Qed.

Lemma sf_hash_ep_if_set (b b' : ChessBoard) :
  same_fields b b' -> same_fields (hash_ep_if_set K b) (hash_ep_if_set K b').
Proof. sf_prim. Qed.

Lemma sf_flip_side (b b' : ChessBoard) :
  same_fields b b' -> same_fields (flip_side K b) (flip_side K b').
Proof. sf_prim. Qed.

Lemma sf_take_ply (b b' : ChessBoard) :
  same_fields b b' -> same_fields (take_ply b) (take_ply b').
Proof. sf_prim. Qed.

Lemma sf_make_ply (b b' : ChessBoard) :
  same_fields b b' -> same_fields (make_ply b) (make_ply b').
Proof. sf_prim. Qed.

Lemma sf_make_state (m from to : Z) (b b' : ChessBoard) :
  same_fields b b' -> same_fields (make_state K m from to b) (make_state K m from to b').
Proof. sf_prim. Qed.

Lemma sf_make_pawn (m from s : Z) (b b' : ChessBoard) :
  same_fields b b' -> same_fields (make_pawn K m from s b) (make_pawn K m from s b').
Proof. sf_prim. Qed.

Lemma sf_king_moved (sq : Z) (b b' : ChessBoard) :
  same_fields b b' -> same_fields (king_moved sq b) (king_moved sq b').
Proof. sf_prim. Qed.

Lemma sf_track_capture (c : Z) (b b' : ChessBoard) :
  same_fields b b' -> same_fields (track_capture c b) (track_capture c b').
Proof. sf_prim. Qed.

Lemma sf_untrack_capture (c : Z) (b b' : ChessBoard) :
  same_fields b b' -> same_fields (untrack_capture c b) (untrack_capture c b').
Proof. sf_prim. Qed.

Lemma sf_null_ply (b b' : ChessBoard) :
  same_fields b b' -> same_fields (null_ply b) (null_ply b').
Proof. sf_prim. Qed.

Lemma sf_null_state (b b' : ChessBoard) :
  same_fields b b' -> same_fields (null_state b) (null_state b').
Proof. sf_prim. Qed.

Lemma sf_null_side (b b' : ChessBoard) :
  same_fields b b' -> same_fields (null_side K b) (null_side K b').
Proof. sf_prim. Qed.

Lemma sf_set_fiftyMove (v : Z) (b b' : ChessBoard) :
  same_fields b b' -> same_fields (set_fiftyMove v b) (set_fiftyMove v b').
Proof. sf_prim. Qed.

Lemma sf_restore_state (b b' : ChessBoard) :
  same_fields b b' -> aget (history b') (hisPly b') = aget (history b) (hisPly b) ->
  same_fields (restore_state b) (restore_state b').
Proof. intros H Hh. revert H. rewrite !restore_state_nf, Hh. sf_prim. Qed.

Lemma sf_take_state (b b' : ChessBoard) :
  same_fields b b' -> aget (history b') (hisPly b') = aget (history b) (hisPly b) ->
  same_fields (take_state K b) (take_state K b').
Proof. intros H Hh. revert H. rewrite !take_state_nf, Hh. sf_prim. Qed.

Lemma sf_castle_rook_make (to : Z) (b b' : ChessBoard) :
  same_fields b b' -> same_fields (castle_rook_make K to b) (castle_rook_make K to b').
Proof.
  intros H. unfold castle_rook_make.
  repeat match goal with |- context [if ?c then _ else _] => destruct c end;
    try apply sf_MovePiece; exact H.
Qed.

Lemma sf_castle_rook_take (to : Z) (b b' : ChessBoard) :
  same_fields b b' -> same_fields (castle_rook_take K to b) (castle_rook_take K to b').
Proof.
  intros H. unfold castle_rook_take.
  repeat match goal with |- context [if ?c then _ else _] => destruct c end;
    try apply sf_MovePiece; exact H.
Qed.

Lemma sf_make_special (m to s : Z) (b b' : ChessBoard) :
  same_fields b b' -> same_fields (make_special K m to s b) (make_special K m to s b').
Proof.
  intros H. unfold make_special.
  repeat match goal with |- context [if ?c then _ else _] => destruct c end;
    first [ apply sf_ClearPiece | apply sf_castle_rook_make | idtac ]; exact H.
Qed.

Lemma sf_take_special (m to : Z) (b b' : ChessBoard) :
  same_fields b b' -> same_fields (take_special K m to b) (take_special K m to b').
Proof.
  intros H. unfold take_special.
  assert (Hs : side b' = side b) by (unfold same_fields in H; tauto). rewrite Hs.
  repeat match goal with |- context [if ?c then _ else _] => destruct c end;
    first [ apply sf_AddPiece | apply sf_castle_rook_take | idtac ]; exact H.
Qed.

Lemma sf_make_capture (c to : Z) (b b' : ChessBoard) :
  same_fields b b' -> same_fields (make_capture K c to b) (make_capture K c to b').
Proof.
  intros H. unfold make_capture. cbv zeta.
  assert (Hf : fiftyMove b' = fiftyMove b) by (unfold same_fields in H; tauto). rewrite Hf.
  destruct (negb (c =? EMPTY)).
  - apply sf_track_capture, sf_set_fiftyMove, sf_ClearPiece, sf_set_fiftyMove, H.
  - apply sf_set_fiftyMove, H.
Qed.

Lemma sf_take_capture (c to : Z) (b b' : ChessBoard) :
  same_fields b b' -> same_fields (take_capture K c to b) (take_capture K c to b').
Proof.
  intros H. unfold take_capture. destruct (negb (c =? EMPTY)); [| exact H].
  apply sf_untrack_capture, sf_AddPiece, H.
Qed.

Lemma sf_make_promote (p to : Z) (b b' : ChessBoard) :
  same_fields b b' -> same_fields (make_promote K p to b) (make_promote K p to b').
Proof.
  intros H. unfold make_promote. destruct (negb (p =? EMPTY)); [| exact H].
  apply sf_AddPiece, sf_ClearPiece, H.
Qed.

Lemma sf_take_promote (m from : Z) (b b' : ChessBoard) :
  same_fields b b' -> same_fields (take_promote K m from b) (take_promote K m from b').
Proof.
  intros H. unfold take_promote. cbv zeta.
  destruct (negb (MOVE_GET_PROMOTED m =? EMPTY)); [| exact H].
  apply sf_AddPiece, sf_ClearPiece, H.
Qed.

(** The board changes of [Move_Make] on two boards with the same position
    fields give boards with the same position fields. *)
Lemma sf_Move_Make_apply (m : Z) (b b' : ChessBoard) :
  same_fields b b' -> same_fields (Move_Make_apply K b m) (Move_Make_apply K b' m).
Proof.
  intros H. unfold Move_Make_apply. cbv zeta.
  assert (Hs : side b' = side b) by (unfold same_fields in H; tauto). rewrite Hs.
  apply sf_flip_side, sf_king_moved, sf_make_promote, sf_MovePiece, sf_make_pawn,
    sf_make_ply, sf_make_capture, sf_make_state, sf_make_special, sf_save_key, H.
Qed.

Lemma sf_MakeNullMove (b b' : ChessBoard) :
  same_fields b b' -> same_fields (MakeNullMove K b) (MakeNullMove K b').
Proof.
  intros H. unfold MakeNullMove. cbv zeta.
  apply sf_null_side, sf_null_state, sf_hash_ep_if_set, sf_save_key, sf_null_ply, H.
Qed.

Lemma take_ply_record (b : ChessBoard) :
  aget (history (take_ply b)) (hisPly (take_ply b)) = aget (history b) (hisPly b - 1).
Proof. break_board b. reflexivity. Qed.

(** [Move_Take] on two boards with the same position fields and the same
    newest history record gives boards with the same position fields. *)
Lemma sf_Move_Take (b b' : ChessBoard) :
  same_fields b b' ->
  aget (history b') (hisPly b - 1) = aget (history b) (hisPly b - 1) ->
  same_fields (Move_Take K b) (Move_Take K b').
Proof.
  intros H Hh. unfold Move_Take. cbv zeta.
  assert (Hp : hisPly b' = hisPly b) by (unfold same_fields in H; tauto).
  assert (Hr : aget (history (take_ply b')) (hisPly (take_ply b'))
               = aget (history (take_ply b)) (hisPly (take_ply b)))
    by (rewrite !take_ply_record, Hp; exact Hh).
  rewrite Hr.
  apply sf_take_promote, sf_take_capture, sf_king_moved, sf_MovePiece, sf_take_special,
    sf_take_state; [apply sf_take_ply, H | exact Hr].
Qed.

Lemma sf_TakeNullMove (b b' : ChessBoard) :
  same_fields b b' ->
  aget (history b') (hisPly b - 1) = aget (history b) (hisPly b - 1) ->
  same_fields (TakeNullMove K b) (TakeNullMove K b').
Proof.
  intros H Hh. unfold TakeNullMove. cbv zeta.
  assert (Hp : hisPly b' = hisPly b) by (unfold same_fields in H; tauto).
  assert (Hr : aget (history (take_ply b')) (hisPly (take_ply b'))
               = aget (history (take_ply b)) (hisPly (take_ply b)))
    by (rewrite !take_ply_record, Hp; exact Hh).
  apply sf_flip_side, sf_hash_ep_if_set, sf_restore_state.
  - apply sf_hash_ep_if_set, sf_take_ply, H.
  - assert (E : forall x, aget (history (hash_ep_if_set K x)) (hisPly (hash_ep_if_set K x))
                         = aget (history x) (hisPly x))
      by (intros x; rewrite hash_ep_if_set_nf; break_board x; reflexivity).
    rewrite !E. exact Hr.
Qed.

(** ** History and ply count after each call *)

Lemma history_Move_Make_apply (b : ChessBoard) (m : Z) :
  history (Move_Make_apply K b m)
  = aset (history b) (hisPly b) (mkUndo m (castlePerm b) (enPas b) (fiftyMove b) (posKey b))
  /\ hisPly (Move_Make_apply K b m) = hisPly b + 1.
Proof.
  destruct (make_state_fields K b m) as (e' & f' & H & _).
  apply gs_fields in H. tauto.
Qed.

Lemma history_Move_Take (b : ChessBoard) :
  history (Move_Take K b) = history b /\ hisPly (Move_Take K b) = hisPly b - 1.
Proof.
  pose proof (gs_Move_Take K b _ _ _ _ _ _ _ eq_refl) as H.
  apply gs_fields in H. tauto.
Qed.

Lemma history_MakeNullMove (b : ChessBoard) :
  history (MakeNullMove K b)
  = aset (history b) (hisPly b)
      (mkUndo NOMOVE (castlePerm b) (enPas b) (fiftyMove b) (posKey b))
  /\ hisPly (MakeNullMove K b) = hisPly b + 1.
Proof.
  break_board b. unfold MakeNullMove. cbv zeta. run. unname. rec_cbv.
  split; [| reflexivity].
  destruct (Z.ltb_spec x_hisPly 0); [rewrite !aset_neg by lia; reflexivity |].
  destruct (Z.ltb_spec x_hisPly (Z.of_nat (length x_history))).
  - rewrite aget_aset_eq by lia. reflexivity.
  - rewrite !aset_out by lia. reflexivity.
Qed.

Lemma history_TakeNullMove (b : ChessBoard) :
  history (TakeNullMove K b) = history b /\ hisPly (TakeNullMove K b) = hisPly b - 1.
Proof.
  break_board b. unfold TakeNullMove. cbv zeta. run. unname. rec_cbv.
  split; reflexivity.
Qed.

End Congruence.

(* ================================================================== *)
(** * Boards that are alike stay alike under every call *)
(* ================================================================== *)

Lemma alike_refl (b : ChessBoard) : alike b b.
Proof. split; [apply same_fields_refl | split; [reflexivity | intros; reflexivity]]. Qed.

Lemma alike_trans (b b' b'' : ChessBoard) : alike b b' -> alike b' b'' -> alike b b''.
Proof.
  intros (H & Hl & Hh) (H' & Hl' & Hh').
  split; [exact (same_fields_trans _ _ _ H H') |].
  split; [congruence |].
  intros i Hi. rewrite Hh', Hh; [reflexivity | exact Hi |].
  assert (E : hisPly b' = hisPly b) by (unfold same_fields in H; tauto). rewrite E. exact Hi.
Qed.

Section Alike.
Variable K : HashKeys.

Lemma alike_written (b b' : ChessBoard) (r : UndoMove) (h h' : list UndoMove) :
  alike b b' -> 0 <= hisPly b < Z.of_nat (length (history b)) ->
  h = aset (history b) (hisPly b) r -> h' = aset (history b') (hisPly b) r ->
  length h' = length h /\ forall i, 0 <= i < hisPly b + 1 -> aget h' i = aget h i.
Proof.
  intros (H & Hl & Hh) Hr -> ->. split; [rewrite !length_aset; exact Hl |].
  intros i Hi. destruct (Z.eq_dec i (hisPly b)) as [-> | Hne].
  - rewrite !aget_aset_eq by lia. reflexivity.
  - rewrite !aget_aset_ne by lia. apply Hh. lia.
Qed.

Lemma alike_Move_Make_apply (b b' : ChessBoard) (m : Z) :
  alike b b' -> 0 <= hisPly b < Z.of_nat (length (history b)) ->
  alike (Move_Make_apply K b m) (Move_Make_apply K b' m).
Proof.
  intros Ha Hr. pose proof Ha as (H & Hl & Hh).
  destruct (history_Move_Make_apply K b m) as (E1 & E2).
  destruct (history_Move_Make_apply K b' m) as (E1' & E2').
  split; [apply sf_Move_Make_apply, H |].
  rewrite E2. pose proof H as HH. sf_open HH.
  apply (alike_written b b' (mkUndo m (castlePerm b) (enPas b) (fiftyMove b) (posKey b)));
    [exact Ha | exact Hr | exact E1 |].
  rewrite E1'. congruence.
Qed.

Lemma alike_MakeNullMove (b b' : ChessBoard) :
  alike b b' -> 0 <= hisPly b < Z.of_nat (length (history b)) ->
  alike (MakeNullMove K b) (MakeNullMove K b').
Proof.
  intros Ha Hr. pose proof Ha as (H & Hl & Hh).
  destruct (history_MakeNullMove K b) as (E1 & E2).
  destruct (history_MakeNullMove K b') as (E1' & E2').
  split; [apply sf_MakeNullMove, H |].
  rewrite E2. pose proof H as HH. sf_open HH.
  apply (alike_written b b' (mkUndo NOMOVE (castlePerm b) (enPas b) (fiftyMove b) (posKey b)));
    [exact Ha | exact Hr | exact E1 |].
  rewrite E1'. congruence.
Qed.

Lemma alike_Move_Take (b b' : ChessBoard) :
  alike b b' -> 1 <= hisPly b -> alike (Move_Take K b) (Move_Take K b').
Proof.
  intros (H & Hl & Hh) Hp.
  destruct (history_Move_Take K b) as (E1 & E2).
  destruct (history_Move_Take K b') as (E1' & E2').
  split; [apply sf_Move_Take; [exact H | apply Hh; lia] |].
  rewrite E1, E1', E2. split; [exact Hl |]. intros i Hi. apply Hh. lia.
Qed.

Lemma alike_TakeNullMove (b b' : ChessBoard) :
  alike b b' -> 1 <= hisPly b -> alike (TakeNullMove K b) (TakeNullMove K b').
Proof.
  intros (H & Hl & Hh) Hp.
  destruct (history_TakeNullMove K b) as (E1 & E2).
  destruct (history_TakeNullMove K b') as (E1' & E2').
  split; [apply sf_TakeNullMove; [exact H | apply Hh; lia] |].
  rewrite E1, E1', E2. split; [exact Hl |]. intros i Hi. apply Hh. lia.
Qed.

(** Taking back a fitting move gives a board like the one before it. *)
Lemma alike_make_take (b : ChessBoard) (m : Z) :
  consistent b -> move_fits b m = true -> promotion_room b m = true ->
  alike b (Move_Take K (Move_Make_apply K b m)).
Proof.
  intros Hc Hf Hr.
  assert (Hh : 0 <= hisPly b < Z.of_nat (length (history b)))
    by (unfold consistent in Hc; lia).
  pose proof (make_take_same_position K b m Hc Hf Hr) as Hs.
  pose proof (any_move_state_restored K b m Hh) as Hg.
  apply gs_fields in Hg. destruct Hg as (_ & _ & _ & _ & _ & _ & Hg).
  split; [unfold same_position in Hs; unfold same_fields; tauto |].
  rewrite Hg. split; [apply length_aset |].
  intros i Hi. apply aget_aset_ne. lia.
Qed.

Lemma take_null_after_null (b : ChessBoard) :
  0 <= hisPly b < Z.of_nat (length (history b)) ->
  TakeNullMove K (MakeNullMove K b)
  = set_history
      (aset (history b) (hisPly b)
         (mkUndo NOMOVE (castlePerm b) (enPas b) (fiftyMove b) (posKey b))) b.
Proof.
  intros Hh. break_board b. rec_cbv_in Hh.
  unfold MakeNullMove, TakeNullMove. cbv zeta. run. unname. rec_cbv.
  rewrite lxor_flip_flip. f_equal.
  change (ep_key K NO_SQ) with 0. rewrite Z.lxor_0_r. xor_solve.
Qed.

Lemma alike_null_take (b : ChessBoard) :
  0 <= hisPly b < Z.of_nat (length (history b)) ->
  alike b (TakeNullMove K (MakeNullMove K b)).
Proof.
  intros Hh. rewrite take_null_after_null by exact Hh.
  break_board b. split; [unfold same_fields; split_ands; reflexivity |].
  cbn. split; [apply length_aset |]. intros i Hi. apply aget_aset_ne. lia.
Qed.

Lemma null_consistent (b : ChessBoard) :
  consistent b -> hisPly b + 1 < 2048 -> consistent (MakeNullMove K b).
Proof.
  intros Hc Hp. destruct (history_MakeNullMove K b) as (E1 & E2).
  unfold consistent in *.
  assert (F : pieces (MakeNullMove K b) = pieces b /\ pieceCount (MakeNullMove K b) = pieceCount b
              /\ pList (MakeNullMove K b) = pList b /\ pawns (MakeNullMove K b) = pawns b
              /\ KingSq (MakeNullMove K b) = KingSq b /\ material (MakeNullMove K b) = material b
              /\ bigPce (MakeNullMove K b) = bigPce b /\ majPce (MakeNullMove K b) = majPce b
              /\ minPce (MakeNullMove K b) = minPce b
              /\ side (MakeNullMove K b) = Z.lxor (side b) 1).
  { break_board b. unfold MakeNullMove. cbv zeta. run. unname. rec_cbv.
    split_ands; reflexivity. }
  destruct F as (F1 & F2 & F3 & F4 & F5 & F6 & F7 & F8 & F9 & F10).
  rewrite F1, F2, F3, F4, F5, F6, F7, F8, F9, F10, E1, E2, length_aset.
  destruct Hc as (H1 & H2 & H3 & H4 & H5 & H6 & H7 & H8 & H9 & H10 & H11 & H12).
  pose proof (flip_color (side b) H12) as [Hfl _].
  split_ands; try assumption; lia.
Qed.

End Alike.


(* ================================================================== *)
(** * The index fields stay in range *)
(* ================================================================== *)

Lemma in_bounds_iff (b : ChessBoard) :
  in_bounds b = true <->
  (forall sq, 0 <= sq < 120 -> on_board sq = false -> aget (pieces b) sq = OFFBOARD)
  /\ on_board (aget (KingSq b) COLOR_TYPE_WHITE) = true
  /\ on_board (aget (KingSq b) COLOR_TYPE_BLACK) = true
  /\ 0 <= enPas b < 120 /\ 0 <= castlePerm b <= 15
  /\ 0 <= capturedWhiteCount b /\ 0 <= capturedBlackCount b.
Proof.
  unfold in_bounds, CHESS_BOARD_SQUARE_NUM. rewrite !andb_true_iff.
  rewrite forallb_forall.
  split.
  - intros [[[[[[[[Hb Hw] Hk] He1] He2] Hc1] Hc2] Hn1] Hn2].
    split_ands; try lia; try assumption.
    intros sq Hsq Hoff.
    assert (Hin : In sq (seqZ 0 120)) by (apply list_elem_of_In, elem_of_seqZ; lia).
    specialize (Hb sq Hin). rewrite Hoff in Hb. cbn [orb] in Hb. lia.
  - intros (Hb & Hw & Hk & He & Hc & Hn1 & Hn2).
    split_ands; try lia; try assumption.
    intros sq Hin. apply list_elem_of_In, elem_of_seqZ in Hin.
    destruct (on_board sq) eqn:Hon; [reflexivity |].
    cbn [orb]. rewrite (Hb sq ltac:(lia) Hon). reflexivity.
Qed.

Lemma border_aset (pcs : list Z) (sq v : Z) :
  (forall s, 0 <= s < 120 -> on_board s = false -> aget pcs s = OFFBOARD) ->
  on_board sq = true ->
  forall s, 0 <= s < 120 -> on_board s = false -> aget (aset pcs sq v) s = OFFBOARD.
Proof.
  intros H Hon s Hs Hoff. rewrite aget_aset_ne by congruence. apply H; assumption.
Qed.

Lemma land_small (a b n : Z) : 0 <= n -> 0 <= a < 2 ^ n -> 0 <= Z.land a b < 2 ^ n.
Proof.
  intros Hn Ha.
  assert (E : Z.land a b = Z.land a b mod 2 ^ n).
  { rewrite <- Z.land_ones by exact Hn.
    rewrite <- Z.land_assoc, (Z.land_comm b), Z.land_assoc, Z.land_ones by exact Hn.
    rewrite Z.mod_small by exact Ha. reflexivity. }
  rewrite E. apply Z.mod_pos_bound. lia.
Qed.

Lemma aget_kings_aset (ks : list Z) (s sq c : Z) :
  on_board (aget ks c) = true -> on_board sq = true -> on_board (aget (aset ks s sq) c) = true.
Proof.
  intros Hc Hsq. destruct (Z.eq_dec c s) as [-> | Hne].
  - destruct (Z.ltb_spec s 0); [rewrite aset_neg by lia; exact Hc |].
    destruct (Z.ltb_spec s (Z.of_nat (length ks))).
    + rewrite aget_aset_eq by lia. exact Hsq.
    + rewrite aset_out by lia. exact Hc.
  - rewrite aget_aset_ne by congruence. exact Hc.
Qed.

Section InBounds.
Variable K : HashKeys.

Ltac ib_open H :=
  apply in_bounds_iff in H;
  let Hb := fresh "Hb" in let Hw := fresh "Hw" in let Hk := fresh "Hk" in
  let He := fresh "He" in let Hc := fresh "Hc" in
  let Hn1 := fresh "Hn" in let Hn2 := fresh "Hn" in
  destruct H as (Hb & Hw & Hk & He & Hc & Hn1 & Hn2).

Ltac ib_prim :=
  apply in_bounds_iff; beval; split_ands;
  first [ assumption | lia | (apply border_aset; assumption)
        | (apply border_aset; [apply border_aset; assumption | assumption]) | idtac ].

Lemma ib_ClearPiece (sq : Z) (b : ChessBoard) :
  in_bounds b = true -> on_board sq = true -> in_bounds (ClearPiece K sq b) = true.
Proof. intros H Hon. ib_open H. ib_prim. Qed.

Lemma ib_AddPiece (sq p : Z) (b : ChessBoard) :
  in_bounds b = true -> on_board sq = true -> in_bounds (AddPiece K sq b p) = true.
Proof. intros H Hon. ib_open H. ib_prim. Qed.

Lemma ib_MovePiece (from to : Z) (b : ChessBoard) :
  in_bounds b = true -> on_board from = true -> on_board to = true ->
  in_bounds (MovePiece K from to b) = true.
Proof. intros H Hf Ht. ib_open H. ib_prim. Qed.

Lemma ib_save_key (b : ChessBoard) : in_bounds b = true -> in_bounds (save_key b) = true.
Proof. intros H. ib_open H. ib_prim. Qed.

Lemma ib_make_ply (b : ChessBoard) : in_bounds b = true -> in_bounds (make_ply b) = true.
Proof. intros H. ib_open H. ib_prim. Qed.

Lemma ib_flip_side (b : ChessBoard) : in_bounds b = true -> in_bounds (flip_side K b) = true.
Proof. intros H. ib_open H. ib_prim. Qed.

Lemma ib_set_fiftyMove (v : Z) (b : ChessBoard) :
  in_bounds b = true -> in_bounds (set_fiftyMove v b) = true.
Proof. intros H. ib_open H. ib_prim. Qed.

Lemma ib_track_capture (c : Z) (b : ChessBoard) :
  in_bounds b = true -> in_bounds (track_capture c b) = true.
Proof.
  intros H. ib_open H. ib_prim.
  all: cbv zeta.
  all: repeat match goal with |- context [if ?c then _ else _] => destruct c end; lia.
Qed.

Lemma ib_make_state (m from to : Z) (b : ChessBoard) :
  in_bounds b = true -> in_bounds (make_state K m from to b) = true.
Proof.
  intros H. ib_open H.
  assert (Hc4 : 0 <= castlePerm b < 2 ^ 4) by (change (2 ^ 4) with 16; lia).
  assert (H4 : 0 <= 4) by lia.
  pose proof (land_small (castlePerm b) (aget CastlePerm from) 4 H4 Hc4) as L.
  pose proof (land_small _ (aget CastlePerm to) 4 H4 L) as L'.
  change (2 ^ 4) with 16 in L'.
  ib_prim; first [ lia | (unfold NO_SQ; lia) ].
Qed.

Lemma ib_make_pawn (m from s : Z) (b : ChessBoard) :
  in_bounds b = true -> on_board from = true -> in_bounds (make_pawn K m from s b) = true.
Proof.
  intros H Hon. ib_open H. apply on_board_range in Hon. ib_prim.
  all: cbv zeta; repeat match goal with |- context [if ?c then _ else _] => destruct c end; lia.
Qed.

Lemma ib_king_moved (sq : Z) (b : ChessBoard) :
  in_bounds b = true -> on_board sq = true -> in_bounds (king_moved sq b) = true.
Proof.
  intros H Hon. ib_open H. ib_prim;
    destruct (nz _); try assumption; apply aget_kings_aset; assumption.
Qed.

Lemma ib_castle_rook_make (to : Z) (b : ChessBoard) :
  in_bounds b = true -> in_bounds (castle_rook_make K to b) = true.
Proof.
  intros H. unfold castle_rook_make.
  repeat match goal with |- context [if ?c then _ else _] => destruct c end;
    try (apply ib_MovePiece; [exact H | reflexivity | reflexivity]); exact H.
Qed.

Lemma ib_make_special (m to s : Z) (b : ChessBoard) :
  in_bounds b = true ->
  (nz (Z.land m MFLAGEP) = true -> on_board (ep_victim_square s to) = true) ->
  in_bounds (make_special K m to s b) = true.
Proof.
  intros H Hv. unfold make_special. unfold ep_victim_square in Hv.
  destruct (nz (Z.land m MFLAGEP)).
  - specialize (Hv eq_refl). destruct (s =? COLOR_TYPE_WHITE); apply ib_ClearPiece; assumption.
  - destruct (nz (Z.land m MFLAGCA)); [apply ib_castle_rook_make |]; exact H.
Qed.

Lemma ib_make_capture (c to : Z) (b : ChessBoard) :
  in_bounds b = true -> on_board to = true -> in_bounds (make_capture K c to b) = true.
Proof.
  intros H Hon. unfold make_capture. cbv zeta. destruct (negb (c =? EMPTY)).
  - apply ib_track_capture, ib_set_fiftyMove, ib_ClearPiece; [apply ib_set_fiftyMove, H | exact Hon].
  - apply ib_set_fiftyMove, H.
Qed.

Lemma ib_make_promote (p to : Z) (b : ChessBoard) :
  in_bounds b = true -> on_board to = true -> in_bounds (make_promote K p to b) = true.
Proof.
  intros H Hon. unfold make_promote. destruct (negb (p =? EMPTY)); [| exact H].
  apply ib_AddPiece; [apply ib_ClearPiece |]; assumption.
Qed.

(** The board changes of [Move_Make] keep the index fields in range when
    the squares of the move, and of the pawn an en-passant capture
    removes, are squares of the board. *)
Lemma ib_Move_Make_apply (b : ChessBoard) (m : Z) :
  in_bounds b = true ->
  on_board (MOVE_GET_FROM_SQUARE m) = true -> on_board (MOVE_GET_TO_SQUARE m) = true ->
  (nz (Z.land m MFLAGEP) = true ->
   on_board (ep_victim_square (side b) (MOVE_GET_TO_SQUARE m)) = true) ->
  in_bounds (Move_Make_apply K b m) = true.
Proof.
  intros H Hf Ht Hv. unfold Move_Make_apply. cbv zeta.
  apply ib_flip_side, ib_king_moved; [| exact Ht].
  apply ib_make_promote; [| exact Ht].
  apply ib_MovePiece; [| exact Hf | exact Ht].
  apply ib_make_pawn; [| exact Hf].
  apply ib_make_ply, ib_make_capture; [| exact Ht].
  apply ib_make_state, ib_make_special; [| exact Hv].
  apply ib_save_key, H.
Qed.

Lemma ib_MakeNullMove (b : ChessBoard) :
  in_bounds b = true -> in_bounds (MakeNullMove K b) = true.
Proof.
  intros H. ib_open H. apply in_bounds_iff.
  break_board b. unfold MakeNullMove. cbv zeta. run. unname. rec_cbv.
  rec_cbv_in Hb. rec_cbv_in Hw. rec_cbv_in Hk. rec_cbv_in He. rec_cbv_in Hc.
  rec_cbv_in Hn. rec_cbv_in Hn0.
  split_ands; first [assumption | lia | (unfold NO_SQ; lia)].
Qed.

End InBounds.

(** A move that fits a consistent board names squares of the board. *)
Lemma move_fits_squares (b : ChessBoard) (m : Z) :
  consistent b -> move_fits b m = true ->
  on_board (MOVE_GET_FROM_SQUARE m) = true /\ on_board (MOVE_GET_TO_SQUARE m) = true
  /\ (nz (Z.land m MFLAGEP) = true ->
      on_board (ep_victim_square (side b) (MOVE_GET_TO_SQUARE m)) = true).
Proof.
  intros Hc Hf. unfold move_fits in Hf. cbv zeta in Hf.
  apply andb_prop in Hf. destruct Hf as [Hf Hkind].
  props Hf. destruct Hf as (((Hof & Hot) & Hne) & (Hv & Hcol)).
  split; [exact Hof |]. split; [exact Hot |].
  intros Hep. rewrite Hep in Hkind. props Hkind.
  destruct Hkind as ((((Hp & Hcap) & Hprom) & Hto) & Hvic).
  destruct Hc as (_ & _ & Hon & _). apply Hon.
  rewrite Hvic.
  unfold pawn_of. destruct (_ =? _); vm_compute; split; discriminate.
Qed.

Lemma make_in_bounds (K : HashKeys) (b : ChessBoard) (m : Z) :
  consistent b -> in_bounds b = true -> move_fits b m = true ->
  in_bounds (Move_Make_apply K b m) = true.
Proof.
  intros Hc Hi Hf. destruct (move_fits_squares b m Hc Hf) as (H1 & H2 & H3).
  apply ib_Move_Make_apply; assumption.
Qed.

(** ** The counts of captured pieces stay non-negative *)

Section Counts.
Variable K : HashKeys.

Ltac nn_prim :=
  let H1 := fresh "H" in let H2 := fresh "H" in
  intros [H1 H2]; beval; cbv zeta;
  split; repeat match goal with |- context [if ?c then _ else _] => destruct c end; lia.

Ltac nn_ifs :=
  repeat match goal with |- context [if ?c then _ else _] => destruct c end.

Lemma nn_ClearPiece (sq : Z) (b : ChessBoard) :
  0 <= capturedWhiteCount b /\ 0 <= capturedBlackCount b ->
  0 <= capturedWhiteCount (ClearPiece K sq b) /\ 0 <= capturedBlackCount (ClearPiece K sq b).
Proof. nn_prim. Qed.

Lemma nn_AddPiece (sq p : Z) (b : ChessBoard) :
  0 <= capturedWhiteCount b /\ 0 <= capturedBlackCount b ->
  0 <= capturedWhiteCount (AddPiece K sq b p) /\ 0 <= capturedBlackCount (AddPiece K sq b p).
Proof. nn_prim. Qed.

Lemma nn_MovePiece (from to : Z) (b : ChessBoard) :
  0 <= capturedWhiteCount b /\ 0 <= capturedBlackCount b ->
  0 <= capturedWhiteCount (MovePiece K from to b)
  /\ 0 <= capturedBlackCount (MovePiece K from to b).
Proof. nn_prim. Qed.

Lemma nn_track_capture (c : Z) (b : ChessBoard) :
  0 <= capturedWhiteCount b /\ 0 <= capturedBlackCount b ->
  0 <= capturedWhiteCount (track_capture c b) /\ 0 <= capturedBlackCount (track_capture c b).
Proof. nn_prim. Qed.

Lemma nn_untrack_capture (c : Z) (b : ChessBoard) :
  0 <= capturedWhiteCount b /\ 0 <= capturedBlackCount b ->
  0 <= capturedWhiteCount (untrack_capture c b)
  /\ 0 <= capturedBlackCount (untrack_capture c b).
Proof.
  intros [H1 H2]. beval. cbv zeta.
  split.
  - destruct (is_white_piece c); cbn [andb]; [| exact H1].
    destruct (Z.ltb_spec 0 (capturedWhiteCount b)); lia.
  - destruct (negb (is_white_piece c) && is_black_piece c); cbn [andb]; [| exact H2].
    destruct (Z.ltb_spec 0 (capturedBlackCount b)); lia.
Qed.

Lemma nn_state (f : ChessBoard -> ChessBoard) (b : ChessBoard) :
  capturedWhiteCount (f b) = capturedWhiteCount b ->
  capturedBlackCount (f b) = capturedBlackCount b ->
  0 <= capturedWhiteCount b /\ 0 <= capturedBlackCount b ->
  0 <= capturedWhiteCount (f b) /\ 0 <= capturedBlackCount (f b).
Proof. intros -> ->. tauto. Qed.

Lemma nn_Move_Make_apply (b : ChessBoard) (m : Z) :
  0 <= capturedWhiteCount b /\ 0 <= capturedBlackCount b ->
  0 <= capturedWhiteCount (Move_Make_apply K b m)
  /\ 0 <= capturedBlackCount (Move_Make_apply K b m).
Proof.
  intros H. unfold Move_Make_apply. cbv zeta.
  apply (nn_state (flip_side K)); [beval; reflexivity | beval; reflexivity |].
  apply (nn_state (king_moved _)); [beval; reflexivity | beval; reflexivity |].
  unfold make_promote. destruct (negb (_ =? EMPTY)); [apply nn_AddPiece, nn_ClearPiece |];
    apply nn_MovePiece;
    (apply (nn_state (make_pawn K _ _ _)); [beval; reflexivity | beval; reflexivity |]);
    (apply (nn_state make_ply); [beval; reflexivity | beval; reflexivity |]);
    unfold make_capture; cbv zeta;
    (destruct (negb (_ =? EMPTY));
     [apply nn_track_capture;
      apply (nn_state (set_fiftyMove 0)); [beval; reflexivity | beval; reflexivity |];
      apply nn_ClearPiece |]);
    (apply (nn_state (set_fiftyMove _)); [beval; reflexivity | beval; reflexivity |]);
    (apply (nn_state (make_state K _ _ _)); [beval; reflexivity | beval; reflexivity |]);
    unfold make_special, castle_rook_make; nn_ifs;
    repeat first [apply nn_ClearPiece | apply nn_MovePiece];
    (apply (nn_state save_key); [beval; reflexivity | beval; reflexivity |]); exact H.
Qed.

Lemma nn_Move_Take (b : ChessBoard) :
  0 <= capturedWhiteCount b /\ 0 <= capturedBlackCount b ->
  0 <= capturedWhiteCount (Move_Take K b) /\ 0 <= capturedBlackCount (Move_Take K b).
Proof.
  intros H. unfold Move_Take. cbv zeta.
  unfold take_promote. cbv zeta.
  destruct (negb (_ =? EMPTY)); [apply nn_AddPiece, nn_ClearPiece |];
    unfold take_capture;
    (destruct (negb (_ =? EMPTY)); [apply nn_untrack_capture, nn_AddPiece |]);
    (apply (nn_state (king_moved _)); [beval; reflexivity | beval; reflexivity |]);
    apply nn_MovePiece;
    unfold take_special, castle_rook_take; nn_ifs;
    repeat first [apply nn_AddPiece | apply nn_MovePiece];
    (apply (nn_state (take_state K)); [beval; reflexivity | beval; reflexivity |]);
    (apply (nn_state take_ply); [beval; reflexivity | beval; reflexivity |]); exact H.
Qed.

Lemma nn_MakeNullMove (b : ChessBoard) :
  0 <= capturedWhiteCount b /\ 0 <= capturedBlackCount b ->
  0 <= capturedWhiteCount (MakeNullMove K b) /\ 0 <= capturedBlackCount (MakeNullMove K b).
Proof.
  apply (nn_state (MakeNullMove K));
    break_board b; unfold MakeNullMove; cbv zeta; run; unname; rec_cbv; reflexivity.
Qed.

Lemma nn_TakeNullMove (b : ChessBoard) :
  0 <= capturedWhiteCount b /\ 0 <= capturedBlackCount b ->
  0 <= capturedWhiteCount (TakeNullMove K b) /\ 0 <= capturedBlackCount (TakeNullMove K b).
Proof.
  apply (nn_state (TakeNullMove K));
    break_board b; unfold TakeNullMove; cbv zeta; run; unname; rec_cbv; reflexivity.
Qed.

End Counts.

Lemma in_bounds_same_fields (b b' : ChessBoard) :
  same_fields b b' -> in_bounds b = true ->
  0 <= capturedWhiteCount b' /\ 0 <= capturedBlackCount b' ->
  in_bounds b' = true.
Proof.
  intros H Hi [Hn1 Hn2]. sf_open H. apply in_bounds_iff in Hi. apply in_bounds_iff.
  destruct Hi as (Hb & Hw & Hk & He & Hc & _ & _).
  repeat match goal with
         | E : ?f b' = ?f b |- _ => is_field f; rewrite ?E; clear E
         end.
  split_ands; first [assumption | lia].
Qed.

(* ================================================================== *)
(** * Sequences of calls *)
(* ================================================================== *)

Lemma move_fits_same_fields (b b' : ChessBoard) (m : Z) :
  same_fields b b' -> move_fits b' m = move_fits b m.
Proof.
  intros H. assert (Hp : pieces b' = pieces b) by (unfold same_fields in H; tauto).
  assert (Hs : side b' = side b) by (unfold same_fields in H; tauto).
  unfold move_fits. rewrite Hp, Hs. reflexivity.
Qed.

Lemma promotion_room_same_fields (b b' : ChessBoard) (m : Z) :
  same_fields b b' -> promotion_room b' m = promotion_room b m.
Proof.
  intros H. assert (Hp : pieceCount b' = pieceCount b) by (unfold same_fields in H; tauto).
  unfold promotion_room. rewrite Hp. reflexivity.
Qed.

Lemma key_ok_same_fields (K : HashKeys) (b b' : ChessBoard) :
  same_fields b b' -> key_ok K b -> key_ok K b'.
Proof.
  intros H. sf_open H. apply key_ok_keyed. unfold keyed. congruence.
Qed.

Section Runs.
Variable K : HashKeys.

(** The boards the calls not yet taken back make on their own are
    consistent, have their index fields in range and keep the key. *)
Lemma made_by_good (b : ChessBoard) (pending : list Pending) :
  made_by K b pending -> consistent b /\ in_bounds b = true /\ key_ok K b.
Proof.
  induction 1 as [b Hc Hi Hk | b m pending _ (Hc & Hi & Hk) Hf Hr Hp
                 | b pending _ (Hc & Hi & Hk) Hp].
  - split_ands; assumption.
  - split_ands; [apply make_consistent | apply make_in_bounds | apply make_key_ok];
      assumption.
  - split_ands; [apply null_consistent; assumption | apply ib_MakeNullMove; assumption |].
    apply null_key_ok; [unfold consistent in Hc; tauto | exact Hk].
Qed.

Lemma consistent_room (b : ChessBoard) :
  consistent b -> 0 <= hisPly b < Z.of_nat (length (history b)).
Proof. unfold consistent. lia. Qed.

Lemma call_step_alike (st st' : ChessBoard * list Pending) (c : Call) :
  (exists i, made_by K i (snd st) /\ alike i (fst st)) ->
  call_step K st c = Some st' ->
  exists i, made_by K i (snd st') /\ alike i (fst st').
Proof.
  destruct st as [b pending]. cbn [fst snd].
  intros (i & Hm & Ha) Hstep.
  pose proof (made_by_good i pending Hm) as (Hc & Hi & Hk).
  pose proof (consistent_room i Hc) as Hroom.
  pose proof Ha as (Hsf & _ & _).
  assert (Hply : hisPly b = hisPly i) by (unfold same_fields in Hsf; tauto).
  destruct c as [m | | |]; unfold call_step in Hstep; cbn [fst snd] in Hstep.
  - destruct (move_fits b m && promotion_room b m
              && (hisPly b + 1 <? CHESS_MAX_GAME_MOVES)) eqn:G; [| discriminate].
    apply andb_prop in G. destruct G as [G Hp]. apply andb_prop in G. destruct G as [Hf Hr].
    rewrite (move_fits_same_fields i b m Hsf) in Hf.
    rewrite (promotion_room_same_fields i b m Hsf) in Hr.
    apply Z.ltb_lt in Hp. rewrite Hply in Hp.
    injection Hstep as <-. unfold Move_Make. cbv zeta.
    destruct (nz (Attack_IsSquareAttacked _ _ _)); cbn [fst snd].
    + exists i. split; [exact Hm |].
      apply (alike_trans _ (Move_Take K (Move_Make_apply K i m))).
      * apply alike_make_take; assumption.
      * apply alike_Move_Take; [apply alike_Move_Make_apply; assumption |].
        destruct (history_Move_Make_apply K i m) as (_ & E). lia.
    + exists (Move_Make_apply K i m). split.
      * apply made_move; assumption.
      * apply alike_Move_Make_apply; assumption.
  - destruct pending as [| [|] rest]; try discriminate. injection Hstep as <-. cbn [fst snd].
    inversion Hm as [| i0 m pending0 Hm0 Hf Hr Hp E1 E2 |]; subst.
    pose proof (made_by_good i0 rest Hm0) as (Hc0 & _ & Hk0).
    exists i0. split; [exact Hm0 |].
    apply (alike_trans _ (Move_Take K (Move_Make_apply K i0 m))).
    + apply alike_make_take; assumption.
    + apply alike_Move_Take; [exact Ha |].
      destruct (history_Move_Make_apply K i0 m) as (_ & E).
      pose proof (consistent_room i0 Hc0). lia.
  - destruct (hisPly b + 1 <? CHESS_MAX_GAME_MOVES) eqn:Hp; [| discriminate].
    apply Z.ltb_lt in Hp. rewrite Hply in Hp.
    injection Hstep as <-. cbn [fst snd].
    exists (MakeNullMove K i). split.
    + apply made_null; assumption.
    + apply alike_MakeNullMove; assumption.
  - destruct pending as [| [|] rest]; try discriminate. injection Hstep as <-. cbn [fst snd].
    inversion Hm as [| | i0 pending0 Hm0 Hp E1 E2]; subst.
    pose proof (made_by_good i0 rest Hm0) as (Hc0 & _ & Hk0).
    pose proof (consistent_room i0 Hc0) as Hroom0.
    exists i0. split; [exact Hm0 |].
    apply (alike_trans _ (TakeNullMove K (MakeNullMove K i0))).
    + apply alike_null_take; assumption.
    + apply alike_TakeNullMove; [exact Ha |].
      destruct (history_MakeNullMove K i0) as (_ & E). lia.
Qed.

Lemma call_step_counts (st st' : ChessBoard * list Pending) (c : Call) :
  0 <= capturedWhiteCount (fst st) /\ 0 <= capturedBlackCount (fst st) ->
  call_step K st c = Some st' ->
  0 <= capturedWhiteCount (fst st') /\ 0 <= capturedBlackCount (fst st').
Proof.
  destruct st as [b pending]. cbn [fst snd]. intros H Hstep.
  destruct c as [m | | |]; unfold call_step in Hstep; cbn [fst snd] in Hstep.
  - destruct (_ && _); [| discriminate]. injection Hstep as <-.
    unfold Move_Make. cbv zeta.
    destruct (nz (Attack_IsSquareAttacked _ _ _)); cbn [fst snd].
    + apply nn_Move_Take, nn_Move_Make_apply, H.
    + apply nn_Move_Make_apply, H.
  - destruct pending as [| [|] rest]; try discriminate. injection Hstep as <-.
    apply nn_Move_Take, H.
  - destruct (_ <? _); [| discriminate]. injection Hstep as <-.
    apply nn_MakeNullMove, H.
  - destruct pending as [| [|] rest]; try discriminate. injection Hstep as <-.
    apply nn_TakeNullMove, H.
Qed.

Lemma run_calls_tracked (calls : list Call) (st st' : ChessBoard * list Pending) :
  tracked K st -> run_calls K st calls = Some st' -> tracked K st'.
Proof.
  revert st. induction calls as [| c calls IH]; intros st Hinv Hrun; cbn in Hrun.
  - injection Hrun as <-. exact Hinv.
  - destruct (call_step K st c) as [st1 |] eqn:Hstep; [| discriminate].
    apply (IH st1); [| exact Hrun]. destruct Hinv as [Ha Hn]. split.
    + apply (call_step_alike st st1 c); assumption.
    + apply (call_step_counts st st1 c); assumption.
Qed.

(** Every board a sequence of calls reaches from a consistent board with
    the right key and its index fields in range has the right key and
    its index fields in range. *)
Lemma run_calls_key_ok (calls : list Call) (b0 b : ChessBoard) (pending : list Pending) :
  consistent b0 -> in_bounds b0 = true -> key_ok K b0 ->
  run_calls K (b0, []) calls = Some (b, pending) ->
  key_ok K b /\ in_bounds b = true.
Proof.
  intros Hc Hi Hk Hrun.
  destruct (run_calls_tracked calls (b0, []) (b, pending)) as ((i & Hm & Ha) & Hn).
  - split.
    + exists b0. split; [apply made_start; assumption | apply alike_refl].
    + cbn [fst]. apply in_bounds_iff in Hi. tauto.
  - exact Hrun.
  - cbn [fst snd] in *. destruct Ha as (Hsf & _).
    pose proof (made_by_good i pending Hm) as (_ & Hii & Hki).
    split.
    + apply (key_ok_same_fields K i b Hsf Hki).
    + apply (in_bounds_same_fields i b Hsf Hii Hn).
Qed.

End Runs.

(** Taking back a fitting move leaves the index fields in range. *)
Lemma make_take_in_bounds (K : HashKeys) (b : ChessBoard) (m : Z) :
  consistent b -> in_bounds b = true ->
  move_fits b m = true -> promotion_room b m = true ->
  in_bounds (Move_Take K (Move_Make_apply K b m)) = true.
Proof.
  intros Hc Hi Hf Hr.
  destruct (alike_make_take K b m Hc Hf Hr) as (Hsf & _).
  apply (in_bounds_same_fields b _ Hsf Hi).
  apply nn_Move_Take, nn_Move_Make_apply. apply in_bounds_iff in Hi. tauto.
Qed.

(* ================================================================== *)
(** * The tables the initialisation builds ([utils_init.c]) *)
(* ================================================================== *)

(** A test that holds on every pair of two ranges. *)
Lemma forallb_range2 (P : Z -> Z -> bool) (lo n lo' n' : Z) :
  forallb (fun x => forallb (P x) (seqZ lo' n')) (seqZ lo n) = true ->
  forall x y, lo <= x < lo + n -> lo' <= y < lo' + n' -> P x y = true.
Proof.
  intros H x y Hx Hy.
  exact (forallb_range _ lo' n' (forallb_range _ lo n H x Hx) y Hy).
Qed.

(** X4: after [Init_Square120To64] the two square tables hold the
    entries the closed forms [g_square120To64] and [g_square64To120]
    give; they are inverse to each other on the 64 squares, and the
    120-square table holds 65 exactly on the squares off the board. *)
Theorem X4_square_tables (sq sq64 : Z) :
  0 <= sq < 120 -> 0 <= sq64 < 64 ->
  let t120 := fst Init_Square120To64 in
  let t64 := snd Init_Square120To64 in
  aget t120 sq = g_square120To64 sq
  /\ aget t64 sq64 = g_square64To120 sq64
  /\ aget t120 (aget t64 sq64) = sq64
  /\ (on_board sq = true -> 0 <= aget t120 sq < 64 /\ aget t64 (aget t120 sq) = sq)
  /\ (on_board sq = false -> aget t120 sq = 65).
Proof.
  intros Hsq Hsq64 t120 t64.
  pose proof (forallb_range
    (fun s => (aget t120 s =? g_square120To64 s)
              && (if on_board s
                  then (0 <=? aget t120 s) && (aget t120 s <? 64)
                       && (aget t64 (aget t120 s) =? s)
                  else aget t120 s =? 65))
    0 120 ltac:(vm_compute; reflexivity) sq ltac:(lia)) as H1.
  pose proof (forallb_range
    (fun i => (aget t64 i =? g_square64To120 i) && (aget t120 (aget t64 i) =? i))
    0 64 ltac:(vm_compute; reflexivity) sq64 ltac:(lia)) as H2.
  cbv beta in H1, H2.
  apply andb_prop in H1. destruct H1 as [H1 H1'].
  apply andb_prop in H2. destruct H2 as [H2 H2'].
  split; [lia |]. split; [lia |]. split; [lia |].
  split; intros Hon; rewrite Hon in H1'; lia.
Qed.

Lemma X4_square_tables_witness :
  aget (fst Init_Square120To64) E1 = g_square120To64 E1
  /\ aget (snd Init_Square120To64) 4 = g_square64To120 4
  /\ aget (fst Init_Square120To64) (aget (snd Init_Square120To64) 4) = 4
  /\ (on_board E1 = true ->
      0 <= aget (fst Init_Square120To64) E1 < 64
      /\ aget (snd Init_Square120To64) (aget (fst Init_Square120To64) E1) = E1)
  /\ (on_board E1 = false -> aget (fst Init_Square120To64) E1 = 65).
Proof. apply (X4_square_tables E1 4); unfold E1; lia. Defined.

(** X5: after [Init_FilesRanksBoard] the file and rank tables hold [f]
    and [r] at the square [FILE_RANK_TO_SQUARE(f,r)] of every file and
    rank 0..7 and [OFFBOARD] at every other index, which are the entries
    of the closed forms [g_filesBoard] and [g_ranksBoard]. *)
Theorem X5_file_rank_tables (sq f r : Z) :
  0 <= sq < 120 -> 0 <= f < 8 -> 0 <= r < 8 ->
  let fb := fst Init_FilesRanksBoard in
  let rb := snd Init_FilesRanksBoard in
  aget fb (FILE_RANK_TO_SQUARE f r) = f /\ aget rb (FILE_RANK_TO_SQUARE f r) = r
  /\ aget fb sq = g_filesBoard sq /\ aget rb sq = g_ranksBoard sq
  /\ ((forall f' r', 0 <= f' < 8 -> 0 <= r' < 8 -> sq <> FILE_RANK_TO_SQUARE f' r') ->
      aget fb sq = OFFBOARD /\ aget rb sq = OFFBOARD).
Proof.
  intros Hsq Hf Hr fb rb.
  pose proof (forallb_range2
    (fun f r => (aget fb (FILE_RANK_TO_SQUARE f r) =? f)
                && (aget rb (FILE_RANK_TO_SQUARE f r) =? r))
    0 8 0 8 ltac:(vm_compute; reflexivity) f r ltac:(lia) ltac:(lia)) as H1.
  pose proof (forallb_range
    (fun s => (aget fb s =? g_filesBoard s) && (aget rb s =? g_ranksBoard s)
              && (on_board s
                  || ((aget fb s =? OFFBOARD) && (aget rb s =? OFFBOARD)))
              && implb (on_board s)
                   ((0 <=? s mod 10 - 1) && (s mod 10 - 1 <? 8) && (0 <=? s / 10 - 2)
                    && (s / 10 - 2 <? 8)
                    && (s =? FILE_RANK_TO_SQUARE (s mod 10 - 1) (s / 10 - 2))))
    0 120 ltac:(vm_compute; reflexivity) sq ltac:(lia)) as H2.
  cbv beta in H1, H2.
  repeat rewrite andb_true_iff in H1. repeat rewrite andb_true_iff in H2.
  destruct H1 as [H1 H1']. destruct H2 as [[[H2 H2'] H3] H4].
  split; [lia |]. split; [lia |]. split; [lia |]. split; [lia |].
  intros Hno. destruct (on_board sq) eqn:Hon.
  - exfalso. cbn [implb] in H4. repeat rewrite andb_true_iff in H4.
    apply (Hno (sq mod 10 - 1) (sq / 10 - 2)); lia.
  - cbn [orb] in H3. lia.
Qed.

Lemma X5_file_rank_tables_witness :
  aget (fst Init_FilesRanksBoard) (FILE_RANK_TO_SQUARE 4 1) = 4
  /\ aget (snd Init_FilesRanksBoard) (FILE_RANK_TO_SQUARE 4 1) = 1
  /\ aget (fst Init_FilesRanksBoard) 20 = g_filesBoard 20
  /\ aget (snd Init_FilesRanksBoard) 20 = g_ranksBoard 20
  /\ ((forall f' r', 0 <= f' < 8 -> 0 <= r' < 8 -> 20 <> FILE_RANK_TO_SQUARE f' r') ->
      aget (fst Init_FilesRanksBoard) 20 = OFFBOARD
      /\ aget (snd Init_FilesRanksBoard) 20 = OFFBOARD).
Proof. apply (X5_file_rank_tables 20 4 1); lia. Defined.

(** X6: after [Init_BitMasks] the set mask of a square has bit [i] and no
    other, and the clear mask has every one of the 64 bits but bit [i]:
    or-ing a bit-set with the set mask sets bit [i] and changes no other
    bit, and-ing it with the clear mask clears bit [i], keeps the other
    bits below 64 and leaves none above. *)
Theorem X6_bit_masks (bb i j : Z) :
  0 <= i < 64 ->
  let sm := fst Init_BitMasks in
  let cm := snd Init_BitMasks in
  aget sm i = g_bitSetMask i /\ aget cm i = g_bitClearMask i
  /\ Z.testbit (Z.lor bb (aget sm i)) j = Z.testbit bb j || (j =? i)
  /\ Z.testbit (Z.land bb (aget cm i)) j
     = Z.testbit bb j && ((0 <=? j) && (j <? 64)) && negb (j =? i).
Proof.
  intros Hi sm cm.
  pose proof (forallb_range
    (fun s => (aget sm s =? g_bitSetMask s) && (aget cm s =? g_bitClearMask s))
    0 64 ltac:(vm_compute; reflexivity) i ltac:(lia)) as H.
  cbv beta in H. apply andb_prop in H. destruct H as [H1 H2].
  apply Z.eqb_eq in H1, H2. rewrite H1, H2.
  split; [reflexivity |]. split; [reflexivity |]. split.
  - exact (testbit_set bb i j Hi).
  - exact (testbit_clear bb i j Hi).
Qed.

Lemma X6_bit_masks_witness :
  aget (fst Init_BitMasks) 3 = g_bitSetMask 3 /\ aget (snd Init_BitMasks) 3 = g_bitClearMask 3
  /\ Z.testbit (Z.lor 5 (aget (fst Init_BitMasks) 3)) 3 = Z.testbit 5 3 || (3 =? 3)
  /\ Z.testbit (Z.land 5 (aget (snd Init_BitMasks) 3)) 3
     = Z.testbit 5 3 && ((0 <=? 3) && (3 <? 64)) && negb (3 =? 3).
Proof. apply (X6_bit_masks 5 3 3). lia. Defined.

(** X7: the masks [Init_EvalMasks] builds, bit by bit (square [j] = bit
    [j], file [j mod 8], rank [j / 8]): a file mask holds the squares of
    its file and a rank mask those of its rank; the white passed-pawn
    mask of a square holds the squares of higher rank on its file and the
    two adjacent files, the black one those of lower rank; the isolated
    mask holds the squares of the two adjacent files. *)
Theorem X7_eval_masks (sq j f : Z) :
  0 <= sq < 64 -> 0 <= j < 64 -> 0 <= f < 8 ->
  let m := Init_EvalMasks in
  Z.testbit (aget (g_fileBBMask m) f) j = (j mod 8 =? f)
  /\ Z.testbit (aget (g_rankBBMask m) f) j = (j / 8 =? f)
  /\ Z.testbit (aget (g_whitePassedMask m) sq) j
     = (sq / 8 <? j / 8) && (Z.abs (j mod 8 - sq mod 8) <=? 1)
  /\ Z.testbit (aget (g_blackPassedMask m) sq) j
     = (j / 8 <? sq / 8) && (Z.abs (j mod 8 - sq mod 8) <=? 1)
  /\ Z.testbit (aget (g_isolatedMask m) sq) j = (Z.abs (j mod 8 - sq mod 8) =? 1).
Proof.
  intros Hsq Hj Hf m.
  pose proof (forallb_range2
    (fun f j => Bool.eqb (Z.testbit (aget (g_fileBBMask m) f) j) (j mod 8 =? f)
                && Bool.eqb (Z.testbit (aget (g_rankBBMask m) f) j) (j / 8 =? f))
    0 8 0 64 ltac:(vm_compute; reflexivity) f j ltac:(lia) ltac:(lia)) as H1.
  pose proof (forallb_range2
    (fun sq j =>
       Bool.eqb (Z.testbit (aget (g_whitePassedMask m) sq) j)
         ((sq / 8 <? j / 8) && (Z.abs (j mod 8 - sq mod 8) <=? 1))
       && Bool.eqb (Z.testbit (aget (g_blackPassedMask m) sq) j)
            ((j / 8 <? sq / 8) && (Z.abs (j mod 8 - sq mod 8) <=? 1))
       && Bool.eqb (Z.testbit (aget (g_isolatedMask m) sq) j)
            (Z.abs (j mod 8 - sq mod 8) =? 1))
    0 64 0 64 ltac:(vm_compute; reflexivity) sq j ltac:(lia) ltac:(lia)) as H2.
  cbv beta in H1, H2.
  repeat rewrite andb_true_iff in H1. repeat rewrite andb_true_iff in H2.
  destruct H1 as [Ha Hb]. destruct H2 as [[Hc Hd] He].
  repeat split; apply eqb_prop; assumption.
Qed.

Lemma X7_eval_masks_witness :
  Z.testbit (aget (g_fileBBMask Init_EvalMasks) 4) 12 = (12 mod 8 =? 4)
  /\ Z.testbit (aget (g_rankBBMask Init_EvalMasks) 4) 12 = (12 / 8 =? 4)
  /\ Z.testbit (aget (g_whitePassedMask Init_EvalMasks) 3) 12
     = (3 / 8 <? 12 / 8) && (Z.abs (12 mod 8 - 3 mod 8) <=? 1)
  /\ Z.testbit (aget (g_blackPassedMask Init_EvalMasks) 3) 12
     = (12 / 8 <? 3 / 8) && (Z.abs (12 mod 8 - 3 mod 8) <=? 1)
  /\ Z.testbit (aget (g_isolatedMask Init_EvalMasks) 3) 12
     = (Z.abs (12 mod 8 - 3 mod 8) =? 1).
Proof. apply (X7_eval_masks 3 12 4); lia. Defined.

(* ================================================================== *)
(** * Capture ordering ([moves_generation.c]) *)
(* ================================================================== *)

(** X8: the table [Init_MvvLva] builds orders captures by the most
    valuable victim first and, for one victim, the least valuable
    attacker first: a victim of higher victim score gets the higher entry
    whatever the attackers, and for the same victim an attacker of higher
    victim score gets the lower entry. *)
Theorem X8_mvv_lva_order (v v' a a' : Z) :
  1 <= v <= 12 -> 1 <= v' <= 12 -> 1 <= a <= 12 -> 1 <= a' <= 12 ->
  (aget VictimScore v < aget VictimScore v' ->
   aget2 Init_MvvLva v a < aget2 Init_MvvLva v' a')
  /\ (aget VictimScore a < aget VictimScore a' ->
      aget2 Init_MvvLva v a' < aget2 Init_MvvLva v a)
  /\ aget2 Init_MvvLva v a
     = aget VictimScore v + 6 - aget VictimScore a / 100.
Proof.
  intros Hv Hv' Ha Ha'.
  pose proof (forallb_range2
    (fun v a => aget2 Init_MvvLva v a
                =? aget VictimScore v + 6 - aget VictimScore a / 100)
    1 12 1 12 ltac:(vm_compute; reflexivity)) as H.
  pose proof (forallb_range
    (fun p => (100 <=? aget VictimScore p) && (aget VictimScore p <=? 600)
              && (aget VictimScore p mod 100 =? 0)) 1 12 ltac:(vm_compute; reflexivity)) as Hs.
  cbv beta in H, Hs.
  pose proof (H v a ltac:(lia) ltac:(lia)). pose proof (H v' a' ltac:(lia) ltac:(lia)).
  pose proof (H v a' ltac:(lia) ltac:(lia)).
  pose proof (Hs v ltac:(lia)). pose proof (Hs v' ltac:(lia)).
  pose proof (Hs a ltac:(lia)). pose proof (Hs a' ltac:(lia)).
  repeat split; intros; try lia;
    repeat match goal with
           | H : _ && _ = true |- _ => apply andb_prop in H; destruct H
           end;
    Z.div_mod_to_equations; lia.
Qed.

Lemma X8_mvv_lva_order_witness :
  (aget VictimScore 1 < aget VictimScore 5 ->
   aget2 Init_MvvLva 1 2 < aget2 Init_MvvLva 5 11)
  /\ (aget VictimScore 2 < aget VictimScore 11 ->
      aget2 Init_MvvLva 1 11 < aget2 Init_MvvLva 1 2)
  /\ aget2 Init_MvvLva 1 2 = aget VictimScore 1 + 6 - aget VictimScore 2 / 100.
Proof. apply (X8_mvv_lva_order 1 5 2 11); lia. Defined.

(* ================================================================== *)
(** * Bit-set utilities ([bitboards_utils.c]) *)
(* ================================================================== *)

Lemma testbit_below (x k n : Z) : 0 <= x < 2 ^ k -> 0 <= k <= n -> Z.testbit x n = false.
Proof.
  intros Hx Hn. rewrite <- (Z.mod_small x (2 ^ k)) by exact Hx.
  apply Z.mod_pow2_bits_high. lia.
Qed.

Lemma lowest_bit_range (bb k : Z) : 0 <= bb < 2 ^ 64 -> lowest_bit bb k -> 0 <= k < 64.
Proof.
  intros Hb (Hk & Ht & _). split; [exact Hk |].
  destruct (Z.ltb_spec k 64); [assumption |].
  rewrite (testbit_below bb 64 k) in Ht by lia. discriminate.
Qed.

(** The bits of [bb - 1]: ones below the lowest set bit of [bb], zero at
    it, those of [bb] above. *)
Lemma pred_bits (bb k j : Z) :
  lowest_bit bb k -> 0 <= j ->
  Z.testbit (bb - 1) j = if j <? k then true else if j =? k then false else Z.testbit bb j.
Proof.
  intros (Hk & Ht & Hlow) Hj.
  assert (Hmod : bb mod 2 ^ (k + 1) = 2 ^ k).
  { apply Z.bits_inj'. intros n Hn.
    destruct (Z.ltb_spec n (k + 1)).
    - rewrite Z.mod_pow2_bits_low by lia. rewrite Z.pow2_bits_eqb by lia.
      destruct (Z.eqb_spec k n) as [-> | Hne]; [exact Ht |]. apply Hlow. lia.
    - rewrite Z.mod_pow2_bits_high by lia. rewrite Z.pow2_bits_eqb by lia.
      symmetry. apply Z.eqb_neq. lia. }
  assert (Hp : 0 < 2 ^ k) by (apply Z.pow_pos_nonneg; lia).
  assert (Hp1 : 2 ^ (k + 1) = 2 * 2 ^ k) by (rewrite Z.pow_add_r by lia; lia).
  pose proof (Z.div_mod bb (2 ^ (k + 1)) ltac:(lia)) as Hdm. rewrite Hmod in Hdm.
  assert (Hpred : bb - 1 = (bb / 2 ^ (k + 1)) * 2 ^ (k + 1) + (2 ^ k - 1)) by lia.
  assert (Hm1 : (bb - 1) mod 2 ^ (k + 1) = Z.ones k).
  { rewrite Hpred, Z.ones_equiv. rewrite Z.add_comm, Z.mod_add by lia.
    apply Z.mod_small. lia. }
  assert (Hd1 : (bb - 1) / 2 ^ (k + 1) = bb / 2 ^ (k + 1)).
  { rewrite Hpred at 1. rewrite Z.add_comm, Z.div_add by lia.
    rewrite Z.div_small by lia. reflexivity. }
  destruct (Z.ltb_spec j k).
  - rewrite <- (Z.mod_pow2_bits_low (bb - 1) (k + 1) j) by lia.
    rewrite Hm1. apply Z.ones_spec_low. lia.
  - destruct (Z.eqb_spec j k) as [-> | Hne].
    + rewrite <- (Z.mod_pow2_bits_low (bb - 1) (k + 1) k) by lia.
      rewrite Hm1. apply Z.ones_spec_high. lia.
    + replace j with ((j - (k + 1)) + (k + 1)) at 1 by lia.
      rewrite <- Z.div_pow2_bits by lia. rewrite Hd1.
      rewrite Z.div_pow2_bits by lia. f_equal. lia.
Qed.

Lemma lowest_bit_pos (bb k : Z) : 0 <= bb -> lowest_bit bb k -> 0 < bb.
Proof.
  intros Hb (Hk & Ht & _). destruct (Z.eq_dec bb 0) as [-> | ]; [| lia].
  rewrite Z.bits_0 in Ht. discriminate.
Qed.

Lemma pop_xor (bb k : Z) : lowest_bit bb k -> Z.lxor bb (bb - 1) = Z.ones (k + 1).
Proof.
  intros Hl. pose proof Hl as (Hk & Ht & Hlow).
  apply Z.bits_inj'. intros n Hn.
  rewrite Z.lxor_spec, (pred_bits bb k n Hl Hn).
  destruct (Z.ltb_spec n k).
  - rewrite Hlow by lia. rewrite Z.ones_spec_low by lia. reflexivity.
  - destruct (Z.eqb_spec n k) as [-> | Hne].
    + rewrite Ht. rewrite Z.ones_spec_low by lia. reflexivity.
    + rewrite Z.ones_spec_high by lia. apply xorb_nilpotent.
Qed.

Lemma pop_and (bb k j : Z) :
  lowest_bit bb k -> Z.testbit (Z.land bb (bb - 1)) j = Z.testbit bb j && negb (j =? k).
Proof.
  intros Hl. pose proof Hl as (Hk & Ht & Hlow).
  destruct (Z.ltb_spec j 0).
  - rewrite !Z.testbit_neg_r by lia. reflexivity.
  - rewrite Z.land_spec, (pred_bits bb k j Hl) by lia.
    destruct (Z.ltb_spec j k).
    + rewrite Hlow by lia. reflexivity.
    + destruct (Z.eqb_spec j k) as [-> | Hne]; cbn [negb].
      * reflexivity.
      * rewrite andb_true_r. apply andb_diag.
Qed.

Lemma pop_index :
  forall k, 0 <= k < 64 ->
    aget BitTable
      (Z.shiftr (u32 (u32 (Z.lxor (Z.land (Z.ones (k + 1)) 4294967295)
                             (Z.shiftr (Z.ones (k + 1)) 32)) * 2017106723)) 26) = k.
Proof.
  intros k Hk.
  pose proof (forallb_range
    (fun k => aget BitTable
      (Z.shiftr (u32 (u32 (Z.lxor (Z.land (Z.ones (k + 1)) 4294967295)
                             (Z.shiftr (Z.ones (k + 1)) 32)) * 2017106723)) 26) =? k)
    0 64 ltac:(vm_compute; reflexivity) k ltac:(lia)) as H.
  cbv beta in H. lia.
Qed.

Lemma first_true (P : Z -> bool) (n : nat) :
  (forall j, 0 <= j < Z.of_nat n -> P j = false)
  \/ exists k, 0 <= k < Z.of_nat n /\ P k = true /\ forall j, 0 <= j < k -> P j = false.
Proof.
  induction n as [| n IH].
  - left. intros j Hj. lia.
  - destruct IH as [Hall | (k & Hk & Hp & Hlow)].
    + destruct (P (Z.of_nat n)) eqn:Hn.
      * right. exists (Z.of_nat n). split; [lia |]. split; [exact Hn | exact Hall].
      * left. intros j Hj. destruct (Z.eq_dec j (Z.of_nat n)) as [-> | Hne]; [exact Hn |].
        apply Hall. lia.
    + right. exists k. split; [lia |]. split; assumption.
Qed.

Lemma nonzero_has_lowest (b : Z) : 0 <= b < 2 ^ 64 -> b <> 0 -> exists k, lowest_bit b k.
Proof.
  intros Hb Hne.
  destruct (first_true (Z.testbit b) 64) as [Hall | (k & Hk & Hp & Hlow)].
  - exfalso. apply Hne. apply Z.bits_inj'. intros n Hn. rewrite Z.bits_0.
    destruct (Z.ltb_spec n 64); [apply Hall; lia | apply (testbit_below b 64); lia].
  - exists k. split; [lia |]. split; assumption.
Qed.

Lemma popcount_clear (b b' k : Z) :
  0 <= k < 64 -> Z.testbit b k = true ->
  (forall j, Z.testbit b' j = Z.testbit b j && negb (j =? k)) ->
  popcount b' = popcount b - 1.
Proof.
  intros Hk Ht Hb'. unfold popcount.
  rewrite (seqZ_split 64 k Hk).
  rewrite !List.filter_app. cbn [List.filter].
  rewrite Hb', Ht, Z.eqb_refl. cbn [andb negb].
  rewrite (List.filter_ext_in (Z.testbit b') (Z.testbit b) (seqZ 0 k)).
  2:{ intros a Ha. apply list_elem_of_In, elem_of_seqZ in Ha. rewrite Hb'.
      replace (a =? k) with false by lia. apply andb_true_r. }
  rewrite (List.filter_ext_in (Z.testbit b') (Z.testbit b) (seqZ (k + 1) (64 - k - 1))).
  2:{ intros a Ha. apply list_elem_of_In, elem_of_seqZ in Ha. rewrite Hb'.
      replace (a =? k) with false by lia. apply andb_true_r. }
  rewrite !length_app. cbn [length]. lia.
Qed.

Lemma popcount_range (b : Z) : 0 <= popcount b <= 64.
Proof.
  unfold popcount. split; [lia |].
  pose proof (List.filter_length_le (Z.testbit b) (seqZ 0 64)) as H.
  rewrite length_seqZ in H. lia.
Qed.

Lemma below_of_bits (x : Z) :
  0 <= x -> (forall n, 64 <= n -> Z.testbit x n = false) -> x < 2 ^ 64.
Proof.
  intros Hx Hbits. destruct (Z.lt_ge_cases x (2 ^ 64)) as [| Hge]; [assumption |].
  exfalso. assert (Hpos : 0 < x) by lia.
  pose proof (Z.bit_log2 x Hpos) as Hb.
  rewrite Hbits in Hb; [discriminate |].
  apply Z.log2_le_pow2; lia.
Qed.

Lemma CountBits_loop_spec (fuel : nat) :
  forall b r, 0 <= b < 2 ^ 64 -> popcount b < Z.of_nat fuel ->
    CountBits_loop fuel b r = Some (r + popcount b).
Proof.
  induction fuel as [| fuel IH]; intros b r Hb Hf.
  - pose proof (popcount_range b). lia.
  - cbn [CountBits_loop]. unfold nz.
    destruct (Z.eqb_spec b 0) as [-> | Hne]; cbn [negb].
    + f_equal. change (popcount 0) with 0. lia.
    + destruct (nonzero_has_lowest b Hb Hne) as (k & Hl).
      pose proof (lowest_bit_range b k Hb Hl) as Hk.
      pose proof Hl as (_ & Ht & _).
      assert (Hu : u64 (b - 1) = b - 1) by (unfold u64; apply Z.mod_small; lia).
      rewrite Hu.
      pose proof (popcount_clear b (Z.land b (b - 1)) k Hk Ht
                    (fun j => pop_and b k j Hl)) as Hpc.
      rewrite IH.
      * f_equal. lia.
      * split; [apply Z.land_nonneg; lia |].
        apply below_of_bits; [apply Z.land_nonneg; lia |].
        intros n Hn. rewrite (pop_and b k n Hl), (testbit_below b 64 n) by lia.
        reflexivity.
      * lia.
Qed.

(** X9: on a non-empty 64-bit set [Bitboard_PopBit] returns the index of
    the lowest set bit and leaves the set without that bit and otherwise
    unchanged, hence with one bit less; on the empty set it returns 63 and
    leaves the set empty. *)
Theorem X9_pop_bit (bb j : Z) :
  0 < bb < 2 ^ 64 ->
  let k := fst (Bitboard_PopBit bb) in
  lowest_bit bb k
  /\ Z.testbit (snd (Bitboard_PopBit bb)) j = Z.testbit bb j && negb (j =? k)
  /\ popcount (snd (Bitboard_PopBit bb)) = popcount bb - 1
  /\ Bitboard_PopBit 0 = (63, 0).
Proof.
  intros Hb.
  destruct (nonzero_has_lowest bb ltac:(lia) ltac:(lia)) as (k0 & Hl).
  pose proof (lowest_bit_range bb k0 ltac:(lia) Hl) as Hk.
  assert (Hu : u64 (bb - 1) = bb - 1) by (unfold u64; apply Z.mod_small; lia).
  assert (Hfst : fst (Bitboard_PopBit bb) = k0).
  { unfold Bitboard_PopBit. cbv zeta. cbn [fst].
    rewrite Hu, (pop_xor bb k0 Hl). apply pop_index. exact Hk. }
  assert (Hsnd : snd (Bitboard_PopBit bb) = Z.land bb (bb - 1)).
  { unfold Bitboard_PopBit. cbv zeta. cbn [snd]. rewrite Hu. reflexivity. }
  cbv zeta. rewrite Hfst, Hsnd.
  split; [exact Hl |]. split; [apply pop_and; exact Hl |]. split; [| reflexivity].
  apply (popcount_clear bb _ k0 Hk); [apply Hl | intros i; apply pop_and; exact Hl].
Qed.

Lemma X9_pop_bit_witness :
  lowest_bit 40 (fst (Bitboard_PopBit 40))
  /\ Z.testbit (snd (Bitboard_PopBit 40)) 5
     = Z.testbit 40 5 && negb (5 =? fst (Bitboard_PopBit 40))
  /\ popcount (snd (Bitboard_PopBit 40)) = popcount 40 - 1
  /\ Bitboard_PopBit 0 = (63, 0).
Proof. apply (X9_pop_bit 40 5). lia. Defined.

(** X10: the loop of [Bitboard_CountBits] ends on every 64-bit value
    after at most 64 rounds and returns the number of bits set in it. *)
Theorem X10_count_bits (fuel : nat) (b : Z) :
  0 <= b < 2 ^ 64 -> (64 < fuel)%nat ->
  Bitboard_CountBits fuel b = Some (popcount b).
Proof.
  intros Hb Hf. unfold Bitboard_CountBits.
  rewrite CountBits_loop_spec; [reflexivity | exact Hb |].
  pose proof (popcount_range b). lia.
Qed.

Lemma X10_count_bits_witness : Bitboard_CountBits 65 40 = Some (popcount 40).
Proof. apply X10_count_bits; lia. Defined.

(* ================================================================== *)
(** * Move encoding ([moves_generation.c], [types_definitions.h]) *)
(* ================================================================== *)

Lemma lor_shifted (a b k : Z) :
  0 <= k -> 0 <= a < 2 ^ k -> 0 <= b -> Z.lor a (Z.shiftl b k) = a + b * 2 ^ k.
Proof.
  intros Hk Ha Hb. rewrite Z.shiftl_mul_pow2 by lia.
  assert (Hd : Z.land a (b * 2 ^ k) = 0).
  { apply Z.bits_inj'. intros n Hn. rewrite Z.land_spec, Z.bits_0.
    destruct (Z.ltb_spec n k).
    - rewrite Z.mul_pow2_bits_low by lia. apply andb_false_r.
    - rewrite (testbit_below a k n) by lia. reflexivity. }
  rewrite <- Z.lxor_lor by exact Hd. symmetry. apply Z.add_nocarry_lxor. exact Hd.
Qed.

Lemma MOVE_sum (f t ca pro : Z) (ep ps cs : bool) :
  0 <= f < 128 -> 0 <= t < 128 -> 0 <= ca < 16 -> 0 <= pro < 16 ->
  MOVE f t ca pro (move_flags ep ps cs)
  = f + t * 2 ^ 7 + ca * 2 ^ 14 + Z.b2z ep * 2 ^ 18 + Z.b2z ps * 2 ^ 19 + pro * 2 ^ 20
    + Z.b2z cs * 2 ^ 24.
Proof.
  intros Hf Ht Hca Hpro.
  assert (He : 0 <= Z.b2z ep < 2) by (destruct ep; cbn; lia).
  assert (Hp : 0 <= Z.b2z ps < 2) by (destruct ps; cbn; lia).
  assert (Hc : 0 <= Z.b2z cs < 2) by (destruct cs; cbn; lia).
  transitivity
    (Z.lor (Z.lor (Z.lor (Z.lor (Z.lor (Z.lor f (Z.shiftl t 7)) (Z.shiftl ca 14))
       (Z.shiftl (Z.b2z ep) 18)) (Z.shiftl (Z.b2z ps) 19)) (Z.shiftl pro 20))
       (Z.shiftl (Z.b2z cs) 24)).
  - unfold MOVE, move_flags.
    replace (if ep then MFLAGEP else 0) with (Z.shiftl (Z.b2z ep) 18) by (destruct ep; reflexivity).
    replace (if ps then MFLAGPS else 0) with (Z.shiftl (Z.b2z ps) 19) by (destruct ps; reflexivity).
    replace (if cs then MFLAGCA else 0) with (Z.shiftl (Z.b2z cs) 24) by (destruct cs; reflexivity).
    apply Z.bits_inj'. intros n Hn. rewrite !Z.lor_spec.
    repeat match goal with
           | |- context [Z.testbit ?x n] =>
               let v := fresh "v" in generalize (Z.testbit x n); intro v
           end.
    btauto.
  - rewrite (lor_shifted f t 7) by lia.
    rewrite (lor_shifted _ ca 14) by lia.
    rewrite (lor_shifted _ (Z.b2z ep) 18) by lia.
    rewrite (lor_shifted _ (Z.b2z ps) 19) by lia.
    rewrite (lor_shifted _ pro 20) by lia.
    rewrite (lor_shifted _ (Z.b2z cs) 24) by lia.
    reflexivity.
Qed.

Lemma land_flag (m k : Z) : 0 <= k -> nz (Z.land m (2 ^ k)) = Z.odd (m / 2 ^ k).
Proof.
  intros Hk. unfold nz.
  assert (H : Z.land m (2 ^ k) = Z.b2z (Z.testbit m k) * 2 ^ k).
  { apply Z.bits_inj'. intros n Hn. rewrite Z.land_spec, Z.pow2_bits_eqb by lia.
    destruct (Z.eqb_spec k n) as [<- | Hne].
    - rewrite andb_true_r. destruct (Z.testbit m k); cbn [Z.b2z].
      + rewrite Z.mul_1_l. rewrite Z.pow2_bits_true by lia. reflexivity.
      + rewrite Z.mul_0_l. rewrite Z.bits_0. reflexivity.
    - rewrite andb_false_r. destruct (Z.testbit m k); cbn [Z.b2z].
      + rewrite Z.mul_1_l. rewrite Z.pow2_bits_false by lia. reflexivity.
      + rewrite Z.mul_0_l. rewrite Z.bits_0. reflexivity. }
  rewrite H. rewrite <- Z.bit0_odd, Z.div_pow2_bits by lia. rewrite Z.add_0_l.
  assert (Hp : 0 < 2 ^ k) by (apply Z.pow_pos_nonneg; lia).
  destruct (Z.testbit m k); cbn [Z.b2z negb].
  - destruct (Z.eqb_spec (1 * 2 ^ k) 0); [lia | reflexivity].
  - reflexivity.
Qed.

(** X11: the fields of an encoded move are read back as they were
    written: for squares below 128, a captured and a promoted piece below
    16 and any choice of the three flags, the four field macros applied to
    [MOVE(f,t,ca,pro,fl)] give [f], [t], [ca] and [pro], and each flag test
    tells whether its flag was given. *)
Theorem X11_move_fields (f t ca pro : Z) (ep ps cs : bool) :
  0 <= f < 128 -> 0 <= t < 128 -> 0 <= ca < 16 -> 0 <= pro < 16 ->
  let m := MOVE f t ca pro (move_flags ep ps cs) in
  MOVE_GET_FROM_SQUARE m = f /\ MOVE_GET_TO_SQUARE m = t
  /\ MOVE_GET_CAPTURED m = ca /\ MOVE_GET_PROMOTED m = pro
  /\ nz (Z.land m MFLAGEP) = ep /\ nz (Z.land m MFLAGPS) = ps /\ nz (Z.land m MFLAGCA) = cs.
Proof.
  intros Hf Ht Hca Hpro m.
  assert (Hm : m = f + t * 2 ^ 7 + ca * 2 ^ 14 + Z.b2z ep * 2 ^ 18 + Z.b2z ps * 2 ^ 19
                   + pro * 2 ^ 20 + Z.b2z cs * 2 ^ 24) by (apply MOVE_sum; assumption).
  clearbody m.
  assert (He : 0 <= Z.b2z ep < 2) by (destruct ep; cbn; lia).
  assert (Hp : 0 <= Z.b2z ps < 2) by (destruct ps; cbn; lia).
  assert (Hc : 0 <= Z.b2z cs < 2) by (destruct cs; cbn; lia).
  unfold MOVE_GET_FROM_SQUARE, MOVE_GET_TO_SQUARE, MOVE_GET_CAPTURED, MOVE_GET_PROMOTED.
  change 127 with (Z.ones 7). change 15 with (Z.ones 4).
  rewrite !Z.land_ones, !Z.shiftr_div_pow2 by lia.
  change MFLAGEP with (2 ^ 18). change MFLAGPS with (2 ^ 19). change MFLAGCA with (2 ^ 24).
  rewrite !land_flag by lia.
  assert (Hodd : forall x (c : bool), x mod 2 = Z.b2z c -> Z.odd x = c).
  { intros x c Hx. pose proof (Z.bit0_mod x) as H. rewrite Z.bit0_odd in H.
    destruct (Z.odd x), c; cbn [Z.b2z] in *; first [reflexivity | lia]. }
  change (2 ^ 7) with 128 in *. change (2 ^ 14) with 16384 in *.
  change (2 ^ 18) with 262144 in *. change (2 ^ 19) with 524288 in *.
  change (2 ^ 20) with 1048576 in *. change (2 ^ 24) with 16777216 in *.
  change (2 ^ 4) with 16 in *.
  repeat split; try (apply Hodd); subst m; Z.div_mod_to_equations; lia.
Qed.

Lemma X11_move_fields_witness :
  let m := MOVE 34 54 0 0 (move_flags false true false) in
  MOVE_GET_FROM_SQUARE m = 34 /\ MOVE_GET_TO_SQUARE m = 54
  /\ MOVE_GET_CAPTURED m = 0 /\ MOVE_GET_PROMOTED m = 0
  /\ nz (Z.land m MFLAGEP) = false /\ nz (Z.land m MFLAGPS) = true
  /\ nz (Z.land m MFLAGCA) = false.
Proof. apply (X11_move_fields 34 54 0 0 false true false); lia. Defined.

(* ================================================================== *)
(** * Printing and parsing of moves ([moves_io.c]) *)
(* ================================================================== *)

(** The two characters printed for a square of the board are its
    coordinates. *)
Lemma sq_chars (sq : Z) :
  on_board sq = true ->
  let c0 := code (char_of (code "a" + g_filesBoard sq)) in
  let c1 := code (char_of (code "1" + g_ranksBoard sq)) in
  (code "h" <? c0) || (c0 <? code "a") = false
  /\ (code "8" <? c1) || (c1 <? code "1") = false
  /\ FILE_RANK_TO_SQUARE (c0 - code "a") (c1 - code "1") = sq.
Proof.
  intros Hon. pose proof (on_board_range sq Hon) as Hr.
  pose proof (forallb_range
    (fun sq => implb (on_board sq)
       (let c0 := code (char_of (code "a" + g_filesBoard sq)) in
        let c1 := code (char_of (code "1" + g_ranksBoard sq)) in
        negb ((code "h" <? c0) || (c0 <? code "a"))
        && negb ((code "8" <? c1) || (c1 <? code "1"))
        && (FILE_RANK_TO_SQUARE (c0 - code "a") (c1 - code "1") =? sq)))
    21 78 ltac:(vm_compute; reflexivity) sq ltac:(lia)) as H.
  cbv beta in H. rewrite Hon in H. cbn [implb] in H. cbv zeta in H |- *.
  repeat rewrite andb_true_iff in H. destruct H as [[H1 H2] H3].
  apply negb_true_iff in H1, H2. apply Z.eqb_eq in H3. auto.
Qed.

(** The letter printed for a promotion piece is the one [Move_Parse]
    accepts for it. *)
Lemma promo_char (p : Z) :
  promotable p = true -> nz p = true ->
  promo_letter_matches p
    (code (if PIECE_IS_KNIGHT p then "n"%char
           else if PIECE_IS_ROOK_QUEEN p && negb (PIECE_IS_BISHOP_QUEEN p) then "r"%char
           else if negb (PIECE_IS_ROOK_QUEEN p) && PIECE_IS_BISHOP_QUEEN p then "b"%char
           else "q"%char)) = true.
Proof.
  intros Hp Hnz.
  assert (Hr : 1 <= p < 1 + 12).
  { unfold promotable, nz, EMPTY in *. destruct (Z.eqb_spec p 0); [discriminate |].
    cbn [orb] in Hp. repeat rewrite andb_true_iff in Hp. destruct Hp as [[Hv _] _].
    apply piece_valid_range in Hv. lia. }
  pose proof (forallb_range
    (fun p => implb (promotable p)
       (promo_letter_matches p
          (code (if PIECE_IS_KNIGHT p then "n"%char
                 else if PIECE_IS_ROOK_QUEEN p && negb (PIECE_IS_BISHOP_QUEEN p) then "r"%char
                 else if negb (PIECE_IS_ROOK_QUEEN p) && PIECE_IS_BISHOP_QUEEN p then "b"%char
                 else "q"%char))))
    1 12 ltac:(vm_compute; reflexivity) p Hr) as H.
  cbv beta in H. rewrite Hp in H. exact H.
Qed.

(** The text [PrMove] prints for a move designates the move. *)
Lemma PrMove_designates (m : Z) :
  on_board (MOVE_GET_FROM_SQUARE m) = true -> on_board (MOVE_GET_TO_SQUARE m) = true ->
  promotable (MOVE_GET_PROMOTED m) = true ->
  designates (PrMove m) m = true.
Proof.
  intros Hf Ht Hp.
  destruct (sq_chars _ Hf) as (F1 & F2 & F3). destruct (sq_chars _ Ht) as (T1 & T2 & T3).
  cbv zeta in F1, F2, F3, T1, T2, T3.
  unfold designates, PrMove. cbv zeta.
  destruct (nz (MOVE_GET_PROMOTED m)) eqn:Hnz; cbn [char_at];
    rewrite F1, F2, T1, T2, F3, T3, !Z.eqb_refl; cbn [negb andb].
  - rewrite (promo_char _ Hp Hnz). apply orb_true_r.
  - unfold nz in Hnz. apply negb_false_iff in Hnz. unfold EMPTY. rewrite Hnz. reflexivity.
Qed.

(** X12: the text [PrMove] prints for a generated move with squares on
    the board and a promotion piece that is none, a knight, a bishop, a
    rook or a queen designates that move, and [Move_Parse] applied to the
    text on the same board returns a generated move (never [NOMOVE]) with
    the same from- and to-square. *)
Theorem X12_print_then_parse (b : ChessBoard) (m : Z) :
  In m (Move_GenerateAll b) ->
  on_board (MOVE_GET_FROM_SQUARE m) = true -> on_board (MOVE_GET_TO_SQUARE m) = true ->
  promotable (MOVE_GET_PROMOTED m) = true ->
  let m' := Move_Parse (PrMove m) b in
  designates (PrMove m) m = true
  /\ In m' (Move_GenerateAll b)
  /\ MOVE_GET_FROM_SQUARE m' = MOVE_GET_FROM_SQUARE m
  /\ MOVE_GET_TO_SQUARE m' = MOVE_GET_TO_SQUARE m.
Proof.
  intros Hin Hf Ht Hp m'.
  pose proof (PrMove_designates m Hf Ht Hp) as Hd.
  split; [exact Hd |].
  assert (Hm' : In m' (Move_GenerateAll b) /\ designates (PrMove m) m' = true).
  { unfold m'. rewrite Move_Parse_first.
    destruct (List.filter (designates (PrMove m)) (Move_GenerateAll b)) as [| x r] eqn:E.
    - exfalso. assert (Hx : In m (List.filter (designates (PrMove m)) (Move_GenerateAll b)))
        by (apply filter_In; split; assumption).
      rewrite E in Hx. exact Hx.
    - cbn [hd]. apply filter_In. rewrite E. left. reflexivity. }
  destruct Hm' as [Hi Hd']. split; [exact Hi |].
  unfold designates in Hd, Hd'.
  repeat rewrite andb_true_iff in Hd. repeat rewrite andb_true_iff in Hd'.
  destruct Hd as [[[_ Ha] Hb] _]. destruct Hd' as [[[_ Ha'] Hb'] _].
  lia.
Qed.

Lemma X12_print_then_parse_witness :
  let m := Move_Parse "e2e4" start_board in
  let m' := Move_Parse (PrMove m) start_board in
  designates (PrMove m) m = true
  /\ In m' (Move_GenerateAll start_board)
  /\ MOVE_GET_FROM_SQUARE m' = MOVE_GET_FROM_SQUARE m
  /\ MOVE_GET_TO_SQUARE m' = MOVE_GET_TO_SQUARE m.
Proof.
  apply (X12_print_then_parse start_board (Move_Parse "e2e4" start_board)).
  - vm_compute. tauto.
  - vm_compute. reflexivity.
  - vm_compute. reflexivity.
  - vm_compute. reflexivity.
Defined.

(* ================================================================== *)
(** * Transposition table: the stored move and the cleared table
      ([hashtable_pv.c]) *)
(* ================================================================== *)

Lemma store_posKey (b : ChessBoard) (move score flags depth_ : Z) :
  posKey (HashTable_StoreEntry b move score flags depth_) = posKey b.
Proof. unfold HashTable_StoreEntry. destruct b; reflexivity. Qed.

Lemma store_length (b : ChessBoard) (move score flags depth_ : Z) :
  length (pTable (hashTable (HashTable_StoreEntry b move score flags depth_)))
  = length (pTable (hashTable b)).
Proof.
  unfold HashTable_StoreEntry, set_entry.
  destruct (e_posKey (aget (pTable (hashTable b)) (posKey b mod numEntries (hashTable b))) =? 0);
    cbn [hashTable set_hashTable pTable set_pTable set_newWrite set_overWrite numEntries];
    rewrite !length_aset; reflexivity.
Qed.

Lemma set_posKey_table (k : Z) (b : ChessBoard) : hashTable (set_posKey k b) = hashTable b.
Proof. destruct b; reflexivity. Qed.

Lemma set_posKey_key (k : Z) (b : ChessBoard) : posKey (set_posKey k b) = k.
Proof. destruct b; reflexivity. Qed.

(** X13: [HashTable_ProbePvMove] returns the move [HashTable_StoreEntry]
    has just stored for the position; a later store for a position with
    another key that falls into the same slot replaces the entry, after
    which the probe returns the later move for the later key and [NOMOVE]
    for the earlier one. *)
Theorem X13_pv_move_after_store (b : ChessBoard) (move score flags depth_ : Z)
    (key2 move2 score2 flags2 depth2 : Z) :
  0 < numEntries (hashTable b) ->
  Z.of_nat (length (pTable (hashTable b))) = numEntries (hashTable b) ->
  key2 <> posKey b ->
  key2 mod numEntries (hashTable b) = posKey b mod numEntries (hashTable b) ->
  let b1 := HashTable_StoreEntry b move score flags depth_ in
  let b2 := HashTable_StoreEntry (set_posKey key2 b1) move2 score2 flags2 depth2 in
  HashTable_ProbePvMove b1 = move
  /\ HashTable_ProbePvMove b2 = move2
  /\ HashTable_ProbePvMove (set_posKey (posKey b) b2) = NOMOVE.
Proof.
  intros Hn Hlen Hk Hslot b1 b2.
  assert (Hn1 : numEntries (hashTable b1) = numEntries (hashTable b))
    by apply store_numEntries.
  assert (Hl1 : Z.of_nat (length (pTable (hashTable b1))) = numEntries (hashTable b1)).
  { unfold b1. rewrite store_length, store_numEntries. exact Hlen. }
  assert (Hn2 : numEntries (hashTable b2) = numEntries (hashTable b)).
  { unfold b2. rewrite store_numEntries, set_posKey_table. exact Hn1. }
  assert (Hs2 : aget (pTable (hashTable b2)) (key2 mod numEntries (hashTable b))
                = mkEntry key2 move2
                    (if CHESS_IS_MATE <? score2 then score2 + ply (set_posKey key2 b1)
                     else if score2 <? - CHESS_IS_MATE then score2 - ply (set_posKey key2 b1)
                     else score2) depth2 flags2).
  { pose proof (store_slot (set_posKey key2 b1) move2 score2 flags2 depth2) as H.
    rewrite set_posKey_table, set_posKey_key, Hn1 in H. apply H; [lia |].
    rewrite Hl1. exact Hn1. }
  assert (Hk1 : posKey b1 = posKey b) by apply store_posKey.
  assert (Hk2 : posKey b2 = key2).
  { unfold b2. rewrite store_posKey. apply set_posKey_key. }
  assert (Hs1 : aget (pTable (hashTable b1)) (posKey b mod numEntries (hashTable b))
                = mkEntry (posKey b) move
                    (if CHESS_IS_MATE <? score then score + ply b
                     else if score <? - CHESS_IS_MATE then score - ply b else score)
                    depth_ flags) by (apply store_slot; assumption).
  clearbody b1 b2.
  split; [| split].
  - unfold HashTable_ProbePvMove.
    rewrite Hk1, Hn1, Hs1. cbn [e_posKey e_move].
    rewrite Z.eqb_refl. reflexivity.
  - unfold HashTable_ProbePvMove.
    rewrite Hk2, Hn2, Hs2. cbn [e_posKey e_move]. rewrite Z.eqb_refl. reflexivity.
  - unfold HashTable_ProbePvMove.
    rewrite set_posKey_key, set_posKey_table, Hn2, <- Hslot, Hs2. cbn [e_posKey e_move].
    destruct (Z.eqb_spec key2 (posKey b)); [contradiction | reflexivity].
Qed.

Lemma X13_pv_move_after_store_witness :
  let b1 := HashTable_StoreEntry table_board 531363 40 HFEXACT 5 in
  let b2 := HashTable_StoreEntry (set_posKey (posKey table_board + 8) b1) 1234 50 HFEXACT 6 in
  HashTable_ProbePvMove b1 = 531363
  /\ HashTable_ProbePvMove b2 = 1234
  /\ HashTable_ProbePvMove (set_posKey (posKey table_board) b2) = NOMOVE.
Proof.
  apply (X13_pv_move_after_store table_board 531363 40 HFEXACT 5
           (posKey table_board + 8) 1234 50 HFEXACT 6);
    vm_compute; first [reflexivity | discriminate].
Defined.

Lemma clear_fold_slot (n : nat) :
  forall (lo : Z) (t : HashTable) (i : Z),
    0 <= lo -> lo + Z.of_nat n <= Z.of_nat (length (pTable t)) ->
    let t' := fold_left (fun t i => set_pTable (aset (pTable t) i (mkEntry 0 NOMOVE 0 0 0)) t)
                (seqZ lo (Z.of_nat n)) t in
    length (pTable t') = length (pTable t)
    /\ aget (pTable t') i
       = if (lo <=? i) && (i <? lo + Z.of_nat n) then mkEntry 0 NOMOVE 0 0 0
         else aget (pTable t) i.
Proof.
  induction n as [| n IH]; intros lo t i Hlo Hlen.
  - change (Z.of_nat 0) with 0. change (seqZ lo 0) with (@nil Z). cbn [fold_left]. cbv zeta.
    split; [reflexivity |]. replace ((lo <=? i) && (i <? lo + 0)) with false by lia.
    reflexivity.
  - rewrite seqZ_cons by lia. cbn [fold_left].
    replace (Z.pred (Z.of_nat (S n))) with (Z.of_nat n) by lia.
    specialize (IH (Z.succ lo)
      (set_pTable (aset (pTable t) lo (mkEntry 0 NOMOVE 0 0 0)) t) i ltac:(lia)).
    cbn [pTable set_pTable] in IH. rewrite length_aset in IH.
    specialize (IH ltac:(lia)). cbv zeta in IH. destruct IH as [IHl IHs].
    cbv zeta. split; [exact IHl |]. rewrite IHs.
    destruct (Z.eq_dec i lo) as [-> | Hne].
    + destruct (Z.leb_spec (Z.succ lo) lo); [lia |]. cbn [andb].
      destruct (Z.leb_spec lo lo); [| lia].
      destruct (Z.ltb_spec lo (lo + Z.of_nat (S n))); [| lia]. cbn [andb].
      apply aget_aset_eq. lia.
    + rewrite aget_aset_ne by lia.
      destruct (Z.leb_spec (Z.succ lo) i); destruct (Z.leb_spec lo i); try lia;
        cbn [andb]; try reflexivity.
      destruct (Z.ltb_spec i (Z.succ lo + Z.of_nat n));
        destruct (Z.ltb_spec i (lo + Z.of_nat (S n))); try lia; reflexivity.
Qed.

Lemma clear_slot (t : HashTable) (i : Z) :
  0 <= numEntries t <= Z.of_nat (length (pTable t)) -> 0 <= i < numEntries t ->
  aget (pTable (HashTable_Clear t)) i = mkEntry 0 NOMOVE 0 0 0.
Proof.
  intros Hn Hi. unfold HashTable_Clear. cbn [pTable set_newWrite].
  pose proof (clear_fold_slot (Z.to_nat (numEntries t)) 0 t i ltac:(lia)) as H.
  rewrite Z2Nat.id in H by lia. specialize (H ltac:(lia)). cbv zeta in H.
  destruct H as [_ H]. rewrite H.
  replace ((0 <=? i) && (i <? 0 + numEntries t)) with true by lia. reflexivity.
Qed.

(** X14: on a board whose table has just been cleared by
    [HashTable_Clear] (entry count positive and within the array),
    [HashTable_ProbePvMove] returns [NOMOVE] for every key and, for every
    key other than 0, [HashTable_ProbeEntry] returns FALSE and leaves the
    two out-values and the board as they were; the clearing sets
    [newWrite] to 0 and keeps the entry count. *)
Theorem X14_probe_after_clear (t : HashTable) (b : ChessBoard)
    (move score alpha beta depth_ : Z) :
  0 < numEntries t <= Z.of_nat (length (pTable t)) ->
  hashTable b = HashTable_Clear t ->
  HashTable_ProbePvMove b = NOMOVE
  /\ (posKey b <> 0 ->
      HashTable_ProbeEntry b move score alpha beta depth_ = (BOOL_TYPE_FALSE, move, score, b))
  /\ newWrite (hashTable b) = 0 /\ numEntries (hashTable b) = numEntries t.
Proof.
  intros Hn Ht.
  assert (Hne : numEntries (hashTable b) = numEntries t)
    by (rewrite Ht; apply HashTable_Clear_numEntries).
  assert (Hs : aget (pTable (hashTable b)) (posKey b mod numEntries t)
               = mkEntry 0 NOMOVE 0 0 0).
  { rewrite Ht. apply clear_slot; [lia |]. apply Z.mod_pos_bound. lia. }
  split; [| split; [| split]].
  - unfold HashTable_ProbePvMove. rewrite Hne, Hs. cbn [e_posKey e_move].
    destruct (0 =? posKey b); reflexivity.
  - intros Hk. unfold HashTable_ProbeEntry. rewrite Hne, Hs. cbn [e_posKey].
    destruct (Z.eqb_spec 0 (posKey b)); [congruence | reflexivity].
  - rewrite Ht. reflexivity.
  - exact Hne.
Qed.

Lemma X14_probe_after_clear_witness :
  let b := set_hashTable (HashTable_Clear (hashTable table_board)) table_board in
  HashTable_ProbePvMove b = NOMOVE
  /\ (posKey b <> 0 ->
      HashTable_ProbeEntry b 7 9 (-50) 50 3 = (BOOL_TYPE_FALSE, 7, 9, b))
  /\ newWrite (hashTable b) = 0
  /\ numEntries (hashTable b) = numEntries (hashTable table_board).
Proof.
  apply (X14_probe_after_clear (hashTable table_board)).
  - vm_compute. split; [reflexivity | discriminate].
  - reflexivity.
Defined.

(* ================================================================== *)
(** * Move ordering in the search ([search_algorithm.c]) *)
(* ================================================================== *)

Lemma pick_scan_spec (moves : list Move) (moveNum : Z) (n : nat) :
  let r := pick_scan moves moveNum (moveNum + Z.of_nat n) in
  moveNum <= snd r /\ (snd r < moveNum + Z.of_nat n \/ snd r = moveNum)
  /\ 0 <= fst r
  /\ (fst r = 0 \/ fst r = m_score (aget moves (snd r)))
  /\ forall j, moveNum <= j < moveNum + Z.of_nat n -> m_score (aget moves j) <= fst r.
Proof.
  unfold pick_scan. replace (moveNum + Z.of_nat n - moveNum) with (Z.of_nat n) by lia.
  induction n as [| n IH].
  - change (Z.of_nat 0) with 0. change (seqZ moveNum 0) with (@nil Z).
    cbn [fold_left fst snd].
    split; [lia |]. split; [lia |]. split; [lia |]. split; [lia |]. intros j Hj. lia.
  - replace (Z.of_nat (S n)) with (Z.of_nat n + 1) by lia.
    rewrite seqZ_app by lia. rewrite fold_left_app.
    change (seqZ (moveNum + Z.of_nat n) 1) with [moveNum + Z.of_nat n].
    cbn [fold_left].
    destruct (fold_left _ (seqZ moveNum (Z.of_nat n)) (0, moveNum)) as [bs bn] eqn:E.
    cbn [fst snd] in IH. destruct IH as (H1 & H2 & H3 & H4 & H5).
    destruct (Z.ltb_spec bs (m_score (aget moves (moveNum + Z.of_nat n)))); cbn [fst snd].
    + split; [lia |]. split; [lia |]. split; [lia |]. split; [right; reflexivity |].
      intros j Hj. destruct (Z.eq_dec j (moveNum + Z.of_nat n)) as [-> | Hne]; [lia |].
      specialize (H5 j ltac:(lia)). lia.
    + split; [lia |]. split; [lia |]. split; [lia |]. split; [exact H4 |].
      intros j Hj. destruct (Z.eq_dec j (moveNum + Z.of_nat n)) as [-> | Hne]; [lia |].
      apply H5. lia.
Qed.

(** X15: [PickNextMove] exchanges the entry at [moveNum] with an entry
    at [moveNum] or later and changes nothing else; afterwards no entry
    from [moveNum] up to the end of the list has a score above that of
    the entry at [moveNum], unless that score is negative, in which case
    none has a score above 0 (the search starts from a best score of
    0, so entries with scores below 0 are never picked). *)
Theorem X15_pick_next_move (moveNum count : Z) (moves : list Move) :
  0 <= moveNum < count -> count <= Z.of_nat (length moves) ->
  let moves' := PickNextMove moveNum moves count in
  let bestNum := snd (pick_scan moves moveNum count) in
  moveNum <= bestNum < count
  /\ length moves' = length moves
  /\ (forall i, aget moves' i
                = if i =? moveNum then aget moves bestNum
                  else if i =? bestNum then aget moves moveNum else aget moves i)
  /\ (forall j, moveNum <= j < count ->
        m_score (aget moves' j) <= Z.max 0 (m_score (aget moves' moveNum))).
Proof.
  intros Hm Hc moves' bestNum.
  pose proof (pick_scan_spec moves moveNum (Z.to_nat (count - moveNum))) as H.
  rewrite Z2Nat.id in H by lia. replace (moveNum + (count - moveNum)) with count in H by lia.
  cbv zeta in H. fold bestNum in H. destruct H as (H1 & H2 & H3 & H4 & H5).
  assert (Hswap : forall i, aget moves' i
                = if i =? moveNum then aget moves bestNum
                  else if i =? bestNum then aget moves moveNum else aget moves i).
  { intros i. unfold moves', PickNextMove. cbv zeta. fold bestNum.
    destruct (Z.eqb_spec i bestNum) as [-> | Hb].
    - rewrite aget_aset_eq by (rewrite length_aset; lia).
      destruct (Z.eqb_spec bestNum moveNum) as [-> | ]; reflexivity.
    - rewrite aget_aset_ne by lia.
      destruct (Z.eqb_spec i moveNum) as [-> | Hn].
      + apply aget_aset_eq. lia.
      + apply aget_aset_ne. lia. }
  split; [lia |]. split.
  { unfold moves', PickNextMove. cbv zeta. rewrite !length_aset. reflexivity. }
  split; [exact Hswap |].
  intros j Hj. rewrite !Hswap, Z.eqb_refl.
  destruct (Z.eqb_spec j moveNum) as [-> | Hn]; [lia |].
  destruct (Z.eqb_spec j bestNum) as [-> | Hb].
  - specialize (H5 moveNum ltac:(lia)). lia.
  - specialize (H5 j ltac:(lia)). lia.
Qed.

Lemma X15_pick_next_move_witness :
  let moves' := PickNextMove 0 scored_moves 4 in
  let bestNum := snd (pick_scan scored_moves 0 4) in
  0 <= bestNum < 4
  /\ length moves' = length scored_moves
  /\ (forall i, aget moves' i
                = if i =? 0 then aget scored_moves bestNum
                  else if i =? bestNum then aget scored_moves 0 else aget scored_moves i)
  /\ (forall j, 0 <= j < 4 -> m_score (aget moves' j) <= Z.max 0 (m_score (aget moves' 0))).
Proof. apply (X15_pick_next_move 0 4 scored_moves); [lia | vm_compute; discriminate]. Defined.

(* ================================================================== *)
(** * Material draws ([evaluation_static.c], [protocols_xboard.c]) *)
(* ================================================================== *)

Ltac split_atom c :=
  match c with
  | context [Z.eqb ?a ?b] => destruct (Z.eqb_spec a b)
  | context [Z.ltb ?a ?b] => destruct (Z.ltb_spec a b)
  end.

Ltac decide_ifs :=
  repeat (cbn [negb andb orb];
          match goal with
          | |- ?x = ?x => reflexivity
          | |- (if ?c then _ else _) = _ => split_atom c; try (exfalso; lia)
          | |- _ = (if ?c then _ else _) => split_atom c; try (exfalso; lia)
          end).

Ltac decide_hyp H :=
  repeat (cbn [negb andb orb] in H;
          match type of H with
          | (if ?c then _ else _) = _ => split_atom c; try (exfalso; lia)
          end).

(** X16: [MaterialDraw] does not depend on which side has which
    pieces: on two boards whose piece counts are those of each other with
    the colours exchanged it returns the same value. *)
Theorem X16_material_draw_colour_blind (b b' : ChessBoard) :
  colours_swapped b b' -> MaterialDraw b' = MaterialDraw b.
Proof.
  intros H. unfold MaterialDraw. cbv zeta.
  unfold PIECE_TYPE_WHITE_ROOK, PIECE_TYPE_BLACK_ROOK, PIECE_TYPE_WHITE_QUEEN,
    PIECE_TYPE_BLACK_QUEEN, PIECE_TYPE_WHITE_BISHOP, PIECE_TYPE_BLACK_BISHOP,
    PIECE_TYPE_WHITE_KNIGHT, PIECE_TYPE_BLACK_KNIGHT.
  destruct (H 2 ltac:(lia)) as [HN HN']. destruct (H 3 ltac:(lia)) as [HB HB'].
  destruct (H 4 ltac:(lia)) as [HR HR']. destruct (H 5 ltac:(lia)) as [HQ HQ'].
  change (2 + 6) with 8 in *. change (3 + 6) with 9 in *.
  change (4 + 6) with 10 in *. change (5 + 6) with 11 in *.
  rewrite HN, HN', HB, HB', HR, HR', HQ, HQ'.
  generalize (aget (pieceCount b) 2) (aget (pieceCount b) 3) (aget (pieceCount b) 4)
    (aget (pieceCount b) 5) (aget (pieceCount b) 8) (aget (pieceCount b) 9)
    (aget (pieceCount b) 10) (aget (pieceCount b) 11).
  intros wN wB wR wQ bN bB bR bQ. unfold nz.
  decide_ifs.
Qed.

Lemma X16_material_draw_colour_blind_witness :
  MaterialDraw minor_board_swapped = MaterialDraw minor_board.
Proof.
  apply X16_material_draw_colour_blind.
  intros p Hp.
  assert (H : p = 1 \/ p = 2 \/ p = 3 \/ p = 4 \/ p = 5 \/ p = 6) by lia.
  destruct H as [-> | [-> | [-> | [-> | [-> | ->]]]]]; vm_compute; split; reflexivity.
Defined.

(** X17: whenever the protocol layer's [DrawMaterial] reports a draw by
    material on a board with no negative piece count, there are no pawns
    and the evaluation's [MaterialDraw] reports a draw as well. *)
Theorem X17_protocol_draw_is_evaluation_draw (b : ChessBoard) :
  (forall p, 1 <= p <= 12 -> 0 <= aget (pieceCount b) p) ->
  DrawMaterial b = BOOL_TYPE_TRUE ->
  MaterialDraw b = BOOL_TYPE_TRUE
  /\ aget (pieceCount b) PIECE_TYPE_WHITE_PAWN = 0
  /\ aget (pieceCount b) PIECE_TYPE_BLACK_PAWN = 0.
Proof.
  intros Hpos H. unfold DrawMaterial in H. unfold MaterialDraw. cbv zeta in *.
  unfold PIECE_TYPE_WHITE_ROOK, PIECE_TYPE_BLACK_ROOK, PIECE_TYPE_WHITE_QUEEN,
    PIECE_TYPE_BLACK_QUEEN, PIECE_TYPE_WHITE_BISHOP, PIECE_TYPE_BLACK_BISHOP,
    PIECE_TYPE_WHITE_KNIGHT, PIECE_TYPE_BLACK_KNIGHT, PIECE_TYPE_WHITE_PAWN,
    PIECE_TYPE_BLACK_PAWN, BOOL_TYPE_TRUE, BOOL_TYPE_FALSE in *.
  pose proof (Hpos 1 ltac:(lia)). pose proof (Hpos 7 ltac:(lia)).
  pose proof (Hpos 2 ltac:(lia)). pose proof (Hpos 3 ltac:(lia)).
  pose proof (Hpos 4 ltac:(lia)). pose proof (Hpos 5 ltac:(lia)).
  pose proof (Hpos 8 ltac:(lia)). pose proof (Hpos 9 ltac:(lia)).
  pose proof (Hpos 10 ltac:(lia)). pose proof (Hpos 11 ltac:(lia)).
  clear Hpos.
  revert H.
  generalize dependent (aget (pieceCount b) 1). generalize dependent (aget (pieceCount b) 7).
  generalize dependent (aget (pieceCount b) 2). generalize dependent (aget (pieceCount b) 3).
  generalize dependent (aget (pieceCount b) 4). generalize dependent (aget (pieceCount b) 5).
  generalize dependent (aget (pieceCount b) 8). generalize dependent (aget (pieceCount b) 9).
  generalize dependent (aget (pieceCount b) 10). generalize dependent (aget (pieceCount b) 11).
  intros bQ HbQ bR HbR bB HbB bN HbN wQ HwQ wR HwR wB HwB wN HwN bP HbP wP HwP H.
  unfold nz in *.
  decide_hyp H; try discriminate.
  all: split; [| lia]; decide_ifs.
Qed.

Lemma X17_protocol_draw_is_evaluation_draw_witness :
  MaterialDraw minor_board = BOOL_TYPE_TRUE
  /\ aget (pieceCount minor_board) PIECE_TYPE_WHITE_PAWN = 0
  /\ aget (pieceCount minor_board) PIECE_TYPE_BLACK_PAWN = 0.
Proof.
  apply X17_protocol_draw_is_evaluation_draw.
  - intros p Hp.
    assert (H : p = 1 \/ p = 2 \/ p = 3 \/ p = 4 \/ p = 5 \/ p = 6 \/ p = 7 \/ p = 8
                \/ p = 9 \/ p = 10 \/ p = 11 \/ p = 12) by lia.
    repeat (destruct H as [-> | H]; [vm_compute; discriminate |]).
    subst p. vm_compute. discriminate.
  - vm_compute. reflexivity.
Defined.

(* ================================================================== *)
(** * Further properties of the move executor ([moves_execution.c]) *)
(* ================================================================== *)







(** X3: [TakeNullMove] after [MakeNullMove] gives back the board, every
    field of it, but for the history cell at [hisPly], which holds the
    record the null move saved (no move, and the castling rights,
    en-passant square, fifty-move counter and key before it), provided
    [hisPly] indexes a cell of the history. *)
Theorem X3_null_move_round_trip (K : HashKeys) (b : ChessBoard) :
  0 <= hisPly b < Z.of_nat (length (history b)) ->
  TakeNullMove K (MakeNullMove K b)
  = set_history
      (aset (history b) (hisPly b)
         (mkUndo NOMOVE (castlePerm b) (enPas b) (fiftyMove b) (posKey b))) b.
Proof.
  intros Hh. break_board b. rec_cbv_in Hh.
  unfold MakeNullMove, TakeNullMove. cbv zeta. run. unname. rec_cbv.
  rewrite lxor_flip_flip. f_equal.
  change (ep_key K NO_SQ) with 0. rewrite Z.lxor_0_r. xor_solve.
Qed.

Lemma X3_null_move_round_trip_witness :
  TakeNullMove sample_keys (MakeNullMove sample_keys start_board)
  = set_history
      (aset (history start_board) (hisPly start_board)
         (mkUndo NOMOVE (castlePerm start_board) (enPas start_board)
            (fiftyMove start_board) (posKey start_board))) start_board.
Proof.
  apply X3_null_move_round_trip. vm_compute. split; [discriminate | reflexivity].
Defined.

(** X18: on a consistent board whose index fields are in range, when
    [Move_Make] accepts a move that fits the board and, if it promotes,
    finds a free cell in the list of the promotion piece, the board it
    leaves has the other side to move, both ply counters one higher, the
    castling rights of before masked with the [CastlePerm] entries of the
    move's two squares (so no right not held before), and in the history
    cell at the old [hisPly] the move with the castling rights,
    en-passant square, fifty-move counter and key of before; if the move
    records a capture the fifty-move counter is 0 and [IsRepetition]
    reports no repetition on the new board. *)
Theorem X18_make_bookkeeping (K : HashKeys) (b : ChessBoard) (m : Z) :
  consistent b -> in_bounds b = true ->
  move_fits b m = true -> promotion_room b m = true ->
  fst (Move_Make K b m) = BOOL_TYPE_TRUE ->
  let b' := snd (Move_Make K b m) in
  side b' = Z.lxor (side b) 1 /\ ply b' = ply b + 1 /\ hisPly b' = hisPly b + 1
  /\ castlePerm b'
     = Z.land (Z.land (castlePerm b) (aget CastlePerm (MOVE_GET_FROM_SQUARE m)))
         (aget CastlePerm (MOVE_GET_TO_SQUARE m))
  /\ Z.land (castlePerm b') (castlePerm b) = castlePerm b'
  /\ history b'
     = aset (history b) (hisPly b)
         (mkUndo m (castlePerm b) (enPas b) (fiftyMove b) (posKey b))
  /\ (MOVE_GET_CAPTURED m <> EMPTY ->
      fiftyMove b' = 0 /\ IsRepetition b' = BOOL_TYPE_FALSE).
Proof.
  intros _ _ _ _.
  unfold Move_Make. cbv zeta.
  destruct (nz (Attack_IsSquareAttacked _ _ _)); cbn [fst snd]; [discriminate |].
  intros _. destruct (make_state_fields K b m) as (e' & f' & H & Hcap).
  set (b' := Move_Make_apply K b m) in *.
  apply gs_fields in H. destruct H as (Hs & He & Hf & Hp & Hh & Hc & Hhist).
  split; [exact Hs |]. split; [exact Hp |]. split; [exact Hh |]. split; [exact Hc |].
  split.
  { rewrite Hc. apply Z.bits_inj'. intros n Hn. rewrite !Z.land_spec.
    repeat match goal with
           | |- context [Z.testbit ?x n] =>
               let v := fresh "v" in generalize (Z.testbit x n); intro v
           end.
    btauto. }
  split; [exact Hhist |].
  intros Hne. specialize (Hcap Hne). rewrite Hcap in Hf. split; [exact Hf |].
  unfold IsRepetition. rewrite Hf.
  replace (hisPly b' - 1 - (hisPly b' - 0)) with (-1) by lia. reflexivity.
Qed.

Lemma X18_make_bookkeeping_witness :
  let b := exchange_board in
  let m := Move_Parse "e4d5" exchange_board in
  let b' := snd (Move_Make sample_keys b m) in
  side b' = Z.lxor (side b) 1 /\ ply b' = ply b + 1 /\ hisPly b' = hisPly b + 1
  /\ castlePerm b'
     = Z.land (Z.land (castlePerm b) (aget CastlePerm (MOVE_GET_FROM_SQUARE m)))
         (aget CastlePerm (MOVE_GET_TO_SQUARE m))
  /\ Z.land (castlePerm b') (castlePerm b) = castlePerm b'
  /\ history b'
     = aset (history b) (hisPly b)
         (mkUndo m (castlePerm b) (enPas b) (fiftyMove b) (posKey b))
  /\ (MOVE_GET_CAPTURED m <> EMPTY ->
      fiftyMove b' = 0 /\ IsRepetition b' = BOOL_TYPE_FALSE).
Proof.
  apply (X18_make_bookkeeping sample_keys exchange_board (Move_Parse "e4d5" exchange_board)).
  - apply consistentb_sound. vm_compute. reflexivity.
  - vm_compute. reflexivity.
  - vm_compute. reflexivity.
  - vm_compute. reflexivity.
  - vm_compute. reflexivity.
Defined.

(** X19: on a consistent board whose index fields are in range, for a
    move that fits the board and, if it promotes, finds a free cell in
    the list of the promotion piece, the pair [Move_Make], [Move_Take]
    changes the history in one cell only: after a refused move, and after
    an accepted move followed by [Move_Take], the history is the history
    of before with the record of the move (the move and the castling
    rights, en-passant square, fifty-move counter and key of before)
    written into the cell at [hisPly]; the side to move, the en-passant
    square, the fifty-move counter, both ply counters and the castling
    rights are those before the call. *)
Theorem X19_history_after_take_back (K : HashKeys) (b : ChessBoard) (m : Z) :
  consistent b -> in_bounds b = true ->
  move_fits b m = true -> promotion_room b m = true ->
  let r := Move_Make K b m in
  let b' := if fst r =? BOOL_TYPE_TRUE then Move_Take K (snd r) else snd r in
  side b' = side b /\ enPas b' = enPas b /\ fiftyMove b' = fiftyMove b
  /\ ply b' = ply b /\ hisPly b' = hisPly b /\ castlePerm b' = castlePerm b
  /\ history b'
     = aset (history b) (hisPly b)
         (mkUndo m (castlePerm b) (enPas b) (fiftyMove b) (posKey b)).
Proof.
  intros Hc _ _ _ r b'.
  assert (Hh : 0 <= hisPly b < Z.of_nat (length (history b)))
    by (unfold consistent in Hc; lia).
  assert (Hb' : b' = Move_Take K (Move_Make_apply K b m)).
  { unfold b', r, Move_Make. cbv zeta.
    destruct (nz (Attack_IsSquareAttacked _ _ _)); reflexivity. }
  rewrite Hb'. clear Hb' b' r.
  pose proof (any_move_state_restored K b m Hh) as H.
  apply gs_fields in H. exact H.
Qed.

Lemma X19_history_after_take_back_witness :
  let b := pin_board in
  let m := Move_Parse "e1d2" pin_board in
  let r := Move_Make sample_keys b m in
  let b' := if fst r =? BOOL_TYPE_TRUE then Move_Take sample_keys (snd r) else snd r in
  side b' = side b /\ enPas b' = enPas b /\ fiftyMove b' = fiftyMove b
  /\ ply b' = ply b /\ hisPly b' = hisPly b /\ castlePerm b' = castlePerm b
  /\ history b'
     = aset (history b) (hisPly b)
         (mkUndo m (castlePerm b) (enPas b) (fiftyMove b) (posKey b)).
Proof.
  apply (X19_history_after_take_back sample_keys pin_board (Move_Parse "e1d2" pin_board)).
  - apply consistentb_sound. vm_compute. reflexivity.
  - vm_compute. reflexivity.
  - vm_compute. reflexivity.
  - vm_compute. reflexivity.
Defined.

(* ================================================================== *)
(** * The position key is the key computed from scratch
      ([board_hashkeys.c], [moves_execution.c], [board_representation.c]) *)
(* ================================================================== *)

(** X20: on a consistent board whose index fields are in range and
    whose key equals the key [Board_GeneratePositionKey] computes,
    [Move_Make] with a move that fits the board and, if it promotes,
    finds a free cell in the list of the promotion piece leaves a board
    whose key again equals the computed key, whether it accepts the move
    (the key was updated piece by piece) or refuses it (the key was
    restored); and so does [Move_Take] after an accepted move. *)
Theorem X20_key_kept_by_make (K : HashKeys) (b : ChessBoard) (m : Z) :
  consistent b -> in_bounds b = true -> key_ok K b ->
  move_fits b m = true -> promotion_room b m = true ->
  let r := Move_Make K b m in
  key_ok K (snd r) /\ (fst r = BOOL_TYPE_TRUE -> key_ok K (Move_Take K (snd r))).
Proof.
  intros Hc _ Hkey Hf Hr. unfold Move_Make. cbv zeta.
  pose proof (make_take_same_position K b m Hc Hf Hr) as Hsame.
  destruct (nz (Attack_IsSquareAttacked _ _ _)); cbn [fst snd].
  - split; [| discriminate]. apply (key_ok_same_position K b); assumption.
  - split; [apply make_key_ok; assumption |].
    intros _. apply (key_ok_same_position K b); assumption.
Qed.

Lemma X20_key_kept_by_make_witness :
  let r := Move_Make sample_keys start_board (Move_Parse "e2e4" start_board) in
  key_ok sample_keys (snd r)
  /\ (fst r = BOOL_TYPE_TRUE -> key_ok sample_keys (Move_Take sample_keys (snd r))).
Proof.
  apply (X20_key_kept_by_make sample_keys start_board (Move_Parse "e2e4" start_board)).
  - apply consistentb_sound. vm_compute. reflexivity.
  - vm_compute. reflexivity.
  - vm_compute. reflexivity.
  - vm_compute. reflexivity.
  - vm_compute. reflexivity.
Defined.

(** X21: on a board whose side to move is white or black, whose [hisPly]
    indexes a cell of the history, whose en-passant square indexes a row
    of [g_pieceKeys] and whose key equals the computed key,
    [MakeNullMove] leaves a board whose key equals the computed key, and
    so does [TakeNullMove] after it. *)
Theorem X21_key_kept_by_null_moves (K : HashKeys) (b : ChessBoard) :
  0 <= side b <= 1 -> 0 <= hisPly b < Z.of_nat (length (history b)) ->
  0 <= enPas b < CHESS_BOARD_SQUARE_NUM -> key_ok K b ->
  key_ok K (MakeNullMove K b) /\ key_ok K (TakeNullMove K (MakeNullMove K b)).
Proof.
  intros Hs Hh _ Hkey. split; [apply null_key_ok; assumption |].
  apply null_take_key_ok; assumption.
Qed.

Lemma X21_key_kept_by_null_moves_witness :
  key_ok sample_keys (MakeNullMove sample_keys start_board)
  /\ key_ok sample_keys (TakeNullMove sample_keys (MakeNullMove sample_keys start_board)).
Proof.
  apply (X21_key_kept_by_null_moves sample_keys start_board).
  - vm_compute. split; discriminate.
  - vm_compute. split; [discriminate | reflexivity].
  - vm_compute. split; [discriminate | reflexivity].
  - vm_compute. reflexivity.
Defined.

(** X22: whenever [Board_ParseFromFEN] succeeds (returns 0, every index
    of the run inside its array), whatever the string and the board it
    started from, the key of the board it leaves equals the key
    [Board_GeneratePositionKey] computes from that board:
    [Board_UpdateListsMaterial], which runs after the key is set, touches
    none of the fields the key is computed from. *)
Theorem X22_fen_key (K : HashKeys) (fen : string) (b b' : ChessBoard) :
  Board_ParseFromFEN K fen b = Some (0, b') -> key_ok K b'.
Proof. apply Board_ParseFromFEN_key_ok. Qed.

Lemma X22_fen_key_witness : key_ok sample_keys pin_board.
Proof.
  apply (X22_fen_key sample_keys "4k3/8/8/8/8/8/4r3/4K3 w - - 0 1" zero_board).
  vm_compute. reflexivity.
Defined.

(* ================================================================== *)
(** * The executor keeps the board consistent ([moves_execution.c]) *)
(* ================================================================== *)

(** X23: on a consistent board (piece lists, piece counts, pawn bit-sets
    and king squares agree with the mailbox) whose index fields are in
    range and whose history has room for one more record, [Move_Make]
    with a move that fits the board and, if it promotes, finds a free
    cell in the list of the promotion piece leaves a consistent board
    whose index fields are in range, whether it accepts the move or
    refuses it and takes it back; and so does [Move_Take] after an
    accepted move. *)
Theorem X23_make_keeps_consistency (K : HashKeys) (b : ChessBoard) (m : Z) :
  consistent b -> in_bounds b = true -> hisPly b + 1 < 2048 ->
  move_fits b m = true -> promotion_room b m = true ->
  let r := Move_Make K b m in
  (consistent (snd r) /\ in_bounds (snd r) = true)
  /\ (fst r = BOOL_TYPE_TRUE ->
      consistent (Move_Take K (snd r)) /\ in_bounds (Move_Take K (snd r)) = true).
Proof.
  intros Hc Hi Hply Hf Hr. unfold Move_Make. cbv zeta.
  pose proof (make_take_consistent K b m Hc Hf Hr) as Htake.
  pose proof (make_take_in_bounds K b m Hc Hi Hf Hr) as Htake'.
  destruct (nz (Attack_IsSquareAttacked _ _ _)); cbn [fst snd].
  - split; [split; assumption | discriminate].
  - split; [| intros _; split; assumption].
    split; [apply make_consistent | apply make_in_bounds]; assumption.
Qed.

Lemma X23_make_keeps_consistency_witness :
  let r := Move_Make sample_keys start_board (Move_Parse "e2e4" start_board) in
  (consistent (snd r) /\ in_bounds (snd r) = true)
  /\ (fst r = BOOL_TYPE_TRUE ->
      consistent (Move_Take sample_keys (snd r))
      /\ in_bounds (Move_Take sample_keys (snd r)) = true).
Proof.
  apply (X23_make_keeps_consistency sample_keys start_board (Move_Parse "e2e4" start_board)).
  - apply consistentb_sound. vm_compute. reflexivity.
  - vm_compute. reflexivity.
  - vm_compute. reflexivity.
  - vm_compute. reflexivity.
  - vm_compute. reflexivity.
Defined.

(* ================================================================== *)
(** * The key along a sequence of calls *)
(* ================================================================== *)



